(** * ESP32 ADS1115 logger: the web server's streaming engine

    A shallow embedding of [components/web_server/web_server.c]: the path
    builder, the chunked template renderer, the dynamic file listing and
    the multipart upload handler, with the properties the specification
    states about them.

    Conventions.  A C [char] buffer is a [list ascii]; a pointer into a
    buffer is an offset into that list.  The C string held at an address is
    the run of bytes up to the first NUL ([cstr]).  [size_t] and [int] are
    integers in [Z] with the 32-bit wrap-around of the ESP32 written out
    where the code computes with them. *)

From Stdlib Require Import ZArith Ascii String List Lia Bool.
From Stdlib Require Import DecimalString.
From stdpp Require Import gmap strings list.
Import ListNotations.

Open Scope Z_scope.

(** ** Bytes and C strings *)

Definition bytes := list ascii.

Definition bs (s : string) : bytes := list_ascii_of_string s.

Definition NUL : ascii := "000"%char.
Definition CR : ascii := "013"%char.
Definition LF : ascii := "010"%char.

Definition CRLF : bytes := [CR; LF].
Definition CRLFCRLF : bytes := [CR; LF; CR; LF].

Definition blen (b : bytes) : Z := Z.of_nat (length b).

(** The C string stored at the start of [b]: everything before the first
    NUL byte (the whole of [b] when the terminator is the byte after it). *)
Fixpoint cstr (b : bytes) : bytes :=
  match b with
  | [] => []
  | c :: r => if Ascii.eqb c NUL then [] else c :: cstr r
  end.

Fixpoint is_prefix (p s : bytes) : bool :=
  match p, s with
  | [], _ => true
  | _ :: _, [] => false
  | a :: p', b :: s' => Ascii.eqb a b && is_prefix p' s'
  end.

Fixpoint bytes_eqb (a b : bytes) : bool :=
  match a, b with
  | [], [] => true
  | x :: a', y :: b' => Ascii.eqb x y && bytes_eqb a' b'
  | _, _ => false
  end.

Definition nul_free (b : bytes) : bool :=
  forallb (fun c => negb (Ascii.eqb c NUL)) b.

(** Offset of the first occurrence of [needle] in [hay]. *)
Fixpoint find_sub (needle hay : bytes) : option nat :=
  match hay with
  | [] => if is_prefix needle [] then Some 0%nat else None
  | _ :: r =>
      if is_prefix needle hay then Some 0%nat
      else option_map S (find_sub needle r)
  end.

(** [strstr(buf + off, needle)]: the result pointer as an offset into [buf]. *)
Definition strstr (buf : bytes) (off : nat) (needle : bytes) : option nat :=
  option_map (Nat.add off) (find_sub needle (cstr (skipn off buf))).

(** [strchr(buf + off, c)] for a non-NUL [c]. *)
Definition strchr (buf : bytes) (off : nat) (c : ascii) : option nat :=
  strstr buf off [c].

(** What [snprintf(dst, size, ...)] leaves in [dst] when the formatted text
    is [s]: at most [size - 1] characters (and the terminator). *)
Definition snprintf (size : nat) (s : bytes) : bytes := firstn (size - 1) s.

Definition contains (needle hay : bytes) : Prop :=
  exists pre post, hay = pre ++ needle ++ post.

(** ** build_filepath *)

Module Path.

Definition dotdot : bytes := bs "..".

Definition MOUNT_POINT : bytes := bs "/sdcard".
Definition FILE_PATH_MAX : nat := 256.

(** One pass of the body of the sanitising loop: [*p = '_'; *(p + 1) = '_']. *)
Definition poke2 (dst : bytes) (p : nat) : bytes :=
  <[S p := "_"%char]> (<[p := "_"%char]> dst).

(** [while ((p = strstr(dst, "..")) != NULL) { *p = '_'; *(p + 1) = '_'; }]
    Every pass removes two dots, so [length dst] passes are more than the
    loop can make; the result is the buffer at loop exit
    (see [build_filepath_no_dotdot]). *)
Fixpoint sanitize_loop (fuel : nat) (dst : bytes) : bytes :=
  match fuel with
  | O => dst
  | S f =>
      match find_sub dotdot dst with
      | None => dst
      | Some p => sanitize_loop f (poke2 dst p)
      end
  end.

(** [build_filepath(dst, dst_size, path1, path2)]; [path2 = None] is the
    NULL pointer.  The result is the C string left in [dst]. *)
Definition build_filepath (dst_size : nat) (path1 : bytes) (path2 : option bytes) : bytes :=
  match path2 with
  | None => snprintf dst_size (cstr path1 ++ bs "/unknown_filename")
  | Some name =>
      let dst := snprintf dst_size (cstr path1 ++ bs "/" ++ cstr name) in
      sanitize_loop (length dst) dst
  end.

Definition is_dot (c : ascii) : bool := Ascii.eqb c "."%char.

Definition head_is_dot (s : bytes) : bool :=
  match s with c :: _ => is_dot c | [] => false end.

(** The specification's wording: literal substitution of every [..] by
    [__], scanning left to right. *)
Fixpoint replace_dotdot (s : bytes) : bytes :=
  match s with
  | a :: r =>
      match r with
      | b :: r' =>
          if Ascii.eqb a "."%char && Ascii.eqb b "."%char
          then "_"%char :: "_"%char :: replace_dotdot r'
          else a :: replace_dotdot r
      | [] => [a]
      end
  | [] => []
  end.

End Path.


(** ** The response channel *)

Inductive esp_err_t := ESP_OK | ESP_FAIL.

(** A chunked response in progress: the chunks the client has been sent so
    far (the empty chunk closes the response) and the number of
    [httpd_resp_send_chunk] calls made. *)
Record conn := mkConn { sent : list bytes; sends : nat }.

Section Chunks.

(** Whether the transport accepts the n-th chunk (a peer that went away
    makes [httpd_resp_send_chunk] fail). *)
Variable send_ok : nat -> bool.

Definition httpd_resp_send_chunk (c : conn) (chunk : bytes) : esp_err_t * conn :=
  if send_ok (sends c)
  then (ESP_OK, mkConn (sent c ++ [chunk]) (S (sends c)))
  else (ESP_FAIL, mkConn (sent c) (S (sends c))).

(** [httpd_send_template_chunk]: empty ranges are not sent. *)
Definition httpd_send_template_chunk (c : conn) (chunk : bytes) : esp_err_t * conn :=
  if (0 <? length chunk)%nat then httpd_resp_send_chunk c chunk else (ESP_OK, c).

(** The bytes of [buf] from offset [from] up to (excluding) offset [to]. *)
Definition slice (buf : bytes) (from to : nat) : bytes :=
  firstn (to - from) (skipn from buf).

(** A file listed under EMBED_TXTFILES is linked into the firmware
    followed by a NUL byte; [_binary_x_start] and [_binary_x_end] delimit
    the text and that terminator. *)
Definition embed_txtfile (text : bytes) : bytes := text ++ [NUL].

(** *** send_message_response *)

Definition MESSAGE_TITLE : bytes := bs "%%MESSAGE_TITLE%%".
Definition MESSAGE_CLASS : bytes := bs "%%MESSAGE_CLASS%%".
Definition MESSAGE_TEXT : bytes := bs "%%MESSAGE_TEXT%%".

(** The [for] loop over [placeholders[i]] / [values[i]].  [tpl] is the
    range from [message_html_start] to [message_html_end], [template_ptr]
    the cursor into it.  [None] is the early [return ESP_FAIL]. *)
Fixpoint placeholder_loop (tpl : bytes) (pvs : list (bytes * bytes))
    (template_ptr : nat) (c : conn) : option nat * conn :=
  match pvs with
  | [] => (Some template_ptr, c)
  | (placeholder, value) :: rest =>
      match strstr tpl template_ptr placeholder with
      | Some found_at =>
          if (found_at <? length tpl)%nat then
            match httpd_send_template_chunk c (slice tpl template_ptr found_at) with
            | (ESP_FAIL, c1) => (None, c1)
            | (ESP_OK, c1) =>
                match httpd_send_template_chunk c1 (cstr value) with
                | (ESP_FAIL, c2) => (None, c2)
                | (ESP_OK, c2) =>
                    placeholder_loop tpl rest (found_at + length placeholder)%nat c2
                end
            end
          else placeholder_loop tpl rest template_ptr c
      | None => placeholder_loop tpl rest template_ptr c
      end
  end.

(** The tail of the template after the last placeholder, then the empty
    chunk that ends the response. *)
Definition send_tail (tpl : bytes) (template_ptr : nat) (c : conn) : esp_err_t * conn :=
  let r :=
    if (template_ptr <? length tpl)%nat
    then httpd_send_template_chunk c (slice tpl template_ptr (length tpl))
    else (ESP_OK, c) in
  match r with
  | (ESP_FAIL, c1) => (ESP_FAIL, c1)
  | (ESP_OK, c1) =>
      match httpd_resp_send_chunk c1 [] with
      | (ESP_FAIL, c2) => (ESP_FAIL, c2)
      | (ESP_OK, c2) => (ESP_OK, c2)
      end
  end.

(** [message_html] is the text of message.html, a file of the component
    that is embedded at build time. *)
Definition send_message_response (message_html : bytes)
    (title message_class message_text : bytes) (c : conn) : esp_err_t * conn :=
  let tpl := embed_txtfile message_html in
  let pvs := [(MESSAGE_TITLE, title); (MESSAGE_CLASS, message_class);
              (MESSAGE_TEXT, message_text)] in
  match placeholder_loop tpl pvs 0%nat c with
  | (None, c1) => (ESP_FAIL, c1)
  | (Some template_ptr, c1) => send_tail tpl template_ptr c1
  end.

(** The values as [strlen] delimits them. *)
Definition cstr_values (pvs : list (bytes * bytes)) : list (bytes * bytes) :=
  map (fun pv => (fst pv, cstr (snd pv))) pvs.

(** The specification's wording: each token, in the given order, is
    replaced at its first occurrence in the part of the document that has
    not been emitted yet; a token that does not occur there is skipped. *)
Fixpoint subst_tokens (pvs : list (bytes * bytes)) (doc : bytes) : bytes :=
  match pvs with
  | [] => doc
  | (token, value) :: rest =>
      match find_sub token doc with
      | Some i => firstn i doc ++ value ++ subst_tokens rest (skipn (i + length token) doc)
      | None => subst_tokens rest doc
      end
  end.

End Chunks.


(** ** The dynamic file listing: list_get_handler *)

Module Listing.

Inductive d_type_t := DT_UNKNOWN | DT_REG | DT_DIR.

(** A directory entry as [readdir] returns it: [d_name] is the content of
    the name array (the name, its terminator, and whatever follows). *)
Record dirent := mkDirent { d_name : bytes; d_type : d_type_t }.

(** [size_t] arithmetic of the 32-bit target. *)
Definition sz (z : Z) : Z := z mod 2 ^ 32.

Definition strlen (b : bytes) : Z := blen (cstr b).

Definition dq : bytes := ["034"%char].

Definition FILE_LIST_ROWS : bytes := bs "%%FILE_LIST_ROWS%%".

(** The chain of tests on the current character of the per-row URL
    encoder. *)
Definition encode_char (c : ascii) : bytes :=
  if Ascii.eqb c " "%char then bs "%20"
  else if Ascii.eqb c "("%char then bs "%28"
  else if Ascii.eqb c ")"%char then bs "%29"
  else if Ascii.eqb c "&"%char then bs "%26"
  else if Ascii.eqb c "="%char then bs "%3D"
  else if Ascii.eqb c "?"%char then bs "%3F"
  else if Ascii.eqb c "/"%char then bs "%2F"
  else [c].

(** The encoder's loop: it runs while the current character is not the
    terminator and [p_out_url - url_encoded_filename < limit]; [p_in] is
    what is left of the name array, [out] what has been written. *)
Fixpoint url_encode_loop (limit : Z) (p_in : bytes) (out : bytes) : bytes :=
  match p_in with
  | [] => out
  | c :: rest =>
      if Ascii.eqb c NUL then out
      else if blen out <? limit then url_encode_loop limit rest (out ++ encode_char c)
      else out
  end.

(** The state of the listing buffer between two directory entries. *)
Record list_state := mkListState {
  file_list_html : bytes;
  file_list_len : Z;
  file_list_buffer_size : Z;
  reallocs : nat
}.

Inductive entry_result :=
| Next (st : list_state)
| Break (st : list_state).

Section Handler.

(** [sizeof(entry->d_name)]: the declaration of [struct dirent] belongs to
    the C library and not to this component. *)
Variable d_name_size : Z.

(** Whether the n-th [realloc] call, asked for the given size, succeeds. *)
Variable realloc_ok : nat -> Z -> bool.

Variable send_ok : nat -> bool.

Definition url_encoded_size : Z := sz (d_name_size * 3 + 1).

Definition url_encode (name : bytes) : bytes :=
  let out := url_encode_loop (sz (url_encoded_size - 4)) name [] in
  if blen out >=? url_encoded_size
  then firstn (Z.to_nat (url_encoded_size - 1)) out
  else out.

Definition entry_html_len_estimate (e : dirent) : Z :=
  let js_escaped_len_estimate := sz (strlen (d_name e) * 2 + 1) in
  sz (js_escaped_len_estimate + strlen (d_name e) * 2 + 350).

Definition download_url (e : dirent) : bytes :=
  snprintf 512 (bs "/download?file=" ++ url_encode (d_name e)).

Definition delete_url (e : dirent) : bytes :=
  snprintf 512 (bs "/delete?file=" ++ url_encode (d_name e)).

(** The text the row format produces for an entry, before [snprintf] cuts
    it to the room that is left. *)
Definition row_text (e : dirent) : bytes :=
  bs "<tr><td>" ++ cstr (d_name e) ++ bs "</td><td><a href=" ++ dq
  ++ download_url e ++ dq ++ bs ">Preuzmi</a></td><td><a href=" ++ dq
  ++ delete_url e ++ dq ++ bs " class=" ++ dq ++ bs "delete-link" ++ dq
  ++ bs ">Obriši</a></td></tr>".

(** Do we have to grow the buffer before this entry? *)
Definition needs_grow (st : list_state) (e : dirent) : bool :=
  sz (file_list_len st + entry_html_len_estimate e) >=? file_list_buffer_size st.

Definition grown_size (st : list_state) (e : dirent) : Z :=
  sz (file_list_buffer_size st + entry_html_len_estimate e + 1024).

(** The [snprintf] of the row at [file_list_html + file_list_len] and the
    update of [file_list_len] that follows it. *)
Definition append_row (st : list_state) (e : dirent) : list_state :=
  let room := sz (file_list_buffer_size st - file_list_len st) in
  let written_len := blen (row_text e) in
  let html := firstn (Z.to_nat (file_list_len st)) (file_list_html st)
              ++ snprintf (Z.to_nat room) (row_text e) in
  if (0 <? written_len) && (written_len <? room) then
    mkListState html (sz (file_list_len st + written_len))
                (file_list_buffer_size st) (reallocs st)
  else if 0 <? written_len then
    mkListState html (sz (file_list_buffer_size st - 1))
                (file_list_buffer_size st) (reallocs st)
  else
    mkListState html (file_list_len st) (file_list_buffer_size st) (reallocs st).

(** The body of the [readdir] loop for a regular file. *)
Definition add_entry (st : list_state) (e : dirent) : entry_result :=
  if needs_grow st e then
    let new_size := grown_size st e in
    if realloc_ok (reallocs st) new_size then
      Next (append_row
              (mkListState (file_list_html st) (file_list_len st) new_size
                           (S (reallocs st))) e)
    else
      Break (mkListState (file_list_html st) (file_list_len st)
                         (file_list_buffer_size st) (S (reallocs st)))
  else Next (append_row st e).

(** [while ((entry = readdir(dir)) != NULL)] *)
Fixpoint read_entries (st : list_state) (entries : list dirent) : entry_result :=
  match entries with
  | [] => Next st
  | e :: rest =>
      match d_type e with
      | DT_REG =>
          match add_entry st e with
          | Next st' => read_entries st' rest
          | Break st' => Break st'
          end
      | _ => read_entries st rest
      end
  end.

Definition result_state (r : entry_result) : list_state :=
  match r with Next st => st | Break st => st end.

Definition initial_state : list_state := mkListState [] 0 2048 0.

(** The rows the handler sends: [file_list_len] bytes of the buffer. *)
Definition rows (st : list_state) : bytes :=
  firstn (Z.to_nat (file_list_len st)) (file_list_html st).

(** Sending list.html around the rows. *)
Definition send_list (list_html : bytes) (st : list_state) (c : conn) : esp_err_t * conn :=
  let tpl := embed_txtfile list_html in
  let placeholder :=
    match strstr tpl 0 FILE_LIST_ROWS with
    | Some found_at =>
        if (found_at <? length tpl)%nat then
          match httpd_send_template_chunk send_ok c (slice tpl 0 found_at) with
          | (ESP_FAIL, c1) => (None, c1)
          | (ESP_OK, c1) =>
              match httpd_send_template_chunk send_ok c1 (rows st) with
              | (ESP_FAIL, c2) => (None, c2)
              | (ESP_OK, c2) => (Some (found_at + length FILE_LIST_ROWS)%nat, c2)
              end
          end
        else (Some 0%nat, c)
    | None => (Some 0%nat, c)
    end in
  match placeholder with
  | (None, c1) => (ESP_FAIL, c1)
  | (Some template_start_ptr, c1) => send_tail send_ok tpl template_start_ptr c1
  end.

(** [dir] is what [opendir] and [readdir] deliver ([None]: the directory
    cannot be opened), [malloc_ok] whether the first buffer of 2048 bytes
    is obtained. *)
Definition list_get_handler (dir : option (list dirent)) (malloc_ok : bool)
    (message_html list_html : bytes) (c : conn) : esp_err_t * conn :=
  match dir with
  | None =>
      send_message_response send_ok message_html (bs "Greska posluzitelja")
        (bs "error") (bs "Nije moguce otvoriti direktorij na SD kartici.") c
  | Some entries =>
      if malloc_ok then
        send_list list_html (result_state (read_entries initial_state entries)) c
      else
        send_message_response send_ok message_html (bs "Greska posluzitelja")
          (bs "error") (bs "Interna greska (memorija).") c
  end.

End Handler.

(** The specification's wording for the encoder: the two-digit hexadecimal
    escape of a byte. *)
Definition hex_digit (n : nat) : ascii :=
  nth n (bs "0123456789ABCDEF") "0"%char.

Definition percent_escape (c : ascii) : bytes :=
  ["%"%char; hex_digit (nat_of_ascii c / 16); hex_digit (nat_of_ascii c mod 16)].

Definition reserved (c : ascii) : bool :=
  existsb (Ascii.eqb c) (bs " ()&=?/").

Definition percent_encode (name : bytes) : bytes :=
  flat_map (fun c => if reserved c then percent_escape c else [c]) name.

End Listing.


(** ** The multipart upload: upload_post_handler *)

Module Upload.

Definition UPLOAD_BUFFER_SIZE : Z := 2048.

(** The conversion of [req->content_len] (a [size_t]) to the [int]
    [remaining] on the 32-bit target. *)
Definition int_of_size_t (z : Z) : Z :=
  let m := z mod 2 ^ 32 in if m <? 2 ^ 31 then m else m - 2 ^ 32.

(** The error codes of [httpd_req_recv]. *)
Inductive sock_err := SOCK_ERR_FAIL | SOCK_ERR_INVALID | SOCK_ERR_TIMEOUT.

Definition sock_err_code (e : sock_err) : Z :=
  match e with
  | SOCK_ERR_FAIL => -1
  | SOCK_ERR_INVALID => -2
  | SOCK_ERR_TIMEOUT => -3
  end.

Definition HTTPD_SOCK_ERR_TIMEOUT : Z := -3.

(** What the socket holds in store for the next calls of
    [httpd_req_recv]: a run of body bytes that arrive together, or an
    error.  An exhausted transport reads as a closed connection. *)
Inductive incoming :=
| Data (b : bytes)
| SockErr (e : sock_err).

(** A cJSON object with string members, in the order they were added. *)
Definition json := list (bytes * bytes).

(** The calls the handler makes to its collaborators, in order. *)
Inductive event :=
| EvMalloc (size : Z) (ok : bool)
| EvRecv (buf_len : Z) (ret : Z) (data : bytes)
| EvStat (path : bytes) (found : bool)
| EvFopen (path : bytes) (mode : bytes) (ok : bool)
| EvFwrite (path : bytes) (data : bytes)
| EvFclose (path : bytes)
| EvSend (status : bytes) (content_type : bytes) (body : json)
| EvSendErr (status : bytes) (msg : bytes).

Record world := mkWorld {
  files : gmap bytes bytes;
  transport : list incoming;
  resp_status : bytes;
  resp_type : bytes;
  mallocs : nat;
  trace : list event
}.

(** The parts of the platform that may fail. *)
Record env := mkEnv {
  malloc_ok : nat -> Z -> bool;
  fopen_ok : bytes -> bool;
  strerror_errno : bytes;
  json_print_ok : bool
}.

(** The request as the httpd component presents it.  [content_type] is
    the value [httpd_req_get_hdr_value_str] copies out when it returns
    ESP_OK; [url_overwrite] is the value [httpd_query_key_value] finds for
    the key [overwrite] when the query string is read and the key is found
    ([None] otherwise). *)
Record request := mkRequest {
  content_len : Z;
  content_type : option bytes;
  url_query_len : Z;
  url_overwrite : option bytes
}.

Record locals := mkLocals {
  remaining : Z;
  file_data_started : bool;
  filename : option bytes;
  fd : option bytes;
  root_json : option json
}.

Definition set_remaining (l : locals) (r : Z) : locals :=
  mkLocals r (file_data_started l) (filename l) (fd l) (root_json l).

Definition set_started (l : locals) : locals :=
  mkLocals (remaining l) true (filename l) (fd l) (root_json l).

Definition set_root_json (l : locals) (j : json) : locals :=
  mkLocals (remaining l) (file_data_started l) (filename l) (fd l) (Some j).

Definition log (w : world) (e : event) : world :=
  mkWorld (files w) (transport w) (resp_status w) (resp_type w) (mallocs w)
          (trace w ++ [e]).

Definition error_json (message : bytes) : json :=
  [(bs "status", bs "error"); (bs "message", message)].

Definition malloc (E : env) (w : world) (size : Z) : bool * world :=
  let ok := malloc_ok E (mallocs w) size in
  (ok, mkWorld (files w) (transport w) (resp_status w) (resp_type w)
               (S (mallocs w)) (trace w ++ [EvMalloc size ok])).

(** [httpd_req_recv(req, buf, buf_len)]: the return value, the bytes put
    in the buffer, and the world after the call. *)
Definition next_chunk (tr : list incoming) (buf_len : Z) : Z * bytes * list incoming :=
  match tr with
  | [] => (0, [], [])
  | SockErr e :: rest => (sock_err_code e, [], rest)
  | Data b :: rest =>
      if blen b <=? buf_len then (blen b, b, rest)
      else (buf_len, firstn (Z.to_nat buf_len) b,
            Data (skipn (Z.to_nat buf_len) b) :: rest)
  end.

Definition httpd_req_recv (w : world) (buf_len : Z) : Z * bytes * world :=
  let '(ret, data, rest) := next_chunk (transport w) buf_len in
  (ret, data,
   mkWorld (files w) rest (resp_status w) (resp_type w) (mallocs w)
           (trace w ++ [EvRecv buf_len ret data])).

Definition httpd_resp_set_status (w : world) (status : bytes) : world :=
  mkWorld (files w) (transport w) status (resp_type w) (mallocs w) (trace w).

Definition httpd_resp_set_type (w : world) (t : bytes) : world :=
  mkWorld (files w) (transport w) (resp_status w) t (mallocs w) (trace w).

Definition stat (w : world) (path : bytes) : bool * world :=
  let found := match files w !! path with Some _ => true | None => false end in
  (found, log w (EvStat path found)).

(** [fopen(path, "wb")]: creates the file or truncates it to nothing. *)
Definition fopen_wb (E : env) (w : world) (path : bytes) : bool * world :=
  if fopen_ok E path then
    (true, mkWorld (<[path := []]> (files w)) (transport w) (resp_status w)
                   (resp_type w) (mallocs w)
                   (trace w ++ [EvFopen path (bs "wb") true]))
  else (false, log w (EvFopen path (bs "wb") false)).

(** [fwrite(data, 1, len, fd)] on the stream opened on [path]. *)
Definition fwrite (w : world) (path : bytes) (data : bytes) : world :=
  let old := match files w !! path with Some b => b | None => [] end in
  mkWorld (<[path := old ++ data]> (files w)) (transport w) (resp_status w)
          (resp_type w) (mallocs w) (trace w ++ [EvFwrite path data]).

Definition tolower (c : ascii) : ascii :=
  let n := nat_of_ascii c in
  if ((65 <=? n) && (n <=? 90))%nat then ascii_of_nat (n + 32) else c.

(** [strcasecmp(a, b) == 0] *)
Definition strcasecmp_eq (a b : bytes) : bool :=
  bytes_eqb (map tolower (cstr a)) (map tolower (cstr b)).

Definition dq : ascii := "034"%char.

(** The extraction of the file name from the part headers in [buf]:
    the name, or the message of the error reply. *)
Definition extract_filename (buf : bytes) : bytes + bytes :=
  match strstr buf 0 (bs "Content-Disposition:") with
  | None => inr (bs "Nedostaje Content-Disposition zaglavlje.")
  | Some cd_header =>
      match strstr buf cd_header (bs "filename=" ++ [dq]) with
      | None => inr (bs "Ime datoteke nije pronadjeno u Content-Disposition zaglavlju.")
      | Some fn =>
          let filename_ptr_start := (fn + 10)%nat in
          match strchr buf filename_ptr_start dq with
          | Some filename_ptr_end =>
              if (filename_ptr_start <? filename_ptr_end)%nat then
                let len := (filename_ptr_end - filename_ptr_start)%nat in
                let len := if (128 <? len)%nat then 128%nat else len in
                inl (slice buf filename_ptr_start (filename_ptr_start + len))
              else inr (bs "Neispravan format zaglavlja uploada (ime filea nije parsirano).")
          | None => inr (bs "Neispravan format zaglavlja uploada (ime filea nije parsirano).")
          end
      end
  end.

(** The [overwrite=true] query parameter. *)
Definition overwrite_value_is_true (req : request) : bool :=
  match url_overwrite req with
  | Some v => strcasecmp_eq v (bs "true")
  | None => false
  end.

Definition should_overwrite (E : env) (req : request) (w : world) : bool * world :=
  let query_len := Listing.sz (url_query_len req + 1) in
  if 1 <? query_len then
    match malloc E w query_len with
    | (true, w1) => (overwrite_value_is_true req, w1)
    | (false, w1) => (false, w1)
    end
  else (false, w).

(** The request has a query string whose [overwrite] parameter is [true]. *)
Definition overwrite_requested (req : request) : bool :=
  (1 <? Listing.sz (url_query_len req + 1)) && overwrite_value_is_true req.

(** The loop that consumes the rest of the body after a conflict.
    [None]: the loop has not come to its end within [fuel] passes. *)
Fixpoint drain (fuel : nat) (remaining : Z) (w : world) : option (Z * world) :=
  if remaining <=? 0 then Some (remaining, w)
  else
    match fuel with
    | O => None
    | S f =>
        let '(read_now, _, w1) := httpd_req_recv w (Z.min remaining 128) in
        if read_now <=? 0 then Some (remaining, w1)
        else
          let r := remaining - read_now in
          drain f (if r <? 0 then 0 else r) w1
    end.

(** Where control goes after a chunk has been looked at: on to the end of
    the loop body, or to the label [cleanup_and_send_json]. *)
Inductive flow :=
| Continue (l : locals) (w : world)
| Cleanup (l : locals) (w : world)
| Unfinished.

Definition conflict_json (name : bytes) : json :=
  [(bs "status", bs "conflict");
   (bs "message",
    snprintf 228 (bs "Datoteka '" ++ name ++ bs "' već postoji. Želite li je prepisati?"));
   (bs "filename", name)].

Definition success_json (name : bytes) : json :=
  [(bs "status", bs "success");
   (bs "message", snprintf 228 (bs "Datoteka '" ++ name ++ bs "' je uspjesno uploadana."));
   (bs "filename", name)].

(** The first chunk, while no file name is known: the name, the
    destination path, the conflict check and the opening of the sink. *)
Definition open_sink (E : env) (req : request) (l : locals) (w : world)
    (buf : bytes) : flow :=
  match extract_filename buf with
  | inr message => Cleanup (set_root_json l (error_json message)) w
  | inl name =>
      let len := blen name in
      match malloc E w (len + 1) with
      | (false, w1) =>
          Cleanup (set_root_json l
                     (error_json (bs "Interna greska servera (memorija za ime filea).")))
                  w1
      | (true, w1) =>
          let l1 := mkLocals (remaining l) (file_data_started l) (Some name)
                             (fd l) (root_json l) in
          let filepath :=
            Path.build_filepath Path.FILE_PATH_MAX Path.MOUNT_POINT (Some name) in
          let '(overwrite, w2) := should_overwrite E req w1 in
          let '(file_exists, w3) := stat w2 filepath in
          if file_exists && negb overwrite then
            let w4 := httpd_resp_set_status w3 (bs "409 Conflict") in
            match drain (Z.to_nat (remaining l)) (remaining l) w4 with
            | None => Unfinished
            | Some (r, w5) =>
                Cleanup (mkLocals r (file_data_started l) (Some name) (fd l)
                                  (Some (conflict_json name)))
                        w5
            end
          else
            match fopen_wb E w3 filepath with
            | (false, w4) =>
                Cleanup (set_root_json l1
                           (error_json
                              (snprintf 228
                                 (bs "Nije moguce otvoriti datoteku '" ++ name
                                  ++ bs "' za pisanje. Greška: " ++ cstr (strerror_errno E)))))
                        w4
            | (true, w4) =>
                Continue (mkLocals (remaining l) (file_data_started l) (Some name)
                                   (Some filepath) (root_json l))
                         w4
            end
      end
  end.

(** [if (!filename) { ... }] at the head of the loop body. *)
Definition parse_headers (E : env) (req : request) (l : locals) (w : world)
    (buf : bytes) : flow :=
  match filename l with
  | None => open_sink E req l w buf
  | Some _ => Continue l w
  end.

(** The number of payload bytes in front of a boundary found at offset
    [b] of [buf], for a payload that starts at offset [start]: the two
    tests on the bytes before the boundary. *)
Definition trimmed_len (buf : bytes) (start b : nat) : nat :=
  let len := (b - start)%nat in
  if (2 <=? len)%nat && Ascii.eqb (nth (b - 1) buf NUL) LF
     && Ascii.eqb (nth (b - 2) buf NUL) CR
  then (len - 2)%nat
  else if (1 <=? len)%nat && Ascii.eqb (nth (b - 1) buf NUL) LF
  then (len - 1)%nat
  else len.

(** [if (len > 0) fwrite(data, 1, len, fd);] *)
Definition write_if_any (w : world) (path : bytes) (data : bytes) : world :=
  if (0 <? length data)%nat then fwrite w path data else w.

(** Payload bytes of a chunk go to the sink: the search for the boundary
    from offset [start] on, the trimming, [remaining = 0] on a hit, and
    the [fwrite].  The boolean tells whether the boundary was found. *)
Definition write_payload (boundary : bytes) (l : locals) (w : world)
    (path : bytes) (buf : bytes) (start : nat) : locals * world * bool :=
  let data_to_write := (length buf - start)%nat in
  let boundary_in_chunk := strstr buf start boundary in
  let '(actual_data_len, l1, found) :=
    match boundary_in_chunk with
    | Some b => (trimmed_len buf start b, set_remaining l 0, true)
    | None => (data_to_write, l, false)
    end in
  (l1, write_if_any w path (slice buf start (start + actual_data_len)), found).

(** A chunk whose payload is thrown away: only the boundary is looked for. *)
Definition discard_payload (boundary : bytes) (l : locals) (buf : bytes)
    (start : nat) : locals * bool :=
  match strstr buf start boundary with
  | Some _ => (set_remaining l 0, true)
  | None => (l, false)
  end.

(** A chunk read before the payload has started, after its headers have
    been looked at: the search for the separator and what follows it. *)
Definition find_payload (boundary : bytes) (l1 : locals) (w1 : world)
    (buf : bytes) : flow * bool :=
  match strstr buf 0 CRLFCRLF with
  | Some sep =>
      let data_start_ptr := (sep + 4)%nat in
      match fd l1, filename l1 with
      | Some path, Some _ =>
          let '(l2, w2, found) :=
            write_payload boundary l1 w1 path buf data_start_ptr in
          (Continue (set_started l2) w2, found)
      | None, Some _ =>
          let '(l2, found) := discard_payload boundary l1 buf data_start_ptr in
          (Continue (set_started l2) w1, found)
      | _, None =>
          (Cleanup (set_root_json l1
                      (error_json (bs "Ime datoteke nije pronadjeno u zaglavlju uploada.")))
                   w1, false)
      end
  | None => (Continue l1 w1, false)
  end.

(** A chunk read after the payload has started. *)
Definition stream_payload (boundary : bytes) (l : locals) (w : world)
    (buf : bytes) : flow * bool :=
  match fd l with
  | Some path =>
      let '(l1, w1, found) := write_payload boundary l w path buf 0 in
      (Continue l1 w1, found)
  | None =>
      let '(l1, found) := discard_payload boundary l buf 0 in
      (Continue l1 w, found)
  end.

(** The body of the receive loop for a chunk [buf] that has been read.
    The boolean tells whether this pass found the boundary. *)
Definition process_chunk (E : env) (req : request) (boundary : bytes)
    (l : locals) (w : world) (buf : bytes) : flow * bool :=
  if negb (file_data_started l) then
    match parse_headers E req l w buf with
    | Continue l1 w1 => find_payload boundary l1 w1 buf
    | other => (other, false)
    end
  else stream_payload boundary l w buf.

(** The label [send_json_upload_response]. *)
Definition send_json_upload_response (E : env) (root : json) (w : world)
    : esp_err_t * world :=
  if json_print_ok E
  then (ESP_OK, log w (EvSend (resp_status w) (resp_type w) root))
  else (ESP_FAIL,
        log w (EvSendErr (bs "500 Internal Server Error")
                         (bs "JSON print failed after operation"))).

(** The label [cleanup_and_send_json]. *)
Definition cleanup_and_send_json (E : env) (l : locals) (w : world)
    : esp_err_t * world :=
  let w1 := match fd l with Some path => log w (EvFclose path) | None => w end in
  let root :=
    match root_json l with
    | Some j => j
    | None =>
        match filename l, fd l with
        | Some name, Some _ => success_json name
        | _, _ =>
            error_json (bs "Nije bilo moguce obraditi datoteku. Provjerite ime datoteke i dostupnost SD kartice.")
        end
    end in
  send_json_upload_response E root w1.

Definition recv_error_message (ret remaining : Z) : bytes :=
  if ret =? HTTPD_SOCK_ERR_TIMEOUT
  then bs "Timeout pri primanju podataka tijekom uploada."
  else if (ret =? 0) && (0 <? remaining)
  then bs "Veza prekinuta od klijenta."
  else bs "Greska pri primanju podataka tijekom uploada.".

(** [while (remaining > 0)].  [None]: the loop has not come to its end
    within [fuel] passes. *)
Fixpoint receive_loop (E : env) (req : request) (boundary : bytes) (fuel : nat)
    (l : locals) (w : world) : option (esp_err_t * world) :=
  if remaining l <=? 0 then Some (cleanup_and_send_json E l w)
  else
    match fuel with
    | O => None
    | S f =>
        let '(ret, buf, w1) :=
          httpd_req_recv w (Z.min (remaining l) (UPLOAD_BUFFER_SIZE - 1)) in
        if ret <=? 0 then
          Some (cleanup_and_send_json E
                  (set_root_json l (error_json (recv_error_message ret (remaining l))))
                  w1)
        else
          match process_chunk E req boundary l w1 buf with
          | (Continue l1 w2, _) =>
              let r := remaining l1 - ret in
              receive_loop E req boundary f
                (set_remaining l1 (if r <? 0 then 0 else r)) w2
          | (Cleanup l1 w2, _) => Some (cleanup_and_send_json E l1 w2)
          | (Unfinished, _) => None
          end
    end.

(** The boundary string from the Content-Type header: [--] and whatever
    follows [boundary=]; the error message when there is none that fits. *)
Definition extract_boundary (req : request) : bytes + bytes :=
  match content_type req with
  | Some content_type_hdr =>
      match strstr content_type_hdr 0 (bs "boundary=") with
      | Some boundary_ptr =>
          let boundary := bs "--" ++ cstr (skipn (boundary_ptr + 9) content_type_hdr) in
          if (128 <=? length boundary)%nat
          then inr (bs "Boundary string u Content-Type zaglavlju je predugacak.")
          else inl boundary
      | None => inr (bs "Neispravan Content-Type, nedostaje boundary.")
      end
  | None => inr (bs "Nedostaje Content-Type zaglavlje.")
  end.

Definition initial_locals (remaining : Z) : locals :=
  mkLocals remaining false None None None.

Definition upload_post_handler (E : env) (req : request) (w : world)
    : option (esp_err_t * world) :=
  let remaining := int_of_size_t (content_len req) in
  let w0 := httpd_resp_set_type w (bs "application/json") in
  if remaining <=? 0 then
    Some (send_json_upload_response E
            (error_json (bs "Nema podataka za upload (content length je 0 ili neispravan)."))
            w0)
  else
    match malloc E w0 UPLOAD_BUFFER_SIZE with
    | (false, w1) =>
        let root := error_json (bs "Interna greska servera (memorija za buffer).") in
        if json_print_ok E
        then Some (ESP_FAIL, log w1 (EvSend (resp_status w1) (resp_type w1) root))
        else Some (ESP_FAIL,
                   log w1 (EvSendErr (bs "500 Internal Server Error")
                             (bs "Failed to allocate memory and create JSON")))
    | (true, w1) =>
        match extract_boundary req with
        | inr message =>
            Some (cleanup_and_send_json E
                    (set_root_json (initial_locals remaining) (error_json message)) w1)
        | inl boundary =>
            receive_loop E req boundary (Z.to_nat remaining)
              (initial_locals remaining) w1
        end
    end.

(** The bytes the handler has handed to [fwrite] for [path], in order. *)
Fixpoint written (path : bytes) (t : list event) : bytes :=
  match t with
  | [] => []
  | EvFwrite p data :: t' =>
      if bytes_eqb p path then data ++ written path t' else written path t'
  | _ :: t' => written path t'
  end.

Definition is_recv (e : event) : bool :=
  match e with EvRecv _ _ _ => true | _ => false end.

Definition is_file_event (e : event) : bool :=
  match e with
  | EvFopen _ _ _ | EvFwrite _ _ | EvFclose _ => true
  | _ => false
  end.

Definition is_malloc (e : event) : bool :=
  match e with EvMalloc _ _ => true | _ => false end.

(** The loop reaches [r] from a state, whatever fuel it is given. *)
Definition runs (E : env) (req : request) (boundary : bytes)
    (l : locals) (w : world) (r : esp_err_t * world) : Prop :=
  exists fuel, receive_loop E req boundary fuel l w = Some r.

Definition is_fopen (e : event) : bool :=
  match e with EvFopen _ _ _ => true | _ => false end.

Definition recv_ok (e : event) : bool :=
  match e with EvRecv _ ret _ => 0 <? ret | _ => true end.

(** The number of body bytes a list of chunks holds. *)
Definition total (chunks : list bytes) : Z := blen (concat chunks).

(** The specification's wording for the end of the payload: the bytes in
    front of the boundary without the CRLF that closes them, or else
    without the LF that closes them. *)
Definition ends_with (suffix s : bytes) : bool := is_prefix (rev suffix) (rev s).

Definition eol_len (s : bytes) : nat :=
  if ends_with CRLF s then 2%nat else if ends_with [LF] s then 1%nat else 0%nat.

Definition strip_eol (payload : bytes) : bytes :=
  firstn (length payload - eol_len payload) payload.

End Upload.

(** ** url_decode *)

Module Decode.

(** [isxdigit] in the C locale. *)
Definition isxdigit (c : ascii) : bool :=
  let n := nat_of_ascii c in
  (((48 <=? n) && (n <=? 57)) || ((65 <=? n) && (n <=? 70))
   || ((97 <=? n) && (n <=? 102)))%nat.

(** The value of a hexadecimal digit. *)
Definition hex_value (c : ascii) : nat :=
  let n := nat_of_ascii c in
  (if n <=? 57 then n - 48 else if n <=? 70 then n - 55 else n - 87)%nat.

(** [sscanf(hex, "%x", &ascii_val)] on two hexadecimal digits, and the
    conversion of the value to [char]. *)
Definition hex_pair (a b : ascii) : ascii :=
  ascii_of_nat (16 * hex_value a + hex_value b).

(** The loop that runs while the current source character is not the
    terminator and [decoded_len < dst_size - 1].  [s] is what is left of
    the source string (the end of the list is its terminator), [d] what has
    been written to [dst], so that [decoded_len] is [length d].  The result
    is the pair at loop exit. *)
Fixpoint decode_loop (dst_size : nat) (s d : bytes) : bytes * bytes :=
  match s with
  | [] => (s, d)
  | c :: s1 =>
      if (length d <? dst_size - 1)%nat then
        if Ascii.eqb c "%"%char then
          match s1 with
          | a :: s2 =>
              match s2 with
              | b :: s3 =>
                  if isxdigit a && isxdigit b
                  then decode_loop dst_size s3 (d ++ [hex_pair a b])
                  else decode_loop dst_size s3 (d ++ ["_"%char])
              | [] => decode_loop dst_size s2 (d ++ ["_"%char])
              end
          | [] => decode_loop dst_size s1 (d ++ ["_"%char])
          end
        else if Ascii.eqb c "+"%char then decode_loop dst_size s1 (d ++ [" "%char])
        else decode_loop dst_size s1 (d ++ [c])
      else (s, d)
  end.

(** [url_decode(src, dst, dst_size)] for a buffer [dst] that is not NULL:
    the return value and the bytes written to [dst] in front of the
    terminator.  [src = None] is the NULL pointer. *)
Definition url_decode (src : option bytes) (dst_size : nat) : esp_err_t * bytes :=
  match src with
  | None => (ESP_FAIL, [])
  | Some src =>
      if (dst_size =? 0)%nat then (ESP_FAIL, [])
      else
        match decode_loop dst_size (cstr src) [] with
        | ([], d) => (ESP_OK, d)
        | (_ :: _, d) => (ESP_FAIL, d)
        end
  end.

(** What the decoder makes of a character that is not part of an escape. *)
Definition plus_to_space (c : ascii) : ascii :=
  if Ascii.eqb c "+"%char then " "%char else c.

End Decode.

(** ** The file handlers: delete_handler, delete_all_handler, download_handler *)

Module Files.

Definition json := Upload.json.

(** The query part of the request as the httpd component presents it:
    the length [httpd_req_get_url_query_len] returns, whether
    [httpd_req_get_url_query_str] returns ESP_OK, and the value
    [httpd_query_key_value] copies into [filename_query] for the key
    [file] when it returns ESP_OK ([None] otherwise). *)
Record request := mkRequest {
  url_query_len : Z;
  url_query_str_ok : bool;
  file_value : option bytes
}.

(** The calls a handler makes to its collaborators, in order; the chunks
    of a chunked response are kept in the connection. *)
Inductive event :=
| EvSetType (t : bytes)
| EvSetHdr (field : bytes) (value : bytes)
| EvJsonCreate (ok : bool)
| EvJsonDelete
| EvMalloc (size : Z) (ok : bool)
| EvFree
| EvUnlink (path : bytes) (ok : bool)
| EvFopen (path : bytes) (mode : bytes) (ok : bool)
| EvFclose (path : bytes)
| EvSend (body : json)
| EvSendErr (status : bytes) (msg : bytes).

Record world := mkWorld {
  files : gmap bytes bytes;
  out : conn;
  mallocs : nat;
  freads : nat;
  trace : list event
}.

(** The parts of the platform that may fail, and the embedded
    message.html. *)
Record env := mkEnv {
  malloc_ok : nat -> Z -> bool;
  json_create_ok : bool;
  json_print_ok : bool;
  unlink_ok : bytes -> bool;
  fopen_ok : bytes -> bool;
  fread_ok : nat -> bool;
  send_ok : nat -> bool;
  strerror_errno : bytes;
  message_html : bytes
}.

Definition log (w : world) (e : event) : world :=
  mkWorld (files w) (out w) (mallocs w) (freads w) (trace w ++ [e]).

Definition set_out (w : world) (c : conn) : world :=
  mkWorld (files w) c (mallocs w) (freads w) (trace w).

Definition malloc (E : env) (w : world) (size : Z) : bool * world :=
  let ok := malloc_ok E (mallocs w) size in
  (ok, mkWorld (files w) (out w) (S (mallocs w)) (freads w)
               (trace w ++ [EvMalloc size ok])).

(** [unlink(path) == 0]: the file is there and the card lets it go. *)
Definition unlink (E : env) (w : world) (path : bytes) : bool * world :=
  match files w !! path with
  | Some _ =>
      if unlink_ok E path then
        (true, mkWorld (delete path (files w)) (out w) (mallocs w) (freads w)
                       (trace w ++ [EvUnlink path true]))
      else (false, log w (EvUnlink path false))
  | None => (false, log w (EvUnlink path false))
  end.

Definition error_json (message : bytes) : json :=
  [(bs "status", bs "error"); (bs "message", message)].

(** *** delete_handler *)

(** The label [send_json_delete_response]; [query_buf] tells whether the
    query buffer has been allocated. *)
Definition send_json_delete_response (E : env) (query_buf : bool) (root : json)
    (op_status : esp_err_t) (w : world) : esp_err_t * world :=
  let w1 := if query_buf then log w EvFree else w in
  if json_print_ok E then
    (op_status, log (log w1 (EvSend root)) EvJsonDelete)
  else
    (op_status,
     log (log (log w1 EvJsonDelete)
            (EvSendErr (bs "500 Internal Server Error") (bs "JSON print failed")))
         EvJsonDelete).

Definition delete_success_json (decoded_filename : bytes) : json :=
  [(bs "status", bs "success");
   (bs "message",
    snprintf 229 (bs "Datoteka '" ++ cstr decoded_filename ++ bs "' je uspjesno obrisana."))].

Definition delete_failure_json (E : env) (decoded_filename : bytes) : json :=
  error_json
    (snprintf 257 (bs "Nije moguce obrisati datoteku '" ++ cstr decoded_filename
                   ++ bs "'. Greška: " ++ cstr (strerror_errno E))).

Definition delete_handler (E : env) (req : request) (w : world) : esp_err_t * world :=
  let w0 := log w (EvSetType (bs "application/json")) in
  if json_create_ok E then
    let w1 := log w0 (EvJsonCreate true) in
    let query_buf_len := Listing.sz (url_query_len req + 1) in
    if query_buf_len <=? 1 then
      send_json_delete_response E false
        (error_json (bs "Nedostaje parametar datoteke za brisanje.")) ESP_FAIL w1
    else
      match malloc E w1 query_buf_len with
      | (false, w2) =>
          send_json_delete_response E false
            (error_json (bs "Interna greska servera (memorija).")) ESP_FAIL w2
      | (true, w2) =>
          match (if url_query_str_ok req then file_value req else None) with
          | None =>
              send_json_delete_response E true
                (error_json (bs "Nevazeci parametar datoteke za brisanje.")) ESP_FAIL w2
          | Some filename_query =>
              match Decode.url_decode (Some filename_query) 129 with
              | (ESP_FAIL, _) =>
                  send_json_delete_response E true
                    (error_json (bs "Greska pri dekodiranju imena datoteke za brisanje."))
                    ESP_FAIL w2
              | (ESP_OK, decoded_filename) =>
                  let filepath :=
                    Path.build_filepath Path.FILE_PATH_MAX Path.MOUNT_POINT
                      (Some decoded_filename) in
                  match unlink E w2 filepath with
                  | (true, w3) =>
                      send_json_delete_response E true
                        (delete_success_json decoded_filename) ESP_OK w3
                  | (false, w3) =>
                      send_json_delete_response E true
                        (delete_failure_json E decoded_filename) ESP_FAIL w3
                  end
              end
          end
      end
  else
    (ESP_FAIL,
     log (log w0 (EvJsonCreate false))
         (EvSendErr (bs "500 Internal Server Error") (bs "JSON creation failed"))).

(** *** delete_all_handler *)

(** [%d] of an [int]. *)
Definition decimal (n : Z) : bytes := bs (NilZero.string_of_int (Z.to_int n)).

Definition SYSTEM_VOLUME_INFORMATION : bytes := bs "System Volume Information".

(** The path the loop composes for an entry. *)
Definition entry_path (e : Listing.dirent) : bytes :=
  snprintf Path.FILE_PATH_MAX (Path.MOUNT_POINT ++ bs "/" ++ cstr (Listing.d_name e)).

(** Does the loop try to delete this entry? *)
Definition is_target (e : Listing.dirent) : bool :=
  match Listing.d_type e with
  | Listing.DT_REG => negb (bytes_eqb (cstr (Listing.d_name e)) SYSTEM_VOLUME_INFORMATION)
  | _ => false
  end.

(** [while ((entry = readdir(dir)) != NULL)] with its two counters.  The
    counters are [int]s; they count entries of one directory and are kept
    here as integers. *)
Fixpoint unlink_entries (E : env) (entries : list Listing.dirent)
    (deleted_count failed_count : Z) (w : world) : Z * Z * world :=
  match entries with
  | [] => (deleted_count, failed_count, w)
  | e :: rest =>
      match Listing.d_type e with
      | Listing.DT_REG =>
          if bytes_eqb (cstr (Listing.d_name e)) SYSTEM_VOLUME_INFORMATION
          then unlink_entries E rest deleted_count failed_count w
          else
            match unlink E w (entry_path e) with
            | (true, w1) => unlink_entries E rest (deleted_count + 1) failed_count w1
            | (false, w1) => unlink_entries E rest deleted_count (failed_count + 1) w1
            end
      | _ => unlink_entries E rest deleted_count failed_count w
      end
  end.

Definition delete_all_json (deleted_count failed_count : Z) : json :=
  if (0 <? deleted_count) || (0 <? failed_count) then
    if failed_count =? 0 then
      [(bs "status", bs "success");
       (bs "message",
        snprintf 128 (bs "Obrisano " ++ decimal deleted_count ++ bs " datoteka."))]
    else if deleted_count =? 0 then
      [(bs "status", bs "error");
       (bs "message",
        snprintf 128 (bs "Greška: Nije moguće obrisati datoteke. "
                      ++ decimal failed_count ++ bs " neuspjelo."))]
    else
      [(bs "status", bs "warning");
       (bs "message",
        snprintf 128 (bs "Obrisano " ++ decimal deleted_count ++ bs " datoteka, "
                      ++ decimal failed_count ++ bs " neuspjelo."))]
  else
    [(bs "status", bs "info"); (bs "message", bs "Nema datoteka za brisanje.")].

(** The label [send_json_delete_all_response]. *)
Definition send_json_delete_all_response (E : env) (root : json) (w : world)
    : esp_err_t * world :=
  if json_print_ok E then
    (ESP_OK, log (log w (EvSend root)) EvJsonDelete)
  else
    (ESP_FAIL,
     log (log w EvJsonDelete)
         (EvSendErr (bs "500 Internal Server Error") (bs "JSON print failed"))).

(** [dir] is what [opendir(MOUNT_POINT)] and [readdir] deliver ([None]:
    the directory cannot be opened). *)
Definition delete_all_handler (E : env) (dir : option (list Listing.dirent))
    (w : world) : esp_err_t * world :=
  let w0 := log w (EvSetType (bs "application/json")) in
  if json_create_ok E then
    let w1 := log w0 (EvJsonCreate true) in
    match dir with
    | None =>
        send_json_delete_all_response E
          (error_json (bs "Could not open SD card directory.")) w1
    | Some entries =>
        let '(deleted_count, failed_count, w2) := unlink_entries E entries 0 0 w1 in
        send_json_delete_all_response E (delete_all_json deleted_count failed_count) w2
    end
  else
    (ESP_FAIL,
     log (log w0 (EvJsonCreate false))
         (EvSendErr (bs "500 Internal Server Error") (bs "JSON creation failed"))).

(** *** download_handler *)

(** [send_message_response] on the connection of the world. *)
Definition message (E : env) (title message_class message_text : bytes) (w : world)
    : esp_err_t * world :=
  let w1 := log w (EvSetType (bs "text/html")) in
  let '(r, c) :=
    send_message_response (send_ok E) (message_html E) title message_class
      message_text (out w1) in
  (r, set_out w1 c).

(** [fread(file_buf, 1, sizeof(file_buf), file)] with [rest] the bytes of
    the file behind the position of the stream: the bytes read.  A read
    that fails returns nothing. *)
Definition fread (E : env) (w : world) (rest : bytes) : bytes * world :=
  let block := if fread_ok E (freads w) then firstn 1024 rest else [] in
  (block, mkWorld (files w) (out w) (mallocs w) (S (freads w)) (trace w)).

(** The [do ... while (read_bytes > 0)] loop.  [None]: the loop has not
    come to its end within [fuel] passes. *)
Fixpoint send_file (E : env) (fuel : nat) (rest : bytes) (w : world)
    : option (esp_err_t * world) :=
  match fuel with
  | O => None
  | S f =>
      let '(block, w1) := fread E w rest in
      if (0 <? length block)%nat then
        match httpd_resp_send_chunk (send_ok E) (out w1) block with
        | (ESP_FAIL, c) => Some (ESP_FAIL, set_out w1 c)
        | (ESP_OK, c) => send_file E f (skipn (length block) rest) (set_out w1 c)
        end
      else Some (ESP_OK, w1)
  end.

Definition content_disposition (decoded_filename : bytes) : bytes :=
  snprintf 179 (bs "attachment; filename=" ++ [Upload.dq] ++ cstr decoded_filename
                ++ [Upload.dq]).

Definition download_handler (E : env) (req : request) (w : world)
    : option (esp_err_t * world) :=
  let query_buf_len := Listing.sz (url_query_len req + 1) in
  if query_buf_len <=? 1 then
    Some (message E (bs "Greska preuzimanja") (bs "error")
            (bs "Nedostaje parametar datoteke za preuzimanje.") w)
  else
    match malloc E w query_buf_len with
    | (false, w1) =>
        Some (message E (bs "Greska preuzimanja") (bs "error")
                (bs "Interna greska servera (memorija).") w1)
    | (true, w1) =>
        let w2 := log w1 EvFree in
        match (if url_query_str_ok req then file_value req else None) with
        | None =>
            Some (message E (bs "Greška preuzimanja") (bs "error")
                    (bs "Nevažeći parametar datoteke.") w2)
        | Some filename_query =>
            match Decode.url_decode (Some filename_query) 129 with
            | (ESP_FAIL, _) =>
                Some (message E (bs "Greska preuzimanja") (bs "error")
                        (bs "Greska pri dekodiranju imena datoteke za preuzimanje.") w2)
            | (ESP_OK, decoded_filename) =>
                let filepath :=
                  Path.build_filepath Path.FILE_PATH_MAX Path.MOUNT_POINT
                    (Some decoded_filename) in
                match files w2 !! filepath with
                | Some content =>
                    if fopen_ok E filepath then
                      let w3 := log w2 (EvFopen filepath (bs "rb") true) in
                      let w4 :=
                        log w3 (EvSetHdr (bs "Content-Disposition")
                                  (content_disposition decoded_filename)) in
                      match send_file E (S (length content)) content w4 with
                      | None => None
                      | Some (ESP_FAIL, w5) => Some (ESP_FAIL, log w5 (EvFclose filepath))
                      | Some (ESP_OK, w5) =>
                          match httpd_resp_send_chunk (send_ok E) (out w5) [] with
                          | (r, c) => Some (r, log (set_out w5 c) (EvFclose filepath))
                          end
                      end
                    else
                      Some (message E (bs "Greska preuzimanja") (bs "error")
                              (snprintf 229
                                 (bs "Datoteka '" ++ cstr decoded_filename
                                  ++ bs "' nije pronadjena ili se ne moze otvoriti."))
                              (log w2 (EvFopen filepath (bs "rb") false)))
                | None =>
                    Some (message E (bs "Greska preuzimanja") (bs "error")
                            (snprintf 229
                               (bs "Datoteka '" ++ cstr decoded_filename
                                ++ bs "' nije pronadjena ili se ne moze otvoriti."))
                            (log w2 (EvFopen filepath (bs "rb") false)))
                end
            end
        end
    end.

(** *** Observations on a trace *)

Definition is_json_delete (e : event) : bool :=
  match e with EvJsonDelete => true | _ => false end.

(** The number of [cJSON_Delete] calls in a trace. *)
Definition json_deletes (t : list event) : nat := length (List.filter is_json_delete t).

(** The [unlink] calls of a run of [delete_all_handler]: path and outcome. *)
Definition unlink_events (calls : list (bytes * bool)) : list event :=
  map (fun c => EvUnlink (fst c) (snd c)) calls.

Definition successes (calls : list (bytes * bool)) : Z :=
  Z.of_nat (length (List.filter (fun c => snd c) calls)).

Definition failures (calls : list (bytes * bool)) : Z :=
  Z.of_nat (length (List.filter (fun c => negb (snd c)) calls)).

(** The blocks of at most [n] bytes a file is read in ([n] is not 0). *)
Fixpoint blocks (fuel : nat) (n : nat) (content : bytes) : list bytes :=
  match fuel with
  | O => []
  | S f =>
      match content with
      | [] => []
      | _ :: _ => firstn n content :: blocks f n (skipn n content)
      end
  end.

End Files.

(** ** Observations on a chunked response *)

(** From connection [c] to connection [c'] the chunks [new] have been
    sent, one by each call of [httpd_resp_send_chunk] that succeeded, and
    with result [r]: either every call has succeeded, or the call after the
    last chunk is the one call that failed and no call has followed it. *)
Definition sends_in_order (send_ok : nat -> bool) (c c' : conn) (r : esp_err_t)
    (new : list bytes) : Prop :=
  sent c' = sent c ++ new /\
  (forall n, (sends c <= n < sends c + length new)%nat -> send_ok n = true) /\
  match r with
  | ESP_OK => sends c' = (sends c + length new)%nat
  | ESP_FAIL =>
      sends c' = (sends c + length new + 1)%nat /\
      send_ok (sends c + length new)%nat = false
  end.

(** A response that has been closed by the empty chunk after chunks that
    are not empty, or one that has been left open. *)
Definition closed_iff_ok (r : esp_err_t) (new : list bytes) : Prop :=
  match r with
  | ESP_OK => exists body, new = body ++ [[]] /\ Forall (fun ch => ch <> []) body
  | ESP_FAIL => Forall (fun ch => ch <> []) new
  end.

(** ** Observations on a run of the upload handler *)

Module Outcome.

Definition is_send (e : Upload.event) : bool :=
  match e with
  | Upload.EvSend _ _ _ | Upload.EvSendErr _ _ => true
  | _ => false
  end.

(** The path of the sink for a file name. *)
Definition sink_path (name : bytes) : bytes :=
  Path.build_filepath Path.FILE_PATH_MAX Path.MOUNT_POINT (Some name).

(** The file a pass of the receive loop may write to, for the locals at
    the head of the pass and the chunk it has read: the sink that is open,
    or the sink the pass opens for the name it finds in the chunk. *)
Definition dest (l : Upload.locals) (buf : bytes) : option bytes :=
  match Upload.fd l with
  | Some path => Some path
  | None =>
      match Upload.filename l with
      | Some _ => None
      | None =>
          match Upload.extract_filename buf with
          | inl name => Some (sink_path name)
          | inr _ => None
          end
      end
  end.

(** The bytes the first [httpd_req_recv] of the handler puts in the
    buffer. *)
Definition first_chunk (req : Upload.request) (w : Upload.world) : bytes :=
  snd (fst (Upload.next_chunk (Upload.transport w)
              (Z.min (Upload.int_of_size_t (Upload.content_len req))
                     (Upload.UPLOAD_BUFFER_SIZE - 1)))).

(** The file an upload may write to. *)
Definition destination (req : Upload.request) (w : Upload.world) : option bytes :=
  match Upload.extract_filename (first_chunk req w) with
  | inl name => Some (sink_path name)
  | inr _ => None
  end.

(** The replies of the handler: a JSON body under the status in force at
    entry, which is an error or the success; the conflict under the status
    409; or the plain error 500 when no JSON text can be made. *)
Definition reply_shape (E : Upload.env) (status0 : bytes) (reply : Upload.event) : Prop :=
  match reply with
  | Upload.EvSend status content_type root =>
      content_type = bs "application/json" /\
      ((status = status0 /\
        ((exists message, root = Upload.error_json message) \/
         (exists name, root = Upload.success_json name))) \/
       (status = bs "409 Conflict" /\ exists name, root = Upload.conflict_json name))
  | Upload.EvSendErr status _ =>
      status = bs "500 Internal Server Error" /\ Upload.json_print_ok E = false
  | _ => False
  end.

(** From [w] to [w1] no file has changed but, at most, the file [D]; no
    reply has been sent, and the content type is what it was. *)
Definition changes_only (D : option bytes) (w w1 : Upload.world) : Prop :=
  Upload.resp_type w1 = Upload.resp_type w /\
  (forall q, Some q <> D -> Upload.files w1 !! q = Upload.files w !! q) /\
  exists evs,
    Upload.trace w1 = Upload.trace w ++ evs /\
    Forall (fun e => is_send e = false) evs.

(** The reply a pass has prepared when it leaves the loop: an error under
    the status in force at entry, or the conflict under the status 409. *)
Definition prepared (status0 : bytes) (l : Upload.locals) (w : Upload.world) : Prop :=
  (Upload.resp_status w = status0 /\
   exists message, Upload.root_json l = Some (Upload.error_json message)) \/
  (Upload.resp_status w = bs "409 Conflict" /\
   exists name, Upload.root_json l = Some (Upload.conflict_json name)).

End Outcome.

(** ** Observations on the listing *)

Module Rows.

(** The entries the listing has a row for. *)
Definition is_regular (e : Listing.dirent) : bool :=
  match Listing.d_type e with
  | Listing.DT_REG => true
  | _ => false
  end.

(** The rows of the regular files of a directory, in its order. *)
Definition all_rows (d_name_size : Z) (entries : list Listing.dirent) : bytes :=
  concat (map (Listing.row_text d_name_size) (List.filter is_regular entries)).

End Rows.

(** ** The log file of the logging task: open_next_log_file (main.c) and
    get_current_log_file_name, current_log_file_handler *)

Module Logfile.

Definition MAX_LOG_FILE_PATH_LEN : nat := 128.

(** The card, the global [g_current_log_filepath] and whether
    [g_log_file_path_mutex] has been created. *)
Record state := mkState {
  files : gmap bytes bytes;
  g_current_log_filepath : bytes;
  g_log_file_path_mutex : bool
}.

(** The parts of the platform that may fail: [fopen] for reading of a
    file that is there, [fopen] for writing, and taking the mutex within
    the timeout. *)
Record env := mkEnv {
  fopen_r_ok : bytes -> bool;
  fopen_w_ok : bytes -> bool;
  take_ok : bool
}.

Definition CSV_HEADER : bytes :=
  bs "timestamp;adc0;adc1;adc2;adc3;adc4;adc5;adc6;adc7" ++ [LF].

(** [snprintf(out_path, path_len, MOUNT_POINT "/log_%d.csv", i)] *)
Definition log_path (path_len : nat) (i : Z) : bytes :=
  snprintf path_len (bs "/sdcard/log_" ++ Files.decimal i ++ bs ".csv").

(** [fopen(out_path, "r")] gives a stream. *)
Definition opens_for_reading (E : env) (s : state) (path : bytes) : bool :=
  match files s !! path with
  | Some _ => fopen_r_ok E path
  | None => false
  end.

(** The store of the name under the mutex. *)
Definition publish (E : env) (s : state) (out_path : bytes) : state :=
  if g_log_file_path_mutex s && take_ok E
  then mkState (files s) (firstn (MAX_LOG_FILE_PATH_LEN - 1) (cstr out_path))
               (g_log_file_path_mutex s)
  else s.

(** The [for] loop from index [i] on, with [n] indices left to try.  The
    result is the stream returned (the path it is open on), what is left
    in [out_path], and the state. *)
Fixpoint open_loop (E : env) (path_len : nat) (n : nat) (i : Z) (out_path : bytes)
    (s : state) : option bytes * bytes * state :=
  match n with
  | O => (None, out_path, s)
  | S n' =>
      let out_path := log_path path_len i in
      if opens_for_reading E s out_path then
        open_loop E path_len n' (i + 1) out_path s
      else if fopen_w_ok E out_path then
        let s1 := mkState (<[out_path := CSV_HEADER]> (files s))
                          (g_current_log_filepath s) (g_log_file_path_mutex s) in
        (Some out_path, out_path, publish E s1 out_path)
      else (None, out_path, s)
  end.

(** [open_next_log_file(out_path, path_len)]: indices 1 to 999. *)
Definition open_next_log_file (E : env) (path_len : nat) (out_path : bytes) (s : state)
    : option bytes * bytes * state :=
  open_loop E path_len 999 1 out_path s.

(** [get_current_log_file_name] of web_server.c. *)
Definition get_current_log_file_name (E : env) (s : state) : bytes :=
  if g_log_file_path_mutex s then
    if take_ok E then g_current_log_filepath s else bs "N/A (Mutex Busy)"
  else bs "N/A (Mutex Missing)".

(** [current_log_file_handler]: the content type it sets and the body it
    sends. *)
Definition current_log_file_handler (E : env) (s : state) : esp_err_t * bytes * bytes :=
  (ESP_OK, bs "text/plain", cstr (get_current_log_file_name E s)).

End Logfile.

(** ** The WS2812 frame (main/ws2812.c) *)

Module Ws2812.

(** The four fields of an [rmt_item32_t] that the driver sets. *)
Record rmt_item32_t := mkItem {
  duration0 : Z;
  level0 : Z;
  duration1 : Z;
  level1 : Z
}.

(** The item written for a bit that is set: HIGH for 32 ticks, LOW for
    18; and for a bit that is clear: HIGH for 16 ticks, LOW for 34. *)
Definition one_item : rmt_item32_t := mkItem 32 1 18 0.
Definition zero_item : rmt_item32_t := mkItem 16 1 34 0.

(** [((uint32_t)green << 16) | ((uint32_t)red << 8) | blue] *)
Definition color_word (red green blue : Z) : Z :=
  Z.lor (Z.lor (Z.shiftl green 16) (Z.shiftl red 8)) blue.

(** The body of the loop at index [i]: what [ws2812_bits[i]] becomes. *)
Definition bit_item (color i : Z) : rmt_item32_t :=
  if negb (Z.land color (Z.shiftl 1 (23 - i)) =? 0) then one_item else zero_item.

(** The [for] loop from [i] on, with [n] indices left, over the static
    array [ws2812_bits]. *)
Fixpoint fill (n : nat) (i : Z) (color : Z) (ws2812_bits : list rmt_item32_t)
    : list rmt_item32_t :=
  match n with
  | O => ws2812_bits
  | S n' => fill n' (i + 1) color (<[Z.to_nat i := bit_item color i]> ws2812_bits)
  end.

(** [ws2812_set_color]: the array after the loop, whose first 24 items
    are handed to [rmt_write_items]; the result is the array and the
    items sent. *)
Definition ws2812_set_color (red green blue : Z) (ws2812_bits : list rmt_item32_t)
    : list rmt_item32_t * list rmt_item32_t :=
  let color := color_word red green blue in
  let ws2812_bits := fill 24 0 color ws2812_bits in
  (ws2812_bits, firstn 24 ws2812_bits).

(** Reading a frame as the LED does: a pulse whose HIGH part is the
    longer one is a 1; eight pulses make a byte, first pulse first. *)
Definition pulse_bit (it : rmt_item32_t) : bool := duration1 it <? duration0 it.

Definition byte_of (pulses : list rmt_item32_t) : Z :=
  fold_left (fun acc it => 2 * acc + (if pulse_bit it then 1 else 0)) pulses 0.

(** One pulse as the WS2812 wants it: HIGH first, then LOW, 50 ticks
    (1.25 us at 25 ns a tick) in all. *)
Definition well_formed (it : rmt_item32_t) : Prop :=
  level0 it = 1 /\ level1 it = 0 /\ duration0 it + duration1 it = 50.

(** The value of the low eight bits of [a], highest first. *)
Definition bits_value (a : Z) : Z :=
  fold_left (fun acc (b : bool) => 2 * acc + (if b then 1 else 0))
    [Z.testbit a 7; Z.testbit a 6; Z.testbit a 5; Z.testbit a 4;
     Z.testbit a 3; Z.testbit a 2; Z.testbit a 1; Z.testbit a 0] 0.

End Ws2812.

(** ** The logging task (main/main.c) and the logging flags (web_server.c) *)

Module Task.

Definition NUM_CHANNELS : nat := 8.
Definition ESP_ERR_INVALID_ARG : Z := 258.

Section Task.

(** The platform's [float], the product
    [(float)raw_adc * VOLTS_PER_BIT * scaling_factor] and the text that
    [fprintf] gives for [%.6f]. *)
Variable float : Type.
Variable scaled : Z -> float -> float.
Variable printf_6f : float -> bytes.

(** What the task does that can be seen from outside the card:
    [vTaskDelay], [rmt_write_items] and [fclose]. *)
Inductive event :=
| EvDelay (ms : Z)
| EvRmt (items : list Ws2812.rmt_item32_t)
| EvFclose (path : bytes).

(** The globals: the card with [g_current_log_filepath] and its mutex
    (main.c), [logging_mutex], [logging_active] and [last_voltages]
    (web_server.c), [ws2812_bits] (ws2812.c). *)
Record globals := mkGlobals {
  card : Logfile.state;
  logging_mutex : bool;
  logging_active : bool;
  last_voltages : list float;
  ws2812_bits : list Ws2812.rmt_item32_t;
  trace : list event
}.

(** The locals of [ads1115_log_task]; [file] is the path the stream is
    open on. *)
Record locals := mkLocals {
  final_values : list float;
  log_path : bytes;
  file : option bytes
}.

(** What one cycle of the task meets: the raw readings of the two
    converters by channel, the scaling factors of the settings, the tick
    count, whether a mutex can be created and taken (without a timeout,
    within 10 ms), and the card's behaviour. *)
Record env := mkEnv {
  raw1 : Z -> Z;
  raw2 : Z -> Z;
  scaling_factor : Z -> float;
  tick_count : Z;
  portTICK_PERIOD_MS : Z;
  create_ok : bool;
  take_forever_ok : bool;
  take_10ms_ok : bool;
  sd : Logfile.env
}.

Definition set_card (s : Logfile.state) (g : globals) : globals :=
  mkGlobals s (logging_mutex g) (logging_active g) (last_voltages g) (ws2812_bits g)
            (trace g).

Definition log (evs : list event) (g : globals) : globals :=
  mkGlobals (card g) (logging_mutex g) (logging_active g) (last_voltages g)
            (ws2812_bits g) (trace g ++ evs).

Definition vTaskDelay (ms : Z) (g : globals) : globals := log [EvDelay ms] g.

(** *** The flags of web_server.c *)

(** [if (logging_mutex == NULL) logging_mutex = xSemaphoreCreateMutex();] *)
Definition ensure_mutex (E : env) (g : globals) : globals :=
  if logging_mutex g then g
  else mkGlobals (card g) (create_ok E) (logging_active g) (last_voltages g)
                 (ws2812_bits g) (trace g).

(** [set_last_voltages(voltages)]; [None] is the null pointer. *)
Definition set_last_voltages (E : env) (voltages : option (list float)) (g : globals)
    : globals :=
  match voltages with
  | Some v =>
      if logging_mutex g && take_10ms_ok E
      then mkGlobals (card g) (logging_mutex g) (logging_active g) (firstn 8 v)
                     (ws2812_bits g) (trace g)
      else g
  | None => g
  end.

(** [set_logging_active(active)]; [None] when the mutex could not be
    created, where [xSemaphoreTake] is handed a null handle. *)
Definition set_logging_active (E : env) (active : bool) (g : globals) : option globals :=
  let g := ensure_mutex E g in
  if logging_mutex g then
    Some (if take_forever_ok E
          then mkGlobals (card g) (logging_mutex g) active (last_voltages g)
                         (ws2812_bits g) (trace g)
          else g)
  else None.

(** [is_logging_enabled()] *)
Definition is_logging_enabled (E : env) (g : globals) : option (bool * globals) :=
  let g := ensure_mutex E g in
  if logging_mutex g then
    Some (if take_forever_ok E then logging_active g else false, g)
  else None.

(** [button_toggle_cb] of main.c. *)
Definition button_toggle_cb (E : env) (g : globals) : option globals :=
  match is_logging_enabled E g with
  | Some (enabled, g) => set_logging_active E (negb enabled) g
  | None => None
  end.

(** *** The LED *)

Definition ws2812_show (red green blue : Z) (g : globals) : globals :=
  let r := Ws2812.ws2812_set_color red green blue (ws2812_bits g) in
  mkGlobals (card g) (logging_mutex g) (logging_active g) (last_voltages g) (fst r)
            (trace g ++ [EvRmt (snd r); EvDelay 5]).

Definition ws2812_set_green (g : globals) : globals := ws2812_show 0 255 0 g.
Definition ws2812_set_red (g : globals) : globals := ws2812_show 255 0 0 g.

(** *** Writing a line *)

(** [xTaskGetTickCount() * portTICK_PERIOD_MS] as a [uint32_t]. *)
Definition get_timestamp_ms (E : env) : Z :=
  (tick_count E * portTICK_PERIOD_MS E) mod 2 ^ 32.

(** [fprintf] on the stream open on [path]: the text goes behind what the
    file holds.  A file that is no longer on the card is left out. *)
Definition fprintf (path text : bytes) (s : Logfile.state) : Logfile.state :=
  match Logfile.files s !! path with
  | Some content =>
      Logfile.mkState (<[path := content ++ text]> (Logfile.files s))
                      (Logfile.g_current_log_filepath s) (Logfile.g_log_file_path_mutex s)
  | None => s
  end.

(** [log_adc_to_sd(file, timestamp, values, count)]; [values] holds at
    least [count] values. *)
Definition log_adc_to_sd (file : option bytes) (timestamp : Z)
    (values : option (list float)) (count : nat) (s : Logfile.state)
    : Z * Logfile.state :=
  match file, values with
  | Some f, Some vs =>
      let s := fprintf f (Files.decimal timestamp) s in
      let s := fold_left (fun s v => fprintf f (bs ";" ++ printf_6f v) s)
                         (firstn count vs) s in
      let s := fprintf f [LF] s in
      (0, s)
  | _, _ => (ESP_ERR_INVALID_ARG, s)
  end.

(** *** One cycle of [ads1115_log_task] *)

(** The loop over the four channels of one converter, from channel [i]
    on with [n] channels left; [false] is the jump to
    [read_error_cycle]. *)
Fixpoint read_channels (n : nat) (i : Z) (raw : Z -> Z) (offset : Z)
    (factor : Z -> float) (final_values : list float) : bool * list float :=
  match n with
  | O => (true, final_values)
  | S n' =>
      let raw_adc := raw i in
      if raw_adc >? -32768 then
        read_channels n' (i + 1) raw offset factor
          (<[Z.to_nat (i + offset) := scaled raw_adc (factor (i + offset))]> final_values)
      else (false, final_values)
  end.

Definition set_final_values (v : list float) (t : locals) : locals :=
  mkLocals v (log_path t) (file t).

(** The store of ["N/A"] under the mutex when the file is closed. *)
Definition publish_na (E : env) (g : globals) : globals :=
  set_card (Logfile.publish (sd E) (card g) (bs "N/A")) g.

Definition log_values (E : env) (f : bytes) (t : locals) (g : globals) : globals :=
  set_card (snd (log_adc_to_sd (Some f) (get_timestamp_ms E) (Some (final_values t))
                   NUM_CHANNELS (card g))) g.

(** The body of the [while (1)] loop; [None] when the task stops on a
    null mutex. *)
Definition cycle (E : env) (g : globals) (t : locals) : option (globals * locals) :=
  let r1 := read_channels 4 0 (raw1 E) 0 (scaling_factor E) (final_values t) in
  if negb (fst r1) then Some (vTaskDelay 200 g, set_final_values (snd r1) t) else
  let r2 := read_channels 4 0 (raw2 E) 4 (scaling_factor E) (snd r1) in
  if negb (fst r2) then Some (vTaskDelay 200 g, set_final_values (snd r2) t) else
  let t := set_final_values (snd r2) t in
  let g := set_last_voltages E (Some (final_values t)) g in
  match is_logging_enabled E g with
  | None => None
  | Some (enabled, g) =>
      if enabled then
        match file t with
        | None =>
            let r := Logfile.open_next_log_file (sd E) Logfile.MAX_LOG_FILE_PATH_LEN
                       (log_path t) (card g) in
            let g := set_card (snd r) g in
            let t := mkLocals (final_values t) (snd (fst r)) (fst (fst r)) in
            match file t with
            | Some f =>
                let g := ws2812_set_green g in
                Some (vTaskDelay 10 (log_values E f t g), t)
            | None => Some (vTaskDelay 1000 g, t)
            end
        | Some f => Some (vTaskDelay 10 (log_values E f t g), t)
        end
      else
        match file t with
        | Some f =>
            let g := log [EvFclose f] g in
            let g := publish_na E g in
            let t := mkLocals (final_values t) (log_path t) None in
            let g := ws2812_set_red g in
            Some (vTaskDelay 10 g, t)
        | None => Some (vTaskDelay 10 g, t)
        end
  end.

(** The loop over the cycles, one [env] a cycle. *)
Fixpoint run (Es : list env) (g : globals) (t : locals) : option (globals * locals) :=
  match Es with
  | [] => Some (g, t)
  | E :: Es' =>
      match cycle E g t with
      | Some (g', t') => run Es' g' t'
      | None => None
      end
  end.

(** The values of a cycle whose readings are all good, and the line
    they make. *)
Definition readings (E : env) : list float :=
  map (fun i => scaled (raw1 E i) (scaling_factor E i)) [0; 1; 2; 3]
  ++ map (fun i => scaled (raw2 E i) (scaling_factor E (i + 4))) [0; 1; 2; 3].

Definition line (E : env) : bytes :=
  Files.decimal (get_timestamp_ms E)
  ++ concat (map (fun v => bs ";" ++ printf_6f v) (readings E)) ++ [LF].

Definition good (E : env) : Prop :=
  forall i, 0 <= i < 4 -> -32768 < raw1 E i /\ -32768 < raw2 E i.

End Task.

End Task.

(** ** The settings in NVS (components/web_server/settings.c) *)

Module Settings.

Definition NUM_CHANNELS : nat := 8.
Definition MAX_UNIT_LEN : nat := 10.

(** The error codes the module tells apart; [ESP_OK] is 0. *)
Definition ESP_ERR_INVALID_ARG : Z := 258.
Definition ESP_ERR_NVS_NOT_FOUND : Z := 4354.
Definition ESP_ERR_NVS_INVALID_LENGTH : Z := 4364.
Definition ESP_ERR_NVS_NO_FREE_PAGES : Z := 4365.
Definition ESP_ERR_NVS_NEW_VERSION_FOUND : Z := 4368.

Section Settings.

(** The platform's [float] and its [1.0f]. *)
Variable float : Type.
Variable one : float.

(** [channel_config_t]; [unit] is the whole array of [MAX_UNIT_LEN]
    bytes. *)
Record channel_config_t := mkConfig {
  scaling_factor : float;
  unit : bytes
}.

(** The two keys of the namespace [app_settings]: [log_on_boot] (a u8)
    and [chan_configs] (a blob, here the entries it holds; sizes are
    counted in entries). *)
Record nvs := mkNvs {
  log_on_boot : option Z;
  chan_configs : option (list channel_config_t)
}.

(** The flash and the array [channel_configs] in RAM. *)
Record state := mkState {
  flash : nvs;
  channel_configs : list channel_config_t
}.

(** The results of the NVS calls that can fail (0 is [ESP_OK]): the two
    calls of [nvs_flash_init], [nvs_flash_erase], [nvs_open] read-only
    and read-write, reading a key that is there, setting a key,
    [nvs_commit]; and whether a value set but not committed is in the
    flash all the same. *)
Record env := mkEnv {
  flash_init : Z;
  flash_erase : Z;
  flash_init_again : Z;
  open_readonly : Z;
  open_readwrite : Z;
  get_u8_err : Z;
  get_blob_err : Z;
  set_u8_err : Z;
  set_blob_err : Z;
  commit_err : Z;
  uncommitted_kept : bool
}.

(** *** The NVS calls *)

Definition nvs_get_u8 (E : env) (f : nvs) (val : Z) : Z * Z :=
  match log_on_boot f with
  | None => (ESP_ERR_NVS_NOT_FOUND, val)
  | Some v => if get_u8_err E =? 0 then (0, v) else (get_u8_err E, val)
  end.

(** [nvs_get_blob(handle, key, out, &length)]: a blob that fits is
    copied over the start of [out] and [length] becomes its size. *)
Definition nvs_get_blob (E : env) (f : nvs) (out : list channel_config_t) (length : nat)
    : Z * list channel_config_t * nat :=
  match chan_configs f with
  | None => (ESP_ERR_NVS_NOT_FOUND, out, length)
  | Some b =>
      if get_blob_err E =? 0 then
        if (List.length b <=? length)%nat
        then (0, b ++ skipn (List.length b) out, List.length b)
        else (ESP_ERR_NVS_INVALID_LENGTH, out, length)
      else (get_blob_err E, out, length)
  end.

(** A value set, and what the flash holds after [nvs_commit] and
    [nvs_close]. *)
Definition committed (E : env) (old new : nvs) : Z * nvs :=
  if commit_err E =? 0 then (0, new)
  else (commit_err E, if uncommitted_kept E then new else old).

(** *** settings.c *)

(** [snprintf(unit, MAX_UNIT_LEN, "V")] on the array [unit]. *)
Definition write_unit (text : bytes) (unit : bytes) : bytes :=
  let s := snprintf MAX_UNIT_LEN text in
  s ++ [NUL] ++ skipn (List.length s + 1) unit.

(** The loop of [set_default_channel_configs] from index [i] on. *)
Fixpoint default_loop (n : nat) (i : nat) (configs : list channel_config_t)
    : list channel_config_t :=
  match n with
  | O => configs
  | S n' =>
      let configs :=
        match configs !! i with
        | Some c => <[i := mkConfig one (write_unit (bs "V") (unit c))]> configs
        | None => configs
        end in
      default_loop n' (S i) configs
  end.

Definition set_default_channel_configs (st : state) : state :=
  mkState (flash st) (default_loop NUM_CHANNELS 0 (channel_configs st)).

(** [settings_init]; [None] when [ESP_ERROR_CHECK] stops the program.
    The read of [log_on_boot] in it only logs and is left out. *)
Definition settings_init (E : env) (st : state) : option state :=
  let err := flash_init E in
  let first :=
    if (err =? ESP_ERR_NVS_NO_FREE_PAGES) || (err =? ESP_ERR_NVS_NEW_VERSION_FOUND) then
      if flash_erase E =? 0
      then Some (flash_init_again E, mkState (mkNvs None None) (channel_configs st))
      else None
    else Some (err, st) in
  match first with
  | None => None
  | Some (err, st) =>
      if negb (err =? 0) then None
      else if negb (open_readonly E =? 0) then Some (set_default_channel_configs st)
      else
        let r := nvs_get_blob E (flash st) (channel_configs st) NUM_CHANNELS in
        let err := fst (fst r) in
        let st := mkState (flash st) (snd (fst r)) in
        let required_size := snd r in
        if negb (err =? 0) || negb (required_size =? NUM_CHANNELS)%nat
        then Some (set_default_channel_configs st)
        else Some st
  end.

(** [settings_get_log_on_boot] *)
Definition settings_get_log_on_boot (E : env) (st : state) : bool :=
  if negb (open_readonly E =? 0) then false
  else negb (snd (nvs_get_u8 E (flash st) 0) =? 0).

(** [settings_set_log_on_boot] *)
Definition settings_set_log_on_boot (E : env) (enabled : bool) (st : state) : state :=
  if negb (open_readwrite E =? 0) then st
  else if set_u8_err E =? 0 then
    let new := mkNvs (Some (if enabled then 1 else 0)) (chan_configs (flash st)) in
    mkState (snd (committed E (flash st) new)) (channel_configs st)
  else st.

(** [settings_get_channel_configs] *)
Definition settings_get_channel_configs (st : state) : list channel_config_t :=
  channel_configs st.

(** [settings_save_channel_configs]; [None] is the null pointer, and
    [configs] holds at least [NUM_CHANNELS] entries. *)
Definition settings_save_channel_configs (E : env)
    (configs : option (list channel_config_t)) (st : state) : Z * state :=
  match configs with
  | None => (ESP_ERR_INVALID_ARG, st)
  | Some configs =>
      if negb (open_readwrite E =? 0) then (open_readwrite E, st)
      else if set_blob_err E =? 0 then
        let new := mkNvs (log_on_boot (flash st)) (Some (firstn NUM_CHANNELS configs)) in
        let r := committed E (flash st) new in
        if fst r =? 0
        then (0, mkState (snd r) (firstn NUM_CHANNELS configs))
        else (fst r, mkState (snd r) (channel_configs st))
      else (set_blob_err E, st)
  end.

(** A channel at its default: factor 1.0 and the unit [V]. *)
Definition is_default (c : channel_config_t) : Prop :=
  scaling_factor c = one /\ cstr (unit c) = bs "V".

End Settings.

End Settings.

(** ** The logging switch of the web interface (web_server.c) *)

Module LogApi.

Section LogApi.

Variable float : Type.

(** The request: the query string of its URL, if it has one, and the
    value of the key [active] in that string, if it has that key. *)
Record request := mkRequest {
  url_query : option bytes;
  active_param : option bytes
}.

(** [httpd_req_get_url_query_str(req, query, buf_len)] when it returns
    [ESP_OK]: the query string, when there is one and it fits the buffer
    with its NUL (otherwise the call reports that it is missing or was
    truncated). *)
Definition httpd_req_get_url_query_str (req : request) (buf_len : nat) : option bytes :=
  match url_query req with
  | Some query => if (length query <? buf_len)%nat then Some query else None
  | None => None
  end.

(** [httpd_query_key_value(query, "active", val, val_size)] when it
    returns [ESP_OK]: the value of the key, when the key is there and the
    value fits the buffer with its NUL. *)
Definition httpd_query_key_value (req : request) (val_size : nat) : option bytes :=
  match active_param req with
  | Some val => if (length val <? val_size)%nat then Some val else None
  | None => None
  end.

(** The reply: what the handler returns, the content type it sets and
    the body it sends. *)
Record reply := mkReply {
  ret : esp_err_t;
  content_type : bytes;
  body : bytes
}.

Definition quote : bytes := ["034"%char].

(** [log_status_get_handler]; [None] when the task stops on a null
    mutex. *)
Definition log_status_get_handler (E : Task.env float) (g : Task.globals float)
    : option (reply * Task.globals float) :=
  match Task.is_logging_enabled float E g with
  | Some (log_active, g) =>
      let resp :=
        snprintf 32 (bs "{" ++ quote ++ bs "active" ++ quote ++ bs ":"
                     ++ Files.decimal (if log_active then 1 else 0) ++ bs "}") in
      Some (mkReply ESP_OK (bs "application/json") resp, g)
  | None => None
  end.

(** [log_toggle_handler], with [char query[16]] and [char val[4]]. *)
Definition log_toggle_handler (E : Task.env float) (req : request)
    (g : Task.globals float) : option (reply * Task.globals float) :=
  let resp := bs "{" ++ quote ++ bs "status" ++ quote ++ bs ":"
              ++ quote ++ bs "ok" ++ quote ++ bs "}" in
  let g' :=
    match httpd_req_get_url_query_str req 16 with
    | Some query =>
        match httpd_query_key_value req 4 with
        | Some val =>
            let active := bytes_eqb (cstr val) (bs "1") in
            Task.set_logging_active float E active g
        | None => Some g
        end
    | None => Some g
    end in
  match g' with
  | Some g' => Some (mkReply ESP_OK (bs "application/json") resp, g')
  | None => None
  end.

(** The body of [/log_status] for a logging state. *)
Definition status_body (active : bool) : bytes :=
  bs "{" ++ quote ++ bs "active" ++ quote ++ bs ":"
  ++ bs (if active then "1" else "0") ++ bs "}".

End LogApi.

End LogApi.

(** ** Example data *)

Definition example_message_html : bytes :=
  bs "<title>%%MESSAGE_TITLE%%</title><p class='%%MESSAGE_CLASS%%'>%%MESSAGE_TEXT%% (%%MESSAGE_TITLE%%)</p>".

(** A directory of fourteen regular files with one-letter names. *)
Definition example_entry (name : string) : Listing.dirent :=
  Listing.mkDirent (bs name ++ [NUL]) Listing.DT_REG.

Definition example_directory : list Listing.dirent :=
  map example_entry
    ["a"; "b"; "c"; "d"; "e"; "f"; "g"; "h"; "i"; "j"; "k"; "l"; "m"; "n"]%string.

Definition always_ok : nat -> Z -> bool := fun _ _ => true.

(** The allocator that refuses every [realloc]. *)
Definition never_ok : nat -> Z -> bool := fun _ _ => false.

Definition example_list_html : bytes := bs "<table>%%FILE_LIST_ROWS%%</table>".

(** The upload of the specification's example: boundary [X], a file
    [a.txt] that holds [hello]. *)
Definition example_headers : bytes :=
  bs "--X" ++ CRLF ++ bs "Content-Disposition: form-data; name=" ++ [Upload.dq]
  ++ bs "filetoupload" ++ [Upload.dq] ++ bs "; filename=" ++ [Upload.dq]
  ++ bs "a.txt" ++ [Upload.dq] ++ CRLFCRLF.

Definition example_body : bytes :=
  example_headers ++ bs "hello" ++ CRLF ++ bs "--X--" ++ CRLF.

Definition example_env : Upload.env :=
  Upload.mkEnv (fun _ _ => true) (fun _ => true) (bs "I/O error") true.

Definition example_request (content_len : Z) : Upload.request :=
  Upload.mkRequest content_len (Some (bs "multipart/form-data; boundary=X")) 0 None.

Definition example_world (files : gmap bytes bytes) (tr : list Upload.incoming)
    : Upload.world :=
  Upload.mkWorld files tr (bs "200 OK") (bs "text/html") 0 [].

(** The same upload with an empty file. *)
Definition example_empty_body : bytes := example_headers ++ bs "--X--" ++ CRLF.

Definition flow_locals (fl : Upload.flow) (d : Upload.locals) : Upload.locals :=
  match fl with Upload.Continue l _ | Upload.Cleanup l _ => l | Upload.Unfinished => d end.

Definition flow_world (fl : Upload.flow) (d : Upload.world) : Upload.world :=
  match fl with Upload.Continue _ w | Upload.Cleanup _ w => w | Upload.Unfinished => d end.

(** A request that asks for the overwrite. *)
Definition example_overwrite_request (content_len : Z) : Upload.request :=
  Upload.mkRequest content_len (Some (bs "multipart/form-data; boundary=X")) 14
    (Some (bs "true")).

(** The chunks of a body: [pieces] are the parts of the stream behind the
    separator, as the reads cut it; the first of them arrives in the chunk
    that ends the headers [x]. *)
Definition attach (x : bytes) (pieces : list bytes) : list bytes :=
  match pieces with
  | q :: qs => (x ++ q) :: qs
  | [] => [x]
  end.

(** The part headers of the example without the separator that ends them. *)
Definition example_header_lines : bytes :=
  bs "--X" ++ CRLF ++ bs "Content-Disposition: form-data; name=" ++ [Upload.dq]
  ++ bs "filetoupload" ++ [Upload.dq] ++ bs "; filename=" ++ [Upload.dq]
  ++ bs "a.txt" ++ [Upload.dq].

(** The example body as two reads cut it between the line end that closes
    the payload and the boundary: neither the separator nor the boundary
    token is split. *)
Definition example_split_body : list bytes :=
  [example_headers ++ bs "hello" ++ CRLF; bs "--X--" ++ CRLF].

(** A one-chunk body whose payload is the three bytes a, NUL, b. *)
Definition example_nul_payload : bytes := [ascii_of_nat 97; NUL; ascii_of_nat 98].

Definition example_nul_body : bytes :=
  example_headers ++ example_nul_payload ++ CRLF ++ bs "--X--" ++ CRLF.

(** Example data for the file handlers: a platform on which nothing
    fails, one on which the JSON reply cannot be printed, and a world with
    the given files and nothing sent. *)
Definition example_files_env : Files.env :=
  Files.mkEnv (fun _ _ => true) true true (fun _ => true) (fun _ => true)
              (fun _ => true) (fun _ => true) (bs "No such file or directory")
              example_message_html.

Definition example_files_env_no_print : Files.env :=
  Files.mkEnv (fun _ _ => true) true false (fun _ => true) (fun _ => true)
              (fun _ => true) (fun _ => true) (bs "No such file or directory")
              example_message_html.

Definition example_files_world (files : gmap bytes bytes) : Files.world :=
  Files.mkWorld files (mkConn [] 0) 0 0 [].

(** A card with two files, a directory and the system directory entry as
    a file. *)
Definition example_card : list Listing.dirent :=
  [Listing.mkDirent (bs "a.csv") Listing.DT_REG;
   Listing.mkDirent (bs "logs") Listing.DT_DIR;
   Listing.mkDirent (bs "System Volume Information") Listing.DT_REG;
   Listing.mkDirent (bs "b.csv") Listing.DT_REG].

(** A file of 1500 bytes, and a platform whose second send fails. *)
Definition example_long_content : bytes := repeat "x"%char 1500.

Definition example_files_env_drop : Files.env :=
  Files.mkEnv (fun _ _ => true) true true (fun _ => true) (fun _ => true)
              (fun _ => true) (fun n => (n <? 1)%nat) (bs "No such file or directory")
              example_message_html.

Definition example_download_request : Files.request :=
  Files.mkRequest 10 true (Some (bs "a.csv")).

(** A card that holds the first two logs, with the mutex created, and a
    platform on which nothing fails. *)
Definition example_log_state : Logfile.state :=
  Logfile.mkState
    (<[bs "/sdcard/log_1.csv" := bs "old 1"]> (<[bs "/sdcard/log_2.csv" := bs "old 2"]> ∅))
    (bs "N/A") true.

Definition example_log_env : Logfile.env :=
  Logfile.mkEnv (fun _ => true) (fun _ => true) true.

(** The static array [ws2812_bits] before the first call. *)
Definition example_ws2812_bits : list Ws2812.rmt_item32_t :=
  repeat (Ws2812.mkItem 0 0 0 0) 24.

(** A task whose values are integers (microvolts), a platform on which
    nothing fails, and readings of which one is the error value. *)
Definition example_task_env (ticks : Z) : Task.env Z :=
  Task.mkEnv Z (fun i => 100 + i) (fun i => 200 + i) (fun _ => 1) ticks 10
    true true true example_log_env.

Definition example_task_env_bad : Task.env Z :=
  Task.mkEnv Z (fun i => 100 + i) (fun i => if i =? 2 then -32768 else 200 + i)
    (fun _ => 1) 7 10 true true true example_log_env.

Definition example_task_globals (active : bool) : Task.globals Z :=
  Task.mkGlobals Z example_log_state true active (repeat 0 8) example_ws2812_bits [].

Definition example_task_locals (file : option bytes) : Task.locals Z :=
  Task.mkLocals Z (repeat 0 8) [] file.

(** Settings whose factors are integers: an empty flash with the RAM
    array zeroed, eight channels in millivolts, and a platform on which
    no NVS call fails. *)
Definition example_settings_state : Settings.state Z :=
  Settings.mkState Z (Settings.mkNvs Z None None)
    (repeat (Settings.mkConfig Z 0 (repeat NUL 10)) 8).

Definition example_configs : list (Settings.channel_config_t Z) :=
  repeat (Settings.mkConfig Z 1000 (bs "mV" ++ repeat NUL 8)) 8.

Definition example_settings_env : Settings.env :=
  Settings.mkEnv 0 0 0 0 0 0 0 0 0 0 false.

(** The requests [/log?active=1] and [/log?active=true]. *)
Definition example_log_request : LogApi.request :=
  LogApi.mkRequest (Some (bs "active=1")) (Some (bs "1")).

Definition example_log_request_true : LogApi.request :=
  LogApi.mkRequest (Some (bs "active=true")) (Some (bs "true")).

(** ** Facts about C strings and substring search *)

Lemma ascii_eqb_true (a b : ascii) : Ascii.eqb a b = true <-> a = b.
Proof. apply Ascii.eqb_eq. Qed.

Lemma ascii_eqb_false (a b : ascii) : Ascii.eqb a b = false <-> a <> b.
Proof. apply Ascii.eqb_neq. Qed.

Lemma is_prefix_spec (p s : bytes) :
  is_prefix p s = true <-> exists t, s = p ++ t.
Proof.
  revert s; induction p as [|a p IH]; intros s; simpl.
  - split; [intros _; exists s; reflexivity | reflexivity].
  - destruct s as [|b s].
    + split; [discriminate | intros [t Ht]; discriminate].
    + rewrite andb_true_iff, ascii_eqb_true, IH. split.
      * intros [-> [t ->]]. exists t. reflexivity.
      * intros [t Ht]. injection Ht as -> ->. split; [reflexivity | exists t; reflexivity].
Qed.

Lemma is_prefix_app (p t : bytes) : is_prefix p (p ++ t) = true.
Proof. apply is_prefix_spec. exists t. reflexivity. Qed.

Lemma is_prefix_nil_r (p : bytes) : is_prefix p [] = true -> p = [].
Proof. destruct p; [reflexivity | discriminate]. Qed.

Lemma find_sub_cons (n : bytes) (c : ascii) (h : bytes) :
  find_sub n (c :: h) =
  if is_prefix n (c :: h) then Some 0%nat else option_map S (find_sub n h).
Proof. reflexivity. Qed.

(** A hit of [find_sub] splits the haystack around the needle. *)
Lemma find_sub_Some (n h : bytes) (i : nat) :
  find_sub n h = Some i ->
  exists post, h = firstn i h ++ n ++ post /\ length (firstn i h) = i.
Proof.
  revert i; induction h as [|c h IH]; intros i; simpl.
  - destruct (is_prefix n []) eqn:E; [|discriminate].
    intros [= <-]. apply is_prefix_nil_r in E. subst n. exists []. split; reflexivity.
  - destruct (is_prefix n (c :: h)) eqn:E.
    + intros [= <-]. apply is_prefix_spec in E. destruct E as [t Ht].
      exists t. split; [exact Ht | reflexivity].
    + destruct (find_sub n h) as [j|] eqn:F; [|discriminate].
      intros [= <-]. destruct (IH j eq_refl) as [post [Hh Hl]].
      exists post. simpl. split; [f_equal; exact Hh | f_equal; exact Hl].
Qed.

(** A miss of [find_sub] means the needle occurs nowhere. *)
Lemma find_sub_None (n h : bytes) :
  find_sub n h = None -> ~ contains n h.
Proof.
  induction h as [|c h IH]; simpl.
  - destruct (is_prefix n []) eqn:E; [discriminate|].
    intros _ [pre [post H]].
    destruct pre; [|discriminate]. destruct n; [discriminate E | discriminate H].
  - destruct (is_prefix n (c :: h)) eqn:E; [discriminate|].
    destruct (find_sub n h) eqn:F; [discriminate|].
    intros _ [pre [post H]]. destruct pre as [|a pre].
    + simpl in H. rewrite H, is_prefix_app in E. discriminate.
    + injection H as -> H. apply IH; [reflexivity|]. exists pre, post. exact H.
Qed.

Lemma find_sub_None_iff (n h : bytes) :
  find_sub n h = None <-> ~ contains n h.
Proof.
  split; [apply find_sub_None|].
  intros H. destruct (find_sub n h) as [i|] eqn:F; [|reflexivity].
  exfalso. apply H. destruct (find_sub_Some _ _ _ F) as [post [Hh _]].
  exists (firstn i h), post. exact Hh.
Qed.

(** The needle does not start at any offset before the first hit. *)
Lemma find_sub_first (n h : bytes) (i j : nat) :
  find_sub n h = Some i -> (j < i)%nat -> is_prefix n (skipn j h) = false.
Proof.
  revert i j; induction h as [|c h IH]; intros i j; simpl.
  - destruct (is_prefix n []); [intros [= <-]; lia | discriminate].
  - destruct (is_prefix n (c :: h)) eqn:E; [intros [= <-]; lia|].
    destruct (find_sub n h) as [k|] eqn:F; [|discriminate].
    intros [= <-] Hj. destruct j as [|j]; [exact E|].
    simpl. apply (IH k); [reflexivity | lia].
Qed.

(** Searching past a prefix in which the needle starts nowhere. *)
Lemma find_sub_skip (n pre h : bytes) :
  (forall j, (j < length pre)%nat -> is_prefix n (skipn j (pre ++ h)) = false) ->
  find_sub n (pre ++ h) = option_map (Nat.add (length pre)) (find_sub n h).
Proof.
  induction pre as [|c pre IH]; intros H; simpl app.
  - destruct (find_sub n h); reflexivity.
  - rewrite find_sub_cons.
    assert (H0 := H 0%nat ltac:(simpl; lia)). simpl in H0. rewrite H0.
    rewrite IH.
    + destruct (find_sub n h); reflexivity.
    + intros j Hj. apply (H (S j)). simpl. lia.
Qed.

Lemma find_sub_here (n t : bytes) (pre : bytes) :
  (forall j, (j < length pre)%nat -> is_prefix n (skipn j (pre ++ n ++ t)) = false) ->
  find_sub n (pre ++ n ++ t) = Some (length pre).
Proof.
  intros H. rewrite find_sub_skip by exact H.
  destruct (n ++ t) as [|c r] eqn:E.
  - apply app_eq_nil in E. destruct E as [-> ->]. simpl. f_equal. lia.
  - rewrite find_sub_cons, <- E, is_prefix_app. simpl. f_equal. lia.
Qed.

Lemma in_skipn (x : ascii) (n : nat) (l : bytes) : In x (skipn n l) -> In x l.
Proof.
  revert l; induction n as [|n IH]; intros l H; [exact H|].
  destruct l as [|a l]; [exact H|]. right. apply IH, H.
Qed.

Lemma in_firstn (x : ascii) (n : nat) (l : bytes) : In x (firstn n l) -> In x l.
Proof.
  revert l; induction n as [|n IH]; intros l H; [destruct H|].
  destruct l as [|a l]; [exact H|]. destruct H as [H|H]; [left; exact H|].
  right. apply IH, H.
Qed.

Lemma nul_free_spec (b : bytes) : nul_free b = true -> ~ In NUL b.
Proof.
  unfold nul_free. rewrite forallb_forall. intros H Hin.
  specialize (H NUL Hin). discriminate.
Qed.

Lemma cstr_no_nul (b : bytes) : ~ In NUL b -> cstr b = b.
Proof.
  induction b as [|c b IH]; intros H; simpl; [reflexivity|].
  destruct (Ascii.eqb c NUL) eqn:E.
  - apply ascii_eqb_true in E. subst c. exfalso. apply H. left. reflexivity.
  - f_equal. apply IH. intros Hin. apply H. right. exact Hin.
Qed.

Lemma cstr_free (b : bytes) : ~ In NUL (cstr b).
Proof.
  induction b as [|c b IH]; simpl; [tauto|].
  destruct (Ascii.eqb c NUL) eqn:E; simpl; [tauto|].
  apply ascii_eqb_false in E. intros [H|H]; [congruence | tauto].
Qed.

Lemma cstr_app_no_nul (a b : bytes) : ~ In NUL a -> cstr (a ++ b) = a ++ cstr b.
Proof.
  induction a as [|c a IH]; intros H; simpl; [reflexivity|].
  destruct (Ascii.eqb c NUL) eqn:E.
  - apply ascii_eqb_true in E. subst c. exfalso. apply H. left. reflexivity.
  - f_equal. apply IH. intros Hin. apply H. right. exact Hin.
Qed.

Lemma cstr_is_prefix (b : bytes) : exists t, b = cstr b ++ t.
Proof.
  induction b as [|c b [t IH]]; simpl.
  - exists []. reflexivity.
  - destruct (Ascii.eqb c NUL); [exists (c :: b); reflexivity|].
    exists t. simpl. f_equal. exact IH.
Qed.

Lemma contains_cstr (n b : bytes) : contains n (cstr b) -> contains n b.
Proof.
  intros [pre [post H]]. destruct (cstr_is_prefix b) as [t Ht].
  exists pre, (post ++ t). rewrite Ht at 1. rewrite H.
  rewrite <- !app_assoc. reflexivity.
Qed.

(** A needle absent from the bytes is absent from the C string they hold. *)
Lemma find_sub_cstr_None (n b : bytes) :
  find_sub n b = None -> find_sub n (cstr b) = None.
Proof.
  rewrite !find_sub_None_iff. intros H Hc. apply H, contains_cstr, Hc.
Qed.

(** ** build_filepath: the sanitising loop *)

Section PathFacts.
Import Path.

Lemma is_prefix_dotdot (s : bytes) :
  is_prefix dotdot s =
  match s with a :: b :: _ => is_dot a && is_dot b | _ => false end.
Proof.
  change dotdot with ["."%char; "."%char]. unfold is_dot.
  destruct s as [|a [|b r]]; cbn [is_prefix].
  - reflexivity.
  - apply andb_false_r.
  - rewrite (Ascii.eqb_sym "."%char a), (Ascii.eqb_sym "."%char b), andb_true_r.
    reflexivity.
Qed.

Lemma is_prefix_dotdot_cons (c : ascii) (s : bytes) :
  is_prefix dotdot (c :: s) = is_dot c && head_is_dot s.
Proof. rewrite is_prefix_dotdot. destruct s; simpl; [rewrite andb_false_r|]; reflexivity. Qed.

Lemma poke2_cons (c : ascii) (s : bytes) (p : nat) :
  poke2 (c :: s) (S p) = c :: poke2 s p.
Proof. reflexivity. Qed.

Lemma head_is_dot_poke2 (s : bytes) (p : nat) :
  head_is_dot s = false -> head_is_dot (poke2 s p) = false.
Proof.
  destruct s as [|a s]; [reflexivity|].
  destruct p as [|p]; simpl; intros H; [reflexivity | exact H].
Qed.

(** A leading byte that starts no [..] is left alone by the whole loop. *)
Lemma sanitize_loop_cons (fuel : nat) (c : ascii) (s : bytes) :
  is_dot c && head_is_dot s = false ->
  sanitize_loop fuel (c :: s) = c :: sanitize_loop fuel s.
Proof.
  revert s; induction fuel as [|f IH]; intros s H; [reflexivity|].
  cbn [sanitize_loop]. rewrite find_sub_cons, is_prefix_dotdot_cons, H.
  destruct (find_sub dotdot s) as [p|]; cbn [option_map]; [|reflexivity].
  rewrite poke2_cons. apply IH.
  destruct (is_dot c); [|reflexivity].
  simpl in H |- *. apply head_is_dot_poke2, H.
Qed.

Lemma sanitize_loop_dotdot (f : nat) (r : bytes) :
  sanitize_loop (S f) ("."%char :: "."%char :: r) =
  "_"%char :: "_"%char :: sanitize_loop f r.
Proof.
  cbn [sanitize_loop]. rewrite find_sub_cons. simpl is_prefix. cbn iota.
  change (poke2 ("."%char :: "."%char :: r) 0) with ("_"%char :: "_"%char :: r).
  rewrite !sanitize_loop_cons by reflexivity. reflexivity.
Qed.

Lemma replace_dotdot_cons2 (a b : ascii) (r : bytes) :
  replace_dotdot (a :: b :: r) =
  if is_dot a && is_dot b then "_"%char :: "_"%char :: replace_dotdot r
  else a :: replace_dotdot (b :: r).
Proof. reflexivity. Qed.

Lemma is_dot_true (c : ascii) : is_dot c = true -> c = "."%char.
Proof. apply ascii_eqb_true. Qed.

(** The loop, given as many passes as the buffer has bytes, computes the
    left-to-right literal substitution. *)
Lemma sanitize_loop_replace (m : nat) :
  forall (s : bytes) (fuel : nat),
    (length s <= m)%nat -> (length s <= fuel)%nat ->
    sanitize_loop fuel s = replace_dotdot s.
Proof.
  induction m as [|m IH]; intros s fuel Hm Hf.
  - destruct s; [|simpl in Hm; lia]. destruct fuel; reflexivity.
  - destruct s as [|a [|b r]].
    + destruct fuel; reflexivity.
    + rewrite sanitize_loop_cons by (simpl; apply andb_false_r).
      destruct fuel; reflexivity.
    + rewrite replace_dotdot_cons2.
      destruct (is_dot a && is_dot b) eqn:E.
      * apply andb_true_iff in E. destruct E as [Ea Eb].
        apply is_dot_true in Ea, Eb. subst a b.
        destruct fuel as [|f]; [simpl in Hf; lia|].
        rewrite sanitize_loop_dotdot. do 2 f_equal.
        apply IH; simpl in Hm, Hf; lia.
      * rewrite sanitize_loop_cons by exact E. f_equal.
        apply IH; simpl in Hm, Hf |- *; lia.
Qed.

Lemma replace_dotdot_length (m : nat) :
  forall s : bytes, (length s <= m)%nat -> length (replace_dotdot s) = length s.
Proof.
  induction m as [|m IH]; intros s Hm.
  - destruct s; [reflexivity | simpl in Hm; lia].
  - destruct s as [|a [|b r]]; [reflexivity | reflexivity |].
    rewrite replace_dotdot_cons2. destruct (_ && _).
    + cbn [length]. rewrite IH by (simpl in Hm; lia). reflexivity.
    + cbn [length]. rewrite IH by (simpl in Hm |- *; lia). reflexivity.
Qed.

Lemma replace_dotdot_head (s : bytes) :
  head_is_dot (replace_dotdot s) = true -> head_is_dot s = true.
Proof.
  destruct s as [|a [|b r]]; [discriminate | intros H; exact H |].
  rewrite replace_dotdot_cons2.
  destruct (is_dot a && is_dot b) eqn:E; [discriminate | intros H; exact H].
Qed.

(** The substituted text holds no [..] any more. *)
Lemma replace_dotdot_clean (m : nat) :
  forall s : bytes, (length s <= m)%nat -> find_sub dotdot (replace_dotdot s) = None.
Proof.
  induction m as [|m IH]; intros s Hm.
  - destruct s; [reflexivity | simpl in Hm; lia].
  - destruct s as [|a [|b r]]; [reflexivity | |].
    + change (replace_dotdot [a]) with [a].
      rewrite find_sub_cons, is_prefix_dotdot_cons. simpl head_is_dot.
      rewrite andb_false_r. reflexivity.
    + rewrite replace_dotdot_cons2.
      destruct (is_dot a && is_dot b) eqn:E.
      * rewrite !find_sub_cons, !is_prefix_dotdot_cons.
        change (is_dot "_"%char) with false. cbn [andb].
        rewrite IH by (simpl in Hm; lia). reflexivity.
      * rewrite find_sub_cons, is_prefix_dotdot_cons.
        rewrite IH by (simpl in Hm |- *; lia).
        destruct (is_dot a) eqn:Ea; [|reflexivity].
        destruct (head_is_dot (replace_dotdot (b :: r))) eqn:Eh; [|reflexivity].
        apply replace_dotdot_head in Eh. simpl in Eh, E. congruence.
Qed.

(** Every byte of the result is the byte of the input at that offset, or
    the underscore that took the place of a dot. *)
Lemma replace_dotdot_pointwise (m : nat) :
  forall s : bytes, (length s <= m)%nat ->
    Forall2 (fun x y => y = x \/ (x = "."%char /\ y = "_"%char)) s (replace_dotdot s).
Proof.
  induction m as [|m IH]; intros s Hm.
  - destruct s; [constructor | simpl in Hm; lia].
  - destruct s as [|a [|b r]].
    + constructor.
    + repeat constructor.
    + rewrite replace_dotdot_cons2.
      destruct (is_dot a && is_dot b) eqn:E.
      * apply andb_true_iff in E. destruct E as [Ea Eb].
        apply is_dot_true in Ea, Eb. subst a b.
        constructor; [right; split; reflexivity|].
        constructor; [right; split; reflexivity|].
        apply IH. simpl in Hm. lia.
      * constructor; [left; reflexivity|]. apply IH. simpl in Hm |- *. lia.
Qed.

(** A prefix free of [..] and closed by a slash is not touched. *)
Lemma replace_dotdot_prefix (p x : bytes) :
  find_sub dotdot p = None ->
  replace_dotdot (p ++ "/"%char :: x) = p ++ "/"%char :: replace_dotdot x.
Proof.
  induction p as [|a p IH]; intros H.
  - simpl app. destruct x as [|b r]; reflexivity.
  - rewrite find_sub_cons, is_prefix_dotdot_cons in H.
    destruct (is_dot a && head_is_dot p) eqn:E; [discriminate|].
    destruct (find_sub dotdot p) eqn:F; [discriminate|].
    simpl app. destruct p as [|b p].
    + simpl app in *. rewrite replace_dotdot_cons2.
      change (is_dot "/"%char) with false.
      rewrite andb_false_r. f_equal. apply (IH eq_refl).
    + simpl app in *. rewrite replace_dotdot_cons2.
      simpl in E. rewrite E. f_equal. apply (IH eq_refl).
Qed.

End PathFacts.

(** C6.  For every mount-point prefix, every file name and every buffer
    size, the path [build_filepath] leaves in [dst] holds no [..]: the
    sanitising loop has reached its exit condition, its result is the
    composed (and truncated) path with every [..] literally replaced by
    [__] from left to right, byte for byte (nothing is resolved or
    canonicalised: the length is kept and a byte changes only from a dot to
    an underscore), and a mount point that is itself free of [..] and fits
    the buffer stays the prefix of the result, up to its closing slash. *)
Theorem build_filepath_no_dotdot (dst_size : nat) (path1 name : bytes) :
  let composed := snprintf dst_size (cstr path1 ++ bs "/" ++ cstr name) in
  let path := Path.build_filepath dst_size path1 (Some name) in
  find_sub Path.dotdot path = None /\
  ~ contains Path.dotdot path /\
  path = Path.replace_dotdot composed /\
  length path = length composed /\
  Forall2 (fun x y => y = x \/ (x = "."%char /\ y = "_"%char)) composed path /\
  (find_sub Path.dotdot (cstr path1) = None ->
   (length (cstr path1) + 1 <= dst_size - 1)%nat ->
   exists rest, path = cstr path1 ++ bs "/" ++ rest /\
                find_sub Path.dotdot rest = None).
Proof.
  intros composed path.
  assert (E : path = Path.replace_dotdot composed).
  { unfold path, Path.build_filepath. fold composed.
    apply (sanitize_loop_replace (length composed)); lia. }
  assert (C : find_sub Path.dotdot path = None).
  { rewrite E. apply (replace_dotdot_clean (length composed)). lia. }
  split; [exact C|].
  split; [apply find_sub_None, C|].
  split; [exact E|].
  split; [rewrite E; apply (replace_dotdot_length (length composed)); lia|].
  split; [rewrite E; apply (replace_dotdot_pointwise (length composed)); lia|].
  intros Hp Hfit.
  exists (Path.replace_dotdot (firstn (dst_size - 1 - (length (cstr path1) + 1)) (cstr name))).
  split.
  - rewrite E. unfold composed, snprintf.
    rewrite firstn_app.
    rewrite (firstn_all2 (cstr path1)) by lia.
    change (bs "/" ++ cstr name) with ("/"%char :: cstr name).
    replace (dst_size - 1 - length (cstr path1))%nat
      with (S (dst_size - 1 - (length (cstr path1) + 1)))%nat by lia.
    rewrite firstn_cons. apply replace_dotdot_prefix, Hp.
  - apply (replace_dotdot_clean (length (cstr name))).
    rewrite length_firstn. lia.
Qed.

(** The file name of the specification's example, at the sizes the
    handlers use. *)
Lemma build_filepath_no_dotdot_witness :
  Path.build_filepath Path.FILE_PATH_MAX Path.MOUNT_POINT (Some (bs "../../etc/passwd"))
  = bs "/sdcard/__/__/etc/passwd" /\
  exists rest,
    Path.build_filepath Path.FILE_PATH_MAX Path.MOUNT_POINT (Some (bs "../../etc/passwd"))
    = cstr Path.MOUNT_POINT ++ bs "/" ++ rest /\
    find_sub Path.dotdot rest = None.
Proof.
  split; [vm_compute; reflexivity|].
  apply (build_filepath_no_dotdot Path.FILE_PATH_MAX Path.MOUNT_POINT (bs "../../etc/passwd")).
  - vm_compute; reflexivity.
  - vm_compute. lia.
Defined.

(** ** The per-row URL encoder *)

Section EncoderFacts.
Import Listing.

Lemma encode_char_spec (c : ascii) :
  encode_char c = if reserved c then percent_escape c else [c].
Proof.
  destruct c as [[] [] [] [] [] [] [] []]; vm_compute; reflexivity.
Qed.

Lemma reserved_spec (c : ascii) :
  reserved c = true <-> In c (bs " ()&=?/").
Proof.
  unfold reserved. rewrite existsb_exists. split.
  - intros [x [Hx E]]. apply ascii_eqb_true in E. subst x. exact Hx.
  - intros H. exists c. split; [exact H | apply Ascii.eqb_refl].
Qed.

Lemma encode_char_length (c : ascii) : (length (encode_char c) <= 3)%nat.
Proof.
  rewrite encode_char_spec. destruct (reserved c); simpl; lia.
Qed.

Lemma blen_app (a b : bytes) : blen (a ++ b) = blen a + blen b.
Proof. unfold blen. rewrite length_app. lia. Qed.

Lemma blen_nonneg (a : bytes) : 0 <= blen a.
Proof. unfold blen. lia. Qed.

(** While there is room for every escape, the loop encodes the whole name
    and stops at its terminator. *)
Lemma url_encode_loop_all (limit : Z) (name junk : bytes) :
  ~ In NUL name ->
  forall out : bytes,
    blen out + 3 * blen name <= limit ->
    url_encode_loop limit (name ++ NUL :: junk) out = out ++ percent_encode name.
Proof.
  intros Hn. induction name as [|c name IH]; intros out Hroom.
  - simpl. rewrite app_nil_r. reflexivity.
  - assert (Hc : c <> NUL) by (intros ->; apply Hn; left; reflexivity).
    apply ascii_eqb_false in Hc.
    change ((c :: name) ++ NUL :: junk) with (c :: (name ++ NUL :: junk)).
    cbn [url_encode_loop]. rewrite Hc.
    unfold blen in Hroom. cbn [length] in Hroom.
    destruct (blen out <? limit) eqn:G.
    + rewrite IH.
      * unfold percent_encode. cbn [flat_map]. rewrite <- encode_char_spec.
        rewrite <- app_assoc. reflexivity.
      * intros Hin. apply Hn. right. exact Hin.
      * rewrite blen_app. pose proof (encode_char_length c).
        unfold blen in *. lia.
    + apply Z.ltb_ge in G. unfold blen in *. lia.
Qed.

Lemma percent_encode_length (name : bytes) :
  blen (percent_encode name) <= 3 * blen name.
Proof.
  induction name as [|c name IH]; [unfold blen; simpl; lia|].
  unfold percent_encode in *. cbn [flat_map]. rewrite blen_app.
  rewrite <- encode_char_spec. pose proof (encode_char_length c).
  unfold blen in *. cbn [length]. lia.
Qed.

End EncoderFacts.

(** C9.  The encoder of the listing maps each of the characters space,
    [(], [)], [&], [=], [?] and [/] of a file name to its two-digit
    hexadecimal escape and copies every other character as it is; a name
    that fits the name array of the directory entry is encoded whole. *)
Theorem url_encode_reserved_set (d_name_size : Z) (name junk : bytes) :
  ~ In NUL name ->
  blen name < d_name_size ->
  d_name_size * 3 + 1 < 2 ^ 32 ->
  Listing.url_encode d_name_size (name ++ NUL :: junk) = Listing.percent_encode name /\
  (forall c : ascii,
      Listing.encode_char c =
      if Listing.reserved c then Listing.percent_escape c else [c]) /\
  (forall c : ascii, Listing.reserved c = true <-> In c (bs " ()&=?/")).
Proof.
  intros Hn Hlen Hsz.
  split; [|split; [apply encode_char_spec | apply reserved_spec]].
  pose proof (blen_nonneg name) as H0.
  unfold Listing.url_encode, Listing.url_encoded_size, Listing.sz.
  rewrite (Z.mod_small (d_name_size * 3 + 1)) by lia.
  rewrite (Z.mod_small (d_name_size * 3 + 1 - 4)) by lia.
  rewrite url_encode_loop_all; [|exact Hn|change (blen []) with 0; lia].
  cbn [app].
  pose proof (percent_encode_length name) as Hl.
  destruct (blen (Listing.percent_encode name) >=? d_name_size * 3 + 1) eqn:G;
    [|reflexivity].
  apply Z.geb_le in G. lia.
Qed.

Lemma url_encode_reserved_set_witness :
  Listing.url_encode 256 (bs "my log (1).csv" ++ NUL :: bs "junk")
  = bs "my%20log%20%281%29.csv".
Proof.
  destruct (url_encode_reserved_set 256 (bs "my log (1).csv") (bs "junk")) as [H _].
  - vm_compute. intuition discriminate.
  - vm_compute. reflexivity.
  - vm_compute. reflexivity.
  - rewrite H. vm_compute. reflexivity.
Defined.

(** ** The template renderer *)

Section TemplateFacts.

Variable send_ok : nat -> bool.
Hypothesis sends_succeed : forall n, send_ok n = true.

Lemma is_prefix_snoc_nul (ph x : bytes) :
  ~ In NUL ph -> ph <> [] -> is_prefix ph (x ++ [NUL]) = is_prefix ph x.
Proof.
  revert x; induction ph as [|a ph IH]; intros x Hn Hne; [congruence|].
  assert (Ha : a <> NUL) by (intros ->; apply Hn; left; reflexivity).
  destruct x as [|b x]; cbn [app is_prefix].
  - apply ascii_eqb_false in Ha. rewrite Ha. reflexivity.
  - destruct ph as [|a' ph'].
    + destruct (x ++ [NUL]); destruct x; reflexivity.
    + rewrite IH; [reflexivity | | discriminate].
      intros Hin. apply Hn. right. exact Hin.
Qed.

(** The terminator that closes an embedded text can be left out of a
    search for a token. *)
Lemma find_sub_snoc_nul (ph x : bytes) :
  ~ In NUL ph -> find_sub ph (x ++ [NUL]) = find_sub ph x.
Proof.
  intros Hn. destruct ph as [|a ph].
  - destruct x; reflexivity.
  - induction x as [|b x IH].
    + cbn [app find_sub is_prefix].
      assert (Ha : a <> NUL) by (intros ->; apply Hn; left; reflexivity).
      apply ascii_eqb_false in Ha. rewrite Ha. reflexivity.
    + change ((b :: x) ++ [NUL]) with (b :: (x ++ [NUL])).
      rewrite !find_sub_cons, IH.
      change (b :: (x ++ [NUL])) with ((b :: x) ++ [NUL]).
      rewrite is_prefix_snoc_nul by (exact Hn || discriminate). reflexivity.
Qed.

Lemma cstr_skipn_embed (text : bytes) (off : nat) :
  ~ In NUL text -> (off <= length text)%nat ->
  cstr (skipn off (embed_txtfile text)) = skipn off text.
Proof.
  intros Hn Hoff. unfold embed_txtfile.
  rewrite skipn_app. replace (off - length text)%nat with 0%nat by lia.
  cbn [skipn]. rewrite cstr_app_no_nul.
  - simpl. apply app_nil_r.
  - intros Hin. apply Hn. apply (in_skipn _ _ _ Hin).
Qed.

Lemma skipn_embed (text : bytes) (off : nat) :
  (off <= length text)%nat ->
  skipn off (embed_txtfile text) = skipn off text ++ [NUL].
Proof.
  intros Hoff. unfold embed_txtfile. rewrite skipn_app.
  replace (off - length text)%nat with 0%nat by lia. reflexivity.
Qed.

Lemma send_chunk_ok (c : conn) (chunk : bytes) :
  httpd_resp_send_chunk send_ok c chunk
  = (ESP_OK, mkConn (sent c ++ [chunk]) (S (sends c))).
Proof. unfold httpd_resp_send_chunk. rewrite sends_succeed. reflexivity. Qed.

(** A template range goes out as one chunk, or as none when it is empty. *)
Lemma send_template_chunk_ok (c : conn) (chunk : bytes) :
  exists c' chunks,
    httpd_send_template_chunk send_ok c chunk = (ESP_OK, c') /\
    sent c' = sent c ++ chunks /\
    Forall (fun ch => ch <> []) chunks /\
    concat chunks = chunk.
Proof.
  unfold httpd_send_template_chunk. destruct chunk as [|a r]; cbn [length Nat.ltb Nat.leb].
  - exists c, []. rewrite app_nil_r. repeat split. constructor.
  - rewrite send_chunk_ok. eexists _, [a :: r]. cbn [sent concat].
    rewrite app_nil_r. repeat split. constructor; [discriminate | constructor].
Qed.

(** The loop over the placeholders, from a cursor inside the text: what
    it sends, followed by what is left after the cursor, is the rest of
    the document with the tokens substituted. *)
Lemma placeholder_loop_ok (text : bytes) :
  ~ In NUL text ->
  forall (pvs : list (bytes * bytes)) (off : nat) (c : conn),
    Forall (fun pv => ~ In NUL (fst pv)) pvs ->
    (off <= length text)%nat ->
    exists off' c' chunks,
      placeholder_loop send_ok (embed_txtfile text) pvs off c = (Some off', c') /\
      (off' <= length text)%nat /\
      sent c' = sent c ++ chunks /\
      Forall (fun ch => ch <> []) chunks /\
      concat chunks ++ skipn off' (embed_txtfile text)
      = subst_tokens (cstr_values pvs) (skipn off (embed_txtfile text)).
Proof.
  intros Hn. induction pvs as [|[ph v] rest IH]; intros off c Hph Hoff.
  - exists off, c, []. cbn [placeholder_loop]. rewrite app_nil_r.
    repeat split; [exact Hoff | constructor].
  - inversion Hph as [|? ? Hph1 Hph2]; subst. cbn [fst] in Hph1.
    cbn [placeholder_loop cstr_values map fst snd subst_tokens].
    fold (cstr_values rest).
    unfold strstr. rewrite cstr_skipn_embed by assumption.
    rewrite (skipn_embed text off Hoff), (find_sub_snoc_nul _ _ Hph1).
    destruct (find_sub ph (skipn off text)) as [i|] eqn:F; cbn [option_map].
    + destruct (find_sub_Some _ _ _ F) as [post [Hsplit Hi]].
      assert (Hlen : (i + length ph <= length (skipn off text))%nat).
      { apply (f_equal (@length ascii)) in Hsplit.
        rewrite !length_app, Hi in Hsplit. lia. }
      rewrite length_skipn in Hlen.
      assert (Hlt : (off + i <? length (embed_txtfile text))%nat = true).
      { apply Nat.ltb_lt. unfold embed_txtfile. rewrite length_app. simpl. lia. }
      rewrite Hlt.
      destruct (send_template_chunk_ok c (slice (embed_txtfile text) off (off + i)))
        as (c1 & ch1 & E1 & S1 & N1 & C1).
      rewrite E1.
      destruct (send_template_chunk_ok c1 (cstr v)) as (c2 & ch2 & E2 & S2 & N2 & C2).
      rewrite E2.
      destruct (IH (off + i + length ph)%nat c2 Hph2 ltac:(lia))
        as (off' & c' & chunks & E & Hoff' & S & N & C).
      exists off', c', (ch1 ++ ch2 ++ chunks).
      split; [exact E|]. split; [exact Hoff'|].
      split; [rewrite S, S2, S1, <- !app_assoc; reflexivity|].
      split; [repeat (apply Forall_app; split); assumption|].
      rewrite !concat_app, <- !app_assoc, C, C1, C2.
      rewrite (skipn_embed text (off + i + length ph)) by lia.
      unfold slice. rewrite (skipn_embed text off Hoff).
      replace (off + i - off)%nat with i by lia.
      rewrite firstn_app. rewrite length_skipn.
      replace (i - (length text - off))%nat with 0%nat by lia.
      cbn [firstn]. rewrite app_nil_r.
      do 3 f_equal.
      rewrite skipn_app, length_skipn.
      replace (i + length ph - (length text - off))%nat with 0%nat by lia.
      cbn [skipn]. rewrite skipn_skipn.
      replace (i + length ph + off)%nat with (off + i + length ph)%nat by lia.
      reflexivity.
    + destruct (IH off c Hph2 Hoff) as (off' & c' & chunks & E & Hoff' & S & N & C).
      exists off', c', chunks. rewrite (skipn_embed text off Hoff) in C. auto.
Qed.

(** The tail of the document and the closing empty chunk. *)
Lemma send_tail_ok (text : bytes) (off : nat) (c : conn) :
  (off <= length text)%nat ->
  exists c',
    send_tail send_ok (embed_txtfile text) off c = (ESP_OK, c') /\
    sent c' = sent c ++ [skipn off (embed_txtfile text)] ++ [[]] /\
    skipn off (embed_txtfile text) <> [].
Proof.
  intros Hoff. unfold send_tail.
  assert (Hlt : (off <? length (embed_txtfile text))%nat = true).
  { apply Nat.ltb_lt. unfold embed_txtfile. rewrite length_app. simpl. lia. }
  rewrite Hlt. unfold slice.
  rewrite firstn_all2 by (rewrite length_skipn; lia).
  assert (Hne : skipn off (embed_txtfile text) <> []).
  { rewrite skipn_embed by exact Hoff. destruct (skipn off text); discriminate. }
  unfold httpd_send_template_chunk.
  destruct (skipn off (embed_txtfile text)) as [|a r] eqn:Ed; [congruence|].
  cbn [length Nat.ltb Nat.leb]. rewrite !send_chunk_ok. cbn [sent].
  eexists. split; [reflexivity|]. split; [|discriminate].
  rewrite <- app_assoc. reflexivity.
Qed.

(** Facts about the substitution itself. *)
Lemma subst_tokens_none (pvs : list (bytes * bytes)) (doc : bytes) :
  Forall (fun pv => find_sub (fst pv) doc = None) pvs ->
  subst_tokens pvs doc = doc.
Proof.
  induction pvs as [|[ph v] rest IH]; intros H; [reflexivity|].
  inversion H as [|? ? H1 H2]; subst. cbn [fst] in H1.
  cbn [subst_tokens]. rewrite H1. apply IH, H2.
Qed.

Lemma subst_tokens_first_only (before after : list (bytes * bytes))
    (token value doc : bytes) (i : nat) :
  Forall (fun pv => find_sub (fst pv) doc = None) before ->
  find_sub token doc = Some i ->
  Forall (fun pv => find_sub (fst pv) (skipn (i + length token) doc) = None) after ->
  subst_tokens (before ++ (token, value) :: after) doc
  = firstn i doc ++ value ++ skipn (i + length token) doc.
Proof.
  intros Hb Ht Ha. induction before as [|[ph v] rest IH].
  - cbn [app subst_tokens]. rewrite Ht, (subst_tokens_none _ _ Ha). reflexivity.
  - inversion Hb as [|? ? H1 H2]; subst. cbn [fst] in H1.
    cbn [app subst_tokens]. rewrite H1. apply IH, H2.
Qed.

End TemplateFacts.

(** C4.  When every chunk is accepted, [send_message_response] sends
    non-empty chunks and then the empty chunk that ends the response; put
    together, the chunks are the embedded message.html range (the text of
    the file and its terminator) in which each of the tokens
    MESSAGE_TITLE, MESSAGE_CLASS, MESSAGE_TEXT, taken in this order and
    searched from the end of the previous replacement on, is replaced at
    its first occurrence by its value.  A token that does not occur there
    is skipped and the response still succeeds; with no token at all the
    response is byte-identical to the range; and whatever follows the
    first occurrence of a token, a second occurrence of it included, is
    sent as it is unless a later token occurs in it. *)
Theorem send_message_response_substitutes (send_ok : nat -> bool)
    (message_html title message_class message_text : bytes) (c : conn) :
  (forall n, send_ok n = true) ->
  ~ In NUL message_html ->
  let tpl := embed_txtfile message_html in
  let pvs := [(MESSAGE_TITLE, cstr title); (MESSAGE_CLASS, cstr message_class);
              (MESSAGE_TEXT, cstr message_text)] in
  exists chunks c',
    send_message_response send_ok message_html title message_class message_text c
    = (ESP_OK, c') /\
    sent c' = sent c ++ chunks ++ [[]] /\
    Forall (fun ch => ch <> []) chunks /\
    concat chunks = subst_tokens pvs tpl /\
    (Forall (fun pv => find_sub (fst pv) tpl = None) pvs -> concat chunks = tpl) /\
    (forall before after token value i,
        pvs = before ++ (token, value) :: after ->
        Forall (fun pv => find_sub (fst pv) tpl = None) before ->
        find_sub token tpl = Some i ->
        Forall (fun pv => find_sub (fst pv) (skipn (i + length token) tpl) = None) after ->
        concat chunks = firstn i tpl ++ value ++ skipn (i + length token) tpl).
Proof.
  intros Hok Hn tpl pvs.
  unfold send_message_response. fold tpl.
  destruct (placeholder_loop_ok send_ok Hok message_html Hn
              [(MESSAGE_TITLE, title); (MESSAGE_CLASS, message_class);
               (MESSAGE_TEXT, message_text)] 0%nat c)
    as (off' & c1 & chunks & E & Hoff' & S & N & C).
  { repeat constructor; vm_compute; intuition discriminate. }
  { lia. }
  fold tpl in E, C. rewrite E.
  destruct (send_tail_ok send_ok Hok message_html off' c1 Hoff') as (c' & Et & St & Nt).
  fold tpl in Et, St, Nt. rewrite Et.
  assert (Hcat : concat (chunks ++ [skipn off' tpl]) = subst_tokens pvs tpl).
  { rewrite concat_app. cbn [concat]. rewrite app_nil_r. exact C. }
  exists (chunks ++ [skipn off' tpl]), c'.
  split; [reflexivity|].
  split; [rewrite St, S, <- !app_assoc; reflexivity|].
  split; [apply Forall_app; split; [exact N | constructor; [exact Nt | constructor]]|].
  split; [exact Hcat|].
  split.
  - intros Hnone. rewrite Hcat. apply subst_tokens_none, Hnone.
  - intros before after token value i Hsplit Hb Ht Ha.
    rewrite Hcat, Hsplit. apply subst_tokens_first_only; assumption.
Qed.

Lemma send_message_response_substitutes_witness :
  exists chunks c',
    send_message_response (fun _ => true) example_message_html
      (bs "Done") (bs "success") (bs "Saved.") (mkConn [] 0) = (ESP_OK, c') /\
    sent c' = chunks ++ [[]] /\
    concat chunks
    = bs "<title>Done</title><p class='success'>Saved. (%%MESSAGE_TITLE%%)</p>" ++ [NUL].
Proof.
  destruct (send_message_response_substitutes (fun _ => true) example_message_html
              (bs "Done") (bs "success") (bs "Saved.") (mkConn [] 0))
    as (chunks & c' & H1 & H2 & _ & H4 & _).
  - reflexivity.
  - apply nul_free_spec. vm_compute. reflexivity.
  - exists chunks, c'. split; [exact H1|]. split; [exact H2|].
    rewrite H4. vm_compute. reflexivity.
Defined.

(** ** The dynamic file listing *)

Section ListingFacts.
Import Listing.

Variable d_name_size : Z.
Variable realloc_ok : nat -> Z -> bool.
Variable send_ok : nat -> bool.
Hypothesis sends_succeed : forall n, send_ok n = true.

Lemma read_entries_app (pre post : list dirent) (st : list_state) :
  read_entries d_name_size realloc_ok st (pre ++ post) =
  match read_entries d_name_size realloc_ok st pre with
  | Next st' => read_entries d_name_size realloc_ok st' post
  | Break st' => Break st'
  end.
Proof.
  revert st; induction pre as [|e pre IH]; intros st; [reflexivity|].
  cbn [app read_entries].
  destruct (d_type e); try apply IH.
  destruct (add_entry d_name_size realloc_ok st e); [apply IH | reflexivity].
Qed.

(** Growing is by the estimate for the entry and 1024 more. *)
Lemma add_entry_grows (st : list_state) (e : dirent) :
  needs_grow st e = true ->
  realloc_ok (reallocs st) (grown_size st e) = true ->
  exists st',
    add_entry d_name_size realloc_ok st e = Next st' /\
    file_list_buffer_size st' = grown_size st e /\
    reallocs st' = S (reallocs st).
Proof.
  intros Hg Hr. unfold add_entry. rewrite Hg, Hr.
  eexists. split; [reflexivity|].
  unfold append_row. cbn [file_list_buffer_size file_list_len reallocs].
  destruct (_ && _); [split; reflexivity|].
  destruct (0 <? _); split; reflexivity.
Qed.

Lemma add_entry_keeps_size (st : list_state) (e : dirent) :
  needs_grow st e = false ->
  exists st',
    add_entry d_name_size realloc_ok st e = Next st' /\
    file_list_buffer_size st' = file_list_buffer_size st.
Proof.
  intros Hg. unfold add_entry. rewrite Hg.
  eexists. split; [reflexivity|].
  unfold append_row.
  destruct (_ && _); [reflexivity|].
  destruct (0 <? _); reflexivity.
Qed.

(** A refused [realloc] ends the loop with the rows gathered so far. *)
Lemma add_entry_refused (st : list_state) (e : dirent) :
  needs_grow st e = true ->
  realloc_ok (reallocs st) (grown_size st e) = false ->
  exists st',
    add_entry d_name_size realloc_ok st e = Break st' /\
    rows st' = rows st /\
    file_list_buffer_size st' = file_list_buffer_size st.
Proof.
  intros Hg Hr. unfold add_entry. rewrite Hg, Hr.
  eexists. split; [reflexivity|]. split; reflexivity.
Qed.

Lemma estimate_value (e : dirent) :
  4 * strlen (d_name e) + 351 < 2 ^ 32 ->
  entry_html_len_estimate e = 4 * strlen (d_name e) + 351.
Proof.
  intros H. unfold entry_html_len_estimate, sz.
  assert (0 <= strlen (d_name e)) by apply blen_nonneg.
  rewrite (Z.mod_small (strlen (d_name e) * 2 + 1)) by lia.
  rewrite Z.mod_small by lia. lia.
Qed.

(** list.html goes out around the rows, and the response is closed. *)
Lemma send_list_ok (list_html : bytes) (st : list_state) (c : conn) :
  ~ In NUL list_html ->
  exists chunks c',
    send_list send_ok list_html st c = (ESP_OK, c') /\
    sent c' = sent c ++ chunks ++ [[]] /\
    concat chunks = subst_tokens [(FILE_LIST_ROWS, rows st)] (embed_txtfile list_html).
Proof.
  intros Hn. unfold send_list. cbn [subst_tokens].
  assert (Hph : ~ In NUL FILE_LIST_ROWS) by (apply nul_free_spec; reflexivity).
  unfold strstr. rewrite (cstr_skipn_embed list_html 0 Hn) by lia.
  change (skipn 0 list_html) with list_html.
  replace (find_sub FILE_LIST_ROWS (embed_txtfile list_html))
    with (find_sub FILE_LIST_ROWS list_html)
    by (symmetry; apply find_sub_snoc_nul, Hph).
  destruct (find_sub FILE_LIST_ROWS list_html) as [i|] eqn:F; cbn [option_map].
  - destruct (find_sub_Some _ _ _ F) as [post [Hsplit Hi]].
    assert (Hlen : (i + length FILE_LIST_ROWS <= length list_html)%nat).
    { apply (f_equal (@length ascii)) in Hsplit.
      rewrite !length_app, Hi in Hsplit. lia. }
    cbn [Nat.add].
    assert (Hlt : (i <? length (embed_txtfile list_html))%nat = true).
    { apply Nat.ltb_lt. unfold embed_txtfile. rewrite length_app. simpl. lia. }
    rewrite Hlt.
    destruct (send_template_chunk_ok send_ok sends_succeed c
                (slice (embed_txtfile list_html) 0 i))
      as (c1 & ch1 & E1 & S1 & _ & C1).
    rewrite E1.
    destruct (send_template_chunk_ok send_ok sends_succeed c1 (rows st))
      as (c2 & ch2 & E2 & S2 & _ & C2).
    rewrite E2.
    destruct (send_tail_ok send_ok sends_succeed list_html
                (i + length FILE_LIST_ROWS) c2 Hlen) as (c' & Et & St & _).
    rewrite Et.
    exists (ch1 ++ ch2 ++ [skipn (i + length FILE_LIST_ROWS) (embed_txtfile list_html)]), c'.
    split; [reflexivity|].
    split; [rewrite St, S2, S1, <- !app_assoc; reflexivity|].
    rewrite !concat_app, C1, C2. cbn [concat]. rewrite app_nil_r.
    unfold slice. cbn [skipn]. rewrite Nat.sub_0_r. reflexivity.
  - destruct (send_tail_ok send_ok sends_succeed list_html 0 c ltac:(lia))
      as (c' & Et & St & _).
    rewrite Et. cbn [skipn] in St.
    exists [embed_txtfile list_html], c'.
    split; [reflexivity|]. split; [exact St|].
    cbn [concat]. apply app_nil_r.
Qed.

End ListingFacts.

(** C8, as the code has it.  The buffer is grown when the length so far
    plus the estimate for the entry (four times the length of the name
    plus 351) reaches the capacity, and then by that estimate plus 1024
    bytes; otherwise the capacity stays.  When the [realloc] is refused the
    loop over the directory ends there: the rows are those of the entries
    before the refused one, and the handler still sends list.html around
    these rows, closes the response and returns ESP_OK. *)
Theorem listing_growth_and_truncation (d_name_size : Z)
    (realloc_ok : nat -> Z -> bool) (send_ok : nat -> bool) :
  (forall n, send_ok n = true) ->
  (forall (st : Listing.list_state) (e : Listing.dirent),
      0 <= Listing.file_list_buffer_size st ->
      Listing.file_list_buffer_size st + 4 * Listing.strlen (Listing.d_name e) + 1375 < 2 ^ 32 ->
      Listing.needs_grow st e =
        (Listing.sz (Listing.file_list_len st + (4 * Listing.strlen (Listing.d_name e) + 351))
         >=? Listing.file_list_buffer_size st) /\
      (Listing.needs_grow st e = true ->
       realloc_ok (Listing.reallocs st) (Listing.grown_size st e) = true ->
       exists st',
         Listing.add_entry d_name_size realloc_ok st e = Listing.Next st' /\
         Listing.file_list_buffer_size st'
         = Listing.file_list_buffer_size st
           + (4 * Listing.strlen (Listing.d_name e) + 351) + 1024) /\
      (Listing.needs_grow st e = false ->
       exists st',
         Listing.add_entry d_name_size realloc_ok st e = Listing.Next st' /\
         Listing.file_list_buffer_size st' = Listing.file_list_buffer_size st)) /\
  (forall (pre post : list Listing.dirent) (e : Listing.dirent)
          (st : Listing.list_state) (message_html list_html : bytes) (c : conn),
      Listing.read_entries d_name_size realloc_ok Listing.initial_state pre
      = Listing.Next st ->
      Listing.d_type e = Listing.DT_REG ->
      Listing.needs_grow st e = true ->
      realloc_ok (Listing.reallocs st) (Listing.grown_size st e) = false ->
      ~ In NUL list_html ->
      exists st' chunks c',
        Listing.read_entries d_name_size realloc_ok Listing.initial_state
          (pre ++ e :: post) = Listing.Break st' /\
        Listing.rows st' = Listing.rows st /\
        Listing.list_get_handler d_name_size realloc_ok send_ok
          (Some (pre ++ e :: post)) true message_html list_html c = (ESP_OK, c') /\
        sent c' = sent c ++ chunks ++ [[]] /\
        concat chunks
        = subst_tokens [(Listing.FILE_LIST_ROWS, Listing.rows st)]
            (embed_txtfile list_html)).
Proof.
  intros Hok. split.
  - intros st e Hsize Hbound.
    assert (0 <= Listing.strlen (Listing.d_name e)) by apply blen_nonneg.
    assert (Hest : Listing.entry_html_len_estimate e
                   = 4 * Listing.strlen (Listing.d_name e) + 351)
      by (apply estimate_value; lia).
    split; [unfold Listing.needs_grow; rewrite Hest; reflexivity|].
    split.
    + intros Hg Hr.
      destruct (add_entry_grows d_name_size realloc_ok st e Hg Hr) as (st' & E & Hs & _).
      exists st'. split; [exact E|]. rewrite Hs.
      unfold Listing.grown_size, Listing.sz. rewrite Hest.
      apply Z.mod_small. lia.
    + apply add_entry_keeps_size.
  - intros pre post e st message_html list_html c Hpre Hreg Hg Hr Hn.
    destruct (add_entry_refused d_name_size realloc_ok st e Hg Hr) as (st' & E & Hrows & _).
    assert (Hrun : Listing.read_entries d_name_size realloc_ok Listing.initial_state
                     (pre ++ e :: post) = Listing.Break st').
    { rewrite read_entries_app, Hpre. cbn [Listing.read_entries]. rewrite Hreg, E.
      reflexivity. }
    destruct (send_list_ok send_ok Hok list_html st' c Hn) as (chunks & c' & Es & Ss & Cs).
    exists st', chunks, c'.
    split; [exact Hrun|]. split; [exact Hrows|].
    split; [|split; [exact Ss | rewrite Cs, Hrows; reflexivity]].
    unfold Listing.list_get_handler. rewrite Hrun. exact Es.
Qed.

(** The claim as it is worded fails: the fourteenth file of a directory of
    one-letter names makes the buffer grow, and it grows by 1379 bytes,
    which is the estimate of 355 plus 1024 and not the larger of the two. *)
Lemma listing_growth_counterexample :
  exists st st',
    Listing.read_entries 256 always_ok Listing.initial_state (firstn 13 example_directory)
    = Listing.Next st /\
    Listing.needs_grow st (example_entry "n") = true /\
    Listing.entry_html_len_estimate (example_entry "n") = 355 /\
    Listing.add_entry 256 always_ok st (example_entry "n") = Listing.Next st' /\
    Listing.file_list_buffer_size st' - Listing.file_list_buffer_size st = 1379 /\
    Listing.file_list_buffer_size st' - Listing.file_list_buffer_size st
    <> Z.max 355 1024.
Proof.
  eexists _, _.
  split; [vm_compute; reflexivity|].
  split; [vm_compute; reflexivity|].
  split; [vm_compute; reflexivity|].
  split; [vm_compute; reflexivity|].
  split; [vm_compute; reflexivity|].
  vm_compute. discriminate.
Qed.

Lemma listing_growth_and_truncation_witness :
  exists st' chunks c',
    Listing.read_entries 256 never_ok Listing.initial_state
      (firstn 13 example_directory ++ example_entry "n" :: []) = Listing.Break st' /\
    Listing.rows st'
    = Listing.rows (Listing.result_state
                      (Listing.read_entries 256 never_ok Listing.initial_state
                         (firstn 13 example_directory))) /\
    Listing.list_get_handler 256 never_ok (fun _ => true)
      (Some (firstn 13 example_directory ++ example_entry "n" :: []))
      true example_message_html example_list_html (mkConn [] 0) = (ESP_OK, c') /\
    sent c' = sent (mkConn [] 0) ++ chunks ++ [[]] /\
    concat chunks
    = subst_tokens
        [(Listing.FILE_LIST_ROWS,
          Listing.rows (Listing.result_state
                          (Listing.read_entries 256 never_ok Listing.initial_state
                             (firstn 13 example_directory))))]
        (embed_txtfile example_list_html).
Proof.
  apply (proj2 (listing_growth_and_truncation 256 never_ok (fun _ => true)
                  (fun _ => eq_refl))
           (firstn 13 example_directory) [] (example_entry "n")
           (Listing.result_state
              (Listing.read_entries 256 never_ok Listing.initial_state
                 (firstn 13 example_directory)))
           example_message_html example_list_html (mkConn [] 0)).
  - vm_compute. reflexivity.
  - reflexivity.
  - vm_compute. reflexivity.
  - reflexivity.
  - apply nul_free_spec. vm_compute. reflexivity.
Defined.

(** ** The upload handler: the transport and the two loops *)

Section UploadLoops.
Import Upload.

Variable E : env.
Variable req : request.
Variable boundary : bytes.

Lemma next_chunk_ret (tr rest : list incoming) (n ret : Z) (buf : bytes) :
  next_chunk tr n = (ret, buf, rest) -> 0 < ret -> 0 <= n ->
  ret = blen buf /\ ret <= n.
Proof.
  unfold next_chunk. destruct tr as [|[b|e] tr].
  - intros [= <- <- <-]. lia.
  - destruct (blen b <=? n) eqn:G.
    + intros [= <- <- <-] _ _. apply Z.leb_le in G. lia.
    + intros [= <- <- <-] _ Hn. apply Z.leb_gt in G. split; [|lia].
      unfold blen in *. rewrite length_firstn. lia.
  - intros [= <- <- <-]. destruct e; simpl; lia.
Qed.

(** A chunk that fits is read whole. *)
Lemma next_chunk_data (c : bytes) (tr : list incoming) (n : Z) :
  blen c <= n -> next_chunk (Data c :: tr) n = (blen c, c, tr).
Proof.
  intros H. unfold next_chunk. apply Z.leb_le in H. rewrite H. reflexivity.
Qed.

Lemma recv_unfold (w : world) (n : Z) :
  httpd_req_recv w n =
  (fst (fst (next_chunk (transport w) n)), snd (fst (next_chunk (transport w) n)),
   mkWorld (files w) (snd (next_chunk (transport w) n)) (resp_status w) (resp_type w)
           (mallocs w)
           (trace w ++ [EvRecv n (fst (fst (next_chunk (transport w) n)))
                               (snd (fst (next_chunk (transport w) n)))])).
Proof.
  unfold httpd_req_recv. destruct (next_chunk (transport w) n) as [[ret buf] rest].
  reflexivity.
Qed.

(** The draining loop comes to its end, reads and does nothing else. *)
Lemma drain_total (fuel : nat) :
  forall (r : Z) (w : world),
    (Z.to_nat r <= fuel)%nat ->
    exists r' tr' evs,
      drain fuel r w
      = Some (r', mkWorld (files w) tr' (resp_status w) (resp_type w) (mallocs w)
                          (trace w ++ evs)) /\
      Forall (fun e => is_recv e = true) evs.
Proof.
  induction fuel as [|f IH]; intros r w Hf.
  - cbn [drain]. assert (G : (r <=? 0) = true) by (apply Z.leb_le; lia).
    rewrite G. exists r, (transport w), []. rewrite app_nil_r.
    destruct w; split; [reflexivity | constructor].
  - cbn [drain]. destruct (r <=? 0) eqn:G.
    + exists r, (transport w), []. rewrite app_nil_r.
      destruct w; split; [reflexivity | constructor].
    + apply Z.leb_gt in G. rewrite recv_unfold.
      destruct (next_chunk (transport w) (Z.min r 128)) as [[ret buf] rest] eqn:N.
      cbn [fst snd]. destruct (ret <=? 0) eqn:R.
      * eexists r, rest, [_]. split; [reflexivity | repeat constructor].
      * apply Z.leb_gt in R.
        destruct (IH (if r - ret <? 0 then 0 else r - ret)
                    (mkWorld (files w) rest (resp_status w) (resp_type w) (mallocs w)
                       (trace w ++ [EvRecv (Z.min r 128) ret buf])))
          as (r' & tr' & evs & D & Hev).
        { destruct (r - ret <? 0) eqn:C; [simpl; lia|]. apply Z.ltb_ge in C. lia. }
        rewrite D. cbn [files resp_status resp_type mallocs trace].
        exists r', tr', (EvRecv (Z.min r 128) ret buf :: evs).
        rewrite <- app_assoc. split; [reflexivity|].
        constructor; [reflexivity | exact Hev].
Qed.

Lemma total_cons (c : bytes) (cs : list bytes) : total (c :: cs) = blen c + total cs.
Proof. unfold total. cbn [concat]. apply blen_app. Qed.

Lemma total_nonneg (cs : list bytes) : 0 <= total cs.
Proof. apply blen_nonneg. Qed.

(** A transport that holds only data, and less of it than the counter
    says, is read to its end. *)
Lemma drain_empties (fuel : nat) :
  forall (r : Z) (w : world) (chunks : list bytes),
    transport w = map Data chunks ->
    Forall (fun c => c <> []) chunks ->
    total chunks < r ->
    (Z.to_nat r <= fuel)%nat ->
    exists r' w', drain fuel r w = Some (r', w') /\ transport w' = [].
Proof.
  induction fuel as [|f IH]; intros r w chunks Ht Hne Htot Hf.
  - pose proof (total_nonneg chunks). lia.
  - pose proof (total_nonneg chunks) as H0.
    cbn [drain]. assert (G : (r <=? 0) = false) by (apply Z.leb_gt; lia).
    rewrite G, recv_unfold, Ht.
    destruct chunks as [|c cs].
    + cbn [map next_chunk fst snd]. cbn [Z.leb Z.compare].
      eexists _, _. split; reflexivity.
    + inversion Hne as [|? ? Hc Hcs]; subst.
      rewrite total_cons in Htot. pose proof (total_nonneg cs) as H1.
      assert (Hpos : 0 < blen c).
      { unfold blen. destruct c; [congruence | simpl; lia]. }
      cbn [map]. unfold next_chunk.
      destruct (blen c <=? Z.min r 128) eqn:L; cbn [fst snd].
      * assert (R : (blen c <=? 0) = false) by (apply Z.leb_gt; lia).
        rewrite R.
        assert (C : (r - blen c <? 0) = false) by (apply Z.ltb_ge; lia).
        rewrite C. apply (IH _ _ cs); [reflexivity | exact Hcs | lia | lia].
      * apply Z.leb_gt in L.
        assert (R : (Z.min r 128 <=? 0) = false) by (apply Z.leb_gt; lia).
        rewrite R.
        assert (Hmin : Z.min r 128 = 128) by lia.
        rewrite Hmin in *.
        assert (C : (r - 128 <? 0) = false) by (apply Z.ltb_ge; lia).
        rewrite C.
        apply (IH _ _ (skipn (Z.to_nat 128) c :: cs)); [reflexivity | | | lia].
        -- constructor; [|exact Hcs]. intros Hnil.
           apply (f_equal (@length ascii)) in Hnil.
           rewrite length_skipn in Hnil. unfold blen in L. simpl in Hnil. lia.
        -- rewrite total_cons. unfold blen in *. rewrite length_skipn. lia.
Qed.

End UploadLoops.

(** ** The upload handler: one pass of the receive loop *)

Section UploadStep.
Import Upload.

Variable E : env.
Variable req : request.
Variable boundary : bytes.

Lemma should_overwrite_frame (w : world) :
  exists k qev,
    snd (should_overwrite E req w)
    = mkWorld (files w) (transport w) (resp_status w) (resp_type w) k (trace w ++ qev) /\
    Forall (fun e => is_malloc e = true) qev.
Proof.
  unfold should_overwrite. destruct (1 <? _).
  - unfold malloc. destruct (malloc_ok E _ _); cbn [snd];
      eexists _, [_]; (split; [reflexivity | repeat constructor]).
  - exists (mallocs w), []. rewrite app_nil_r. destruct w.
    split; [reflexivity | constructor].
Qed.

Lemma should_overwrite_not_requested (w : world) :
  overwrite_requested req = false -> fst (should_overwrite E req w) = false.
Proof.
  unfold overwrite_requested, should_overwrite. destruct (1 <? _); [|reflexivity].
  cbn [andb]. intros H. unfold malloc. destruct (malloc_ok E _ _); cbn [fst]; auto.
Qed.

Lemma should_overwrite_requested (w : world) :
  (forall n s, malloc_ok E n s = true) ->
  fst (should_overwrite E req w) = overwrite_requested req.
Proof.
  intros Hm. unfold overwrite_requested, should_overwrite. destruct (1 <? _); [|reflexivity].
  unfold malloc. rewrite Hm. reflexivity.
Qed.

Lemma malloc_events_quiet (evs : list event) :
  Forall (fun e => is_malloc e = true) evs ->
  Forall (fun e => is_recv e = false) evs /\
  Forall (fun e => is_file_event e = false) evs.
Proof.
  induction 1 as [|e evs He _ [IH1 IH2]]; [split; constructor|].
  destruct e; try discriminate. split; constructor; auto.
Qed.

(** Looking at the headers never leaves the draining loop unfinished, and
    when control goes on it has read nothing and changed no counter. *)
Lemma open_sink_generic (l : locals) (w : world) (buf : bytes) :
  match open_sink E req l w buf with
  | Continue l1 w1 =>
      remaining l1 = remaining l /\
      file_data_started l1 = file_data_started l /\
      root_json l1 = root_json l /\
      transport w1 = transport w /\
      exists evs, trace w1 = trace w ++ evs /\ Forall (fun e => is_recv e = false) evs
  | Cleanup _ _ => True
  | Unfinished => False
  end.
Proof.
  unfold open_sink. destruct (extract_filename buf) as [name|msg]; [|exact I].
  unfold malloc at 1. destruct (malloc_ok E (mallocs w) (blen name + 1)); [|exact I].
  set (w1 := mkWorld _ _ _ _ _ _).
  destruct (should_overwrite_frame w1) as (k & qev & Hw2 & Hq).
  destruct (should_overwrite E req w1) as [ov w2]. cbn [snd] in Hw2. subst w2.
  unfold stat. cbn [files].
  destruct (_ && negb ov).
  - match goal with |- context [drain ?f ?r ?w0] =>
      destruct (drain_total f r w0 ltac:(lia)) as (r' & tr' & evs & D & _); rewrite D end.
    exact I.
  - unfold fopen_wb. destruct (fopen_ok E _); [|exact I].
    subst w1.
    cbn [remaining file_data_started root_json transport trace log files
         resp_status resp_type mallocs].
    repeat split.
    eexists. split; [rewrite <- !app_assoc; reflexivity|].
    apply Forall_app. split; [repeat constructor|].
    apply Forall_app. split; [apply malloc_events_quiet, Hq | repeat constructor].
Qed.

Lemma parse_headers_generic (l : locals) (w : world) (buf : bytes) :
  match parse_headers E req l w buf with
  | Continue l1 w1 =>
      remaining l1 = remaining l /\
      file_data_started l1 = file_data_started l /\
      root_json l1 = root_json l /\
      transport w1 = transport w /\
      exists evs, trace w1 = trace w ++ evs /\ Forall (fun e => is_recv e = false) evs
  | Cleanup _ _ => True
  | Unfinished => False
  end.
Proof.
  unfold parse_headers. destruct (filename l); [|apply open_sink_generic].
  repeat split. exists []. rewrite app_nil_r. split; [reflexivity | constructor].
Qed.

Lemma write_if_any_unfold (w : world) (path data : bytes) :
  write_if_any w path data = w \/
  write_if_any w path data = fwrite w path data.
Proof. unfold write_if_any. destruct (0 <? length data)%nat; auto. Qed.

Lemma write_if_any_quiet (w : world) (path data : bytes) :
  transport (write_if_any w path data) = transport w /\
  exists evs,
    trace (write_if_any w path data) = trace w ++ evs /\
    Forall (fun e => is_recv e = false) evs.
Proof.
  unfold write_if_any. destruct (0 <? length data)%nat.
  - split; [reflexivity|]. eexists [_]. split; [reflexivity | repeat constructor].
  - split; [reflexivity|]. exists []. rewrite app_nil_r. split; [reflexivity | constructor].
Qed.

(** What [write_payload] returns, by the outcome of the search. *)
Lemma write_payload_found (l : locals) (w : world) (path buf : bytes) (start b : nat) :
  strstr buf start boundary = Some b ->
  write_payload boundary l w path buf start
  = (set_remaining l 0,
     write_if_any w path (slice buf start (start + trimmed_len buf start b)), true).
Proof. intros H. unfold write_payload. rewrite H. reflexivity. Qed.

Lemma write_payload_not_found (l : locals) (w : world) (path buf : bytes) (start : nat) :
  strstr buf start boundary = None ->
  write_payload boundary l w path buf start
  = (l, write_if_any w path (slice buf start (start + (length buf - start))), false).
Proof. intros H. unfold write_payload. rewrite H. reflexivity. Qed.

(** The summary of a pass that the loop needs: the pass is never left
    unfinished; when control goes on, the counter is what it was or zero,
    zero when the boundary was found, and nothing has been read; and a pass
    that finds the boundary does go on. *)
Lemma process_chunk_generic (l : locals) (w : world) (buf : bytes) :
  match process_chunk E req boundary l w buf with
  | (Continue l1 w1, found) =>
      (if found then remaining l1 = 0 else remaining l1 = remaining l) /\
      root_json l1 = root_json l /\
      transport w1 = transport w /\
      exists evs, trace w1 = trace w ++ evs /\ Forall (fun e => is_recv e = false) evs
  | (Cleanup _ _, found) => found = false
  | (Unfinished, _) => False
  end.
Proof.
  assert (Hq : forall w0 path data evs0,
             trace w0 = trace w ++ evs0 ->
             Forall (fun e => is_recv e = false) evs0 ->
             exists evs, trace (write_if_any w0 path data) = trace w ++ evs /\
                         Forall (fun e => is_recv e = false) evs).
  { intros w0 path data evs0 Ht Hf.
    destruct (write_if_any_quiet w0 path data) as [_ (evs & Hw & Hev)].
    exists (evs0 ++ evs). rewrite Hw, Ht, app_assoc. split; [reflexivity|].
    apply Forall_app. split; assumption. }
  unfold process_chunk. destruct (file_data_started l); cbn [negb].
  - unfold stream_payload. destruct (fd l) as [path|].
    + destruct (strstr buf 0 boundary) as [b|] eqn:S.
      * rewrite (write_payload_found _ _ _ _ _ _ S).
        split; [reflexivity|]. split; [reflexivity|].
        split; [apply write_if_any_quiet|].
        apply (Hq w path _ []); [rewrite app_nil_r; reflexivity | constructor].
      * rewrite (write_payload_not_found _ _ _ _ _ S).
        split; [reflexivity|]. split; [reflexivity|].
        split; [apply write_if_any_quiet|].
        apply (Hq w path _ []); [rewrite app_nil_r; reflexivity | constructor].
    + unfold discard_payload. destruct (strstr buf 0 boundary);
        (split; [reflexivity|]; split; [reflexivity|]; split; [reflexivity|];
         exists []; rewrite app_nil_r; split; [reflexivity | constructor]).
  - pose proof (parse_headers_generic l w buf) as H.
    destruct (parse_headers E req l w buf) as [l1 w1| |]; [|reflexivity|exact H].
    destruct H as (Hr & _ & Hj & Ht & evs0 & Htr & Hev).
    unfold find_payload. destruct (strstr buf 0 CRLFCRLF) as [sep|].
    + destruct (fd l1) as [path|], (filename l1) as [name|]; try reflexivity.
      * destruct (strstr buf (sep + 4) boundary) as [b|] eqn:S.
        -- rewrite (write_payload_found _ _ _ _ _ _ S).
           split; [reflexivity|]. split; [exact Hj|].
           split; [rewrite <- Ht; apply write_if_any_quiet|].
           apply (Hq w1 path _ evs0); assumption.
        -- rewrite (write_payload_not_found _ _ _ _ _ S).
           split; [exact Hr|]. split; [exact Hj|].
           split; [rewrite <- Ht; apply write_if_any_quiet|].
           apply (Hq w1 path _ evs0); assumption.
      * unfold discard_payload. destruct (strstr buf (sep + 4) boundary);
          (split; [first [reflexivity | exact Hr]|]; split; [exact Hj|];
           split; [exact Ht|]; exists evs0; split; assumption).
    + split; [exact Hr|]. split; [exact Hj|]. split; [exact Ht|].
      exists evs0. split; assumption.
Qed.

End UploadStep.

(** ** The upload handler: the receive loop *)

Section UploadReceive.
Import Upload.

Variable E : env.
Variable req : request.
Variable boundary : bytes.

Lemma receive_loop_exit (fuel : nat) (l : locals) (w : world) :
  remaining l <= 0 ->
  receive_loop E req boundary fuel l w = Some (cleanup_and_send_json E l w).
Proof.
  intros H. apply Z.leb_le in H. destruct fuel; cbn [receive_loop]; rewrite H; reflexivity.
Qed.

Lemma receive_loop_unfold (f : nat) (l : locals) (w : world) :
  0 < remaining l ->
  receive_loop E req boundary (S f) l w =
  let '(ret, buf, w1) :=
    httpd_req_recv w (Z.min (remaining l) (UPLOAD_BUFFER_SIZE - 1)) in
  if ret <=? 0 then
    Some (cleanup_and_send_json E
            (set_root_json l (error_json (recv_error_message ret (remaining l)))) w1)
  else
    match process_chunk E req boundary l w1 buf with
    | (Continue l1 w2, _) =>
        let r := remaining l1 - ret in
        receive_loop E req boundary f (set_remaining l1 (if r <? 0 then 0 else r)) w2
    | (Cleanup l1 w2, _) => Some (cleanup_and_send_json E l1 w2)
    | (Unfinished, _) => None
    end.
Proof.
  intros H. apply Z.leb_gt in H. cbn [receive_loop]. rewrite H. reflexivity.
Qed.

(** More fuel does not change a result. *)
Lemma receive_loop_mono (f : nat) :
  forall (l : locals) (w : world) (r : esp_err_t * world),
    receive_loop E req boundary f l w = Some r ->
    forall f', (f <= f')%nat -> receive_loop E req boundary f' l w = Some r.
Proof.
  induction f as [|f IH]; intros l w r H f' Hf.
  - cbn [receive_loop] in H. destruct (remaining l <=? 0) eqn:G; [|discriminate].
    rewrite receive_loop_exit by (apply Z.leb_le, G). exact H.
  - destruct (Z_le_gt_dec (remaining l) 0) as [G|G].
    + rewrite receive_loop_exit in * by exact G. exact H.
    + destruct f' as [|f']; [lia|].
      rewrite receive_loop_unfold in * by lia.
      destruct (httpd_req_recv w _) as [[ret buf] w1].
      destruct (ret <=? 0); [exact H|].
      destruct (process_chunk E req boundary l w1 buf) as [[l1 w2| |] fnd];
        [|exact H|discriminate].
      apply IH; [exact H | lia].
Qed.

(** The loop comes to its end: every pass reads at least one byte. *)
Lemma receive_loop_total (fuel : nat) :
  forall (l : locals) (w : world),
    (Z.to_nat (remaining l) <= fuel)%nat ->
    exists r, receive_loop E req boundary fuel l w = Some r.
Proof.
  induction fuel as [|f IH]; intros l w Hf.
  - rewrite receive_loop_exit by lia. eexists. reflexivity.
  - destruct (Z_le_gt_dec (remaining l) 0) as [G|G].
    + rewrite receive_loop_exit by exact G. eexists. reflexivity.
    + rewrite receive_loop_unfold by lia. rewrite recv_unfold.
      destruct (next_chunk (transport w) _) as [[ret buf] rest] eqn:N. cbn [fst snd].
      destruct (ret <=? 0) eqn:R; [eexists; reflexivity|].
      apply Z.leb_gt in R.
      match goal with |- context [process_chunk E req boundary l ?w1 buf] =>
        pose proof (process_chunk_generic E req boundary l w1 buf) as P;
        destruct (process_chunk E req boundary l w1 buf) as [[l1 w2| |] fnd] end;
        [|eexists; reflexivity|contradiction].
      destruct P as (Hr & _).
      apply IH. cbn [remaining set_remaining].
      destruct fnd; rewrite Hr; destruct (_ <? 0) eqn:C; simpl; lia.
Qed.

Local Abbreviation runs := (Upload.runs E req boundary).

Lemma runs_exit (l : locals) (w : world) :
  remaining l <= 0 -> runs l w (cleanup_and_send_json E l w).
Proof. intros H. exists 0%nat. apply receive_loop_exit, H. Qed.

Lemma runs_fuel (l : locals) (w : world) (r : esp_err_t * world) (fuel : nat) :
  runs l w r -> (Z.to_nat (remaining l) <= fuel)%nat ->
  receive_loop E req boundary fuel l w = Some r.
Proof.
  intros [f Hf] Hfuel.
  destruct (receive_loop_total fuel l w Hfuel) as [r' Hr'].
  pose proof (receive_loop_mono _ _ _ _ Hf (Nat.max f fuel) ltac:(lia)) as H1.
  pose proof (receive_loop_mono _ _ _ _ Hr' (Nat.max f fuel) ltac:(lia)) as H2.
  congruence.
Qed.

(** One pass that goes on. *)
Lemma runs_step (l l1 : locals) (w w2 : world) (c : bytes) (rest : list incoming)
    (fnd : bool) (r : esp_err_t * world) :
  0 < remaining l ->
  next_chunk (transport w) (Z.min (remaining l) (UPLOAD_BUFFER_SIZE - 1))
  = (blen c, c, rest) ->
  0 < blen c ->
  process_chunk E req boundary l
    (mkWorld (files w) rest (resp_status w) (resp_type w) (mallocs w)
       (trace w ++ [EvRecv (Z.min (remaining l) (UPLOAD_BUFFER_SIZE - 1)) (blen c) c]))
    c = (Continue l1 w2, fnd) ->
  runs (set_remaining l1 (if remaining l1 - blen c <? 0 then 0 else remaining l1 - blen c))
       w2 r ->
  runs l w r.
Proof.
  intros Hrem Hn Hc Hp [f Hf]. exists (S f).
  rewrite receive_loop_unfold by exact Hrem. rewrite recv_unfold, Hn. cbn [fst snd].
  assert (R : (blen c <=? 0) = false) by (apply Z.leb_gt; lia).
  rewrite R, Hp. exact Hf.
Qed.

End UploadReceive.

(** The handler always returns. *)
Lemma upload_post_handler_total (E : Upload.env) (req : Upload.request) (w : Upload.world) :
  exists r, Upload.upload_post_handler E req w = Some r.
Proof.
  unfold Upload.upload_post_handler.
  destruct (_ <=? 0); [eexists; reflexivity|].
  unfold Upload.malloc. destruct (Upload.malloc_ok E _ _).
  - destruct (Upload.extract_boundary req); [|eexists; reflexivity].
    apply receive_loop_total. reflexivity.
  - destruct (Upload.json_print_ok E); eexists; reflexivity.
Qed.

Section UploadEnd.
Import Upload.

Variable E : env.

(** The two labels at the end of the handler close the sink and send the
    reply; they read nothing and leave the files alone. *)
Lemma cleanup_unfold (l : locals) (w : world) :
  exists evs,
    cleanup_and_send_json E l w
    = (if json_print_ok E then ESP_OK else ESP_FAIL,
       mkWorld (files w) (transport w) (resp_status w) (resp_type w) (mallocs w)
               (trace w ++ evs)) /\
    Forall (fun e => is_recv e = false) evs /\
    Forall (fun e => match e with EvFopen _ _ _ | EvFwrite _ _ => false | _ => true end = true) evs.
Proof.
  unfold cleanup_and_send_json, send_json_upload_response, log.
  destruct (json_print_ok E), (fd l) as [path|];
    cbn [files transport resp_status resp_type mallocs trace];
    rewrite <- ?app_assoc; eexists; (split; [reflexivity|]); split; repeat constructor.
Qed.

Lemma filter_recv_quiet (evs : list event) :
  Forall (fun e => is_recv e = false) evs -> List.filter is_recv evs = [].
Proof.
  induction 1 as [|e evs He _ IH]; [reflexivity|]. cbn [List.filter]. rewrite He. exact IH.
Qed.

End UploadEnd.

(** C10.  When the declared Content-Length, read as an [int], is zero or
    negative, the handler sends the JSON reply with status [error] and
    does nothing else: the reply is the only call it makes, so no body byte
    is read, no buffer is allocated and no file is touched. *)
Theorem upload_rejects_empty_body (E : Upload.env) (req : Upload.request) (w : Upload.world) :
  Upload.int_of_size_t (Upload.content_len req) <= 0 ->
  Upload.json_print_ok E = true ->
  exists w' message,
    Upload.upload_post_handler E req w = Some (ESP_OK, w') /\
    Upload.trace w'
    = Upload.trace w
      ++ [Upload.EvSend (Upload.resp_status w) (bs "application/json")
            [(bs "status", bs "error"); (bs "message", message)]] /\
    Upload.files w' = Upload.files w /\
    Upload.transport w' = Upload.transport w /\
    Upload.mallocs w' = Upload.mallocs w.
Proof.
  intros Hlen Hjson. unfold Upload.upload_post_handler.
  apply Z.leb_le in Hlen. rewrite Hlen.
  unfold Upload.send_json_upload_response. rewrite Hjson.
  eexists _, _. split; [reflexivity|]. repeat split.
Qed.

Lemma upload_rejects_empty_body_witness :
  exists w' message,
    Upload.upload_post_handler example_env (example_request 0)
      (example_world ∅ [Upload.Data example_body]) = Some (ESP_OK, w') /\
    Upload.trace w'
    = [Upload.EvSend (bs "200 OK") (bs "application/json")
         [(bs "status", bs "error"); (bs "message", message)]] /\
    Upload.files w' = ∅ /\
    Upload.transport w' = [Upload.Data example_body] /\
    Upload.mallocs w' = 0%nat.
Proof.
  apply (upload_rejects_empty_body example_env (example_request 0)
           (example_world ∅ [Upload.Data example_body])).
  - vm_compute. discriminate.
  - reflexivity.
Defined.

(** ** The upload handler: where the payload ends *)

Section TrimFacts.
Import Upload.

Lemma cstr_length (b : bytes) : (length (cstr b) <= length b)%nat.
Proof.
  induction b as [|c b IH]; simpl; [lia|]. destruct (Ascii.eqb c NUL); simpl; lia.
Qed.

(** A hit of [strstr] lies inside the buffer. *)
Lemma strstr_bounds (buf needle : bytes) (start b : nat) :
  strstr buf start needle = Some b ->
  (start <= length buf)%nat ->
  exists i,
    find_sub needle (cstr (skipn start buf)) = Some i /\
    b = (start + i)%nat /\
    (b + length needle <= length buf)%nat.
Proof.
  unfold strstr. destruct (find_sub needle (cstr (skipn start buf))) as [i|] eqn:F;
    [|discriminate].
  intros [= <-] Hs. exists i. split; [reflexivity|]. split; [reflexivity|].
  destruct (find_sub_Some _ _ _ F) as [post [Hsplit Hi]].
  apply (f_equal (@length ascii)) in Hsplit. rewrite !length_app, Hi in Hsplit.
  pose proof (cstr_length (skipn start buf)) as Hc. rewrite length_skipn in Hc. lia.
Qed.

Lemma slice_length (buf : bytes) (from to : nat) :
  (to <= length buf)%nat -> length (slice buf from to) = (to - from)%nat.
Proof. intros H. unfold slice. rewrite length_firstn, length_skipn. lia. Qed.

Lemma slice_nth (buf : bytes) (from to i : nat) :
  (i < to - from)%nat -> nth i (slice buf from to) NUL = nth (from + i) buf NUL.
Proof.
  intros H. unfold slice. rewrite nth_firstn.
  apply Nat.ltb_lt in H. rewrite H. apply nth_skipn.
Qed.

(** The two tests of the code on the bytes in front of the boundary are
    the rule of the specification on the payload region. *)
Lemma trimmed_len_rule (buf : bytes) (start b : nat) :
  (start <= b)%nat -> (b <= length buf)%nat ->
  trimmed_len buf start b
  = (length (slice buf start b) - eol_len (slice buf start b))%nat.
Proof.
  intros Hsb Hb.
  pose proof (slice_length buf start b Hb) as Hlen.
  set (region := slice buf start b) in *.
  assert (H1 : (1 <= b - start)%nat -> nth (b - 1) buf NUL = nth 0 (rev region) NUL).
  { intros H. rewrite rev_nth by lia. rewrite Hlen. unfold region.
    rewrite slice_nth by lia. f_equal. lia. }
  assert (H2 : (2 <= b - start)%nat -> nth (b - 2) buf NUL = nth 1 (rev region) NUL).
  { intros H. rewrite rev_nth by lia. rewrite Hlen. unfold region.
    rewrite slice_nth by lia. f_equal. lia. }
  unfold trimmed_len, eol_len, ends_with. rewrite Hlen.
  change (rev CRLF) with [LF; CR]. change (rev [LF]) with [LF].
  assert (Hrl : length (rev region) = (b - start)%nat) by (rewrite length_rev; exact Hlen).
  destruct (rev region) as [|x [|y r]]; cbn [length] in Hrl.
  - rewrite <- Hrl. cbn [Nat.leb is_prefix andb]. lia.
  - rewrite <- Hrl in *. rewrite H1 by lia. cbn [Nat.leb nth is_prefix andb].
    rewrite (Ascii.eqb_sym LF x), andb_false_r, andb_true_r.
    destruct (Ascii.eqb x LF); cbn [andb]; lia.
  - rewrite H1, H2 by lia. cbn [nth is_prefix].
    rewrite (Ascii.eqb_sym LF x), (Ascii.eqb_sym CR y), !andb_true_r.
    assert (G2 : (2 <=? b - start)%nat = true) by (apply Nat.leb_le; lia).
    assert (G1 : (1 <=? b - start)%nat = true) by (apply Nat.leb_le; lia).
    rewrite G2, G1. cbn [andb].
    destruct (Ascii.eqb x LF), (Ascii.eqb y CR); cbn [andb]; lia.
Qed.

Lemma eol_len_le (s : bytes) : (eol_len s <= length s)%nat.
Proof.
  unfold eol_len, ends_with. change (rev CRLF) with [LF; CR]. change (rev [LF]) with [LF].
  rewrite <- (length_rev s).
  destruct (rev s) as [|x [|y r]]; cbn [is_prefix length].
  - lia.
  - rewrite andb_false_r. destruct (_ && _); lia.
  - destruct (_ && _); [lia|]. destruct (_ && _); lia.
Qed.

(** The bytes the code writes in front of a boundary are the payload
    region without its line end. *)
Lemma trimmed_slice (buf : bytes) (start b : nat) :
  (start <= b)%nat -> (b <= length buf)%nat ->
  slice buf start (start + trimmed_len buf start b) = strip_eol (slice buf start b).
Proof.
  intros Hsb Hb. rewrite trimmed_len_rule by assumption.
  unfold strip_eol. pose proof (eol_len_le (slice buf start b)) as Hle.
  pose proof (slice_length buf start b Hb) as Hlen.
  unfold slice in *. rewrite firstn_firstn.
  f_equal. lia.
Qed.

Lemma slice_from_0 (buf : bytes) (b : nat) : slice buf 0 b = firstn b buf.
Proof. unfold slice. rewrite Nat.sub_0_r. reflexivity. Qed.

End TrimFacts.

Section TrimRule.
Import Upload.

Lemma rev_snoc2 (r : bytes) (a b : ascii) : rev (r ++ [a; b]) = b :: a :: rev r.
Proof. rewrite rev_app_distr. reflexivity. Qed.

Lemma eol_len_crlf (r : bytes) : eol_len (r ++ CRLF) = 2%nat.
Proof.
  unfold eol_len, ends_with, CRLF. rewrite rev_snoc2. cbn [rev app is_prefix].
  rewrite !Ascii.eqb_refl. reflexivity.
Qed.

Lemma eol_len_lf (r : bytes) : ends_with [CR] r = false -> eol_len (r ++ [LF]) = 1%nat.
Proof.
  unfold eol_len, ends_with. intros H. rewrite rev_app_distr.
  change (rev CRLF) with [LF; CR]. change (rev [LF]) with [LF].
  change (rev [CR]) with [CR] in H. cbn [app is_prefix].
  rewrite Ascii.eqb_refl. cbn [andb].
  change (match rev r with [] => false | b :: s' => Ascii.eqb CR b && true end)
    with (is_prefix [CR] (rev r)).
  rewrite H. reflexivity.
Qed.

Lemma eol_len_none (r : bytes) : ends_with [LF] r = false -> eol_len r = 0%nat.
Proof.
  unfold eol_len, ends_with. change (rev CRLF) with [LF; CR]. change (rev [LF]) with [LF].
  intros H. rewrite H.
  destruct (rev r) as [|x s]; [reflexivity|].
  cbn [is_prefix] in *. rewrite andb_true_r in H. rewrite H. reflexivity.
Qed.

Lemma strip_eol_length (r : bytes) :
  length (strip_eol r) = (length r - eol_len r)%nat.
Proof. unfold strip_eol. rewrite length_firstn. lia. Qed.

Lemma strip_eol_nil : strip_eol [] = [].
Proof. reflexivity. Qed.

Variable E : env.
Variable req : request.
Variable boundary : bytes.

(** A later chunk in which the boundary is found. *)
Lemma stream_payload_found (l : locals) (w : world) (buf path : bytes) (b : nat) :
  file_data_started l = true ->
  fd l = Some path ->
  strstr buf 0 boundary = Some b ->
  process_chunk E req boundary l w buf
  = (Continue (set_remaining l 0) (write_if_any w path (strip_eol (firstn b buf))), true).
Proof.
  intros Hs Hfd Hb. unfold process_chunk, stream_payload. rewrite Hs, Hfd. cbn [negb].
  rewrite (write_payload_found _ _ _ _ _ _ _ Hb).
  destruct (strstr_bounds _ _ _ _ Hb ltac:(lia)) as (i & _ & _ & Hle).
  rewrite trimmed_slice by lia. rewrite slice_from_0. reflexivity.
Qed.

(** The chunk that holds the separator, with the boundary behind it. *)
Lemma find_payload_found (l1 : locals) (w1 : world) (buf path name : bytes) (sep b : nat) :
  fd l1 = Some path ->
  filename l1 = Some name ->
  strstr buf 0 CRLFCRLF = Some sep ->
  strstr buf (sep + 4) boundary = Some b ->
  find_payload boundary l1 w1 buf
  = (Continue (set_started (set_remaining l1 0))
       (write_if_any w1 path (strip_eol (slice buf (sep + 4) b))), true).
Proof.
  intros Hfd Hname Hsep Hb. unfold find_payload. rewrite Hsep, Hfd, Hname.
  rewrite (write_payload_found _ _ _ _ _ _ _ Hb).
  destruct (strstr_bounds _ _ _ _ Hsep ltac:(lia)) as (i & _ & _ & Hs4).
  change (length CRLFCRLF) with 4%nat in Hs4.
  destruct (strstr_bounds _ _ _ _ Hb Hs4) as (j & _ & Hj & Hle).
  rewrite trimmed_slice by lia. reflexivity.
Qed.

End TrimRule.

(** ** The upload handler: conflict and opening of the sink *)

Section UploadSink.
Import Upload.

Variable E : env.
Variable req : request.
Variable boundary : bytes.
Hypothesis mallocs_succeed : forall n s, malloc_ok E n s = true.

Lemma should_overwrite_unfold (w : world) :
  exists k qev,
    should_overwrite E req w
    = (overwrite_requested req,
       mkWorld (files w) (transport w) (resp_status w) (resp_type w) k (trace w ++ qev)) /\
    Forall (fun e => is_malloc e = true) qev.
Proof.
  destruct (should_overwrite_frame E req w) as (k & qev & Hw & Hq).
  exists k, qev. split; [|exact Hq].
  rewrite <- Hw, <- (should_overwrite_requested E req w mallocs_succeed).
  destruct (should_overwrite E req w). reflexivity.
Qed.

(** The name exists and no overwrite is asked for: the conflict reply is
    prepared, the rest of the body is read, and the sink is not opened. *)
Lemma open_sink_conflict (l : locals) (w : world) (buf name old : bytes) :
  extract_filename buf = inl name ->
  files w !! Path.build_filepath Path.FILE_PATH_MAX Path.MOUNT_POINT (Some name) = Some old ->
  overwrite_requested req = false ->
  exists r' tr' k evs,
    open_sink E req l w buf
    = Cleanup (mkLocals r' (file_data_started l) (Some name) (fd l)
                        (Some (conflict_json name)))
              (mkWorld (files w) tr' (bs "409 Conflict") (resp_type w) k
                       (trace w ++ evs)) /\
    Forall (fun e => is_file_event e = false) evs /\
    (forall chunks,
        transport w = map Data chunks ->
        Forall (fun c => c <> []) chunks ->
        total chunks < remaining l ->
        tr' = []).
Proof.
  intros Hname Hold Hov. unfold open_sink. rewrite Hname.
  unfold malloc at 1. rewrite mallocs_succeed.
  match goal with |- context [should_overwrite E req ?w1] =>
    destruct (should_overwrite_unfold w1) as (k & qev & Hso & Hq); rewrite Hso end.
  rewrite Hov. unfold stat. cbn [files]. rewrite Hold. cbn [andb negb].
  unfold httpd_resp_set_status, log.
  cbn [files transport resp_status resp_type mallocs trace].
  match goal with |- context [drain ?f ?r ?w0] =>
    destruct (drain_total f r w0 ltac:(lia)) as (r' & tr' & dev & D & Hdev);
    pose proof (fun chunks Ht Hne Htot =>
                  drain_empties f r w0 chunks Ht Hne Htot ltac:(lia)) as Hempty;
    rewrite D in Hempty |- * end.
  cbn [files transport resp_status resp_type mallocs trace] in *.
  exists r', tr', k. eexists. split; [rewrite <- !app_assoc; reflexivity|].
  split.
  - apply Forall_app. split; [repeat constructor|].
    apply Forall_app. split; [apply malloc_events_quiet, Hq|].
    apply Forall_app. split; [repeat constructor|].
    clear -Hdev. induction Hdev as [|e evs He _ IH]; [constructor|].
    constructor; [destruct e; try discriminate; reflexivity | exact IH].
  - intros chunks Ht Hne Htot.
    destruct (Hempty chunks Ht Hne Htot) as (r'' & w'' & Heq & Hnil).
    injection Heq as _ <-. exact Hnil.
Qed.

(** The name is free, or an overwrite is asked for: the sink is opened in
    mode [wb], and the file starts empty when that succeeds. *)
Lemma open_sink_opens (l : locals) (w : world) (buf name : bytes) :
  extract_filename buf = inl name ->
  files w !! Path.build_filepath Path.FILE_PATH_MAX Path.MOUNT_POINT (Some name) = None
  \/ overwrite_requested req = true ->
  let path := Path.build_filepath Path.FILE_PATH_MAX Path.MOUNT_POINT (Some name) in
  exists k evs,
    Forall (fun e => is_file_event e = false) evs /\
    Forall (fun e => is_recv e = false) evs /\
    open_sink E req l w buf
    = if fopen_ok E path then
        Continue (mkLocals (remaining l) (file_data_started l) (Some name) (Some path)
                           (root_json l))
                 (mkWorld (<[path := []]> (files w)) (transport w) (resp_status w)
                          (resp_type w) k
                          (trace w ++ evs ++ [EvFopen path (bs "wb") true]))
      else
        Cleanup (mkLocals (remaining l) (file_data_started l) (Some name) (fd l)
                   (Some (error_json
                            (snprintf 228
                               (bs "Nije moguce otvoriti datoteku '" ++ name
                                ++ bs "' za pisanje. Greška: "
                                ++ cstr (strerror_errno E))))))
                (mkWorld (files w) (transport w) (resp_status w) (resp_type w) k
                         (trace w ++ evs ++ [EvFopen path (bs "wb") false])).
Proof.
  intros Hname Hfree path. unfold open_sink. rewrite Hname.
  unfold malloc at 1. rewrite mallocs_succeed.
  match goal with |- context [should_overwrite E req ?w1] =>
    destruct (should_overwrite_unfold w1) as (k & qev & Hso & Hq); rewrite Hso end.
  unfold stat. cbn [files]. fold path.
  assert (Hcond : (match files w !! path with Some _ => true | None => false end
                   && negb (overwrite_requested req)) = false).
  { destruct Hfree as [Hnone|Hov].
    - fold path in Hnone. rewrite Hnone. reflexivity.
    - rewrite Hov. apply andb_false_r. }
  rewrite Hcond. unfold fopen_wb, log, set_root_json.
  cbn [files transport resp_status resp_type mallocs trace remaining file_data_started
       filename fd root_json].
  exists k.
  exists (EvMalloc (blen name + 1) true
          :: qev ++ [EvStat path match files w !! path with
                                 | Some _ => true
                                 | None => false
                                 end]).
  split; [|split].
  - constructor; [reflexivity|]. apply Forall_app.
    split; [apply malloc_events_quiet, Hq | repeat constructor].
  - constructor; [reflexivity|]. apply Forall_app.
    split; [apply malloc_events_quiet, Hq | repeat constructor].
  - destruct (fopen_ok E path); cbn [app]; rewrite <- !app_assoc; reflexivity.
Qed.

End UploadSink.

Section UploadFirstPass.
Import Upload.

Variable E : env.
Variable req : request.
Variable boundary : bytes.
Hypothesis mallocs_succeed : forall n s, malloc_ok E n s = true.

(** The handler up to the end of its first pass through the loop. *)
Lemma handler_first_pass (w : world) (ret : Z) (buf : bytes) (rest : list incoming) :
  let rem := int_of_size_t (content_len req) in
  0 < rem ->
  extract_boundary req = inl boundary ->
  next_chunk (transport w) (Z.min rem (UPLOAD_BUFFER_SIZE - 1)) = (ret, buf, rest) ->
  0 < ret ->
  upload_post_handler E req w =
  match process_chunk E req boundary (initial_locals rem)
          (mkWorld (files w) rest (resp_status w) (bs "application/json")
                   (S (mallocs w))
                   (trace w ++ [EvMalloc UPLOAD_BUFFER_SIZE true;
                                EvRecv (Z.min rem (UPLOAD_BUFFER_SIZE - 1)) ret buf]))
          buf with
  | (Continue l1 w2, _) =>
      receive_loop E req boundary (Z.to_nat rem - 1)
        (set_remaining l1 (if remaining l1 - ret <? 0 then 0 else remaining l1 - ret)) w2
  | (Cleanup l1 w2, _) => Some (cleanup_and_send_json E l1 w2)
  | (Unfinished, _) => None
  end.
Proof.
  intros rem Hrem Hb Hn Hret. unfold upload_post_handler. fold rem.
  assert (G : (rem <=? 0) = false) by (apply Z.leb_gt; lia).
  rewrite G. unfold malloc. rewrite mallocs_succeed, Hb.
  destruct (Z.to_nat rem) as [|f] eqn:Hf; [lia|].
  rewrite receive_loop_unfold by (cbn [remaining initial_locals]; lia).
  cbn [remaining initial_locals]. rewrite recv_unfold.
  cbn [transport httpd_resp_set_type files resp_status resp_type mallocs trace].
  rewrite Hn. cbn [fst snd].
  assert (R : (ret <=? 0) = false) by (apply Z.leb_gt; lia).
  rewrite R, <- app_assoc. cbn [app].
  replace (S f - 1)%nat with f by lia. reflexivity.
Qed.

End UploadFirstPass.

(** C2.  When the name extracted from the first chunk is that of a file
    that exists and the request does not ask for an overwrite, the handler
    answers with status 409 and the JSON object that says [conflict] and
    carries the file name; it makes no call on any file, so the stored
    bytes are what they were; and the reply is the last thing it does,
    after the draining loop, which reads the transport to its end when the
    transport holds the rest of the declared body. *)
Theorem upload_conflict (E : Upload.env) (req : Upload.request) (w : Upload.world)
    (boundary : bytes) (ret : Z) (buf : bytes) (rest : list Upload.incoming)
    (name old : bytes) :
  0 < Upload.int_of_size_t (Upload.content_len req) ->
  (forall n s, Upload.malloc_ok E n s = true) ->
  Upload.json_print_ok E = true ->
  Upload.extract_boundary req = inl boundary ->
  Upload.next_chunk (Upload.transport w)
    (Z.min (Upload.int_of_size_t (Upload.content_len req)) (Upload.UPLOAD_BUFFER_SIZE - 1))
  = (ret, buf, rest) ->
  0 < ret ->
  Upload.extract_filename buf = inl name ->
  Upload.files w !! Path.build_filepath Path.FILE_PATH_MAX Path.MOUNT_POINT (Some name)
  = Some old ->
  Upload.overwrite_requested req = false ->
  exists w' evs message,
    Upload.upload_post_handler E req w = Some (ESP_OK, w') /\
    Upload.trace w'
    = Upload.trace w ++ evs
      ++ [Upload.EvSend (bs "409 Conflict") (bs "application/json")
            [(bs "status", bs "conflict"); (bs "message", message);
             (bs "filename", name)]] /\
    Forall (fun e => Upload.is_file_event e = false) evs /\
    Upload.files w' = Upload.files w /\
    (forall chunks,
        rest = map Upload.Data chunks ->
        Forall (fun c => c <> []) chunks ->
        ret + Upload.total chunks <= Upload.int_of_size_t (Upload.content_len req) ->
        Upload.transport w' = []).
Proof.
  intros Hrem Hm Hjson Hb Hn Hret Hname Hold Hov.
  rewrite (handler_first_pass E req boundary Hm w ret buf rest Hrem Hb Hn Hret).
  unfold Upload.process_chunk. cbn [Upload.file_data_started Upload.initial_locals negb].
  unfold Upload.parse_headers. cbn [Upload.filename].
  match goal with |- context [Upload.open_sink E req ?l ?w1 buf] =>
    destruct (open_sink_conflict E req Hm l w1 buf name old Hname Hold Hov)
      as (r' & tr' & k & evs & Ho & Hev & Hdrain); rewrite Ho end.
  cbv beta iota.
  unfold Upload.cleanup_and_send_json, Upload.send_json_upload_response, Upload.log,
    Upload.initial_locals, Upload.conflict_json.
  cbn [Upload.fd Upload.root_json Upload.files Upload.transport Upload.resp_status
       Upload.resp_type Upload.mallocs Upload.trace Upload.remaining
       Upload.file_data_started] in *.
  rewrite Hjson.
  eexists _, (_ :: _ :: evs), _. split; [reflexivity|].
  cbn [Upload.fd Upload.root_json Upload.files Upload.transport Upload.resp_status
       Upload.resp_type Upload.mallocs Upload.trace].
  split; [rewrite <- !app_assoc; reflexivity|].
  split; [constructor; [reflexivity|]; constructor; [reflexivity | exact Hev]|].
  split; [reflexivity|].
  intros chunks Hrest Hne Htot. apply (Hdrain chunks Hrest Hne).
  cbn [Upload.remaining Upload.initial_locals]. lia.
Qed.

Lemma upload_conflict_witness :
  exists w' evs message,
    Upload.upload_post_handler example_env (example_request 92)
      (example_world (<[bs "/sdcard/a.txt" := bs "old"]> ∅)
         [Upload.Data (firstn 80 example_body); Upload.Data (skipn 80 example_body)])
    = Some (ESP_OK, w') /\
    Upload.trace w'
    = evs ++ [Upload.EvSend (bs "409 Conflict") (bs "application/json")
                [(bs "status", bs "conflict"); (bs "message", message);
                 (bs "filename", bs "a.txt")]] /\
    Upload.files w' !! bs "/sdcard/a.txt" = Some (bs "old") /\
    Upload.transport w' = [].
Proof.
  destruct (upload_conflict example_env (example_request 92)
              (example_world (<[bs "/sdcard/a.txt" := bs "old"]> ∅)
                 [Upload.Data (firstn 80 example_body);
                  Upload.Data (skipn 80 example_body)])
              (bs "--X") 80 (firstn 80 example_body)
              [Upload.Data (skipn 80 example_body)] (bs "a.txt") (bs "old"))
    as (w' & evs & message & H1 & H2 & _ & H4 & H5).
  - vm_compute. reflexivity.
  - intros n s. reflexivity.
  - reflexivity.
  - vm_compute. reflexivity.
  - vm_compute. reflexivity.
  - vm_compute. reflexivity.
  - vm_compute. reflexivity.
  - vm_compute. reflexivity.
  - vm_compute. reflexivity.
  - exists w', evs, message. split; [exact H1|]. split; [exact H2|].
    split; [rewrite H4; vm_compute; reflexivity|].
    apply (H5 [skipn 80 example_body]).
    + reflexivity.
    + constructor; [vm_compute; discriminate | constructor].
    + vm_compute. discriminate.
Defined.

(** ** The upload handler: the loop once the sink is open *)

Section UploadSinkLoop.
Import Upload.

Variable E : env.
Variable req : request.
Variable boundary : bytes.
Variable path name : bytes.

Lemma bytes_eqb_refl (a : bytes) : bytes_eqb a a = true.
Proof. induction a as [|c a IH]; [reflexivity|]. simpl. rewrite Ascii.eqb_refl. exact IH. Qed.

Lemma written_app (a b : list event) :
  written path (a ++ b) = written path a ++ written path b.
Proof.
  induction a as [|e a IH]; [reflexivity|].
  destruct e; cbn [app written]; try exact IH.
  destruct (bytes_eqb _ path); [rewrite IH, app_assoc; reflexivity | exact IH].
Qed.

(** What a write does to the world. *)
Lemma write_if_any_spec (w : world) (data : bytes) :
  exists evs fs',
    write_if_any w path data
    = mkWorld fs' (transport w) (resp_status w) (resp_type w) (mallocs w)
              (trace w ++ evs) /\
    written path evs = data /\
    Forall (fun e => is_fopen e = false) evs /\
    Forall (fun e => recv_ok e = true) evs /\
    (forall content, files w !! path = Some content ->
                     fs' !! path = Some (content ++ data)).
Proof.
  unfold write_if_any. destruct data as [|c data]; cbn [length Nat.ltb Nat.leb].
  - exists [], (files w). rewrite app_nil_r. destruct w. cbn [files].
    split; [reflexivity|]. split; [reflexivity|].
    split; [constructor|]. split; [constructor|].
    intros content H. rewrite app_nil_r. exact H.
  - unfold fwrite. eexists [_], _. split; [reflexivity|].
    cbn [written]. rewrite bytes_eqb_refl, app_nil_r.
    split; [reflexivity|]. split; [repeat constructor|]. split; [repeat constructor|].
    intros content H. rewrite H. apply lookup_insert_eq.
Qed.

(** With the sink open, a chunk read before the payload has started
    writes some bytes (none while the separator is awaited) and goes on. *)
Lemma find_payload_sink (l : locals) (w : world) (buf : bytes) :
  fd l = Some path -> filename l = Some name ->
  exists l1 data fnd,
    find_payload boundary l w buf = (Continue l1 (write_if_any w path data), fnd) /\
    fd l1 = Some path /\ filename l1 = Some name /\ root_json l1 = root_json l /\
    (remaining l1 = remaining l \/ remaining l1 = 0).
Proof.
  intros Hfd Hname. unfold find_payload.
  destruct (strstr buf 0 CRLFCRLF) as [sep|].
  - rewrite Hfd, Hname. destruct (strstr buf (sep + 4) boundary) as [b|] eqn:S.
    + rewrite (write_payload_found _ _ _ _ _ _ _ S).
      eexists _, _, _. split; [reflexivity|].
      cbn [set_started set_remaining fd filename root_json remaining]. auto.
    + rewrite (write_payload_not_found _ _ _ _ _ _ S).
      eexists _, _, _. split; [reflexivity|].
      cbn [set_started fd filename root_json remaining]. auto.
  - exists l, [], false. split; [reflexivity | auto].
Qed.

Lemma process_chunk_sink (l : locals) (w : world) (buf : bytes) :
  fd l = Some path -> filename l = Some name ->
  exists l1 data fnd,
    process_chunk E req boundary l w buf = (Continue l1 (write_if_any w path data), fnd) /\
    fd l1 = Some path /\ filename l1 = Some name /\ root_json l1 = root_json l /\
    (remaining l1 = remaining l \/ remaining l1 = 0).
Proof.
  intros Hfd Hname. unfold process_chunk. destruct (file_data_started l); cbn [negb].
  - unfold stream_payload. rewrite Hfd.
    destruct (strstr buf 0 boundary) as [b|] eqn:S.
    + rewrite (write_payload_found _ _ _ _ _ _ _ S).
      eexists _, _, _. split; [reflexivity|].
      cbn [set_remaining fd filename root_json remaining]. auto.
    + rewrite (write_payload_not_found _ _ _ _ _ _ S).
      eexists _, _, _. split; [reflexivity | auto].
  - unfold parse_headers. rewrite Hname. apply find_payload_sink; assumption.
Qed.

(** The loop with the sink open, whatever the transport brings: the file
    receives what is written and nothing else, the sink is not opened
    again, and when no receive call fails the reply is the success reply. *)
Lemma sink_loop (fuel : nat) :
  forall (l : locals) (w : world) (content : bytes),
    fd l = Some path -> filename l = Some name -> root_json l = None ->
    files w !! path = Some content ->
    (Z.to_nat (remaining l) <= fuel)%nat ->
    exists r w' evs,
      receive_loop E req boundary fuel l w = Some (r, w') /\
      trace w' = trace w ++ evs /\
      files w' !! path = Some (content ++ written path evs) /\
      Forall (fun e => is_fopen e = false) evs /\
      (json_print_ok E = true ->
       Forall (fun e => recv_ok e = true) evs ->
       r = ESP_OK /\
       exists evs0,
         evs = evs0 ++ [EvSend (resp_status w) (resp_type w) (success_json name)]).
Proof.
  induction fuel as [|f IH]; intros l w content Hfd Hname Hroot Hfile Hfuel.
  - rewrite receive_loop_exit by lia.
    unfold cleanup_and_send_json, send_json_upload_response, log.
    rewrite Hfd, Hname, Hroot.
    cbn [files transport resp_status resp_type mallocs trace].
    destruct (json_print_ok E); eexists _, _, [_; _];
      (split; [reflexivity|]); cbn [trace files];
      (split; [rewrite <- app_assoc; reflexivity|]);
      (split; [rewrite app_nil_r; exact Hfile|]);
      (split; [repeat constructor|]); intros Hj _; try discriminate.
    split; [reflexivity|]. eexists [_]. reflexivity.
  - destruct (Z_le_gt_dec (remaining l) 0) as [G|G].
    + rewrite receive_loop_exit by lia.
      unfold cleanup_and_send_json, send_json_upload_response, log.
      rewrite Hfd, Hname, Hroot.
      cbn [files transport resp_status resp_type mallocs trace].
      destruct (json_print_ok E); eexists _, _, [_; _];
        (split; [reflexivity|]); cbn [trace files];
        (split; [rewrite <- app_assoc; reflexivity|]);
        (split; [rewrite app_nil_r; exact Hfile|]);
        (split; [repeat constructor|]); intros Hj _; try discriminate.
      split; [reflexivity|]. eexists [_]. reflexivity.
    + rewrite receive_loop_unfold by lia. rewrite recv_unfold.
      destruct (next_chunk (transport w) _) as [[ret buf] rest] eqn:N. cbn [fst snd].
      destruct (ret <=? 0) eqn:R.
      * unfold cleanup_and_send_json, send_json_upload_response, log, set_root_json.
        cbn [fd root_json]. rewrite Hfd.
        cbn [files transport resp_status resp_type mallocs trace].
        destruct (json_print_ok E); eexists _, _, [_; _; _];
          (split; [reflexivity|]); cbn [trace files];
          (split; [rewrite <- !app_assoc; reflexivity|]);
          (split; [rewrite app_nil_r; exact Hfile|]);
          (split; [repeat constructor|]); intros Hj Hok; try discriminate.
        inversion Hok as [|? ? H1 _]. cbn [recv_ok] in H1.
        apply Z.leb_le in R. apply Z.ltb_lt in H1. lia.
      * apply Z.leb_gt in R.
        match goal with |- context [process_chunk E req boundary l ?w1 buf] =>
          destruct (process_chunk_sink l w1 buf Hfd Hname)
            as (l1 & data & fnd & Hp & Hfd1 & Hname1 & Hroot1 & Hrem1);
          rewrite Hp;
          destruct (write_if_any_spec w1 data)
            as (wev & fs' & Hw & Hwr & Hwf & Hwk & Hwfile) end.
        rewrite Hw. cbn [files transport resp_status resp_type mallocs trace] in *.
        match goal with |- context [receive_loop E req boundary f ?l2 ?w2] =>
          destruct (IH l2 w2 (content ++ data)) as (r & w' & evs & Hl & Ht & Hf & Hno & Hs) end.
        { exact Hfd1. } { exact Hname1. } { rewrite <- Hroot. exact Hroot1. }
        { cbn [files]. apply Hwfile, Hfile. }
        { cbn [remaining set_remaining].
          destruct Hrem1 as [-> | ->]; destruct (_ <? 0); simpl; lia. }
        cbn [files transport resp_status resp_type mallocs trace] in *.
        exists r, w',
          (EvRecv (Z.min (remaining l) (UPLOAD_BUFFER_SIZE - 1)) ret buf :: wev ++ evs).
        split; [exact Hl|].
        split; [rewrite Ht, <- !app_assoc; reflexivity|].
        split.
        { rewrite Hf. cbn [written]. rewrite written_app, Hwr, app_assoc. reflexivity. }
        split.
        { constructor; [reflexivity|]. apply Forall_app. split; assumption. }
        intros Hj Hok. inversion Hok as [|? ? _ Hok']; subst.
        apply Forall_app in Hok'. destruct Hok' as [_ Hok'].
        destruct (Hs Hj Hok') as [-> [evs0 ->]].
        split; [reflexivity|].
        exists (EvRecv (Z.min (remaining l) (UPLOAD_BUFFER_SIZE - 1)) ret buf
                :: wev ++ evs0).
        cbn [app]. rewrite <- app_assoc. reflexivity.
Qed.

End UploadSinkLoop.

(** ** The upload handler: a body that arrives in well-cut chunks *)

Section SearchInChunks.

Lemma is_prefix_app_r (n h t : bytes) :
  is_prefix n h = true -> is_prefix n (h ++ t) = true.
Proof.
  intros H. apply is_prefix_spec in H. destruct H as [u ->].
  rewrite <- app_assoc. apply is_prefix_app.
Qed.

Lemma is_prefix_false_app (n : bytes) :
  forall h t : bytes,
    is_prefix n h = false -> (length n <= length h)%nat -> is_prefix n (h ++ t) = false.
Proof.
  induction n as [|a n IH]; intros h t H Hlen; [discriminate|].
  destruct h as [|b h]; [simpl in Hlen; lia|].
  cbn [app is_prefix] in *. destruct (Ascii.eqb a b); [|reflexivity].
  cbn [andb] in *. apply IH; [exact H | simpl in Hlen; lia].
Qed.

(** The first occurrence in a buffer stays the first when more bytes
    follow. *)
Lemma find_sub_app_prefix (n h t : bytes) (i : nat) :
  find_sub n h = Some i -> find_sub n (h ++ t) = Some i.
Proof.
  revert i; induction h as [|c h IH]; intros i H.
  - simpl in H. destruct (is_prefix n []) eqn:P; [|discriminate].
    injection H as <-. apply is_prefix_nil_r in P. subst n.
    destruct t; reflexivity.
  - rewrite find_sub_cons in H. change ((c :: h) ++ t) with (c :: (h ++ t)).
    rewrite find_sub_cons. change (c :: (h ++ t)) with ((c :: h) ++ t).
    destruct (is_prefix n (c :: h)) eqn:P.
    + rewrite (is_prefix_app_r _ _ _ P). exact H.
    + destruct (find_sub n h) as [j|] eqn:F; [|discriminate].
      rewrite (IH j eq_refl).
      rewrite is_prefix_false_app; [exact H | exact P |].
      destruct (find_sub_Some _ _ _ F) as [post [Hs Hj]].
      apply (f_equal (@length ascii)) in Hs. rewrite !length_app in Hs.
      simpl. lia.
Qed.

Lemma not_in_app (x : ascii) (a b : bytes) : ~ In x a -> ~ In x b -> ~ In x (a ++ b).
Proof. intros Ha Hb H. apply in_app_or in H. tauto. Qed.

(** A needle that stands first at the end of [a], behind [x], is found by
    a search that starts behind [x], when no NUL hides it. *)
Lemma strstr_first (x a n t : bytes) :
  ~ In NUL a -> ~ In NUL n ->
  find_sub n (a ++ n) = Some (length a) ->
  strstr (x ++ a ++ n ++ t) (length x) n = Some (length x + length a)%nat.
Proof.
  intros Ha Hn Hf. unfold strstr. rewrite drop_app_length.
  rewrite (app_assoc a n t), cstr_app_no_nul by (apply not_in_app; assumption).
  rewrite (find_sub_app_prefix _ _ _ _ Hf). reflexivity.
Qed.

(** A needle that is nowhere behind [x] is not found there. *)
Lemma strstr_none (x q n : bytes) :
  find_sub n q = None -> strstr (x ++ q) (length x) n = None.
Proof.
  intros H. unfold strstr. rewrite drop_app_length.
  rewrite (find_sub_cstr_None _ _ H). reflexivity.
Qed.

Lemma extract_boundary_no_nul (req : Upload.request) (boundary : bytes) :
  Upload.extract_boundary req = inl boundary -> ~ In NUL boundary.
Proof.
  unfold Upload.extract_boundary. destruct (Upload.content_type req) as [hdr|]; [|discriminate].
  destruct (strstr hdr 0 (bs "boundary=")) as [bp|]; [|discriminate].
  destruct (128 <=? _)%nat; [discriminate|]. intros [= <-].
  intros [H|[H|H]]; [discriminate H | discriminate H | exact (cstr_free _ H)].
Qed.

End SearchInChunks.

Section WellCutBody.
Import Upload.

Variable E : env.
Variable req : request.
Variable boundary : bytes.
Variable path name : bytes.
Variable p tail : bytes.
Variable more : list incoming.

Hypothesis boundary_no_nul : ~ In NUL boundary.
Hypothesis p_no_nul : ~ In NUL p.
Hypothesis boundary_first : find_sub boundary (p ++ boundary) = Some (length p).

Local Abbreviation runs := (Upload.runs E req boundary).
Local Abbreviation last_chunk := (p ++ boundary ++ tail).

Lemma recv_chunk (l : locals) (tr : list incoming) (c : bytes) :
  0 < blen c <= 2047 -> blen c <= remaining l ->
  next_chunk (Data c :: tr) (Z.min (remaining l) (UPLOAD_BUFFER_SIZE - 1))
  = (blen c, c, tr).
Proof.
  intros Hc Hr. apply next_chunk_data. change (UPLOAD_BUFFER_SIZE - 1) with 2047. lia.
Qed.

Lemma written_quiet (evs : list event) :
  Forall (fun e => match e with EvFopen _ _ _ | EvFwrite _ _ => false | _ => true end = true)
         evs ->
  written path evs = [].
Proof.
  induction 1 as [|e evs He _ IH]; [reflexivity|].
  destruct e; try discriminate; exact IH.
Qed.

(** The end of the handler, seen from the file. *)
Lemma cleanup_file (l : locals) (w : world) :
  exists r w' cev,
    cleanup_and_send_json E l w = (r, w') /\
    trace w' = trace w ++ cev /\
    written path cev = [] /\
    files w' = files w /\
    transport w' = transport w.
Proof.
  destruct (cleanup_unfold E l w) as (cev & Hc & _ & Hq).
  eexists _, _, cev. split; [exact Hc|]. cbn [trace files transport].
  split; [reflexivity|]. split; [apply written_quiet, Hq|]. split; reflexivity.
Qed.

(** The chunks behind the separator chunk: each goes to the file whole,
    until the one that holds the boundary, which ends the loop. *)
Lemma stream_phase (mids : list bytes) :
  forall (l : locals) (w : world) (content : bytes),
    fd l = Some path ->
    file_data_started l = true ->
    files w !! path = Some content ->
    transport w = map Data (mids ++ [last_chunk]) ++ more ->
    Forall (fun c => 0 < blen c <= 2047) (mids ++ [last_chunk]) ->
    total (mids ++ [last_chunk]) <= remaining l ->
    Forall (fun m => find_sub boundary m = None) mids ->
    exists r w' evs,
      runs l w (r, w') /\
      trace w' = trace w ++ evs /\
      written path evs = concat mids ++ strip_eol p /\
      files w' !! path = Some (content ++ concat mids ++ strip_eol p) /\
      transport w' = more.
Proof.
  induction mids as [|m mids IH]; intros l w content Hfd Hst Hfile Htr Hsz Htot Hnb.
  - cbn [app map] in Htr. cbn [app] in Hsz, Htot.
    inversion Hsz as [|? ? Hc _]; subst.
    rewrite total_cons in Htot. change (total []) with 0 in Htot.
    assert (Hn := recv_chunk l more last_chunk Hc ltac:(lia)).
    rewrite <- Htr in Hn.
    set (w1 := mkWorld (files w) more (resp_status w) (resp_type w) (mallocs w)
                 (trace w ++ [EvRecv (Z.min (remaining l) (UPLOAD_BUFFER_SIZE - 1))
                                (blen last_chunk) last_chunk])).
    assert (Hs : strstr last_chunk 0 boundary = Some (length p)).
    { apply (strstr_first [] p boundary tail p_no_nul boundary_no_nul boundary_first). }
    assert (Hp : process_chunk E req boundary l w1 last_chunk
                 = (Continue (set_remaining l 0) (write_if_any w1 path (strip_eol p)), true)).
    { rewrite (stream_payload_found E req boundary l w1 last_chunk path (length p) Hst Hfd Hs).
      rewrite take_app_length. reflexivity. }
    destruct (write_if_any_spec path w1 (strip_eol p))
      as (wev & fs' & Hw & Hwr & _ & _ & Hwfile).
    destruct (cleanup_file (set_remaining (set_remaining l 0) 0) (write_if_any w1 path (strip_eol p)))
      as (r & w' & cev & Hc' & Hct & Hcw & Hcf & Hctr).
    exists r, w', (EvRecv (Z.min (remaining l) (UPLOAD_BUFFER_SIZE - 1))
                     (blen last_chunk) last_chunk :: wev ++ cev).
    split.
    { apply (runs_step E req boundary l (set_remaining l 0) w
               (write_if_any w1 path (strip_eol p)) last_chunk more true);
        [lia | exact Hn | lia | exact Hp |].
      cbn [remaining set_remaining].
      replace (if 0 - blen last_chunk <? 0 then 0 else 0 - blen last_chunk) with 0
        by (destruct (_ <? 0) eqn:C; [reflexivity | apply Z.ltb_ge in C; lia]).
      rewrite <- Hc'. apply runs_exit. simpl. lia. }
    rewrite Hw in Hct, Hcf, Hctr.
    cbn [trace files transport] in Hct, Hcf, Hctr. subst w1.
    cbn [trace files transport resp_status resp_type mallocs] in *.
    split; [rewrite Hct, <- !app_assoc; reflexivity|].
    split; [cbn [written concat app]; rewrite written_app, Hwr, Hcw, app_nil_r; reflexivity|].
    split; [rewrite Hcf; cbn [concat app]; apply Hwfile, Hfile|].
    exact Hctr.
  - cbn [app map] in Htr. cbn [app] in Hsz, Htot.
    inversion Hsz as [|? ? Hc Hsz']; subst.
    inversion Hnb as [|? ? Hm Hnb']; subst.
    rewrite total_cons in Htot.
    pose proof (total_nonneg (mids ++ [last_chunk])) as H0.
    assert (Hn := recv_chunk l (map Data (mids ++ [last_chunk]) ++ more) m Hc ltac:(lia)).
    rewrite <- Htr in Hn.
    set (w1 := mkWorld (files w) (map Data (mids ++ [last_chunk]) ++ more)
                 (resp_status w) (resp_type w) (mallocs w)
                 (trace w ++ [EvRecv (Z.min (remaining l) (UPLOAD_BUFFER_SIZE - 1))
                                (blen m) m])).
    assert (Hp : process_chunk E req boundary l w1 m
                 = (Continue l (write_if_any w1 path m), false)).
    { unfold process_chunk, stream_payload. rewrite Hst, Hfd. cbn [negb].
      rewrite (write_payload_not_found boundary l w1 path m 0
                 (strstr_none [] m boundary Hm)).
      unfold slice. rewrite Nat.sub_0_r. cbn [skipn Nat.add].
      rewrite Nat.sub_0_r, firstn_all. reflexivity. }
    destruct (write_if_any_spec path w1 m) as (wev & fs' & Hw & Hwr & _ & _ & Hwfile).
    destruct (IH (set_remaining l (if remaining l - blen m <? 0 then 0
                                   else remaining l - blen m))
                (write_if_any w1 path m) (content ++ m))
      as (r & w' & evs & Hrun & Ht & Hwrt & Hf & Htr').
    { exact Hfd. } { exact Hst. }
    { rewrite Hw. cbn [files]. apply Hwfile. exact Hfile. }
    { rewrite Hw. reflexivity. }
    { exact Hsz'. }
    { cbn [remaining set_remaining].
      destruct (_ <? 0) eqn:C; [apply Z.ltb_lt in C; lia | lia]. }
    { exact Hnb'. }
    exists r, w', (EvRecv (Z.min (remaining l) (UPLOAD_BUFFER_SIZE - 1)) (blen m) m
                   :: wev ++ evs).
    split.
    { apply (runs_step E req boundary l l w (write_if_any w1 path m) m
               (map Data (mids ++ [last_chunk]) ++ more) false);
        [lia | exact Hn | lia | exact Hp | exact Hrun]. }
    rewrite Hw in Ht. cbn [trace] in Ht. subst w1. cbn [trace] in Ht.
    split; [rewrite Ht, <- !app_assoc; reflexivity|].
    split.
    { cbn [written concat]. rewrite written_app, Hwr, Hwrt, <- app_assoc. reflexivity. }
    split; [|exact Htr'].
    rewrite Hf. cbn [concat]. rewrite <- !app_assoc. reflexivity.
Qed.

End WellCutBody.

Section WellCutHeaders.
Import Upload.

Variable E : env.
Variable req : request.
Variable boundary : bytes.
Variable path name : bytes.
Variable pre p tail : bytes.
Variable more : list incoming.

Hypothesis boundary_no_nul : ~ In NUL boundary.
Hypothesis p_no_nul : ~ In NUL p.
Hypothesis boundary_first : find_sub boundary (p ++ boundary) = Some (length p).
Hypothesis pre_no_nul : ~ In NUL pre.
Hypothesis separator_first : find_sub CRLFCRLF (pre ++ CRLFCRLF) = Some (length pre).

Local Abbreviation runs := (Upload.runs E req boundary).
Local Abbreviation last_chunk := (p ++ boundary ++ tail).

Lemma separator_found (q : bytes) :
  strstr ((pre ++ CRLFCRLF) ++ q) 0 CRLFCRLF = Some (length pre).
Proof.
  rewrite <- app_assoc.
  apply (strstr_first [] pre CRLFCRLF q pre_no_nul); [|exact separator_first].
  unfold CRLFCRLF, CR, LF, NUL. simpl. intuition discriminate.
Qed.

Lemma payload_start :
  (length pre + 4)%nat = length (pre ++ CRLFCRLF).
Proof. rewrite length_app. reflexivity. Qed.

(** The chunk that holds the separator, from the point where its headers
    have been looked at, and the chunks behind it. *)
Lemma payload_phase (mids : list bytes) (l1 : locals) (w1 : world) (content : bytes)
    (c : bytes) (later : list bytes) :
  attach (pre ++ CRLFCRLF) (mids ++ [last_chunk]) = c :: later ->
  fd l1 = Some path ->
  filename l1 = Some name ->
  file_data_started l1 = false ->
  files w1 !! path = Some content ->
  transport w1 = map Data later ++ more ->
  Forall (fun c => 0 < blen c <= 2047) later ->
  0 < blen c ->
  blen c + total later <= remaining l1 ->
  Forall (fun m => find_sub boundary m = None) mids ->
  exists l2 w2 fnd,
    find_payload boundary l1 w1 c = (Continue l2 w2, fnd) /\
    (remaining l2 = remaining l1 \/ remaining l2 = 0) /\
    exists r w' evs,
      runs (set_remaining l2 (if remaining l2 - blen c <? 0 then 0
                              else remaining l2 - blen c)) w2 (r, w') /\
      trace w' = trace w1 ++ evs /\
      written path evs = concat mids ++ strip_eol p /\
      files w' !! path = Some (content ++ concat mids ++ strip_eol p) /\
      transport w' = more.
Proof.
  intros Hatt Hfd Hname Hst Hfile Htr Hsz Hc Htot Hnb.
  destruct mids as [|m mids]; cbn [app attach] in Hatt; injection Hatt as <- <-.
  - assert (Hs : strstr ((pre ++ CRLFCRLF) ++ last_chunk) (length pre + 4) boundary
                 = Some (length pre + 4 + length p)%nat).
    { rewrite payload_start.
      apply (strstr_first (pre ++ CRLFCRLF) p boundary tail
               p_no_nul boundary_no_nul boundary_first). }
    rewrite (find_payload_found boundary l1 w1 _ path name (length pre)
               (length pre + 4 + length p) Hfd Hname (separator_found _) Hs).
    assert (Hslice : slice ((pre ++ CRLFCRLF) ++ last_chunk) (length pre + 4)
                       (length pre + 4 + length p) = p).
    { unfold slice. rewrite payload_start, drop_app_length.
      replace (length (pre ++ CRLFCRLF) + length p - length (pre ++ CRLFCRLF))%nat
        with (length p) by lia.
      apply take_app_length. }
    rewrite Hslice.
    eexists _, _, _. split; [reflexivity|].
    split; [right; reflexivity|].
    destruct (write_if_any_spec path w1 (strip_eol p))
      as (wev & fs' & Hw & Hwr & _ & _ & Hwfile).
    match goal with |- context [Upload.runs _ _ _ ?l3 _ _] =>
      destruct (cleanup_file E path l3 (write_if_any w1 path (strip_eol p)))
        as (r & w' & cev & Hc' & Hct & Hcw & Hcf & Hctr) end.
    exists r, w', (wev ++ cev).
    split.
    { rewrite <- Hc'. apply runs_exit.
      cbn [remaining set_remaining set_started].
      destruct (_ <? 0) eqn:C; [lia | apply Z.ltb_ge in C; lia]. }
    rewrite Hw in Hct, Hcf, Hctr. cbn [trace files transport] in Hct, Hcf, Hctr.
    split; [rewrite Hct, <- app_assoc; reflexivity|].
    split; [rewrite written_app, Hwr, Hcw, app_nil_r; reflexivity|].
    split; [rewrite Hcf; cbn [concat app]; apply Hwfile, Hfile|].
    rewrite Hctr, Htr. reflexivity.
  - inversion Hnb as [|? ? Hm Hnb']; subst.
    assert (Hs : strstr ((pre ++ CRLFCRLF) ++ m) (length pre + 4) boundary = None).
    { rewrite payload_start. apply strstr_none, Hm. }
    assert (Hp : find_payload boundary l1 w1 ((pre ++ CRLFCRLF) ++ m)
                 = (Continue (set_started l1) (write_if_any w1 path m), false)).
    { unfold find_payload. rewrite separator_found, Hfd, Hname.
      rewrite (write_payload_not_found boundary l1 w1 path _ _ Hs).
      unfold slice. rewrite payload_start, drop_app_length.
      replace (length (pre ++ CRLFCRLF) + (length ((pre ++ CRLFCRLF) ++ m)
                                           - length (pre ++ CRLFCRLF))
               - length (pre ++ CRLFCRLF))%nat with (length m)
        by (rewrite (length_app (pre ++ CRLFCRLF) m); lia).
      rewrite firstn_all. reflexivity. }
    rewrite Hp. eexists _, _, _. split; [reflexivity|].
    split; [left; reflexivity|].
    destruct (write_if_any_spec path w1 m) as (wev & fs' & Hw & Hwr & _ & _ & Hwfile).
    pose proof (total_nonneg (mids ++ [last_chunk])) as H0.
    match goal with |- context [Upload.runs _ _ _ ?l3 ?w3 _] =>
      destruct (stream_phase E req boundary path p tail more
                  boundary_no_nul p_no_nul boundary_first mids l3 w3 (content ++ m))
        as (r & w' & evs & Hrun & Ht & Hwrt & Hf & Htr') end.
    { exact Hfd. } { reflexivity. }
    { rewrite Hw. cbn [files]. apply Hwfile, Hfile. }
    { rewrite Hw. cbn [transport]. exact Htr. }
    { exact Hsz. }
    { cbn [remaining set_remaining set_started].
      destruct (_ <? 0) eqn:C; [apply Z.ltb_lt in C; lia | lia]. }
    { exact Hnb'. }
    exists r, w', (wev ++ evs).
    split; [exact Hrun|].
    rewrite Hw in Ht. cbn [trace] in Ht.
    split; [rewrite Ht, <- app_assoc; reflexivity|].
    split; [cbn [concat]; rewrite written_app, Hwr, Hwrt, <- app_assoc; reflexivity|].
    split; [|exact Htr'].
    rewrite Hf. cbn [concat]. rewrite <- !app_assoc. reflexivity.
Qed.

(** Chunks that hold headers only, then the chunk with the separator. *)
Lemma headers_phase (heads mids : list bytes) :
  forall (l : locals) (w : world) (content : bytes),
    fd l = Some path ->
    filename l = Some name ->
    file_data_started l = false ->
    files w !! path = Some content ->
    transport w
    = map Data (heads ++ attach (pre ++ CRLFCRLF) (mids ++ [last_chunk])) ++ more ->
    Forall (fun c => 0 < blen c <= 2047)
           (heads ++ attach (pre ++ CRLFCRLF) (mids ++ [last_chunk])) ->
    total (heads ++ attach (pre ++ CRLFCRLF) (mids ++ [last_chunk])) <= remaining l ->
    Forall (fun h => find_sub CRLFCRLF h = None) heads ->
    Forall (fun m => find_sub boundary m = None) mids ->
    exists r w' evs,
      runs l w (r, w') /\
      trace w' = trace w ++ evs /\
      written path evs = concat mids ++ strip_eol p /\
      files w' !! path = Some (content ++ concat mids ++ strip_eol p) /\
      transport w' = more.
Proof.
  induction heads as [|h heads IH]; intros l w content Hfd Hname Hst Hfile Htr Hsz Htot Hns Hnb.
  - cbn [app] in Htr, Hsz, Htot.
    destruct (attach (pre ++ CRLFCRLF) (mids ++ [last_chunk])) as [|c later] eqn:Hatt.
    { destruct mids; discriminate. }
    cbn [map app] in Htr. inversion Hsz as [|? ? Hc Hsz']; subst.
    rewrite total_cons in Htot. pose proof (total_nonneg later) as H0.
    assert (Hn := recv_chunk l (map Data later ++ more) c Hc ltac:(lia)).
    rewrite <- Htr in Hn.
    set (w1 := mkWorld (files w) (map Data later ++ more) (resp_status w) (resp_type w)
                 (mallocs w)
                 (trace w ++ [EvRecv (Z.min (remaining l) (UPLOAD_BUFFER_SIZE - 1))
                                (blen c) c])).
    destruct (payload_phase mids l w1 content c later Hatt Hfd Hname Hst Hfile eq_refl
                Hsz' ltac:(lia) Htot Hnb)
      as (l2 & w2 & fnd & Hp & _ & r & w' & evs & Hrun & Ht & Hwr & Hf & Htr').
    exists r, w', (EvRecv (Z.min (remaining l) (UPLOAD_BUFFER_SIZE - 1)) (blen c) c :: evs).
    split.
    { apply (runs_step E req boundary l l2 w w2 c (map Data later ++ more) fnd);
        [lia | exact Hn | lia | | exact Hrun].
      unfold process_chunk, parse_headers. rewrite Hst, Hname. cbn [negb]. exact Hp. }
    subst w1. cbn [trace] in Ht.
    split; [rewrite Ht, <- app_assoc; reflexivity|].
    split; [exact Hwr|]. split; [exact Hf | exact Htr'].
  - cbn [app map] in Htr. cbn [app] in Hsz, Htot.
    inversion Hsz as [|? ? Hc Hsz']; subst.
    inversion Hns as [|? ? Hh Hns']; subst.
    rewrite total_cons in Htot.
    set (cs := heads ++ attach (pre ++ CRLFCRLF) (mids ++ [last_chunk])) in *.
    pose proof (total_nonneg cs) as H0.
    assert (Hn := recv_chunk l (map Data cs ++ more) h Hc ltac:(lia)).
    rewrite <- Htr in Hn.
    set (w1 := mkWorld (files w) (map Data cs ++ more) (resp_status w) (resp_type w)
                 (mallocs w)
                 (trace w ++ [EvRecv (Z.min (remaining l) (UPLOAD_BUFFER_SIZE - 1))
                                (blen h) h])).
    assert (Hp : process_chunk E req boundary l w1 h = (Continue l w1, false)).
    { unfold process_chunk, parse_headers, find_payload. rewrite Hst, Hname. cbn [negb].
      change (strstr h 0 CRLFCRLF) with (strstr ([] ++ h) (length (@nil ascii)) CRLFCRLF).
      rewrite (strstr_none [] h CRLFCRLF Hh). reflexivity. }
    destruct (IH (set_remaining l (if remaining l - blen h <? 0 then 0
                                   else remaining l - blen h)) w1 content)
      as (r & w' & evs & Hrun & Ht & Hwr & Hf & Htr'); try assumption.
    { reflexivity. }
    { cbn [remaining set_remaining].
      destruct (_ <? 0) eqn:C; [apply Z.ltb_lt in C; lia | lia]. }
    exists r, w', (EvRecv (Z.min (remaining l) (UPLOAD_BUFFER_SIZE - 1)) (blen h) h :: evs).
    split.
    { apply (runs_step E req boundary l l w w1 h (map Data cs ++ more) false);
        [lia | exact Hn | lia | exact Hp | exact Hrun]. }
    subst w1. cbn [trace] in Ht.
    split; [rewrite Ht, <- app_assoc; reflexivity|].
    split; [exact Hwr|]. split; [exact Hf | exact Htr'].
Qed.

End WellCutHeaders.

Section UploadWhole.
Import Upload.

Variable E : env.
Variable req : request.
Variable boundary : bytes.
Hypothesis mallocs_succeed : forall n s, malloc_ok E n s = true.

Lemma written_non_file (path : bytes) (evs : list event) :
  Forall (fun e => is_file_event e = false) evs -> written path evs = [].
Proof.
  induction 1 as [|e evs He _ IH]; [reflexivity|].
  destruct e; try discriminate; exact IH.
Qed.

(** The handler up to the point where the sink is open and the first
    chunk is searched for the separator. *)
Lemma first_pass_opens (w : world) (c0 : bytes) (cs : list bytes)
    (more : list incoming) (name : bytes) :
  let rem := int_of_size_t (content_len req) in
  let path := Path.build_filepath Path.FILE_PATH_MAX Path.MOUNT_POINT (Some name) in
  transport w = map Data (c0 :: cs) ++ more ->
  0 < blen c0 <= 2047 ->
  blen c0 <= rem ->
  fopen_ok E path = true ->
  extract_boundary req = inl boundary ->
  extract_filename c0 = inl name ->
  files w !! path = None \/ overwrite_requested req = true ->
  exists k oev,
    Forall (fun e => is_file_event e = false) oev /\
    upload_post_handler E req w =
    match find_payload boundary (mkLocals rem false (Some name) (Some path) None)
            (mkWorld (<[path := []]> (files w)) (map Data cs ++ more) (resp_status w)
                     (bs "application/json") k
                     (trace w ++ oev ++ [EvFopen path (bs "wb") true]))
            c0 with
    | (Continue l2 w2, _) =>
        receive_loop E req boundary (Z.to_nat rem - 1)
          (set_remaining l2 (if remaining l2 - blen c0 <? 0 then 0
                             else remaining l2 - blen c0)) w2
    | (Cleanup l2 w2, _) => Some (cleanup_and_send_json E l2 w2)
    | (Unfinished, _) => None
    end.
Proof.
  intros rem path Htr Hc Hrem Hopen Hb Hname Hfree.
  assert (Hn : next_chunk (transport w) (Z.min rem (UPLOAD_BUFFER_SIZE - 1))
               = (blen c0, c0, map Data cs ++ more)).
  { rewrite Htr. cbn [map app]. apply next_chunk_data.
    change (UPLOAD_BUFFER_SIZE - 1) with 2047. lia. }
  rewrite (handler_first_pass E req boundary mallocs_succeed w (blen c0) c0
             (map Data cs ++ more) ltac:(fold rem; lia) Hb Hn ltac:(lia)).
  fold rem. unfold process_chunk, parse_headers, initial_locals.
  cbn [file_data_started filename negb].
  match goal with |- context [open_sink E req ?l ?w1 c0] =>
    destruct (open_sink_opens E req mallocs_succeed l w1 c0 name Hname Hfree)
      as (k & oev & Hof & _ & Ho); rewrite Ho end.
  fold path. rewrite Hopen. clear Ho.
  cbn [files transport resp_status resp_type mallocs trace remaining file_data_started
       fd root_json].
  exists k, (EvMalloc UPLOAD_BUFFER_SIZE true
             :: EvRecv (Z.min rem (UPLOAD_BUFFER_SIZE - 1)) (blen c0) c0 :: oev).
  split; [constructor; [reflexivity|]; constructor; [reflexivity | exact Hof]|].
  rewrite <- !app_assoc. reflexivity.
Qed.

End UploadWhole.

(** C1, as the code has it.  The body arrives in chunks: chunks of headers
    without the separator, the chunk in which the separator stands first
    behind [pre], and the chunks of the stream behind the separator, the
    last of which holds the boundary first behind [p].  The first chunk
    holds the file name, the sink can be opened, no NUL byte stands in
    front of the separator or of the boundary in their chunks, and the line
    end in front of the boundary has arrived in the chunk of the boundary.
    Then the bytes written to the sink, and the bytes the file holds at
    the end, are the bytes between the separator and the boundary without
    the CRLF, or else the LF, that closes them, for a payload of any
    length; no byte of the headers is among them; and what follows the
    chunk of the boundary is left in the transport. *)
Theorem upload_writes_payload (E : Upload.env) (req : Upload.request) (w : Upload.world)
    (boundary name : bytes) (heads mids : list bytes) (pre p tail : bytes)
    (more : list Upload.incoming) :
  let path := Path.build_filepath Path.FILE_PATH_MAX Path.MOUNT_POINT (Some name) in
  let chunks := heads ++ attach (pre ++ CRLFCRLF) (mids ++ [p ++ boundary ++ tail]) in
  let payload := concat mids ++ p in
  (forall n s, Upload.malloc_ok E n s = true) ->
  Upload.fopen_ok E path = true ->
  Upload.extract_boundary req = inl boundary ->
  Upload.transport w = map Upload.Data chunks ++ more ->
  Forall (fun c => 0 < blen c <= 2047) chunks ->
  Upload.total chunks <= Upload.int_of_size_t (Upload.content_len req) ->
  Upload.extract_filename (hd [] chunks) = inl name ->
  Upload.files w !! path = None \/ Upload.overwrite_requested req = true ->
  Forall (fun h => find_sub CRLFCRLF h = None) heads ->
  find_sub CRLFCRLF (pre ++ CRLFCRLF) = Some (length pre) ->
  ~ In NUL pre ->
  Forall (fun m => find_sub boundary m = None) mids ->
  find_sub boundary (p ++ boundary) = Some (length p) ->
  ~ In NUL p ->
  Upload.strip_eol payload = concat mids ++ Upload.strip_eol p ->
  exists r w' evs,
    Upload.upload_post_handler E req w = Some (r, w') /\
    Upload.trace w' = Upload.trace w ++ evs /\
    Upload.written path evs = Upload.strip_eol payload /\
    Upload.files w' !! path = Some (Upload.strip_eol payload) /\
    Upload.transport w' = more.
Proof.
  intros path chunks payload Hm Hopen Hb Htr Hsz Htot Hname Hfree Hns Hsep Hpre Hnb
    Hbf Hp Heol.
  pose proof (extract_boundary_no_nul req boundary Hb) as Hbn.
  rewrite Heol.
  destruct heads as [|h heads].
  - cbn [app] in chunks.
    destruct (attach (pre ++ CRLFCRLF) (mids ++ [p ++ boundary ++ tail]))
      as [|c later] eqn:Hatt.
    { destruct mids; discriminate. }
    subst chunks. cbn [hd] in Hname.
    inversion Hsz as [|? ? Hc Hsz']; subst.
    rewrite total_cons in Htot. pose proof (total_nonneg later) as H0.
    destruct (first_pass_opens E req boundary Hm w c later more name Htr Hc
                ltac:(lia) Hopen Hb Hname Hfree) as (k & oev & Hof & Hh).
    fold path in Hh.
    match type of Hh with context [Upload.find_payload boundary ?l1 ?w1 c] =>
      destruct (payload_phase E req boundary path name pre p tail more Hbn Hp Hbf Hpre
                  Hsep mids l1 w1 [] c later Hatt eq_refl eq_refl eq_refl
                  (lookup_insert_eq _ _ _) eq_refl Hsz' ltac:(lia) Htot Hnb)
        as (l2 & w2 & fnd & Hfp & Hrem2 & r & w' & evs & Hrun & Ht & Hwr & Hf & Htr')
    end.
    rewrite Hfp in Hh.
    exists r, w', (oev ++ [Upload.EvFopen path (bs "wb") true] ++ evs).
    split.
    { rewrite Hh. apply (runs_fuel E req boundary _ _ _ _ Hrun).
      cbn [Upload.remaining Upload.set_remaining] in *.
      destruct Hrem2 as [-> | ->];
        match goal with |- context [if ?b then _ else _] => destruct b end; lia. }
    cbn [Upload.trace] in Ht.
    split; [rewrite Ht, <- !app_assoc; reflexivity|].
    split; [|split; [exact Hf | exact Htr']].
    rewrite !written_app, (written_non_file path oev Hof), Hwr. reflexivity.
  - cbn [app] in chunks. subst chunks. cbn [hd] in Hname.
    set (cs := heads ++ attach (pre ++ CRLFCRLF) (mids ++ [p ++ boundary ++ tail])) in *.
    inversion Hsz as [|? ? Hc Hsz']; subst.
    inversion Hns as [|? ? Hh0 Hns']; subst.
    rewrite total_cons in Htot. pose proof (total_nonneg cs) as H0.
    destruct (first_pass_opens E req boundary Hm w h cs more name Htr Hc
                ltac:(lia) Hopen Hb Hname Hfree) as (k & oev & Hof & Hh).
    fold path in Hh.
    unfold Upload.find_payload in Hh.
    change (strstr h 0 CRLFCRLF) with (strstr ([] ++ h) (length (@nil ascii)) CRLFCRLF) in Hh.
    rewrite (strstr_none [] h CRLFCRLF Hh0) in Hh.
    match type of Hh with context [Upload.receive_loop E req boundary _ ?l1 ?w1] =>
      destruct (headers_phase E req boundary path name pre p tail more Hbn Hp Hbf Hpre
                  Hsep heads mids l1 w1 [])
        as (r & w' & evs & Hrun & Ht & Hwr & Hf & Htr') end.
    { reflexivity. } { reflexivity. } { reflexivity. }
    { apply lookup_insert_eq. } { reflexivity. } { exact Hsz'. }
    { unfold Upload.set_remaining. cbn [Upload.remaining]. fold cs.
      match goal with |- context [if ?b then _ else _] => destruct b eqn:C end;
        [apply Z.ltb_lt in C; cbn [Upload.remaining] in C; lia | lia]. }
    { exact Hns'. } { exact Hnb. }
    exists r, w', (oev ++ [Upload.EvFopen path (bs "wb") true] ++ evs).
    split.
    { rewrite Hh. apply (runs_fuel E req boundary _ _ _ _ Hrun).
      cbn [Upload.remaining Upload.set_remaining].
      match goal with |- context [if ?b then _ else _] => destruct b end; lia. }
    cbn [Upload.trace] in Ht.
    split; [rewrite Ht, <- !app_assoc; reflexivity|].
    split; [|split; [exact Hf | exact Htr']].
    rewrite !written_app, (written_non_file path oev Hof), Hwr. reflexivity.
Qed.

Lemma upload_writes_payload_witness :
  exists r w' evs,
    Upload.upload_post_handler example_env (example_request 92)
      (example_world ∅
         [Upload.Data ((example_header_lines ++ CRLFCRLF) ++ bs "hel");
          Upload.Data ((bs "lo" ++ CRLF) ++ bs "--X" ++ bs "--" ++ CRLF)])
      = Some (r, w') /\
    Upload.trace w' = evs /\
    Upload.written (bs "/sdcard/a.txt") evs = bs "hello" /\
    Upload.files w' !! bs "/sdcard/a.txt" = Some (bs "hello") /\
    Upload.transport w' = [].
Proof.
  destruct (upload_writes_payload example_env (example_request 92)
              (example_world ∅
                 [Upload.Data ((example_header_lines ++ CRLFCRLF) ++ bs "hel");
                  Upload.Data ((bs "lo" ++ CRLF) ++ bs "--X" ++ bs "--" ++ CRLF)])
              (bs "--X") (bs "a.txt") [] [bs "hel"] example_header_lines
              (bs "lo" ++ CRLF) (bs "--" ++ CRLF) [])
    as (r & w' & evs & Hrun & Ht & Hwr & Hf & Htr).
  - intros n s. reflexivity.
  - reflexivity.
  - vm_compute. reflexivity.
  - reflexivity.
  - repeat constructor; vm_compute; reflexivity || discriminate.
  - vm_compute. discriminate.
  - vm_compute. reflexivity.
  - left. vm_compute. reflexivity.
  - constructor.
  - vm_compute. reflexivity.
  - apply nul_free_spec. vm_compute. reflexivity.
  - repeat constructor.
  - vm_compute. reflexivity.
  - apply nul_free_spec. vm_compute. reflexivity.
  - vm_compute. reflexivity.
  - exists r, w', evs. repeat split; [exact Hrun | exact Ht | exact Hwr | exact Hf | exact Htr].
Defined.

(** The claim as it is worded fails on two uploads whose reads split neither the
    separator nor the boundary token.  When a read ends between the line end
    that closes the payload and the boundary, the line end is written to the
    sink; when the payload holds a NUL byte in the chunk of the boundary,
    the search stops at it and the rest of the chunk, boundary line
    included, is written to the sink. *)
Lemma upload_split_line_end_counterexample :
  (exists r w',
     Upload.upload_post_handler example_env (example_request 92)
       (example_world ∅ (map Upload.Data example_split_body)) = Some (r, w') /\
     Upload.written (bs "/sdcard/a.txt") (Upload.trace w') = bs "hello" ++ CRLF /\
     Upload.written (bs "/sdcard/a.txt") (Upload.trace w')
       <> Upload.strip_eol (bs "hello" ++ CRLF)) /\
  (exists r w',
     Upload.upload_post_handler example_env (example_request 90)
       (example_world ∅ [Upload.Data example_nul_body]) = Some (r, w') /\
     Upload.written (bs "/sdcard/a.txt") (Upload.trace w')
       = example_nul_payload ++ CRLF ++ bs "--X--" ++ CRLF /\
     Upload.written (bs "/sdcard/a.txt") (Upload.trace w')
       <> Upload.strip_eol (example_nul_payload ++ CRLF)).
Proof.
  split.
  - eexists _, _. split; [vm_compute; reflexivity|].
    split; [vm_compute; reflexivity | vm_compute; discriminate].
  - eexists _, _. split; [vm_compute; reflexivity|].
    split; [vm_compute; reflexivity | vm_compute; discriminate].
Qed.

(** ** The upload handler: the boundary, the trimming and the sink *)

(** A chunk in which the search for the boundary has a hit, once its
    headers have been accepted. *)
Lemma find_payload_hit (boundary : bytes) (l0 : Upload.locals) (w0 : Upload.world)
    (buf : bytes) (name : bytes) (sep b : nat) :
  Upload.filename l0 = Some name ->
  strstr buf 0 CRLFCRLF = Some sep ->
  strstr buf (sep + 4) boundary = Some b ->
  exists l1 w2, Upload.find_payload boundary l0 w0 buf = (Upload.Continue l1 w2, true).
Proof.
  intros Hname Hsep Hb. unfold Upload.find_payload. rewrite Hsep, Hname.
  destruct (Upload.fd l0) as [path|].
  - rewrite (write_payload_found boundary l0 w0 path buf _ _ Hb). eexists _, _. reflexivity.
  - unfold Upload.discard_payload. rewrite Hb. eexists _, _. reflexivity.
Qed.

Lemma stream_payload_hit (boundary : bytes) (l : Upload.locals) (w : Upload.world)
    (buf : bytes) (b : nat) :
  strstr buf 0 boundary = Some b ->
  exists l1 w2, Upload.stream_payload boundary l w buf = (Upload.Continue l1 w2, true).
Proof.
  intros Hb. unfold Upload.stream_payload.
  destruct (Upload.fd l) as [path|].
  - rewrite (write_payload_found boundary l w path buf _ _ Hb). eexists _, _. reflexivity.
  - unfold Upload.discard_payload. rewrite Hb. eexists _, _. reflexivity.
Qed.

(** C7.  A pass of the receive loop reads a chunk and looks for the
    boundary in it: from the start of a chunk read after the payload has
    begun, or behind the separator in the chunk that holds it, when the
    file name is known or the chunk gives it and the sink opens.  Whenever
    [strstr] finds the boundary there, whatever the counter says is still
    to come, the counter is set to zero, the loop ends with this pass, and
    the handler makes no further receive call: what is left in the
    transport stays there. *)
Theorem boundary_ends_receive_loop (E : Upload.env) (req : Upload.request)
    (boundary : bytes) (f : nat) (l : Upload.locals) (w : Upload.world)
    (ret : Z) (buf : bytes) (rest : list Upload.incoming) (name : bytes)
    (sep b : nat) :
  let n := Z.min (Upload.remaining l) (Upload.UPLOAD_BUFFER_SIZE - 1) in
  let path := Path.build_filepath Path.FILE_PATH_MAX Path.MOUNT_POINT (Some name) in
  0 < Upload.remaining l ->
  Upload.next_chunk (Upload.transport w) n = (ret, buf, rest) ->
  0 < ret ->
  (Upload.file_data_started l = true /\ strstr buf 0 boundary = Some b) \/
  (Upload.file_data_started l = false /\
   strstr buf 0 CRLFCRLF = Some sep /\
   strstr buf (sep + 4) boundary = Some b /\
   (Upload.filename l = Some name \/
    (Upload.filename l = None /\
     Upload.extract_filename buf = inl name /\
     (forall k s, Upload.malloc_ok E k s = true) /\
     (Upload.files w !! path = None \/ Upload.overwrite_requested req = true) /\
     Upload.fopen_ok E path = true))) ->
  exists l1 w2 r w',
    Upload.process_chunk E req boundary l (snd (Upload.httpd_req_recv w n)) buf
    = (Upload.Continue l1 w2, true) /\
    Upload.remaining l1 = 0 /\
    Upload.receive_loop E req boundary (S f) l w = Some (r, w') /\
    (r, w') = Upload.cleanup_and_send_json E (Upload.set_remaining l1 0) w2 /\
    Upload.transport w' = rest /\
    List.filter Upload.is_recv (Upload.trace w')
    = List.filter Upload.is_recv (Upload.trace w) ++ [Upload.EvRecv n ret buf].
Proof.
  intros n path Hrem Hn Hret Hcase.
  rewrite recv_unfold. fold n. rewrite Hn. cbn [fst snd].
  set (w1 := Upload.mkWorld (Upload.files w) rest (Upload.resp_status w)
               (Upload.resp_type w) (Upload.mallocs w)
               (Upload.trace w ++ [Upload.EvRecv n ret buf])).
  assert (Hp : exists l1 w2,
             Upload.process_chunk E req boundary l w1 buf = (Upload.Continue l1 w2, true)).
  { unfold Upload.process_chunk.
    destruct Hcase as [[Hs Hb] | (Hs & Hsep & Hb & Hhead)]; rewrite Hs; cbn [negb].
    - apply (stream_payload_hit boundary l w1 buf b Hb).
    - destruct Hhead as [Hname | (Hnone & Hext & Hm & Hfree & Hopen)].
      + unfold Upload.parse_headers. rewrite Hname.
        apply (find_payload_hit boundary l w1 buf name sep b Hname Hsep Hb).
      + unfold Upload.parse_headers. rewrite Hnone.
        destruct (open_sink_opens E req Hm l w1 buf name Hext Hfree)
          as (k & oev & _ & _ & Ho).
        unfold path in Hopen. rewrite Hopen in Ho. rewrite Ho.
        eapply (find_payload_hit boundary _ _ buf name sep b); [reflexivity | exact Hsep | exact Hb]. }
  destruct Hp as (l1 & w2 & Hp).
  pose proof (process_chunk_generic E req boundary l w1 buf) as G.
  rewrite Hp in G. destruct G as (Hr & _ & Ht & evs & Htr & Hev).
  cbn [Upload.transport Upload.trace] in Ht, Htr.
  destruct (cleanup_unfold E (Upload.set_remaining l1 0) w2) as (cev & Hc & Hcq & _).
  exists l1, w2. eexists _, _.
  split; [exact Hp|]. split; [exact Hr|].
  split; [|split; [symmetry; exact Hc|]].
  - rewrite receive_loop_unfold by exact Hrem. rewrite recv_unfold. fold n. rewrite Hn.
    cbn [fst snd]. fold w1.
    assert (R : (ret <=? 0) = false) by (apply Z.leb_gt; lia).
    rewrite R, Hp, Hr.
    assert (C : (0 - ret <? 0) = true) by (apply Z.ltb_lt; lia).
    rewrite C. rewrite receive_loop_exit by (simpl; lia). f_equal. exact Hc.
  - cbn [Upload.transport Upload.trace]. split; [exact Ht|].
    rewrite Htr. subst w1. cbn [Upload.trace]. rewrite !List.filter_app.
    rewrite (filter_recv_quiet evs Hev), (filter_recv_quiet cev Hcq), !app_nil_r.
    reflexivity.
Qed.

Lemma boundary_ends_receive_loop_witness :
  (exists r w',
     Upload.receive_loop example_env (example_request 5000) (bs "--X") 1
       (Upload.initial_locals 5000)
       (example_world ∅ [Upload.Data example_body; Upload.Data (bs "more")])
     = Some (r, w') /\
     Upload.transport w' = [Upload.Data (bs "more")]) /\
  (exists r w',
     Upload.receive_loop example_env (example_request 5000) (bs "--X") 1
       (Upload.mkLocals 4000 true (Some (bs "a.txt")) (Some (bs "/sdcard/a.txt")) None)
       (example_world (<[bs "/sdcard/a.txt" := bs "hel"]> ∅)
          [Upload.Data (bs "lo" ++ CRLF ++ bs "--X--" ++ CRLF); Upload.Data (bs "more")])
     = Some (r, w') /\
     Upload.transport w' = [Upload.Data (bs "more")] /\
     Upload.files w' !! bs "/sdcard/a.txt" = Some (bs "hello")).
Proof.
  split.
  - destruct (boundary_ends_receive_loop example_env (example_request 5000) (bs "--X") 0
                (Upload.initial_locals 5000)
                (example_world ∅ [Upload.Data example_body; Upload.Data (bs "more")])
                (blen example_body) example_body [Upload.Data (bs "more")]
                (bs "a.txt") 74 85)
      as (l1 & w2 & r & w' & _ & _ & H3 & _ & H5 & _).
    + vm_compute. reflexivity.
    + vm_compute. reflexivity.
    + vm_compute. reflexivity.
    + right. split; [reflexivity|]. split; [vm_compute; reflexivity|].
      split; [vm_compute; reflexivity|]. right.
      split; [reflexivity|]. split; [vm_compute; reflexivity|].
      split; [intros k s; reflexivity|]. split; [left; vm_compute; reflexivity|].
      reflexivity.
    + exists r, w'. split; [exact H3 | exact H5].
  - destruct (boundary_ends_receive_loop example_env (example_request 5000) (bs "--X") 0
                (Upload.mkLocals 4000 true (Some (bs "a.txt")) (Some (bs "/sdcard/a.txt"))
                   None)
                (example_world (<[bs "/sdcard/a.txt" := bs "hel"]> ∅)
                   [Upload.Data (bs "lo" ++ CRLF ++ bs "--X--" ++ CRLF);
                    Upload.Data (bs "more")])
                11 (bs "lo" ++ CRLF ++ bs "--X--" ++ CRLF) [Upload.Data (bs "more")]
                (bs "a.txt") 0 4)
      as (l1 & w2 & r & w' & _ & _ & H3 & _ & H5 & _).
    + vm_compute. reflexivity.
    + vm_compute. reflexivity.
    + vm_compute. reflexivity.
    + left. split; [reflexivity | vm_compute; reflexivity].
    + exists r, w'. split; [exact H3|]. split; [exact H5|].
      vm_compute in H3. injection H3 as _ <-. vm_compute. reflexivity.
Defined.

(** What [if (len > 0) fwrite(...)] does to the world. *)
Lemma write_if_any_effect (w : Upload.world) (path data : bytes) :
  Upload.transport (Upload.write_if_any w path data) = Upload.transport w /\
  (data = [] ->
   Upload.trace (Upload.write_if_any w path data) = Upload.trace w /\
   Upload.files (Upload.write_if_any w path data) = Upload.files w) /\
  (data <> [] ->
   Upload.trace (Upload.write_if_any w path data)
   = Upload.trace w ++ [Upload.EvFwrite path data] /\
   Upload.files (Upload.write_if_any w path data)
   = <[path := match Upload.files w !! path with Some old => old | None => [] end
               ++ data]> (Upload.files w)).
Proof.
  unfold Upload.write_if_any. destruct data as [|c data]; cbn [length Nat.ltb Nat.leb].
  - split; [reflexivity|]. split; [intros _; split; reflexivity | intros N; contradiction].
  - split; [reflexivity|]. split; [discriminate|]. intros _. split; reflexivity.
Qed.

(** C5.  In a chunk in which the boundary is found, be it a later chunk
    or the chunk that holds the separator, the bytes written are the bytes
    between the start of the payload in that chunk and the boundary,
    without the CRLF that closes them (two bytes less than the offset of
    the boundary), or else without the LF that closes them (one byte
    less), or else all of them; the counter is set to zero.  When there
    are such bytes they go to the sink in one [fwrite], behind what the
    file holds; when there are none nothing is written.  With the
    boundary right behind the separator nothing is written, the loop ends
    with this pass, and the upload is answered as a success. *)
Theorem boundary_trim_rule (E : Upload.env) (req : Upload.request) (boundary : bytes)
    (l : Upload.locals) (w : Upload.world) (buf path : bytes) :
  (forall b,
      Upload.file_data_started l = true ->
      Upload.fd l = Some path ->
      strstr buf 0 boundary = Some b ->
      let data := Upload.strip_eol (firstn b buf) in
      exists w2,
        Upload.process_chunk E req boundary l w buf
        = (Upload.Continue (Upload.set_remaining l 0) w2, true) /\
        length data = (b - Upload.eol_len (firstn b buf))%nat /\
        Upload.transport w2 = Upload.transport w /\
        (data = [] ->
         Upload.trace w2 = Upload.trace w /\ Upload.files w2 = Upload.files w) /\
        (data <> [] ->
         Upload.trace w2 = Upload.trace w ++ [Upload.EvFwrite path data] /\
         Upload.files w2
         = <[path := match Upload.files w !! path with Some old => old | None => [] end
                     ++ data]> (Upload.files w))) /\
  (forall l1 w1 name sep b,
      Upload.file_data_started l = false ->
      Upload.parse_headers E req l w buf = Upload.Continue l1 w1 ->
      Upload.fd l1 = Some path ->
      Upload.filename l1 = Some name ->
      strstr buf 0 CRLFCRLF = Some sep ->
      strstr buf (sep + 4) boundary = Some b ->
      let data := Upload.strip_eol (slice buf (sep + 4) b) in
      exists w2,
        Upload.process_chunk E req boundary l w buf
        = (Upload.Continue (Upload.set_started (Upload.set_remaining l1 0)) w2, true) /\
        length data = (b - (sep + 4) - Upload.eol_len (slice buf (sep + 4) b))%nat /\
        Upload.transport w2 = Upload.transport w1 /\
        (data = [] ->
         Upload.trace w2 = Upload.trace w1 /\ Upload.files w2 = Upload.files w1) /\
        (data <> [] ->
         Upload.trace w2 = Upload.trace w1 ++ [Upload.EvFwrite path data] /\
         Upload.files w2
         = <[path := match Upload.files w1 !! path with Some old => old | None => [] end
                     ++ data]> (Upload.files w1))) /\
  (forall r, Upload.eol_len (r ++ CRLF) = 2%nat) /\
  (forall r, Upload.ends_with [CR] r = false -> Upload.eol_len (r ++ [LF]) = 1%nat) /\
  (forall r, Upload.ends_with [LF] r = false -> Upload.eol_len r = 0%nat) /\
  (forall f ret rest l1 w1 name sep,
      0 < Upload.remaining l ->
      Upload.next_chunk (Upload.transport w)
        (Z.min (Upload.remaining l) (Upload.UPLOAD_BUFFER_SIZE - 1)) = (ret, buf, rest) ->
      0 < ret ->
      Upload.file_data_started l = false ->
      Upload.parse_headers E req l
        (snd (Upload.httpd_req_recv w
                (Z.min (Upload.remaining l) (Upload.UPLOAD_BUFFER_SIZE - 1)))) buf
      = Upload.Continue l1 w1 ->
      Upload.fd l1 = Some path ->
      Upload.filename l1 = Some name ->
      Upload.root_json l1 = None ->
      strstr buf 0 CRLFCRLF = Some sep ->
      strstr buf (sep + 4) boundary = Some (sep + 4)%nat ->
      Upload.json_print_ok E = true ->
      exists w',
        Upload.receive_loop E req boundary (S f) l w = Some (ESP_OK, w') /\
        Upload.trace w'
        = Upload.trace w1
          ++ [Upload.EvFclose path;
              Upload.EvSend (Upload.resp_status w1) (Upload.resp_type w1)
                (Upload.success_json name)] /\
        Upload.files w' = Upload.files w1).
Proof.
  split; [|split; [|split; [|split; [|split]]]].
  - intros b Hs Hfd Hb data.
    exists (Upload.write_if_any w path data).
    split; [apply stream_payload_found; assumption|].
    split.
    { subst data. rewrite strip_eol_length. rewrite length_firstn.
      destruct (strstr_bounds _ _ _ _ Hb ltac:(lia)) as (i & _ & _ & Hle). lia. }
    apply write_if_any_effect.
  - intros l1 w1 name sep b Hs Hp Hfd Hname Hsep Hb data.
    exists (Upload.write_if_any w1 path data).
    split.
    { unfold Upload.process_chunk. rewrite Hs, Hp. cbn [negb].
      apply (find_payload_found boundary l1 w1 buf path name); assumption. }
    split.
    { subst data. rewrite strip_eol_length.
      destruct (strstr_bounds _ _ _ _ Hsep ltac:(lia)) as (i & _ & _ & Hs4).
      change (length CRLFCRLF) with 4%nat in Hs4.
      destruct (strstr_bounds _ _ _ _ Hb Hs4) as (j & _ & Hj & Hle).
      rewrite slice_length by lia. reflexivity. }
    apply write_if_any_effect.
  - apply eol_len_crlf.
  - apply eol_len_lf.
  - apply eol_len_none.
  - intros f ret rest l1 w1 name sep Hrem Hn Hret Hs Hp Hfd Hname Hroot Hsep Hb Hjson.
    rewrite recv_unfold, Hn in Hp. cbn [fst snd] in Hp.
    rewrite receive_loop_unfold by exact Hrem. rewrite recv_unfold, Hn. cbn [fst snd].
    assert (R : (ret <=? 0) = false) by (apply Z.leb_gt; lia).
    rewrite R. unfold Upload.process_chunk. rewrite Hs, Hp. cbn [negb].
    rewrite (find_payload_found boundary l1 w1 buf path name sep (sep + 4)) by assumption.
    unfold slice. rewrite Nat.sub_diag, firstn_O.
    change (Upload.write_if_any w1 path (Upload.strip_eol [])) with w1.
    cbn [Upload.remaining Upload.set_started Upload.set_remaining].
    assert (C : (0 - ret <? 0) = true) by (apply Z.ltb_lt; lia).
    rewrite C. rewrite receive_loop_exit by (simpl; lia).
    unfold Upload.cleanup_and_send_json, Upload.send_json_upload_response.
    unfold Upload.set_remaining, Upload.set_started.
    cbn [Upload.fd Upload.filename Upload.root_json]. rewrite Hfd, Hname, Hroot, Hjson.
    eexists. split; [reflexivity|]. cbn [Upload.trace Upload.log Upload.files].
    rewrite <- app_assoc. split; reflexivity.
Qed.

Lemma boundary_trim_rule_witness :
  (exists w2,
     Upload.process_chunk example_env (example_request 100) (bs "--X")
       (Upload.initial_locals 100) (example_world ∅ []) example_body
     = (Upload.Continue
          (Upload.set_started
             (Upload.set_remaining
                (Upload.mkLocals 100 false (Some (bs "a.txt")) (Some (bs "/sdcard/a.txt"))
                   None) 0)) w2, true) /\
     Upload.files w2 !! bs "/sdcard/a.txt" = Some (bs "hello")) /\
  (exists w2,
     Upload.process_chunk example_env (example_request 100) (bs "--X")
       (Upload.mkLocals 100 true (Some (bs "a.txt")) (Some (bs "/sdcard/a.txt")) None)
       (example_world (<[bs "/sdcard/a.txt" := bs "hel"]> ∅) [])
       (bs "lo" ++ [LF] ++ bs "--X--" ++ CRLF)
     = (Upload.Continue
          (Upload.mkLocals 0 true (Some (bs "a.txt")) (Some (bs "/sdcard/a.txt")) None)
          w2, true) /\
     Upload.files w2 !! bs "/sdcard/a.txt" = Some (bs "hello")) /\
  (exists w',
     Upload.receive_loop example_env (example_request 100) (bs "--X") 1
       (Upload.initial_locals 100) (example_world ∅ [Upload.Data example_empty_body])
     = Some (ESP_OK, w') /\
     Upload.files w' !! bs "/sdcard/a.txt" = Some []).
Proof.
  split; [|split].
  - pose (w := example_world ∅ []).
    pose (l := Upload.initial_locals 100).
    pose (fl := Upload.parse_headers example_env (example_request 100) l w example_body).
    destruct (proj1 (proj2
                (boundary_trim_rule example_env (example_request 100) (bs "--X") l w
                   example_body (bs "/sdcard/a.txt")))
                (flow_locals fl l) (flow_world fl w) (bs "a.txt") 74%nat 85%nat)
      as (w2 & H1 & _ & _ & _ & H5).
    + reflexivity.
    + vm_compute. reflexivity.
    + vm_compute. reflexivity.
    + vm_compute. reflexivity.
    + vm_compute. reflexivity.
    + vm_compute. reflexivity.
    + exists w2. split; [exact H1|].
      destruct H5 as [_ Hf]; [vm_compute; discriminate|].
      rewrite Hf. vm_compute. reflexivity.
  - destruct (proj1
                (boundary_trim_rule example_env (example_request 100) (bs "--X")
                   (Upload.mkLocals 100 true (Some (bs "a.txt"))
                      (Some (bs "/sdcard/a.txt")) None)
                   (example_world (<[bs "/sdcard/a.txt" := bs "hel"]> ∅) [])
                   (bs "lo" ++ [LF] ++ bs "--X--" ++ CRLF) (bs "/sdcard/a.txt"))
                3%nat)
      as (w2 & H1 & _ & _ & _ & H5).
    + reflexivity.
    + reflexivity.
    + vm_compute. reflexivity.
    + exists w2. split; [exact H1|].
      destruct H5 as [_ Hf]; [vm_compute; discriminate|].
      rewrite Hf. vm_compute. reflexivity.
  - pose (w := example_world ∅ [Upload.Data example_empty_body]).
    pose (l := Upload.initial_locals 100).
    pose (fl := Upload.parse_headers example_env (example_request 100) l
                  (snd (Upload.httpd_req_recv w 100)) example_empty_body).
    destruct (proj2 (proj2 (proj2 (proj2 (proj2
                (boundary_trim_rule example_env (example_request 100) (bs "--X") l w
                   example_empty_body (bs "/sdcard/a.txt"))))))
                0%nat (blen example_empty_body) [] (flow_locals fl l) (flow_world fl w)
                (bs "a.txt") 74%nat)
      as (w' & H1 & _ & H3).
    + vm_compute. reflexivity.
    + vm_compute. reflexivity.
    + vm_compute. reflexivity.
    + reflexivity.
    + vm_compute. reflexivity.
    + vm_compute. reflexivity.
    + vm_compute. reflexivity.
    + vm_compute. reflexivity.
    + vm_compute. reflexivity.
    + vm_compute. reflexivity.
    + reflexivity.
    + exists w'. split; [exact H1|]. rewrite H3. vm_compute. reflexivity.
Defined.

(** The whole handler on a body that arrives in well-cut chunks, with
    the trace cut at the opening of the sink. *)
Lemma well_cut_upload (E : Upload.env) (req : Upload.request) (w : Upload.world)
    (boundary name : bytes) (heads mids : list bytes) (pre p tail : bytes)
    (more : list Upload.incoming) :
  let path := Path.build_filepath Path.FILE_PATH_MAX Path.MOUNT_POINT (Some name) in
  let chunks := heads ++ attach (pre ++ CRLFCRLF) (mids ++ [p ++ boundary ++ tail]) in
  (forall n s, Upload.malloc_ok E n s = true) ->
  Upload.fopen_ok E path = true ->
  Upload.extract_boundary req = inl boundary ->
  Upload.transport w = map Upload.Data chunks ++ more ->
  Forall (fun c => 0 < blen c <= 2047) chunks ->
  Upload.total chunks <= Upload.int_of_size_t (Upload.content_len req) ->
  Upload.extract_filename (hd [] chunks) = inl name ->
  Upload.files w !! path = None \/ Upload.overwrite_requested req = true ->
  Forall (fun h => find_sub CRLFCRLF h = None) heads ->
  find_sub CRLFCRLF (pre ++ CRLFCRLF) = Some (length pre) ->
  ~ In NUL pre ->
  Forall (fun m => find_sub boundary m = None) mids ->
  find_sub boundary (p ++ boundary) = Some (length p) ->
  ~ In NUL p ->
  exists r w' oev evs,
    Upload.upload_post_handler E req w = Some (r, w') /\
    Upload.trace w'
    = Upload.trace w ++ oev ++ [Upload.EvFopen path (bs "wb") true] ++ evs /\
    Forall (fun e => Upload.is_file_event e = false) oev /\
    Upload.written path evs = concat mids ++ Upload.strip_eol p /\
    Upload.files w' !! path = Some (concat mids ++ Upload.strip_eol p) /\
    Upload.transport w' = more.
Proof.
  intros path chunks Hm Hopen Hb Htr Hsz Htot Hname Hfree Hns Hsep Hpre Hnb Hbf Hp.
  pose proof (extract_boundary_no_nul req boundary Hb) as Hbn.
  destruct heads as [|h heads].
  - cbn [app] in chunks.
    destruct (attach (pre ++ CRLFCRLF) (mids ++ [p ++ boundary ++ tail]))
      as [|c later] eqn:Hatt.
    { destruct mids; discriminate. }
    subst chunks. cbn [hd] in Hname.
    inversion Hsz as [|? ? Hc Hsz']; subst.
    rewrite total_cons in Htot. pose proof (total_nonneg later) as H0.
    destruct (first_pass_opens E req boundary Hm w c later more name Htr Hc
                ltac:(lia) Hopen Hb Hname Hfree) as (k & oev & Hof & Hh).
    fold path in Hh.
    match type of Hh with context [Upload.find_payload boundary ?l1 ?w1 c] =>
      destruct (payload_phase E req boundary path name pre p tail more Hbn Hp Hbf Hpre
                  Hsep mids l1 w1 [] c later Hatt eq_refl eq_refl eq_refl
                  (lookup_insert_eq _ _ _) eq_refl Hsz' ltac:(lia) Htot Hnb)
        as (l2 & w2 & fnd & Hfp & Hrem2 & r & w' & evs & Hrun & Ht & Hwr & Hf & Htr')
    end.
    rewrite Hfp in Hh.
    exists r, w', oev, evs.
    split.
    { rewrite Hh. apply (runs_fuel E req boundary _ _ _ _ Hrun).
      cbn [Upload.remaining Upload.set_remaining] in *.
      destruct Hrem2 as [-> | ->];
        match goal with |- context [if ?b then _ else _] => destruct b end; lia. }
    cbn [Upload.trace] in Ht.
    split; [rewrite Ht, <- !app_assoc; reflexivity|].
    split; [exact Hof|]. split; [exact Hwr|]. split; [exact Hf | exact Htr'].
  - cbn [app] in chunks. subst chunks. cbn [hd] in Hname.
    set (cs := heads ++ attach (pre ++ CRLFCRLF) (mids ++ [p ++ boundary ++ tail])) in *.
    inversion Hsz as [|? ? Hc Hsz']; subst.
    inversion Hns as [|? ? Hh0 Hns']; subst.
    rewrite total_cons in Htot. pose proof (total_nonneg cs) as H0.
    destruct (first_pass_opens E req boundary Hm w h cs more name Htr Hc
                ltac:(lia) Hopen Hb Hname Hfree) as (k & oev & Hof & Hh).
    fold path in Hh.
    unfold Upload.find_payload in Hh.
    change (strstr h 0 CRLFCRLF) with (strstr ([] ++ h) (length (@nil ascii)) CRLFCRLF) in Hh.
    rewrite (strstr_none [] h CRLFCRLF Hh0) in Hh.
    match type of Hh with context [Upload.receive_loop E req boundary _ ?l1 ?w1] =>
      destruct (headers_phase E req boundary path name pre p tail more Hbn Hp Hbf Hpre
                  Hsep heads mids l1 w1 [])
        as (r & w' & evs & Hrun & Ht & Hwr & Hf & Htr') end.
    { reflexivity. } { reflexivity. } { reflexivity. }
    { apply lookup_insert_eq. } { reflexivity. } { exact Hsz'. }
    { unfold Upload.set_remaining. cbn [Upload.remaining]. fold cs.
      match goal with |- context [if ?b then _ else _] => destruct b eqn:C end;
        [apply Z.ltb_lt in C; cbn [Upload.remaining] in C; lia | lia]. }
    { exact Hns'. } { exact Hnb. }
    exists r, w', oev, evs.
    split.
    { rewrite Hh. apply (runs_fuel E req boundary _ _ _ _ Hrun).
      cbn [Upload.remaining Upload.set_remaining].
      match goal with |- context [if ?b then _ else _] => destruct b end; lia. }
    cbn [Upload.trace] in Ht.
    split; [rewrite Ht, <- !app_assoc; reflexivity|].
    split; [exact Hof|]. split; [exact Hwr|]. split; [exact Hf | exact Htr'].
Qed.

(** The chunk the first receive call delivers is the first chunk of the
    body. *)
Lemma first_chunk_read (tr : list Upload.incoming) (chunks : list bytes)
    (more : list Upload.incoming) (rem ret : Z) (buf : bytes)
    (rest : list Upload.incoming) :
  tr = map Upload.Data chunks ++ more ->
  chunks <> [] ->
  Forall (fun c => 0 < blen c <= 2047) chunks ->
  Upload.total chunks <= rem ->
  Upload.next_chunk tr (Z.min rem (Upload.UPLOAD_BUFFER_SIZE - 1)) = (ret, buf, rest) ->
  hd [] chunks = buf.
Proof.
  intros -> Hne Hsz Htot Hn. destruct chunks as [|c cs]; [contradiction|].
  inversion Hsz as [|? ? Hc _]; subst. rewrite total_cons in Htot.
  pose proof (total_nonneg cs) as H0.
  cbn [map app] in Hn. rewrite next_chunk_data in Hn.
  - injection Hn as _ <- _. reflexivity.
  - change (Upload.UPLOAD_BUFFER_SIZE - 1) with 2047. lia.
Qed.

(** The handler from its entry to its end, seen from the opening of the
    sink: what comes before it, and what the file holds after it. *)
Lemma sink_opened_first (E : Upload.env) (req : Upload.request) (w : Upload.world)
    (boundary : bytes) (ret : Z) (buf : bytes) (rest : list Upload.incoming)
    (name : bytes) :
  let path := Path.build_filepath Path.FILE_PATH_MAX Path.MOUNT_POINT (Some name) in
  0 < Upload.int_of_size_t (Upload.content_len req) ->
  (forall n s, Upload.malloc_ok E n s = true) ->
  Upload.extract_boundary req = inl boundary ->
  Upload.next_chunk (Upload.transport w)
    (Z.min (Upload.int_of_size_t (Upload.content_len req)) (Upload.UPLOAD_BUFFER_SIZE - 1))
  = (ret, buf, rest) ->
  0 < ret ->
  Upload.extract_filename buf = inl name ->
  Upload.files w !! path = None \/ Upload.overwrite_requested req = true ->
  exists r w' before after,
    Upload.upload_post_handler E req w = Some (r, w') /\
    Upload.trace w'
    = Upload.trace w ++ before
      ++ [Upload.EvFopen path (bs "wb") (Upload.fopen_ok E path)] ++ after /\
    Forall (fun e => Upload.is_file_event e = false) before /\
    Forall (fun e => Upload.is_fopen e = false) after /\
    (Upload.fopen_ok E path = true ->
     Upload.files w' !! path = Some (Upload.written path after) /\
     (Upload.json_print_ok E = true ->
      Forall (fun e => Upload.recv_ok e = true) after ->
      r = ESP_OK /\
      exists evs,
        after = evs ++ [Upload.EvSend (Upload.resp_status w) (bs "application/json")
                          (Upload.success_json name)])).
Proof.
  intros path Hrem Hm Hb Hn Hret Hname Hfree.
  rewrite (handler_first_pass E req boundary Hm w ret buf rest Hrem Hb Hn Hret).
  unfold Upload.process_chunk. cbn [Upload.file_data_started Upload.initial_locals negb].
  unfold Upload.parse_headers. cbn [Upload.filename].
  match goal with |- context [Upload.open_sink E req ?l ?w1 buf] =>
    destruct (open_sink_opens E req Hm l w1 buf name Hname Hfree)
      as (k & oev & Hof & _ & Ho); rewrite Ho end.
  fold path. clear Ho.
  unfold Upload.initial_locals.
  cbn [Upload.files Upload.transport Upload.resp_status Upload.resp_type Upload.mallocs
       Upload.trace Upload.remaining Upload.file_data_started Upload.fd
       Upload.root_json Upload.filename].
  destruct (Upload.fopen_ok E path) eqn:Hopen; cbv beta iota.
  - match goal with |- context [Upload.find_payload boundary ?l1 ?w1 buf] =>
      destruct (find_payload_sink boundary path name l1 w1 buf eq_refl eq_refl)
        as (l2 & data & fnd & Hp & Hfd2 & Hname2 & Hroot2 & Hrem2);
      rewrite Hp;
      destruct (write_if_any_spec path w1 data)
        as (wev & fs' & Hw & Hwr & Hwf & Hwk & Hwfile) end.
    rewrite Hw. cbn [Upload.root_json Upload.remaining Upload.files Upload.transport
                     Upload.resp_status Upload.resp_type Upload.mallocs Upload.trace] in *.
    match goal with |- context [Upload.receive_loop E req boundary ?f ?l3 ?w3] =>
      destruct (sink_loop E req boundary path name f l3 w3 ([] ++ data))
        as (r & w' & evs & Hl & Ht & Hf & Hno & Hs) end.
    { exact Hfd2. } { exact Hname2. } { exact Hroot2. }
    { cbn [Upload.files]. apply Hwfile. apply lookup_insert_eq. }
    { cbn [Upload.remaining Upload.set_remaining].
      destruct Hrem2 as [-> | ->]; destruct (_ <? 0); simpl; lia. }
    cbn [Upload.files Upload.transport Upload.resp_status Upload.resp_type
         Upload.mallocs Upload.trace] in *.
    exists r, w',
      (Upload.EvMalloc Upload.UPLOAD_BUFFER_SIZE true
       :: Upload.EvRecv (Z.min (Upload.int_of_size_t (Upload.content_len req))
                           (Upload.UPLOAD_BUFFER_SIZE - 1)) ret buf :: oev),
      (wev ++ evs).
    split; [exact Hl|].
    split; [rewrite Ht, <- !app_assoc; reflexivity|].
    split; [constructor; [reflexivity|]; constructor; [reflexivity | exact Hof]|].
    split; [apply Forall_app; split; assumption|].
    intros _. split.
    + rewrite written_app, Hwr. exact Hf.
    + intros Hj Hok. apply Forall_app in Hok. destruct Hok as [_ Hok].
      destruct (Hs Hj Hok) as [-> [evs0 ->]].
      split; [reflexivity|]. exists (wev ++ evs0). rewrite <- app_assoc. reflexivity.
  - destruct (cleanup_unfold E
                (Upload.mkLocals (Upload.int_of_size_t (Upload.content_len req)) false
                   (Some name) None
                   (Some (Upload.error_json
                            (snprintf 228
                               (bs "Nije moguce otvoriti datoteku '" ++ name
                                ++ bs "' za pisanje. Greška: "
                                ++ cstr (Upload.strerror_errno E))))))
                (Upload.mkWorld (Upload.files w) rest (Upload.resp_status w)
                   (bs "application/json") k
                   ((Upload.trace w
                     ++ [Upload.EvMalloc Upload.UPLOAD_BUFFER_SIZE true;
                         Upload.EvRecv
                           (Z.min (Upload.int_of_size_t (Upload.content_len req))
                              (Upload.UPLOAD_BUFFER_SIZE - 1)) ret buf])
                    ++ oev ++ [Upload.EvFopen path (bs "wb") false])))
      as (cev & Hc & _ & Hcf).
    rewrite Hc. cbn [Upload.files Upload.transport Upload.resp_status Upload.resp_type
                     Upload.mallocs Upload.trace].
    eexists _, _,
      (Upload.EvMalloc Upload.UPLOAD_BUFFER_SIZE true
       :: Upload.EvRecv (Z.min (Upload.int_of_size_t (Upload.content_len req))
                           (Upload.UPLOAD_BUFFER_SIZE - 1)) ret buf :: oev),
      cev.
    split; [reflexivity|]. cbn [Upload.trace].
    split; [rewrite <- !app_assoc; reflexivity|].
    split; [constructor; [reflexivity|]; constructor; [reflexivity | exact Hof]|].
    split; [|discriminate].
    clear -Hcf. induction Hcf as [|e evs He _ IH]; [constructor|].
    constructor; [destruct e; try discriminate; reflexivity | exact IH].
Qed.


(** C3.  When the name extracted from the first chunk is free, or an
    overwrite is asked for, the handler calls [fopen] on the destination in
    mode [wb], and it makes no call on any file before that one, so no byte
    is written before the sink is open.  When the sink opens, the file holds
    at the end exactly the bytes this request wrote, whatever it held
    before; when no receive call fails the reply is the success reply
    that carries the name; and when the body arrives in well-cut chunks
    (headers, the chunk in which the separator stands first behind [pre],
    the chunks of the stream, the last of which holds the boundary first
    behind [p] together with the line end in front of it, no NUL byte in
    front of separator or boundary) these bytes are the new content: the
    bytes between the separator and the boundary without the CRLF, or
    else the LF, that closes them. *)
Theorem upload_opens_sink (E : Upload.env) (req : Upload.request) (w : Upload.world)
    (boundary : bytes) (ret : Z) (buf : bytes) (rest : list Upload.incoming)
    (name : bytes) :
  let path := Path.build_filepath Path.FILE_PATH_MAX Path.MOUNT_POINT (Some name) in
  0 < Upload.int_of_size_t (Upload.content_len req) ->
  (forall n s, Upload.malloc_ok E n s = true) ->
  Upload.extract_boundary req = inl boundary ->
  Upload.next_chunk (Upload.transport w)
    (Z.min (Upload.int_of_size_t (Upload.content_len req)) (Upload.UPLOAD_BUFFER_SIZE - 1))
  = (ret, buf, rest) ->
  0 < ret ->
  Upload.extract_filename buf = inl name ->
  Upload.files w !! path = None \/ Upload.overwrite_requested req = true ->
  exists r w' before after,
    Upload.upload_post_handler E req w = Some (r, w') /\
    Upload.trace w'
    = Upload.trace w ++ before
      ++ [Upload.EvFopen path (bs "wb") (Upload.fopen_ok E path)] ++ after /\
    Forall (fun e => Upload.is_file_event e = false) before /\
    Forall (fun e => Upload.is_fopen e = false) after /\
    (Upload.fopen_ok E path = true ->
     Upload.files w' !! path = Some (Upload.written path after) /\
     (Upload.json_print_ok E = true ->
      Forall (fun e => Upload.recv_ok e = true) after ->
      r = ESP_OK /\
      exists evs,
        after = evs ++ [Upload.EvSend (Upload.resp_status w) (bs "application/json")
                          (Upload.success_json name)]) /\
     (forall (heads mids : list bytes) (pre p tail : bytes)
             (more : list Upload.incoming),
         let chunks :=
           heads ++ attach (pre ++ CRLFCRLF) (mids ++ [p ++ boundary ++ tail]) in
         let payload := concat mids ++ p in
         Upload.transport w = map Upload.Data chunks ++ more ->
         Forall (fun c => 0 < blen c <= 2047) chunks ->
         Upload.total chunks <= Upload.int_of_size_t (Upload.content_len req) ->
         Forall (fun h => find_sub CRLFCRLF h = None) heads ->
         find_sub CRLFCRLF (pre ++ CRLFCRLF) = Some (length pre) ->
         ~ In NUL pre ->
         Forall (fun m => find_sub boundary m = None) mids ->
         find_sub boundary (p ++ boundary) = Some (length p) ->
         ~ In NUL p ->
         Upload.strip_eol payload = concat mids ++ Upload.strip_eol p ->
         Upload.written path after = Upload.strip_eol payload /\
         Upload.files w' !! path = Some (Upload.strip_eol payload) /\
         Upload.transport w' = more)).
Proof.
  intros path Hrem Hm Hb Hn Hret Hname Hfree.
  destruct (sink_opened_first E req w boundary ret buf rest name Hrem Hm Hb Hn Hret
              Hname Hfree)
    as (r & w' & before & after & Hl & Ht & Hbef & Haft & Hsink).
  fold path in Ht, Hsink.
  exists r, w', before, after.
  split; [exact Hl|]. split; [exact Ht|]. split; [exact Hbef|]. split; [exact Haft|].
  intros Hopen. destruct (Hsink Hopen) as [Hfile Hsucc].
  split; [exact Hfile|]. split; [exact Hsucc|].
  intros heads mids pre p tail more chunks payload Htr Hsz Htot Hns Hsep Hpre Hnb Hbf Hp
    Heol.
  assert (Hne : chunks <> []).
  { subst chunks. destruct heads; [|discriminate]. destruct mids; discriminate. }
  pose proof (first_chunk_read _ chunks more _ ret buf rest Htr Hne Hsz Htot Hn) as Hhd.
  rewrite <- Hhd in Hname.
  destruct (well_cut_upload E req w boundary name heads mids pre p tail more Hm Hopen Hb
              Htr Hsz Htot Hname Hfree Hns Hsep Hpre Hnb Hbf Hp)
    as (r2 & w2 & oev & evs & Hl2 & _ & _ & _ & Hf2 & Htr2).
  rewrite Hl in Hl2. injection Hl2 as <- <-.
  fold path in Hf2. rewrite Heol.
  split; [|split; [exact Hf2 | exact Htr2]].
  assert (Hsame : Some (Upload.written path after)
                  = Some (concat mids ++ Upload.strip_eol p))
    by (etransitivity; [symmetry; exact Hfile | exact Hf2]).
  injection Hsame as ->. reflexivity.
Qed.

Lemma upload_opens_sink_witness :
  exists r w',
    Upload.upload_post_handler example_env (example_overwrite_request 92)
      (example_world (<[bs "/sdcard/a.txt" := bs "old content"]> ∅)
         [Upload.Data ((example_header_lines ++ CRLFCRLF) ++ bs "hel");
          Upload.Data ((bs "lo" ++ CRLF) ++ bs "--X" ++ bs "--" ++ CRLF)])
    = Some (r, w') /\
    Upload.files w' !! bs "/sdcard/a.txt" = Some (bs "hello").
Proof.
  destruct (upload_opens_sink example_env (example_overwrite_request 92)
              (example_world (<[bs "/sdcard/a.txt" := bs "old content"]> ∅)
                 [Upload.Data ((example_header_lines ++ CRLFCRLF) ++ bs "hel");
                  Upload.Data ((bs "lo" ++ CRLF) ++ bs "--X" ++ bs "--" ++ CRLF)])
              (bs "--X") 81 ((example_header_lines ++ CRLFCRLF) ++ bs "hel")
              [Upload.Data ((bs "lo" ++ CRLF) ++ bs "--X" ++ bs "--" ++ CRLF)]
              (bs "a.txt"))
    as (r & w' & before & after & H1 & _ & _ & _ & H5).
  - vm_compute. reflexivity.
  - intros n s. reflexivity.
  - vm_compute. reflexivity.
  - vm_compute. reflexivity.
  - vm_compute. reflexivity.
  - vm_compute. reflexivity.
  - right. vm_compute. reflexivity.
  - exists r, w'. split; [exact H1|].
    destruct (H5 eq_refl) as (_ & _ & Hcut).
    destruct (Hcut [] [bs "hel"] example_header_lines (bs "lo" ++ CRLF) (bs "--" ++ CRLF) [])
      as (_ & Hf & _).
    + reflexivity.
    + repeat constructor; vm_compute; reflexivity || discriminate.
    + vm_compute. discriminate.
    + constructor.
    + vm_compute. reflexivity.
    + apply nul_free_spec. vm_compute. reflexivity.
    + repeat constructor.
    + vm_compute. reflexivity.
    + apply nul_free_spec. vm_compute. reflexivity.
    + vm_compute. reflexivity.
    + exact Hf.
Defined.

(** The claim as it is worded fails on an upload that asks for the
    overwrite: when a read ends between the line end that closes the
    payload and the boundary, the file that held other bytes holds at the
    end the payload and that line end, which is not the new content. *)
Lemma upload_overwrite_split_counterexample :
  exists r w',
    Upload.overwrite_requested (example_overwrite_request 92) = true /\
    Upload.upload_post_handler example_env (example_overwrite_request 92)
      (example_world (<[bs "/sdcard/a.txt" := bs "old content"]> ∅)
         (map Upload.Data example_split_body)) = Some (r, w') /\
    concat example_split_body
    = example_headers ++ (bs "hello" ++ CRLF) ++ bs "--X--" ++ CRLF /\
    Upload.files w' !! bs "/sdcard/a.txt" = Some (bs "hello" ++ CRLF) /\
    Upload.files w' !! bs "/sdcard/a.txt" <> Some (Upload.strip_eol (bs "hello" ++ CRLF)).
Proof.
  eexists _, _. split; [vm_compute; reflexivity|].
  split; [vm_compute; reflexivity|].
  split; [vm_compute; reflexivity|].
  split; [vm_compute; reflexivity | vm_compute; discriminate].
Qed.

(** ** The URL decoder *)

Section DecodeFacts.
Import Decode.

Lemma decode_loop_nil (dst_size : nat) (d : bytes) : decode_loop dst_size [] d = ([], d).
Proof. reflexivity. Qed.

(** The loop never leaves more in [dst] than [dst_size - 1] bytes, and it
    writes at most one byte for each source character it passes. *)
Lemma decode_loop_bound (dst_size : nat) (m : nat) :
  forall s d : bytes,
    (length s <= m)%nat ->
    (length d <= dst_size - 1)%nat ->
    (length (snd (decode_loop dst_size s d)) <= dst_size - 1)%nat /\
    (length (snd (decode_loop dst_size s d)) + length (fst (decode_loop dst_size s d))
     <= length d + length s)%nat.
Proof.
  induction m as [|m IH]; intros s d Hm Hd.
  - destruct s; [simpl; lia | simpl in Hm; lia].
  - destruct s as [|c s1]; [simpl; lia|].
    cbn [decode_loop].
    destruct (length d <? dst_size - 1)%nat eqn:Hroom; [|simpl; lia].
    apply Nat.ltb_lt in Hroom.
    assert (Hd1 : forall x : ascii, (length (d ++ [x]) <= dst_size - 1)%nat)
      by (intros x; rewrite length_app; simpl; lia).
    assert (Hl1 : forall x : ascii, length (d ++ [x]) = S (length d))
      by (intros x; rewrite length_app; simpl; lia).
    simpl in Hm.
    destruct (Ascii.eqb c "%"%char).
    + destruct s1 as [|a [|b s3]].
      * cbn [decode_loop fst snd length]. rewrite Hl1. split; lia.
      * cbn [decode_loop fst snd length]. rewrite Hl1. split; lia.
      * destruct (isxdigit a && isxdigit b);
          match goal with |- context [decode_loop _ _ (d ++ [?x])] =>
            destruct (IH s3 (d ++ [x]) ltac:(simpl in Hm; lia) (Hd1 x)) as [H1 H2];
            rewrite Hl1 in H2; split; [exact H1 | simpl length; lia]
          end.
    + destruct (Ascii.eqb c "+"%char);
        match goal with |- context [decode_loop _ _ (d ++ [?x])] =>
          destruct (IH s1 (d ++ [x]) ltac:(lia) (Hd1 x)) as [H1 H2];
          rewrite Hl1 in H2; split; [exact H1 | simpl length; lia]
        end.
Qed.


Lemma percent_escape_decodes (c : ascii) (s d : bytes) (dst_size : nat) :
  Listing.reserved c = true ->
  (length d < dst_size - 1)%nat ->
  decode_loop dst_size (Listing.percent_escape c ++ s) d
  = decode_loop dst_size s (d ++ [c]).
Proof.
  intros Hr Hroom. apply Nat.ltb_lt in Hroom.
  apply reserved_spec in Hr.
  repeat (destruct Hr as [<- | Hr];
          [cbn [Listing.percent_escape app decode_loop]; rewrite Hroom; reflexivity|]).
  destruct Hr.
Qed.

(** A character the encoder copies, other than the percent sign. *)
Lemma plain_char_decodes (c : ascii) (s d : bytes) (dst_size : nat) :
  c <> "%"%char ->
  (length d < dst_size - 1)%nat ->
  decode_loop dst_size (c :: s) d = decode_loop dst_size s (d ++ [plus_to_space c]).
Proof.
  intros Hc Hroom. apply Nat.ltb_lt in Hroom. apply ascii_eqb_false in Hc.
  cbn [decode_loop]. rewrite Hroom, Hc. unfold plus_to_space.
  destruct (Ascii.eqb c "+"%char); reflexivity.
Qed.

(** Decoding what the encoder of the listing produced. *)
Lemma decode_percent_encode (dst_size : nat) (name : bytes) :
  ~ In "%"%char name ->
  forall d : bytes,
    (length d + length name <= dst_size - 1)%nat ->
    decode_loop dst_size (Listing.percent_encode name) d
    = ([], d ++ map plus_to_space name).
Proof.
  intros Hp. induction name as [|c name IH]; intros d Hroom.
  - simpl. rewrite app_nil_r. reflexivity.
  - assert (Hc : c <> "%"%char) by (intros ->; apply Hp; left; reflexivity).
    assert (Hn : ~ In "%"%char name) by (intros H; apply Hp; right; exact H).
    simpl in Hroom.
    unfold Listing.percent_encode. cbn [flat_map]. fold (Listing.percent_encode name).
    destruct (Listing.reserved c) eqn:Hr.
    + rewrite percent_escape_decodes by (trivial; lia).
      rewrite (IH Hn) by (rewrite length_app; simpl; lia).
      assert (Hs : plus_to_space c = c).
      { apply reserved_spec in Hr.
        repeat (destruct Hr as [<- | Hr]; [reflexivity|]). destruct Hr. }
      cbn [map]. rewrite Hs, <- app_assoc. reflexivity.
    + cbn [app]. rewrite plain_char_decodes by (trivial; lia).
      rewrite (IH Hn) by (rewrite length_app; simpl; lia).
      cbn [map]. rewrite <- app_assoc. reflexivity.
Qed.

Lemma map_plus_to_space_id (name : bytes) :
  ~ In "+"%char name -> map plus_to_space name = name.
Proof.
  induction name as [|c name IH]; intros H; [reflexivity|].
  cbn [map]. rewrite IH by (intros G; apply H; right; exact G).
  unfold plus_to_space.
  destruct (Ascii.eqb c "+"%char) eqn:E; [|reflexivity].
  apply ascii_eqb_true in E. subst c. exfalso. apply H. left. reflexivity.
Qed.


Lemma percent_encode_no_nul (name : bytes) :
  ~ In NUL name -> ~ In NUL (Listing.percent_encode name).
Proof.
  intros Hn Hin. unfold Listing.percent_encode in Hin.
  apply in_flat_map in Hin. destruct Hin as (c & Hc & Hin).
  destruct (Listing.reserved c) eqn:Hr.
  - apply reserved_spec in Hr.
    repeat (destruct Hr as [<- | Hr];
            [cbn in Hin; repeat (destruct Hin as [Hin | Hin]; [discriminate Hin|]);
             exact Hin|]).
    destruct Hr.
  - destruct Hin as [-> | []]. exact (Hn Hc).
Qed.

(** A name that fits the name array is encoded whole. *)
Lemma url_encode_whole (d_name_size : Z) (name junk : bytes) :
  ~ In NUL name ->
  blen name < d_name_size ->
  d_name_size * 3 + 1 < 2 ^ 32 ->
  Listing.url_encode d_name_size (name ++ NUL :: junk) = Listing.percent_encode name.
Proof.
  intros Hn Hlen Hsz.
  pose proof (blen_nonneg name) as H0.
  unfold Listing.url_encode, Listing.url_encoded_size, Listing.sz.
  rewrite (Z.mod_small (d_name_size * 3 + 1)) by lia.
  rewrite (Z.mod_small (d_name_size * 3 + 1 - 4)) by lia.
  rewrite url_encode_loop_all; [|exact Hn|change (blen []) with 0; lia].
  cbn [app].
  pose proof (percent_encode_length name) as Hl.
  destruct (blen (Listing.percent_encode name) >=? d_name_size * 3 + 1) eqn:G;
    [|reflexivity].
  apply Z.geb_le in G. lia.
Qed.

(** Decoding the link the listing made for a name. *)
Lemma url_decode_url_encode (d_name_size : Z) (name junk : bytes) (dst_size : nat) :
  ~ In NUL name ->
  ~ In "%"%char name ->
  blen name < d_name_size ->
  d_name_size * 3 + 1 < 2 ^ 32 ->
  (length name < dst_size)%nat ->
  url_decode (Some (Listing.url_encode d_name_size (name ++ NUL :: junk))) dst_size
  = (ESP_OK, map plus_to_space name).
Proof.
  intros Hn Hp Hlen Hsz Hfit.
  rewrite url_encode_whole by assumption.
  unfold url_decode.
  destruct (dst_size =? 0)%nat eqn:E; [apply Nat.eqb_eq in E; lia|].
  rewrite (cstr_no_nul _ (percent_encode_no_nul name Hn)).
  rewrite decode_percent_encode by (trivial; simpl; lia).
  reflexivity.
Qed.

End DecodeFacts.

(** X1.  For every source string and every buffer of at least one byte,
    what [url_decode] writes fits the buffer together with its terminator,
    and it is never longer than the source string. *)
Theorem url_decode_within_buffer (src : bytes) (dst_size : nat) :
  (0 < dst_size)%nat ->
  (length (snd (Decode.url_decode (Some src) dst_size)) < dst_size)%nat /\
  (length (snd (Decode.url_decode (Some src) dst_size)) <= length (cstr src))%nat.
Proof.
  intros Hpos. unfold Decode.url_decode.
  destruct (dst_size =? 0)%nat eqn:E; [apply Nat.eqb_eq in E; lia|].
  destruct (decode_loop_bound dst_size (length (cstr src)) (cstr src) [])
    as [H1 H2]; [lia | simpl; lia |].
  destruct (Decode.decode_loop dst_size (cstr src) []) as [s d].
  cbn [fst snd length] in H1, H2.
  destruct s; cbn [snd]; lia.
Qed.

Lemma url_decode_within_buffer_witness :
  (length (snd (Decode.url_decode (Some (bs "a%20long%20name.csv")) 8)) < 8)%nat /\
  (length (snd (Decode.url_decode (Some (bs "a%20long%20name.csv")) 8))
   <= length (cstr (bs "a%20long%20name.csv")))%nat.
Proof.
  apply (url_decode_within_buffer (bs "a%20long%20name.csv") 8). lia.
Defined.



(** X3.  The links of the listing lead back to the file: for a name
    without NUL and without a percent sign that fits the name array and the
    buffer of the decoder, decoding what the encoder of the listing made of
    the name succeeds and gives the name with every plus sign turned into a
    space; so a name without a plus sign comes back as it was. *)
Theorem listing_link_decodes (d_name_size : Z) (name junk : bytes) (dst_size : nat) :
  ~ In NUL name ->
  ~ In "%"%char name ->
  blen name < d_name_size ->
  d_name_size * 3 + 1 < 2 ^ 32 ->
  (length name < dst_size)%nat ->
  Decode.url_decode (Some (Listing.url_encode d_name_size (name ++ NUL :: junk))) dst_size
  = (ESP_OK, map Decode.plus_to_space name) /\
  (~ In "+"%char name ->
   Decode.url_decode (Some (Listing.url_encode d_name_size (name ++ NUL :: junk))) dst_size
   = (ESP_OK, name)).
Proof.
  intros Hn Hp Hlen Hsz Hfit.
  pose proof (url_decode_url_encode d_name_size name junk dst_size Hn Hp Hlen Hsz Hfit)
    as H.
  split; [exact H|].
  intros Hplus. rewrite H, map_plus_to_space_id by exact Hplus. reflexivity.
Qed.

Lemma listing_link_decodes_witness :
  Decode.url_decode
    (Some (Listing.url_encode 256 (bs "my log (1)+a.csv" ++ NUL :: bs "junk"))) 129
  = (ESP_OK, bs "my log (1) a.csv") /\
  Decode.url_decode
    (Some (Listing.url_encode 256 (bs "my log (1).csv" ++ NUL :: bs "junk"))) 129
  = (ESP_OK, bs "my log (1).csv").
Proof.
  split.
  - apply (listing_link_decodes 256 (bs "my log (1)+a.csv") (bs "junk") 129).
    + vm_compute. intuition discriminate.
    + vm_compute. intuition discriminate.
    + vm_compute. reflexivity.
    + vm_compute. reflexivity.
    + vm_compute. lia.
  - apply (listing_link_decodes 256 (bs "my log (1).csv") (bs "junk") 129).
    + vm_compute. intuition discriminate.
    + vm_compute. intuition discriminate.
    + vm_compute. reflexivity.
    + vm_compute. reflexivity.
    + vm_compute. lia.
    + vm_compute. intuition discriminate.
Defined.

(** ** Paths of clean names *)

Section CleanPaths.
Import Path.

(** The substitution leaves a text without [..] as it is. *)
Lemma replace_dotdot_id (m : nat) :
  forall s : bytes,
    (length s <= m)%nat -> find_sub dotdot s = None -> replace_dotdot s = s.
Proof.
  induction m as [|m IH]; intros s Hm Hs.
  - destruct s; [reflexivity | simpl in Hm; lia].
  - destruct s as [|a [|b r]]; [reflexivity | reflexivity |].
    rewrite replace_dotdot_cons2.
    rewrite find_sub_cons, is_prefix_dotdot_cons in Hs.
    cbn [head_is_dot] in Hs.
    destruct (is_dot a && is_dot b) eqn:E; [discriminate|].
    destruct (find_sub dotdot (b :: r)) eqn:F; [discriminate|].
    rewrite (IH (b :: r)) by (trivial; simpl in Hm |- *; lia). reflexivity.
Qed.

(** The shape of every path the handlers build under the mount point. *)
Lemma build_filepath_under_mount (name : bytes) :
  exists rest,
    build_filepath FILE_PATH_MAX MOUNT_POINT (Some name) = bs "/sdcard/" ++ rest /\
    find_sub dotdot (bs "/sdcard/" ++ rest) = None.
Proof.
  set (composed := snprintf FILE_PATH_MAX (cstr MOUNT_POINT ++ bs "/" ++ cstr name)).
  assert (E : build_filepath FILE_PATH_MAX MOUNT_POINT (Some name)
              = replace_dotdot composed).
  { unfold build_filepath. fold composed.
    apply (sanitize_loop_replace (length composed)); lia. }
  exists (replace_dotdot (firstn 247 (cstr name))).
  assert (S : replace_dotdot composed
              = bs "/sdcard/" ++ replace_dotdot (firstn 247 (cstr name))).
  { unfold composed, snprintf.
    change (cstr MOUNT_POINT ++ bs "/" ++ cstr name)
      with (bs "/sdcard" ++ "/"%char :: cstr name).
    change (FILE_PATH_MAX - 1)%nat with (7 + S 247)%nat.
    rewrite (firstn_app_2 (S 247) (bs "/sdcard")), firstn_cons.
    rewrite replace_dotdot_prefix by reflexivity.
    reflexivity. }
  split; [rewrite E; exact S|].
  rewrite <- S. apply (replace_dotdot_clean (length composed)). lia.
Qed.

(** A name without [..] that fits the buffer is joined to the mount point
    as it is. *)
Lemma build_filepath_clean (name : bytes) :
  ~ In NUL name ->
  (length name <= 247)%nat ->
  find_sub dotdot name = None ->
  build_filepath FILE_PATH_MAX MOUNT_POINT (Some name) = bs "/sdcard/" ++ name.
Proof.
  intros Hn Hl Hc.
  unfold build_filepath.
  set (composed := snprintf FILE_PATH_MAX (cstr MOUNT_POINT ++ bs "/" ++ cstr name)).
  rewrite (sanitize_loop_replace (length composed)) by lia.
  unfold composed, snprintf. rewrite (cstr_no_nul name Hn).
  change (cstr MOUNT_POINT ++ bs "/" ++ name) with (bs "/sdcard" ++ "/"%char :: name).
  rewrite firstn_all2 by (rewrite length_app; simpl; lia).
  rewrite replace_dotdot_prefix by reflexivity.
  rewrite (replace_dotdot_id (length name)) by (trivial; lia).
  reflexivity.
Qed.

End CleanPaths.

(** X4.  [build_filepath] changes nothing but [..]: a name without NUL and
    without [..], of at most 247 bytes, is joined to the mount point as it
    is, single dots included; and the NULL name gives the fixed path of the
    unknown file. *)
Theorem build_filepath_keeps_clean_names (name : bytes) :
  ~ In NUL name ->
  (length name <= 247)%nat ->
  find_sub Path.dotdot name = None ->
  Path.build_filepath Path.FILE_PATH_MAX Path.MOUNT_POINT (Some name)
  = bs "/sdcard/" ++ name /\
  Path.build_filepath Path.FILE_PATH_MAX Path.MOUNT_POINT None
  = bs "/sdcard/unknown_filename".
Proof.
  intros Hn Hl Hc. split; [apply build_filepath_clean; assumption | reflexivity].
Qed.

Lemma build_filepath_keeps_clean_names_witness :
  Path.build_filepath Path.FILE_PATH_MAX Path.MOUNT_POINT (Some (bs "log_1.v2.csv"))
  = bs "/sdcard/" ++ bs "log_1.v2.csv" /\
  Path.build_filepath Path.FILE_PATH_MAX Path.MOUNT_POINT None
  = bs "/sdcard/unknown_filename".
Proof.
  apply (build_filepath_keeps_clean_names (bs "log_1.v2.csv")).
  - apply nul_free_spec. reflexivity.
  - vm_compute. lia.
  - reflexivity.
Defined.

(** ** The file handlers *)

Section DeleteFacts.
Import Files.

Variable E : env.

Lemma malloc_frame (w : world) (n : Z) :
  files (snd (malloc E w n)) = files w /\ out (snd (malloc E w n)) = out w /\
  trace (snd (malloc E w n)) = trace w ++ [EvMalloc n (fst (malloc E w n))].
Proof. repeat split. Qed.

Lemma unlink_true (w w' : world) (path : bytes) :
  unlink E w path = (true, w') ->
  is_Some (files w !! path) /\ files w' = delete path (files w) /\ out w' = out w /\
  trace w' = trace w ++ [EvUnlink path true].
Proof.
  unfold unlink. destruct (files w !! path) eqn:F; [|discriminate].
  destruct (unlink_ok E path); [|discriminate].
  intros [= <-]. repeat split. eexists; reflexivity.
Qed.

Lemma unlink_false (w w' : world) (path : bytes) :
  unlink E w path = (false, w') ->
  files w' = files w /\ out w' = out w /\ trace w' = trace w ++ [EvUnlink path false].
Proof.
  unfold unlink. destruct (files w !! path) eqn:F.
  - destruct (unlink_ok E path); [discriminate|]. intros [= <-]. repeat split.
  - intros [= <-]. repeat split.
Qed.

Lemma send_json_delete_response_frame (q : bool) (root : json) (st : esp_err_t)
    (w : world) :
  fst (send_json_delete_response E q root st w) = st /\
  files (snd (send_json_delete_response E q root st w)) = files w /\
  out (snd (send_json_delete_response E q root st w)) = out w.
Proof.
  unfold send_json_delete_response.
  destruct (json_print_ok E), q; repeat split.
Qed.

End DeleteFacts.

(** X5.  Whatever the request and whatever fails, [delete_handler] sends
    no chunk and removes at most one file: either it returns ESP_FAIL and
    the store is as it was, or it returns ESP_OK and the store has lost
    exactly one file that was there, whose path lies under [/sdcard/] and
    holds no [..]. *)
Theorem delete_handler_removes_at_most_one (E : Files.env) (req : Files.request)
    (w : Files.world) :
  Files.out (snd (Files.delete_handler E req w)) = Files.out w /\
  ((fst (Files.delete_handler E req w) = ESP_FAIL /\
    Files.files (snd (Files.delete_handler E req w)) = Files.files w) \/
   (fst (Files.delete_handler E req w) = ESP_OK /\
    exists rest,
      find_sub Path.dotdot (bs "/sdcard/" ++ rest) = None /\
      is_Some (Files.files w !! (bs "/sdcard/" ++ rest)) /\
      Files.files (snd (Files.delete_handler E req w))
      = delete (bs "/sdcard/" ++ rest) (Files.files w))).
Proof.
  unfold Files.delete_handler.
  destruct (Files.json_create_ok E); [|split; [reflexivity | left; split; reflexivity]].
  set (w1 := Files.log (Files.log w _) _).
  assert (F1 : Files.files w1 = Files.files w) by reflexivity.
  assert (O1 : Files.out w1 = Files.out w) by reflexivity.
  clearbody w1.
  destruct (_ <=? 1).
  { destruct (send_json_delete_response_frame E false
                (Files.error_json (bs "Nedostaje parametar datoteke za brisanje."))
                ESP_FAIL w1) as (R & F & O).
    rewrite R, F, O. split; [exact O1 | left; split; [reflexivity | exact F1]]. }
  destruct (Files.malloc E w1 _) as [ok w2] eqn:M.
  assert (F2 : Files.files w2 = Files.files w).
  { pose proof (malloc_frame E w1 (Listing.sz (Files.url_query_len req + 1))) as H.
    rewrite M in H. cbn [snd] in H. destruct H as [H _]. congruence. }
  assert (O2 : Files.out w2 = Files.out w).
  { pose proof (malloc_frame E w1 (Listing.sz (Files.url_query_len req + 1))) as H.
    rewrite M in H. cbn [snd] in H. destruct H as (_ & H & _). congruence. }
  clear M.
  assert (Fail : forall q root,
            Files.out (snd (Files.send_json_delete_response E q root ESP_FAIL w2))
            = Files.out w /\
            ((fst (Files.send_json_delete_response E q root ESP_FAIL w2) = ESP_FAIL /\
              Files.files (snd (Files.send_json_delete_response E q root ESP_FAIL w2))
              = Files.files w) \/
             (fst (Files.send_json_delete_response E q root ESP_FAIL w2) = ESP_OK /\
              exists rest,
                find_sub Path.dotdot (bs "/sdcard/" ++ rest) = None /\
                is_Some (Files.files w !! (bs "/sdcard/" ++ rest)) /\
                Files.files (snd (Files.send_json_delete_response E q root ESP_FAIL w2))
                = delete (bs "/sdcard/" ++ rest) (Files.files w)))).
  { intros q root.
    destruct (send_json_delete_response_frame E q root ESP_FAIL w2) as (R & F & O).
    rewrite R, F, O. split; [exact O2 | left; split; [reflexivity | exact F2]]. }
  destruct ok; [|apply Fail].
  destruct (if Files.url_query_str_ok req then Files.file_value req else None)
    as [filename_query|]; [|apply Fail].
  destruct (Decode.url_decode (Some filename_query) 129) as [[] decoded_filename];
    [|apply Fail].
  destruct (build_filepath_under_mount decoded_filename) as (rest & Hp & Hclean).
  rewrite Hp.
  destruct (Files.unlink E w2 (bs "/sdcard/" ++ rest)) as [[] w3] eqn:U.
  - apply unlink_true in U. destruct U as (Hs & Hf & Ho & _).
    destruct (send_json_delete_response_frame E true
                (Files.delete_success_json decoded_filename) ESP_OK w3) as (R & F & O).
    rewrite R, F, O. split; [congruence|].
    right. split; [reflexivity|]. exists rest.
    split; [exact Hclean|]. split; [rewrite <- F2; exact Hs | rewrite Hf, F2; reflexivity].
  - apply unlink_false in U. destruct U as (Hf & Ho & _).
    destruct (send_json_delete_response_frame E true
                (Files.delete_failure_json E decoded_filename) ESP_FAIL w3) as (R & F & O).
    rewrite R, F, O. split; [congruence|].
    left. split; [reflexivity | congruence].
Qed.

Section DeleteRuns.
Import Files.

Variable E : env.

Lemma json_deletes_app (a b : list event) :
  json_deletes (a ++ b) = (json_deletes a + json_deletes b)%nat.
Proof. unfold json_deletes. rewrite List.filter_app, length_app. reflexivity. Qed.

Lemma json_deletes_malloc (w : world) (n : Z) :
  json_deletes (trace (snd (malloc E w n))) = json_deletes (trace w).
Proof. cbn [malloc snd trace]. rewrite json_deletes_app. unfold json_deletes. simpl. lia. Qed.

Lemma json_deletes_unlink (w : world) (path : bytes) :
  json_deletes (trace (snd (unlink E w path))) = json_deletes (trace w).
Proof.
  unfold unlink. destruct (files w !! path); [destruct (unlink_ok E path)|];
    cbn [snd trace log]; rewrite json_deletes_app; unfold json_deletes; simpl; lia.
Qed.

Lemma json_deletes_send_delete (q : bool) (root : json) (st : esp_err_t) (w : world) :
  json_deletes (trace (snd (send_json_delete_response E q root st w)))
  = (json_deletes (trace w) + if json_print_ok E then 1 else 2)%nat.
Proof.
  unfold send_json_delete_response.
  destruct (json_print_ok E), q; cbn [snd trace log];
    rewrite ?json_deletes_app; unfold json_deletes; simpl; lia.
Qed.

Lemma json_deletes_unlink_entries (entries : list Listing.dirent) :
  forall (d f : Z) (w : world),
    json_deletes (trace (snd (unlink_entries E entries d f w))) = json_deletes (trace w).
Proof.
  induction entries as [|e rest IH]; intros d f w; [reflexivity|].
  cbn [unlink_entries].
  destruct (Listing.d_type e); try apply IH.
  destruct (bytes_eqb _ _); [apply IH|].
  pose proof (json_deletes_unlink w (entry_path e)) as H.
  destruct (unlink E w (entry_path e)) as [[] w1]; cbn [snd] in H;
    rewrite IH; exact H.
Qed.

End DeleteRuns.

(** X6.  The delete link of the listing deletes the file it was made for.
    For a name without NUL, percent sign, plus sign and [..], whose encoded
    form fits the buffer of the query value, a request whose [file]
    parameter is what the encoder of the listing made of the name removes
    the file [/sdcard/name], when it is there and can be unlinked, and
    nothing else; the calls made are the allocation of the query buffer,
    the one [unlink], and the reply with status [success] that names the
    file. *)
Theorem delete_follows_listing_link (E : Files.env) (w : Files.world)
    (d_name_size qlen : Z) (name junk old : bytes) :
  let link := Listing.url_encode d_name_size (name ++ NUL :: junk) in
  let path := bs "/sdcard/" ++ name in
  ~ In NUL name ->
  ~ In "%"%char name ->
  ~ In "+"%char name ->
  find_sub Path.dotdot name = None ->
  blen name < d_name_size ->
  d_name_size * 3 + 1 < 2 ^ 32 ->
  (length name <= length link <= 128)%nat ->
  Files.json_create_ok E = true ->
  Files.json_print_ok E = true ->
  1 < Listing.sz (qlen + 1) ->
  Files.malloc_ok E (Files.mallocs w) (Listing.sz (qlen + 1)) = true ->
  Files.files w !! path = Some old ->
  Files.unlink_ok E path = true ->
  exists w',
    Files.delete_handler E (Files.mkRequest qlen true (Some link)) w = (ESP_OK, w') /\
    Files.files w' = delete path (Files.files w) /\
    Files.trace w'
    = Files.trace w
      ++ [Files.EvSetType (bs "application/json"); Files.EvJsonCreate true;
          Files.EvMalloc (Listing.sz (qlen + 1)) true; Files.EvUnlink path true;
          Files.EvFree;
          Files.EvSend
            [(bs "status", bs "success");
             (bs "message", bs "Datoteka '" ++ name ++ bs "' je uspjesno obrisana.")];
          Files.EvJsonDelete].
Proof.
  intros link path Hn Hp Hplus Hclean Hlen Hsz Hfit Hcreate Hprint Hq Hm Hfile Hunlink.
  unfold Files.delete_handler. rewrite Hcreate.
  cbn [Files.url_query_len Files.url_query_str_ok Files.file_value].
  destruct (Listing.sz (qlen + 1) <=? 1) eqn:Q; [apply Z.leb_le in Q; lia|].
  unfold Files.malloc. cbn [Files.log Files.mallocs Files.files Files.out Files.freads
                            Files.trace].
  rewrite Hm. fold link.
  unfold link.
  rewrite (url_decode_url_encode d_name_size name junk 129 Hn Hp Hlen Hsz)
    by (fold link; lia).
  rewrite (map_plus_to_space_id name Hplus).
  rewrite build_filepath_clean by (trivial; fold link in Hfit; lia).
  fold path.
  unfold Files.unlink. cbn [Files.files].
  match goal with |- context [Files.files w !! ?p] =>
    replace (Files.files w !! p) with (Some old) by (symmetry; exact Hfile) end.
  rewrite Hunlink.
  unfold Files.send_json_delete_response. rewrite Hprint.
  cbn [Files.log Files.mallocs Files.files Files.out Files.freads Files.trace].
  assert (Hmsg : snprintf 229 (bs "Datoteka '" ++ cstr name
                               ++ bs "' je uspjesno obrisana.")
                 = bs "Datoteka '" ++ name ++ bs "' je uspjesno obrisana.").
  { rewrite (cstr_no_nul name Hn). unfold snprintf.
    apply firstn_all2. rewrite !length_app. fold link in Hfit. simpl. lia. }
  unfold Files.delete_success_json. rewrite Hmsg.
  eexists. split; [reflexivity|]. cbn [Files.files Files.trace].
  split; [reflexivity|].
  unfold Files.log. cbn [Files.trace]. rewrite <- !app_assoc. reflexivity.
Qed.

Lemma delete_follows_listing_link_witness :
  exists w',
    Files.delete_handler example_files_env
      (Files.mkRequest 23 true
         (Some (Listing.url_encode 256 (bs "my log (1).csv" ++ NUL :: bs "junk"))))
      (example_files_world (<[bs "/sdcard/my log (1).csv" := bs "1;2;3"]> ∅))
    = (ESP_OK, w') /\
    Files.files w' !! bs "/sdcard/my log (1).csv" = None.
Proof.
  destruct (delete_follows_listing_link example_files_env
              (example_files_world (<[bs "/sdcard/my log (1).csv" := bs "1;2;3"]> ∅))
              256 23 (bs "my log (1).csv") (bs "junk") (bs "1;2;3"))
    as (w' & H & F & _).
  - apply nul_free_spec. reflexivity.
  - vm_compute. intuition discriminate.
  - vm_compute. intuition discriminate.
  - reflexivity.
  - reflexivity.
  - reflexivity.
  - vm_compute. lia.
  - reflexivity.
  - reflexivity.
  - reflexivity.
  - reflexivity.
  - apply lookup_insert_eq.
  - reflexivity.
  - exists w'. split; [exact H|]. rewrite F. apply lookup_delete_eq.
Defined.

(** X7.  In a run of [delete_handler] that has created the JSON root,
    [cJSON_Delete] is called on it once when the reply can be printed and
    twice when [cJSON_PrintUnformatted] fails: once in the error branch and
    once more at the end of the function.  In a run of
    [delete_all_handler] that has created the root it is called once either
    way. *)
Theorem delete_handler_deletes_root_twice (E : Files.env) (req : Files.request)
    (dir : option (list Listing.dirent)) (w : Files.world) :
  Files.json_create_ok E = true ->
  Files.json_deletes (Files.trace (snd (Files.delete_handler E req w)))
  = (Files.json_deletes (Files.trace w) + if Files.json_print_ok E then 1 else 2)%nat /\
  Files.json_deletes (Files.trace (snd (Files.delete_all_handler E dir w)))
  = (Files.json_deletes (Files.trace w) + 1)%nat.
Proof.
  intros Hcreate. split.
  - unfold Files.delete_handler. rewrite Hcreate.
    set (w1 := Files.log (Files.log w _) _).
    assert (J1 : Files.json_deletes (Files.trace w1) = Files.json_deletes (Files.trace w)).
    { unfold w1. cbn [Files.log Files.trace]. rewrite !json_deletes_app. unfold Files.json_deletes. simpl. lia. }
    clearbody w1.
    destruct (_ <=? 1); [rewrite json_deletes_send_delete, J1; reflexivity|].
    pose proof (json_deletes_malloc E w1 (Listing.sz (Files.url_query_len req + 1))) as J2.
    destruct (Files.malloc E w1 _) as [ok w2]. cbn [snd] in J2.
    destruct ok; [|rewrite json_deletes_send_delete, J2, J1; reflexivity].
    destruct (if Files.url_query_str_ok req then Files.file_value req else None)
      as [filename_query|]; [|rewrite json_deletes_send_delete, J2, J1; reflexivity].
    destruct (Decode.url_decode (Some filename_query) 129) as [[] decoded_filename];
      [|rewrite json_deletes_send_delete, J2, J1; reflexivity].
    match goal with |- context [Files.unlink E w2 ?p] =>
      pose proof (json_deletes_unlink E w2 p) as J3;
      destruct (Files.unlink E w2 p) as [[] w3] end;
      cbn [snd] in J3; rewrite json_deletes_send_delete, J3, J2, J1; reflexivity.
  - unfold Files.delete_all_handler. rewrite Hcreate.
    set (w1 := Files.log (Files.log w _) _).
    assert (J1 : Files.json_deletes (Files.trace w1) = Files.json_deletes (Files.trace w)).
    { unfold w1. cbn [Files.log Files.trace]. rewrite !json_deletes_app. unfold Files.json_deletes. simpl. lia. }
    clearbody w1.
    assert (S : forall root wk,
              Files.json_deletes
                (Files.trace (snd (Files.send_json_delete_all_response E root wk)))
              = (Files.json_deletes (Files.trace wk) + 1)%nat).
    { intros root wk. unfold Files.send_json_delete_all_response.
      destruct (Files.json_print_ok E); cbn [snd Files.trace Files.log];
        rewrite !json_deletes_app; unfold Files.json_deletes; simpl; lia. }
    destruct dir as [entries|]; [|rewrite S, J1; reflexivity].
    pose proof (json_deletes_unlink_entries E entries 0 0 w1) as J2.
    destruct (Files.unlink_entries E entries 0 0 w1) as [[d f] w2]. cbn [snd] in J2.
    rewrite S, J2, J1. reflexivity.
Qed.

Lemma delete_handler_deletes_root_twice_witness :
  Files.json_deletes
    (Files.trace (snd (Files.delete_handler example_files_env_no_print
                         (Files.mkRequest 0 true None) (example_files_world ∅))))
  = 2%nat /\
  Files.json_deletes
    (Files.trace (snd (Files.delete_all_handler example_files_env_no_print None
                         (example_files_world ∅))))
  = 1%nat.
Proof.
  apply (delete_handler_deletes_root_twice example_files_env_no_print
           (Files.mkRequest 0 true None) None (example_files_world ∅)).
  reflexivity.
Defined.

Section DeleteAllFacts.
Import Files.

Variable E : env.

Lemma successes_cons (c : bytes * bool) (calls : list (bytes * bool)) :
  successes (c :: calls) = (if snd c then 1 else 0) + successes calls.
Proof. unfold successes. cbn [List.filter]. destruct (snd c); cbn [length]; lia. Qed.

Lemma failures_cons (c : bytes * bool) (calls : list (bytes * bool)) :
  failures (c :: calls) = (if snd c then 0 else 1) + failures calls.
Proof. unfold failures. cbn [List.filter]. destruct (snd c); cbn [length negb]; lia. Qed.

Lemma unlink_trace (w : world) (path : bytes) :
  trace (snd (unlink E w path)) = trace w ++ [EvUnlink path (fst (unlink E w path))] /\
  out (snd (unlink E w path)) = out w.
Proof.
  unfold unlink. destruct (files w !! path); [destruct (unlink_ok E path)|];
    split; reflexivity.
Qed.

(** The loop tries the regular files other than the system directory, in
    the order of the directory, each once, and counts the outcomes. *)
Lemma unlink_entries_calls (entries : list Listing.dirent) :
  forall (d f : Z) (w : world),
  exists calls,
    fst (unlink_entries E entries d f w) = (d + successes calls, f + failures calls) /\
    map fst calls = map entry_path (List.filter is_target entries) /\
    trace (snd (unlink_entries E entries d f w)) = trace w ++ unlink_events calls /\
    out (snd (unlink_entries E entries d f w)) = out w.
Proof.
  induction entries as [|e rest IH]; intros d f w.
  - exists []. cbn. rewrite app_nil_r, !Z.add_0_r. repeat split.
  - cbn [unlink_entries List.filter]. unfold is_target at 1.
    destruct (Listing.d_type e); try apply IH.
    destruct (bytes_eqb _ _); cbn [negb]; [apply IH|].
    destruct (unlink_trace w (entry_path e)) as [T O].
    destruct (unlink E w (entry_path e)) as [ok w1]. cbn [fst snd] in T, O.
    destruct ok.
    + destruct (IH (d + 1) f w1) as (calls & H1 & H2 & H3 & H4).
      exists ((entry_path e, true) :: calls).
      rewrite successes_cons, failures_cons. cbn [fst snd map unlink_events].
      rewrite H1, H2, H3, H4, T, O, <- app_assoc.
      repeat split. f_equal; lia.
    + destruct (IH d (f + 1) w1) as (calls & H1 & H2 & H3 & H4).
      exists ((entry_path e, false) :: calls).
      rewrite successes_cons, failures_cons. cbn [fst snd map unlink_events].
      rewrite H1, H2, H3, H4, T, O, <- app_assoc.
      repeat split. f_equal; lia.
Qed.

Lemma unlink_files (w : world) (path : bytes) :
  (forall q, q <> path -> files (snd (unlink E w path)) !! q = files w !! q) /\
  (files (snd (unlink E w path)) !! path = None \/
   files (snd (unlink E w path)) !! path = files w !! path) /\
  (unlink_ok E path = true -> files (snd (unlink E w path)) !! path = None).
Proof.
  unfold unlink. destruct (files w !! path) eqn:F.
  - destruct (unlink_ok E path); cbn [snd files log].
    + split; [intros q Hq; apply lookup_delete_ne; congruence|].
      split; [left; apply lookup_delete_eq | intros _; apply lookup_delete_eq].
    + split; [reflexivity|]. split; [right; exact F | discriminate].
  - cbn [snd files log]. split; [reflexivity|].
    split; [left; exact F | intros _; exact F].
Qed.

(** The loop only removes files, and only at the paths of its targets; a
    target the card lets go is gone at the end. *)
Lemma unlink_entries_files (entries : list Listing.dirent) :
  forall (d f : Z) (w : world),
    (forall q, files (snd (unlink_entries E entries d f w)) !! q = None \/
               files (snd (unlink_entries E entries d f w)) !! q = files w !! q) /\
    (forall q, (forall e, In e entries -> is_target e = true -> entry_path e <> q) ->
               files (snd (unlink_entries E entries d f w)) !! q = files w !! q) /\
    (forall e, In e entries -> is_target e = true ->
               unlink_ok E (entry_path e) = true ->
               files (snd (unlink_entries E entries d f w)) !! entry_path e = None).
Proof.
  induction entries as [|e rest IH]; intros d f w.
  - cbn. split; [right; reflexivity|]. split; [reflexivity | intros e []].
  - assert (Skip : is_target e = false ->
              forall w1 d1 f1,
                files w1 = files w ->
                (forall q, files (snd (unlink_entries E rest d1 f1 w1)) !! q = None \/
                           files (snd (unlink_entries E rest d1 f1 w1)) !! q
                           = files w !! q) /\
                (forall q, (forall e0, In e0 (e :: rest) -> is_target e0 = true ->
                                       entry_path e0 <> q) ->
                           files (snd (unlink_entries E rest d1 f1 w1)) !! q
                           = files w !! q) /\
                (forall e0, In e0 (e :: rest) -> is_target e0 = true ->
                            unlink_ok E (entry_path e0) = true ->
                            files (snd (unlink_entries E rest d1 f1 w1)) !! entry_path e0
                            = None)).
    { intros Ht w1 d1 f1 <-. destruct (IH d1 f1 w1) as (A & B & C).
      split; [exact A|]. split.
      - intros q Hq. apply B. intros e0 Hin. apply Hq. right. exact Hin.
      - intros e0 [<- | Hin] T U; [congruence | apply C; assumption]. }
    cbn [unlink_entries].
    destruct (Listing.d_type e) eqn:Ty;
      try (apply Skip; [unfold is_target; rewrite Ty; reflexivity | reflexivity]).
    destruct (bytes_eqb _ _) eqn:B;
      [apply Skip; [unfold is_target; rewrite Ty, B; reflexivity | reflexivity]|].
    assert (Ht : is_target e = true) by (unfold is_target; rewrite Ty, B; reflexivity).
    destruct (unlink_files w (entry_path e)) as (U1 & U2 & U3).
    assert (H : forall d1 f1,
              (forall q, files (snd (unlink_entries E rest d1 f1
                                       (snd (unlink E w (entry_path e))))) !! q = None \/
                         files (snd (unlink_entries E rest d1 f1
                                       (snd (unlink E w (entry_path e))))) !! q
                         = files w !! q) /\
              (forall q, (forall e0, In e0 (e :: rest) -> is_target e0 = true ->
                                     entry_path e0 <> q) ->
                         files (snd (unlink_entries E rest d1 f1
                                       (snd (unlink E w (entry_path e))))) !! q
                         = files w !! q) /\
              (forall e0, In e0 (e :: rest) -> is_target e0 = true ->
                          unlink_ok E (entry_path e0) = true ->
                          files (snd (unlink_entries E rest d1 f1
                                        (snd (unlink E w (entry_path e)))))
                          !! entry_path e0 = None)).
    { intros d1 f1.
      destruct (IH d1 f1 (snd (unlink E w (entry_path e)))) as (A & B' & C).
      split; [|split].
      - intros q. destruct (A q) as [N | K]; [left; exact N|].
        destruct (decide (q = entry_path e)) as [-> | Hne].
        + destruct U2 as [N | K2]; [left | right]; congruence.
        + right. rewrite K. apply U1. exact Hne.
      - intros q Hq. rewrite B' by (intros e0 Hin; apply Hq; right; exact Hin).
        apply U1. intros ->. apply (Hq e); [left; reflexivity | exact Ht | reflexivity].
      - intros e0 [<- | Hin] T U; [|apply C; assumption].
        destruct (A (entry_path e)) as [N | K]; [exact N|].
        rewrite K. apply U3. exact U. }
    destruct (unlink E w (entry_path e)) as [[] w1]; cbn [snd] in H; apply H.
Qed.

End DeleteAllFacts.

(** X8.  When the JSON reply can be made, [delete_all_handler] calls
    [unlink] on the regular files of the directory other than
    [System Volume Information], in the order of the directory and once
    each, and on nothing else; it sends no chunk, returns ESP_OK whatever
    the outcomes, and the reply is built from the number of calls that
    succeeded and the number that failed. *)
Theorem delete_all_unlinks_regular_files (E : Files.env)
    (entries : list Listing.dirent) (w : Files.world) :
  Files.json_create_ok E = true ->
  Files.json_print_ok E = true ->
  exists calls w',
    Files.delete_all_handler E (Some entries) w = (ESP_OK, w') /\
    map fst calls = map Files.entry_path (List.filter Files.is_target entries) /\
    Files.successes calls + Files.failures calls
    = Z.of_nat (length (List.filter Files.is_target entries)) /\
    Files.trace w'
    = Files.trace w
      ++ [Files.EvSetType (bs "application/json"); Files.EvJsonCreate true]
      ++ Files.unlink_events calls
      ++ [Files.EvSend
            (Files.delete_all_json (Files.successes calls) (Files.failures calls));
          Files.EvJsonDelete] /\
    Files.out w' = Files.out w.
Proof.
  intros Hcreate Hprint.
  unfold Files.delete_all_handler. rewrite Hcreate.
  set (w1 := Files.log (Files.log w _) _).
  destruct (unlink_entries_calls E entries 0 0 w1) as (calls & H1 & H2 & H3 & H4).
  destruct (Files.unlink_entries E entries 0 0 w1) as [[d f] w2].
  cbn [fst snd] in H1, H3, H4. injection H1 as -> ->.
  unfold Files.send_json_delete_all_response. rewrite Hprint.
  exists calls. eexists. split; [reflexivity|].
  split; [exact H2|]. split.
  - apply (f_equal (@length bytes)) in H2. rewrite !length_map in H2. rewrite <- H2.
    unfold Files.successes, Files.failures.
    clear. induction calls as [|[p []] calls IH]; cbn [List.filter snd negb length];
      [reflexivity | lia | lia].
  - split; [|exact H4].
    unfold Files.log. cbn [Files.trace]. rewrite H3. unfold w1, Files.log.
    cbn [Files.trace]. rewrite <- !app_assoc. reflexivity.
Qed.

Lemma delete_all_unlinks_regular_files_witness :
  exists calls w',
    Files.delete_all_handler example_files_env (Some example_card)
      (example_files_world (<[bs "/sdcard/a.csv" := bs "1"]> ∅)) = (ESP_OK, w') /\
    map fst calls = [bs "/sdcard/a.csv"; bs "/sdcard/b.csv"] /\
    Files.successes calls + Files.failures calls = 2.
Proof.
  destruct (delete_all_unlinks_regular_files example_files_env example_card
              (example_files_world (<[bs "/sdcard/a.csv" := bs "1"]> ∅))
              eq_refl eq_refl) as (calls & w' & H & C & N & _).
  exists calls, w'. split; [exact H|]. split; [exact C | exact N].
Defined.

(** X9.  [delete_all_handler] only removes files, and only at the paths it
    composes for the regular files of the directory other than
    [System Volume Information]: every other file of the store is kept
    with its content, whatever fails; and when the JSON root can be
    created, each such entry that the card lets go is absent afterwards.
    When the directory cannot be opened the store is as it was. *)
Theorem delete_all_keeps_other_files (E : Files.env) (entries : list Listing.dirent)
    (w : Files.world) :
  let w' := snd (Files.delete_all_handler E (Some entries) w) in
  (forall q, Files.files w' !! q = None \/ Files.files w' !! q = Files.files w !! q) /\
  (forall q,
      (forall e, In e entries -> Files.is_target e = true -> Files.entry_path e <> q) ->
      Files.files w' !! q = Files.files w !! q) /\
  (Files.json_create_ok E = true ->
   forall e, In e entries -> Files.is_target e = true ->
             Files.unlink_ok E (Files.entry_path e) = true ->
             Files.files w' !! Files.entry_path e = None) /\
  Files.files (snd (Files.delete_all_handler E None w)) = Files.files w.
Proof.
  intros w'. subst w'. unfold Files.delete_all_handler.
  assert (S : forall root wk,
            Files.files (snd (Files.send_json_delete_all_response E root wk))
            = Files.files wk).
  { intros root wk. unfold Files.send_json_delete_all_response.
    destruct (Files.json_print_ok E); reflexivity. }
  destruct (Files.json_create_ok E).
  - set (w1 := Files.log (Files.log w _) _).
    destruct (unlink_entries_files E entries 0 0 w1) as (A & B & C).
    destruct (Files.unlink_entries E entries 0 0 w1) as [[d f] w2].
    cbn [snd] in A, B, C. rewrite !S.
    split; [exact A|]. split; [exact B|]. split; [intros _; exact C | reflexivity].
  - cbn [snd Files.files Files.log].
    split; [intros q; right; reflexivity|].
    split; [reflexivity|]. split; [discriminate | reflexivity].
Qed.

Lemma delete_all_keeps_other_files_witness :
  Files.files
    (snd (Files.delete_all_handler example_files_env (Some example_card)
            (example_files_world
               (<[bs "/sdcard/a.csv" := bs "1"]> (<[bs "/sdcard/logs/x" := bs "2"]> ∅)))))
  !! bs "/sdcard/logs/x" = Some (bs "2") /\
  Files.files
    (snd (Files.delete_all_handler example_files_env (Some example_card)
            (example_files_world
               (<[bs "/sdcard/a.csv" := bs "1"]> (<[bs "/sdcard/logs/x" := bs "2"]> ∅)))))
  !! bs "/sdcard/a.csv" = None.
Proof.
  destruct (delete_all_keeps_other_files example_files_env example_card
              (example_files_world
                 (<[bs "/sdcard/a.csv" := bs "1"]> (<[bs "/sdcard/logs/x" := bs "2"]> ∅))))
    as (_ & B & C & _).
  split.
  - rewrite B; [vm_compute; reflexivity|].
    intros e [<- | [<- | [<- | [<- | []]]]] T; vm_compute; discriminate.
  - apply (C eq_refl (Listing.mkDirent (bs "a.csv") Listing.DT_REG));
      [left; reflexivity | reflexivity | reflexivity].
Defined.

Section DownloadFacts.
Import Files.

Variable E : env.

Lemma send_chunk_cases (c : conn) (chunk : bytes) :
  (send_ok E (sends c) = true /\
   httpd_resp_send_chunk (send_ok E) c chunk
   = (ESP_OK, mkConn (sent c ++ [chunk]) (S (sends c)))) \/
  (send_ok E (sends c) = false /\
   httpd_resp_send_chunk (send_ok E) c chunk = (ESP_FAIL, mkConn (sent c) (S (sends c)))).
Proof.
  unfold httpd_resp_send_chunk. destruct (send_ok E (sends c)); [left | right];
    split; reflexivity.
Qed.

(** What a run of the read-and-send loop has done when it ends: the chunks
    it has sent are blocks of the file in order, every call but a failing
    last one has succeeded, and nothing but the connection has changed. *)
Lemma send_file_sends_prefix (fuel : nat) :
  forall (rest : bytes) (w : world) (r : esp_err_t) (w' : world),
    send_file E fuel rest w = Some (r, w') ->
    exists chunks tail,
      sent (out w') = sent (out w) ++ chunks /\
      rest = concat chunks ++ tail /\
      Forall (fun c => (0 < length c <= 1024)%nat) chunks /\
      files w' = files w /\ trace w' = trace w /\
      (r = ESP_OK -> sends (out w') = (sends (out w) + length chunks)%nat) /\
      (r = ESP_FAIL ->
       sends (out w') = (sends (out w) + length chunks + 1)%nat /\
       send_ok E (sends (out w) + length chunks) = false) /\
      (r = ESP_OK -> (forall n, fread_ok E n = true) -> tail = []).
Proof.
  induction fuel as [|f IH]; intros rest w r w' H; [discriminate|].
  cbn [send_file] in H. unfold fread in H.
  set (block := if fread_ok E (freads w) then firstn 1024 rest else []) in H.
  assert (Hb : exists tail, rest = block ++ tail /\ (length block <= 1024)%nat).
  { unfold block. destruct (fread_ok E (freads w)).
    - exists (skipn 1024 rest). rewrite firstn_skipn. split; [reflexivity|].
      rewrite length_firstn. lia.
    - exists rest. split; [reflexivity | simpl; lia]. }
  destruct Hb as (tail0 & Hrest & Hlen).
  destruct (0 <? length block)%nat eqn:Hpos.
  - apply Nat.ltb_lt in Hpos. cbn [out] in H.
    destruct (send_chunk_cases (out w) block) as [[Hok Hs] | [Hok Hs]];
      rewrite Hs in H.
    + apply IH in H.
      destruct H as (chunks & tail & S1 & S2 & S3 & S4 & S5 & S6 & S7 & S8).
      cbn [set_out out sent sends files trace] in S1, S4, S5, S6, S7.
      exists (block :: chunks), tail.
      split; [rewrite S1, <- app_assoc; reflexivity|].
      split.
      { cbn [concat]. rewrite <- app_assoc, <- S2.
        rewrite Hrest at 1. rewrite Hrest, skipn_app, Nat.sub_diag.
        rewrite skipn_all. reflexivity. }
      split; [constructor; [lia | exact S3]|].
      split; [exact S4|]. split; [exact S5|].
      cbn [length]. split; [|split].
      * intros Hr. rewrite (S6 Hr). lia.
      * intros Hr. destruct (S7 Hr) as [A B]. split; [lia|].
        replace (sends (out w) + S (length chunks))%nat
          with (S (sends (out w)) + length chunks)%nat by lia. exact B.
      * exact S8.
    + injection H as <- <-. exists [], rest.
      cbn [set_out out sent sends files trace concat app length].
      rewrite app_nil_r, !Nat.add_0_r.
      repeat split; try constructor; try discriminate; try lia. exact Hok.
  - injection H as <- <-. exists [], rest.
    cbn [out sent sends files trace concat app length].
    rewrite app_nil_r, !Nat.add_0_r.
    repeat split; try constructor; try discriminate; try lia.
    intros _ Hread. apply Nat.ltb_ge in Hpos. unfold block in Hpos.
    rewrite Hread in Hpos. rewrite length_firstn in Hpos.
    destruct rest; [reflexivity | cbn [length] in Hpos; lia].
Qed.

(** The loop comes to its end within one pass more than the file has
    bytes. *)
Lemma send_file_total (fuel : nat) :
  forall (rest : bytes) (w : world),
    (length rest < fuel)%nat -> exists r w', send_file E fuel rest w = Some (r, w').
Proof.
  induction fuel as [|f IH]; intros rest w Hf; [lia|].
  cbn [send_file]. unfold fread.
  set (block := if fread_ok E (freads w) then firstn 1024 rest else []).
  destruct (0 <? length block)%nat eqn:Hpos; [|eexists _, _; reflexivity].
  apply Nat.ltb_lt in Hpos.
  destruct (httpd_resp_send_chunk _ _ block) as [[] c];
    [|eexists _, _; reflexivity].
  assert (Hle : (length block <= length rest)%nat).
  { unfold block. destruct (fread_ok E (freads w)); [rewrite length_firstn|simpl]; lia. }
  apply IH. rewrite length_skipn. clearbody block. lia.
Qed.

Lemma blocks_concat (fuel : nat) :
  forall content : bytes,
    (length content <= fuel)%nat ->
    concat (blocks fuel 1024 content) = content /\
    Forall (fun c => (0 < length c <= 1024)%nat) (blocks fuel 1024 content).
Proof.
  induction fuel as [|f IH]; intros content Hf.
  - destruct content; [split; [reflexivity | constructor] | simpl in Hf; lia].
  - cbn [blocks]. destruct content as [|c content]; [split; [reflexivity | constructor]|].
    destruct (IH (skipn 1024 (c :: content))) as [A B].
    { rewrite length_skipn. cbn [length] in Hf |- *. lia. }
    split.
    + cbn [concat]. rewrite A. apply firstn_skipn.
    + constructor; [|exact B]. rewrite length_firstn. cbn [length]. lia.
Qed.

Lemma blocks_fuel (f1 : nat) :
  forall (f2 : nat) (content : bytes),
    (length content <= f1)%nat -> (length content <= f2)%nat ->
    blocks f1 1024 content = blocks f2 1024 content.
Proof.
  induction f1 as [|f1 IH]; intros f2 content H1 H2.
  - destruct content; [destruct f2; reflexivity | simpl in H1; lia].
  - destruct content as [|c content]; [destruct f2; reflexivity|].
    destruct f2 as [|f2]; [simpl in H2; lia|].
    cbn [blocks]. f_equal. apply IH; rewrite length_skipn; cbn [length] in *; lia.
Qed.

Lemma skipn_firstn_length (n : nat) (l : bytes) :
  skipn (length (firstn n l)) l = skipn n l.
Proof.
  rewrite length_firstn. destruct (Nat.le_ge_cases n (length l)) as [H | H].
  - rewrite Nat.min_l by exact H. reflexivity.
  - rewrite Nat.min_r by exact H. rewrite !skipn_all2 by lia. reflexivity.
Qed.

(** With every read and every send succeeding the loop sends the file
    block by block. *)
Lemma send_file_complete (fuel : nat) :
  (forall n, fread_ok E n = true) ->
  (forall n, send_ok E n = true) ->
  forall (rest : bytes) (w : world),
    (length rest < fuel)%nat ->
    exists w',
      send_file E fuel rest w = Some (ESP_OK, w') /\
      sent (out w') = sent (out w) ++ blocks (length rest) 1024 rest /\
      files w' = files w /\ trace w' = trace w.
Proof.
  intros Hread Hsend.
  induction fuel as [|f IH]; intros rest w Hf; [lia|].
  cbn [send_file]. unfold fread. rewrite Hread.
  destruct rest as [|c rest].
  - cbn. eexists. split; [reflexivity|]. rewrite app_nil_r. repeat split.
  - assert (Hpos : (0 <? length (firstn 1024 (c :: rest)))%nat = true).
    { apply Nat.ltb_lt. rewrite length_firstn. simpl. lia. }
    rewrite Hpos. unfold httpd_resp_send_chunk. cbn [out sends]. rewrite Hsend.
    assert (Hl : length (firstn 1024 (c :: rest)) = Nat.min 1024 (length (c :: rest)))
      by apply length_firstn.
    destruct (IH (skipn (length (firstn 1024 (c :: rest))) (c :: rest))
                (set_out
                   {| files := files w; out := out w; mallocs := mallocs w;
                      freads := S (freads w); trace := trace w |}
                   {| sent := sent (out w) ++ [firstn 1024 (c :: rest)];
                      sends := S (sends (out w)) |}))
      as (w' & H1 & H2 & H3 & H4).
    { rewrite length_skipn. simpl in Hf, Hl |- *. lia. }
    exists w'. split; [exact H1|].
    cbn [set_out out sent files trace] in H2, H3, H4.
    split; [|split; assumption].
    rewrite H2, <- app_assoc. f_equal.
    change (length (c :: rest)) with (S (length rest)). cbn [blocks app].
    f_equal. rewrite skipn_firstn_length.
    apply blocks_fuel; rewrite ?length_skipn; cbn [length]; lia.
Qed.

(** The handler up to the loop, for a request that names a file that is
    there and can be opened. *)
Lemma download_handler_opens (req : request) (w : world) (v name content : bytes) :
  let path := Path.build_filepath Path.FILE_PATH_MAX Path.MOUNT_POINT (Some name) in
  let w4 :=
    mkWorld (files w) (out w) (S (mallocs w)) (freads w)
      (trace w ++ [EvMalloc (Listing.sz (url_query_len req + 1)) true; EvFree;
                   EvFopen path (bs "rb") true;
                   EvSetHdr (bs "Content-Disposition") (content_disposition name)]) in
  1 < Listing.sz (url_query_len req + 1) ->
  malloc_ok E (mallocs w) (Listing.sz (url_query_len req + 1)) = true ->
  url_query_str_ok req = true ->
  file_value req = Some v ->
  Decode.url_decode (Some v) 129 = (ESP_OK, name) ->
  files w !! path = Some content ->
  fopen_ok E path = true ->
  download_handler E req w =
  match send_file E (S (length content)) content w4 with
  | None => None
  | Some (ESP_FAIL, w5) => Some (ESP_FAIL, log w5 (EvFclose path))
  | Some (ESP_OK, w5) =>
      match httpd_resp_send_chunk (send_ok E) (out w5) [] with
      | (r, c) => Some (r, log (set_out w5 c) (EvFclose path))
      end
  end.
Proof.
  intros path w4 Hq Hm Hqs Hv Hd Hf Ho.
  unfold download_handler.
  destruct (Listing.sz (url_query_len req + 1) <=? 1) eqn:Q;
    [apply Z.leb_le in Q; lia|].
  unfold malloc. rewrite Hm, Hqs, Hv, Hd. fold path.
  cbn [log files out mallocs freads trace].
  match goal with |- context [files w !! ?p] =>
    replace (files w !! p) with (Some content) by (symmetry; exact Hf) end.
  rewrite Ho. unfold w4, log. cbn [files out mallocs freads trace].
  rewrite <- !app_assoc. reflexivity.
Qed.

End DownloadFacts.

(** X10.  A download whose reads and sends all succeed sends the file and
    nothing else: for a request that names a file that is there, the
    chunks sent are the content cut into blocks of 1024 bytes (the last one
    shorter), in order, followed by the empty chunk that closes the
    response; the Content-Disposition header carries the decoded name, the
    file is closed, and the store is not changed. *)
Theorem download_sends_the_file (E : Files.env) (req : Files.request) (w : Files.world)
    (v name content : bytes) :
  let path := Path.build_filepath Path.FILE_PATH_MAX Path.MOUNT_POINT (Some name) in
  let sent_blocks := Files.blocks (length content) 1024 content in
  1 < Listing.sz (Files.url_query_len req + 1) ->
  Files.malloc_ok E (Files.mallocs w) (Listing.sz (Files.url_query_len req + 1)) = true ->
  Files.url_query_str_ok req = true ->
  Files.file_value req = Some v ->
  Decode.url_decode (Some v) 129 = (ESP_OK, name) ->
  Files.files w !! path = Some content ->
  Files.fopen_ok E path = true ->
  (forall n, Files.fread_ok E n = true) ->
  (forall n, Files.send_ok E n = true) ->
  exists w',
    Files.download_handler E req w = Some (ESP_OK, w') /\
    sent (Files.out w') = sent (Files.out w) ++ sent_blocks ++ [[]] /\
    concat sent_blocks = content /\
    Forall (fun c => (0 < length c <= 1024)%nat) sent_blocks /\
    Files.trace w'
    = Files.trace w
      ++ [Files.EvMalloc (Listing.sz (Files.url_query_len req + 1)) true; Files.EvFree;
          Files.EvFopen path (bs "rb") true;
          Files.EvSetHdr (bs "Content-Disposition") (Files.content_disposition name);
          Files.EvFclose path] /\
    Files.files w' = Files.files w.
Proof.
  intros path sent_blocks Hq Hm Hqs Hv Hd Hf Ho Hread Hsend.
  rewrite (download_handler_opens E req w v name content Hq Hm Hqs Hv Hd Hf Ho).
  fold path.
  match goal with |- context [Files.send_file E _ content ?w4] =>
    destruct (send_file_complete E (S (length content)) Hread Hsend content w4
                ltac:(lia)) as (w5 & H1 & H2 & H3 & H4) end.
  rewrite H1. unfold httpd_resp_send_chunk. rewrite Hsend.
  cbn [Files.out Files.files Files.trace] in H2, H3, H4.
  eexists. split; [reflexivity|].
  cbn [Files.log Files.set_out Files.out Files.files Files.trace sent].
  destruct (blocks_concat (length content) content (Nat.le_refl _)) as [C F].
  split; [rewrite H2, <- app_assoc; reflexivity|].
  split; [exact C|]. split; [exact F|].
  split; [rewrite H4, <- app_assoc; reflexivity | exact H3].
Qed.

(** X11.  A download never sends anything that is not in the file, and it
    stops at the first send that fails.  For a request that names a file
    that is there, whatever reads and sends fail, the handler returns, the
    store is not changed, and the chunks sent are blocks of at most 1024
    bytes whose concatenation is a prefix of the content.  When it returns
    ESP_OK every send has succeeded and the response has been closed by the
    empty chunk, and if no read has failed the whole content has been
    sent; when it returns ESP_FAIL the last send call is the one that
    failed and no call was made after it. *)
Theorem download_sends_a_prefix (E : Files.env) (req : Files.request) (w : Files.world)
    (v name content : bytes) :
  let path := Path.build_filepath Path.FILE_PATH_MAX Path.MOUNT_POINT (Some name) in
  1 < Listing.sz (Files.url_query_len req + 1) ->
  Files.malloc_ok E (Files.mallocs w) (Listing.sz (Files.url_query_len req + 1)) = true ->
  Files.url_query_str_ok req = true ->
  Files.file_value req = Some v ->
  Decode.url_decode (Some v) 129 = (ESP_OK, name) ->
  Files.files w !! path = Some content ->
  Files.fopen_ok E path = true ->
  exists r w' chunks tail,
    Files.download_handler E req w = Some (r, w') /\
    content = concat chunks ++ tail /\
    Forall (fun c => (0 < length c <= 1024)%nat) chunks /\
    Files.files w' = Files.files w /\
    sends (Files.out w') = (sends (Files.out w) + length chunks + 1)%nat /\
    match r with
    | ESP_OK =>
        sent (Files.out w') = sent (Files.out w) ++ chunks ++ [[]] /\
        ((forall n, Files.fread_ok E n = true) -> tail = [])
    | ESP_FAIL =>
        sent (Files.out w') = sent (Files.out w) ++ chunks /\
        Files.send_ok E (sends (Files.out w) + length chunks) = false
    end.
Proof.
  intros path Hq Hm Hqs Hv Hd Hf Ho.
  rewrite (download_handler_opens E req w v name content Hq Hm Hqs Hv Hd Hf Ho).
  fold path.
  match goal with |- context [Files.send_file E _ content ?w4] =>
    destruct (send_file_total E (S (length content)) content w4 ltac:(lia))
      as (r & w5 & H);
    destruct (send_file_sends_prefix E _ _ _ _ _ H)
      as (chunks & tail & S1 & S2 & S3 & S4 & S5 & S6 & S7 & S8)
  end.
  rewrite H. cbn [Files.out Files.files Files.trace] in S1, S4, S6, S7.
  destruct r.
  - specialize (S6 eq_refl).
    destruct (send_chunk_cases E (Files.out w5) []) as [[Hok Hs] | [Hok Hs]];
      rewrite Hs.
    + exists ESP_OK. eexists. exists chunks, tail. split; [reflexivity|].
      cbn [Files.log Files.set_out Files.out Files.files sent sends].
      split; [exact S2|]. split; [exact S3|]. split; [exact S4|].
      split; [unfold bytes in *; lia|]. split; [rewrite S1, <- app_assoc; reflexivity|].
      intros Hread. apply S8; [reflexivity | exact Hread].
    + exists ESP_FAIL. eexists. exists chunks, tail. split; [reflexivity|].
      cbn [Files.log Files.set_out Files.out Files.files sent sends].
      split; [exact S2|]. split; [exact S3|]. split; [exact S4|].
      split; [unfold bytes in *; lia|]. split; [exact S1|]. unfold bytes in *. rewrite <- S6. exact Hok.
  - destruct (S7 eq_refl) as [A B].
    exists ESP_FAIL. eexists. exists chunks, tail. split; [reflexivity|].
    cbn [Files.log Files.out Files.files].
    split; [exact S2|]. split; [exact S3|]. split; [exact S4|].
    split; [exact A|]. split; [exact S1 | exact B].
Qed.

Lemma download_sends_the_file_witness :
  exists w',
    Files.download_handler example_files_env example_download_request
      (example_files_world (<[bs "/sdcard/a.csv" := example_long_content]> ∅))
    = Some (ESP_OK, w') /\
    sent (Files.out w')
    = [firstn 1024 example_long_content; skipn 1024 example_long_content; []].
Proof.
  destruct (download_sends_the_file example_files_env example_download_request
              (example_files_world (<[bs "/sdcard/a.csv" := example_long_content]> ∅))
              (bs "a.csv") (bs "a.csv") example_long_content)
    as (w' & H & S & _).
  - reflexivity.
  - reflexivity.
  - reflexivity.
  - reflexivity.
  - reflexivity.
  - apply lookup_insert_eq.
  - reflexivity.
  - intros n. reflexivity.
  - intros n. reflexivity.
  - exists w'. split; [exact H|]. rewrite S. reflexivity.
Defined.

Lemma download_sends_a_prefix_witness :
  exists r w' chunks tail,
    Files.download_handler example_files_env_drop example_download_request
      (example_files_world (<[bs "/sdcard/a.csv" := example_long_content]> ∅))
    = Some (r, w') /\
    example_long_content = concat chunks ++ tail /\
    sends (Files.out w') = (0 + length chunks + 1)%nat.
Proof.
  destruct (download_sends_a_prefix example_files_env_drop example_download_request
              (example_files_world (<[bs "/sdcard/a.csv" := example_long_content]> ∅))
              (bs "a.csv") (bs "a.csv") example_long_content)
    as (r & w' & chunks & tail & H & C & _ & _ & N & _).
  - reflexivity.
  - reflexivity.
  - reflexivity.
  - reflexivity.
  - reflexivity.
  - apply lookup_insert_eq.
  - reflexivity.
  - exists r, w', chunks, tail. split; [exact H|]. split; [exact C | exact N].
Defined.

(** ** Responses stop at the first send that fails *)

Section SendOrder.

Variable send_ok : nat -> bool.

Local Abbreviation in_order := (sends_in_order send_ok).

Lemma in_order_refl (c : conn) : in_order c c ESP_OK [].
Proof.
  unfold sends_in_order. cbn [length]. rewrite app_nil_r, Nat.add_0_r.
  split; [reflexivity|]. split; [intros n Hn; lia | reflexivity].
Qed.

Lemma in_order_trans (c c1 c2 : conn) (r : esp_err_t) (n1 n2 : list bytes) :
  in_order c c1 ESP_OK n1 -> in_order c1 c2 r n2 -> in_order c c2 r (n1 ++ n2).
Proof.
  intros (S1 & A1 & E1) (S2 & A2 & E2). unfold sends_in_order.
  rewrite length_app. split; [rewrite S2, S1, app_assoc; reflexivity|].
  split.
  - intros n Hn. destruct (Nat.lt_ge_cases n (sends c + length n1)) as [L | G].
    + apply A1. lia.
    + apply A2. lia.
  - destruct r.
    + lia.
    + destruct E2 as [E2 F2]. split; [lia|].
      replace (sends c + (length n1 + length n2))%nat
        with (sends c1 + length n2)%nat by lia. exact F2.
Qed.

Lemma in_order_send_chunk (c : conn) (chunk : bytes) :
  match httpd_resp_send_chunk send_ok c chunk with
  | (ESP_OK, c') => in_order c c' ESP_OK [chunk]
  | (ESP_FAIL, c') => in_order c c' ESP_FAIL []
  end.
Proof.
  unfold httpd_resp_send_chunk, sends_in_order.
  destruct (send_ok (sends c)) eqn:S; cbn [sent sends length].
  - split; [reflexivity|]. split; [|lia].
    intros n Hn. replace n with (sends c) by lia. exact S.
  - rewrite app_nil_r, Nat.add_0_r. split; [reflexivity|].
    split; [intros n Hn; lia|]. split; [lia | exact S].
Qed.

Lemma in_order_template_chunk (c : conn) (chunk : bytes) :
  exists new,
    in_order c (snd (httpd_send_template_chunk send_ok c chunk))
             (fst (httpd_send_template_chunk send_ok c chunk)) new /\
    Forall (fun ch => ch <> []) new.
Proof.
  unfold httpd_send_template_chunk.
  destruct (0 <? length chunk)%nat eqn:L.
  - apply Nat.ltb_lt in L.
    pose proof (in_order_send_chunk c chunk) as H.
    destruct (httpd_resp_send_chunk send_ok c chunk) as [[] c'].
    + exists [chunk]. split; [exact H|]. constructor; [|constructor].
      intros ->. simpl in L. lia.
    + exists []. split; [exact H | constructor].
  - exists []. split; [apply in_order_refl | constructor].
Qed.

Lemma in_order_placeholder_loop (tpl : bytes) (pvs : list (bytes * bytes)) :
  forall (template_ptr : nat) (c : conn),
  exists new,
    in_order c (snd (placeholder_loop send_ok tpl pvs template_ptr c))
             (match fst (placeholder_loop send_ok tpl pvs template_ptr c) with
              | Some _ => ESP_OK | None => ESP_FAIL end) new /\
    Forall (fun ch => ch <> []) new.
Proof.
  induction pvs as [|[placeholder value] rest IH]; intros template_ptr c.
  - exists []. split; [apply in_order_refl | constructor].
  - cbn [placeholder_loop].
    destruct (strstr tpl template_ptr placeholder) as [found_at|]; [|apply IH].
    destruct (found_at <? length tpl)%nat; [|apply IH].
    destruct (in_order_template_chunk c (slice tpl template_ptr found_at))
      as (n1 & H1 & F1).
    destruct (httpd_send_template_chunk send_ok c (slice tpl template_ptr found_at))
      as [[] c1]; cbn [fst snd] in H1.
    + destruct (in_order_template_chunk c1 (cstr value)) as (n2 & H2 & F2).
      destruct (httpd_send_template_chunk send_ok c1 (cstr value)) as [[] c2];
        cbn [fst snd] in H2.
      * destruct (IH (found_at + length placeholder)%nat c2) as (n3 & H3 & F3).
        exists (n1 ++ n2 ++ n3). split.
        -- eapply in_order_trans; [exact H1|].
           eapply in_order_trans; [exact H2 | exact H3].
        -- rewrite !Forall_app. repeat split; assumption.
      * exists (n1 ++ n2). cbn [fst snd]. split.
        -- eapply in_order_trans; [exact H1 | exact H2].
        -- rewrite Forall_app. split; assumption.
    + exists n1. cbn [fst snd]. split; assumption.
Qed.

Lemma in_order_send_tail (tpl : bytes) (template_ptr : nat) (c : conn) :
  exists new,
    in_order c (snd (send_tail send_ok tpl template_ptr c))
             (fst (send_tail send_ok tpl template_ptr c)) new /\
    closed_iff_ok (fst (send_tail send_ok tpl template_ptr c)) new.
Proof.
  unfold send_tail.
  assert (H : exists n1,
             in_order c
               (snd (if (template_ptr <? length tpl)%nat
                     then httpd_send_template_chunk send_ok c
                            (slice tpl template_ptr (length tpl))
                     else (ESP_OK, c)))
               (fst (if (template_ptr <? length tpl)%nat
                     then httpd_send_template_chunk send_ok c
                            (slice tpl template_ptr (length tpl))
                     else (ESP_OK, c))) n1 /\
             Forall (fun ch => ch <> []) n1).
  { destruct (template_ptr <? length tpl)%nat; [apply in_order_template_chunk|].
    exists []. split; [apply in_order_refl | constructor]. }
  destruct H as (n1 & H1 & F1).
  destruct (if (template_ptr <? length tpl)%nat
            then httpd_send_template_chunk send_ok c (slice tpl template_ptr (length tpl))
            else (ESP_OK, c)) as [[] c1]; cbn [fst snd] in H1.
  - pose proof (in_order_send_chunk c1 []) as H2.
    destruct (httpd_resp_send_chunk send_ok c1 []) as [[] c2]; cbn [fst snd].
    + exists (n1 ++ [[]]). split; [eapply in_order_trans; eassumption|].
      exists n1. split; [reflexivity | exact F1].
    + exists (n1 ++ []). split; [eapply in_order_trans; eassumption|].
      cbn [closed_iff_ok]. rewrite app_nil_r. exact F1.
  - exists n1. cbn [fst snd]. split; [exact H1 | exact F1].
Qed.

Lemma closed_iff_ok_app (r : esp_err_t) (n1 n2 : list bytes) :
  Forall (fun ch => ch <> []) n1 -> closed_iff_ok r n2 -> closed_iff_ok r (n1 ++ n2).
Proof.
  intros F1 H. destruct r; cbn [closed_iff_ok] in *.
  - destruct H as (body & -> & F2). exists (n1 ++ body).
    rewrite app_assoc, Forall_app. repeat split; assumption.
  - rewrite Forall_app. split; assumption.
Qed.

Lemma in_order_send_message_response (message_html title message_class message_text : bytes)
    (c : conn) :
  exists new,
    in_order c
      (snd (send_message_response send_ok message_html title message_class message_text c))
      (fst (send_message_response send_ok message_html title message_class message_text c))
      new /\
    closed_iff_ok
      (fst (send_message_response send_ok message_html title message_class message_text c))
      new.
Proof.
  unfold send_message_response.
  match goal with |- context [placeholder_loop send_ok ?tpl ?pvs 0%nat c] =>
    destruct (in_order_placeholder_loop tpl pvs 0%nat c) as (n1 & H1 & F1);
    destruct (placeholder_loop send_ok tpl pvs 0%nat c) as [[template_ptr|] c1] end;
    cbn [fst snd] in H1.
  - match goal with |- context [send_tail send_ok ?tpl template_ptr c1] =>
      destruct (in_order_send_tail tpl template_ptr c1) as (n2 & H2 & F2) end.
    exists (n1 ++ n2). split; [eapply in_order_trans; eassumption|].
    apply closed_iff_ok_app; assumption.
  - exists n1. cbn [fst snd closed_iff_ok]. split; assumption.
Qed.

Lemma in_order_send_list (list_html : bytes) (st : Listing.list_state) (c : conn) :
  exists new,
    in_order c (snd (Listing.send_list send_ok list_html st c))
             (fst (Listing.send_list send_ok list_html st c)) new /\
    closed_iff_ok (fst (Listing.send_list send_ok list_html st c)) new.
Proof.
  unfold Listing.send_list.
  set (tpl := embed_txtfile list_html).
  assert (H : exists n1,
             in_order c
               (snd (match strstr tpl 0 Listing.FILE_LIST_ROWS with
                     | Some found_at =>
                         if (found_at <? length tpl)%nat then
                           match httpd_send_template_chunk send_ok c (slice tpl 0 found_at) with
                           | (ESP_FAIL, c1) => (None, c1)
                           | (ESP_OK, c1) =>
                               match httpd_send_template_chunk send_ok c1 (Listing.rows st) with
                               | (ESP_FAIL, c2) => (None, c2)
                               | (ESP_OK, c2) =>
                                   (Some (found_at + length Listing.FILE_LIST_ROWS)%nat, c2)
                               end
                           end
                         else (Some 0%nat, c)
                     | None => (Some 0%nat, c)
                     end))
               (match fst (match strstr tpl 0 Listing.FILE_LIST_ROWS with
                     | Some found_at =>
                         if (found_at <? length tpl)%nat then
                           match httpd_send_template_chunk send_ok c (slice tpl 0 found_at) with
                           | (ESP_FAIL, c1) => (None, c1)
                           | (ESP_OK, c1) =>
                               match httpd_send_template_chunk send_ok c1 (Listing.rows st) with
                               | (ESP_FAIL, c2) => (None, c2)
                               | (ESP_OK, c2) =>
                                   (Some (found_at + length Listing.FILE_LIST_ROWS)%nat, c2)
                               end
                           end
                         else (Some 0%nat, c)
                     | None => (Some 0%nat, c)
                     end) with Some _ => ESP_OK | None => ESP_FAIL end) n1 /\
             Forall (fun ch => ch <> []) n1).
  { destruct (strstr tpl 0 Listing.FILE_LIST_ROWS) as [found_at|];
      [|exists []; split; [apply in_order_refl | constructor]].
    destruct (found_at <? length tpl)%nat;
      [|exists []; split; [apply in_order_refl | constructor]].
    destruct (in_order_template_chunk c (slice tpl 0 found_at)) as (n1 & H1 & F1).
    destruct (httpd_send_template_chunk send_ok c (slice tpl 0 found_at)) as [[] c1];
      cbn [fst snd] in H1; [|exists n1; split; assumption].
    destruct (in_order_template_chunk c1 (Listing.rows st)) as (n2 & H2 & F2).
    destruct (httpd_send_template_chunk send_ok c1 (Listing.rows st)) as [[] c2];
      cbn [fst snd] in H2; exists (n1 ++ n2);
      (split; [eapply in_order_trans; eassumption | rewrite Forall_app; split; assumption]). }
  destruct H as (n1 & H1 & F1).
  match type of H1 with context [snd ?m] => destruct m as [[template_start_ptr|] c1] end;
    cbn [fst snd] in H1.
  - destruct (in_order_send_tail tpl template_start_ptr c1) as (n2 & H2 & F2).
    exists (n1 ++ n2). split; [eapply in_order_trans; eassumption|].
    apply closed_iff_ok_app; assumption.
  - exists n1. cbn [fst snd closed_iff_ok]. split; assumption.
Qed.

End SendOrder.

(** X12.  The chunked pages stop at the first send that fails.  For every
    template, every text and every behaviour of the peer, what
    [send_message_response] and [list_get_handler] put on the connection
    is a run of chunks, one for each send that succeeded; when the result
    is ESP_OK every send has succeeded and the response has been closed by
    the empty chunk, which is its only empty chunk; when the result is
    ESP_FAIL the last send call is the one that failed, no call has been
    made after it, and the response has not been closed. *)
Theorem pages_stop_at_first_failed_send (send_ok : nat -> bool)
    (message_html list_html title message_class message_text : bytes)
    (d_name_size : Z) (realloc_ok : nat -> Z -> bool)
    (dir : option (list Listing.dirent)) (malloc_ok : bool) (c : conn) :
  (exists new,
     sends_in_order send_ok c
       (snd (send_message_response send_ok message_html title message_class
               message_text c))
       (fst (send_message_response send_ok message_html title message_class
               message_text c)) new /\
     closed_iff_ok
       (fst (send_message_response send_ok message_html title message_class
               message_text c)) new) /\
  (exists new,
     sends_in_order send_ok c
       (snd (Listing.list_get_handler d_name_size realloc_ok send_ok dir malloc_ok
               message_html list_html c))
       (fst (Listing.list_get_handler d_name_size realloc_ok send_ok dir malloc_ok
               message_html list_html c)) new /\
     closed_iff_ok
       (fst (Listing.list_get_handler d_name_size realloc_ok send_ok dir malloc_ok
               message_html list_html c)) new).
Proof.
  split; [apply in_order_send_message_response|].
  unfold Listing.list_get_handler.
  destruct dir as [entries|]; [|apply in_order_send_message_response].
  destruct malloc_ok; [apply in_order_send_list | apply in_order_send_message_response].
Qed.

(** ** The upload handler: what a run may change, and its one reply *)

Section UploadEffects.
Import Upload.
Import Outcome.

Variable E : env.
Variable req : request.
Variable boundary : bytes.

Lemma changes_only_refl (D : option bytes) (w : world) : changes_only D w w.
Proof.
  split; [reflexivity|]. split; [reflexivity|].
  exists []. rewrite app_nil_r. split; [reflexivity | constructor].
Qed.

Lemma changes_only_trans (D : option bytes) (w w1 w2 : world) :
  changes_only D w w1 -> changes_only D w1 w2 -> changes_only D w w2.
Proof.
  intros (T1 & F1 & e1 & Tr1 & Q1) (T2 & F2 & e2 & Tr2 & Q2).
  split; [congruence|]. split.
  - intros q Hq. rewrite F2, F1 by exact Hq. reflexivity.
  - exists (e1 ++ e2). rewrite Tr2, Tr1, app_assoc. split; [reflexivity|].
    apply Forall_app. split; assumption.
Qed.

(** A step that leaves the files alone. *)
Lemma changes_only_log (D : option bytes) (w : world) (tr : list incoming)
    (st : bytes) (k : nat) (evs : list event) :
  Forall (fun e => is_send e = false) evs ->
  changes_only D w (mkWorld (files w) tr st (resp_type w) k (trace w ++ evs)).
Proof.
  intros Q. split; [reflexivity|]. split; [reflexivity|].
  exists evs. split; [reflexivity | exact Q].
Qed.

Lemma recv_not_send (evs : list event) :
  Forall (fun e => is_recv e = true) evs -> Forall (fun e => is_send e = false) evs.
Proof.
  intros H. eapply Forall_impl; [exact H|]. intros [] He; try discriminate; reflexivity.
Qed.

Lemma malloc_not_send (evs : list event) :
  Forall (fun e => is_malloc e = true) evs -> Forall (fun e => is_send e = false) evs.
Proof.
  intros H. eapply Forall_impl; [exact H|]. intros [] He; try discriminate; reflexivity.
Qed.

Lemma write_if_any_changes (w : world) (path data : bytes) :
  changes_only (Some path) w (write_if_any w path data) /\
  resp_status (write_if_any w path data) = resp_status w.
Proof.
  unfold write_if_any. destruct (0 <? length data)%nat;
    [|split; [apply changes_only_refl | reflexivity]].
  unfold fwrite. split; [|reflexivity].
  split; [reflexivity|]. split.
  - intros q Hq. cbn [files]. apply lookup_insert_ne. congruence.
  - exists [EvFwrite path data]. split; [reflexivity | repeat constructor].
Qed.

Lemma write_payload_changes (l : locals) (w : world) (path buf : bytes) (start : nat) :
  changes_only (Some path) w (snd (fst (write_payload boundary l w path buf start))) /\
  resp_status (snd (fst (write_payload boundary l w path buf start))) = resp_status w /\
  fd (fst (fst (write_payload boundary l w path buf start))) = fd l /\
  filename (fst (fst (write_payload boundary l w path buf start))) = filename l /\
  root_json (fst (fst (write_payload boundary l w path buf start))) = root_json l.
Proof.
  unfold write_payload. destruct (strstr buf start boundary); cbn [fst snd];
    (split; [apply write_if_any_changes|]; split; [apply write_if_any_changes|]);
    repeat split.
Qed.

Lemma discard_payload_keeps (l : locals) (buf : bytes) (start : nat) :
  fd (fst (discard_payload boundary l buf start)) = fd l /\
  filename (fst (discard_payload boundary l buf start)) = filename l /\
  root_json (fst (discard_payload boundary l buf start)) = root_json l.
Proof.
  unfold discard_payload. destruct (strstr buf start boundary); repeat split.
Qed.

(** The first pass: the name, the conflict check and the opening of the
    sink. *)
Lemma open_sink_effects (l : locals) (w : world) (buf : bytes) :
  filename l = None -> fd l = None -> root_json l = None ->
  match open_sink E req l w buf with
  | Continue l1 w1 =>
      root_json l1 = None /\ filename l1 <> None /\ fd l1 = dest l buf /\
      resp_status w1 = resp_status w /\ changes_only (dest l buf) w w1
  | Cleanup l1 w1 =>
      fd l1 = None /\ changes_only None w w1 /\ prepared (resp_status w) l1 w1
  | Unfinished => False
  end.
Proof.
  intros Hfn Hfd Hroot. unfold dest. rewrite Hfd, Hfn.
  unfold open_sink. destruct (extract_filename buf) as [name|msg].
  2:{ split; [exact Hfd|]. split; [apply changes_only_refl|].
      left. split; [reflexivity | eexists; reflexivity]. }
  unfold malloc at 1. destruct (malloc_ok E (mallocs w) (blen name + 1)).
  2:{ split; [exact Hfd|]. split; [apply changes_only_log; repeat constructor|].
      left. split; [reflexivity | eexists; reflexivity]. }
  set (w1 := mkWorld _ _ _ _ _ _).
  assert (C1 : changes_only None w w1) by (apply changes_only_log; repeat constructor).
  destruct (should_overwrite_frame E req w1) as (k & qev & Hw2 & Hq).
  destruct (should_overwrite E req w1) as [ov w2]. cbn [snd] in Hw2.
  assert (C2 : changes_only None w1 w2).
  { rewrite Hw2. apply changes_only_log, malloc_not_send, Hq. }
  assert (S2 : resp_status w2 = resp_status w) by (rewrite Hw2; reflexivity).
  unfold stat.
  set (found := match files w2 !! _ with Some _ => true | None => false end).
  set (w3 := log w2 _).
  assert (C3 : changes_only None w2 w3).
  { unfold w3, log. destruct w2. apply changes_only_log. repeat constructor. }
  assert (S3 : resp_status w3 = resp_status w) by exact S2.
  pose proof (changes_only_trans None _ _ _ C1 (changes_only_trans None _ _ _ C2 C3)) as C.
  clearbody w3 found. clear C1 C2 C3 Hw2 S2.
  destruct (found && negb ov).
  - match goal with |- context [drain ?f ?r ?w0] =>
      destruct (drain_total f r w0 ltac:(lia)) as (r' & tr' & evs & D & Hev);
      rewrite D end.
    cbn [fd httpd_resp_set_status files transport resp_status resp_type mallocs trace].
    split; [exact Hfd|]. split.
    + eapply changes_only_trans; [exact C|].
      destruct w3. unfold httpd_resp_set_status.
      cbn [files transport resp_status resp_type mallocs trace].
      apply changes_only_log, recv_not_send, Hev.
    + right. split; [reflexivity | eexists; reflexivity].
  - unfold fopen_wb. fold (sink_path name). destruct (fopen_ok E (sink_path name)).
    + cbn [root_json filename fd]. split; [exact Hroot|]. split; [discriminate|].
      split; [reflexivity|]. split; [exact S3|].
      destruct C as (T & F & evs & Tr & Q).
      split; [exact T|]. split.
      * intros q Hne. cbn [files]. rewrite lookup_insert_ne by congruence.
        apply F. discriminate.
      * exists (evs ++ [EvFopen (sink_path name) (bs "wb") true]).
        cbn [trace]. rewrite Tr, app_assoc. split; [reflexivity|].
        apply Forall_app. split; [exact Q | repeat constructor].
    + cbn [fd set_root_json]. split; [exact Hfd|]. split.
      * eapply changes_only_trans; [exact C|].
        unfold log. destruct w3. apply changes_only_log. repeat constructor.
      * left. split; [exact S3 | eexists; reflexivity].
Qed.

Lemma changes_only_None (D : option bytes) (w w1 : world) :
  changes_only None w w1 -> changes_only D w w1.
Proof.
  intros (T & F & evs). split; [exact T|]. split; [|exact evs].
  intros q _. apply F. discriminate.
Qed.

(** One pass of the loop on a chunk that has been read. *)
Lemma process_chunk_effects (l : locals) (w : world) (buf : bytes) :
  root_json l = None ->
  (filename l = None -> fd l = None /\ file_data_started l = false) ->
  match process_chunk E req boundary l w buf with
  | (Continue l1 w1, _) =>
      root_json l1 = None /\ filename l1 <> None /\ fd l1 = dest l buf /\
      resp_status w1 = resp_status w /\ changes_only (dest l buf) w w1
  | (Cleanup l1 w1, _) =>
      (fd l1 = None \/ fd l1 = dest l buf) /\
      changes_only (dest l buf) w w1 /\ prepared (resp_status w) l1 w1
  | (Unfinished, _) => False
  end.
Proof.
  intros Hroot Hfd. unfold process_chunk.
  destruct (negb (file_data_started l)) eqn:Hstart.
  - assert (P : match parse_headers E req l w buf with
                | Continue l1 w1 =>
                    root_json l1 = None /\ filename l1 <> None /\ fd l1 = dest l buf /\
                    resp_status w1 = resp_status w /\ changes_only (dest l buf) w w1
                | Cleanup l1 w1 =>
                    fd l1 = None /\ changes_only None w w1 /\
                    prepared (resp_status w) l1 w1
                | Unfinished => False
                end).
    { unfold parse_headers. destruct (filename l) as [name|] eqn:Hn.
      - split; [exact Hroot|]. split; [congruence|].
        split; [unfold dest; rewrite Hn; destruct (fd l); reflexivity|].
        split; [reflexivity | apply changes_only_refl].
      - apply open_sink_effects; [exact Hn | apply Hfd; reflexivity | exact Hroot]. }
    destruct (parse_headers E req l w buf) as [l1 w1|l1 w1|]; [| |exact P].
    2:{ destruct P as (A & B & C). split; [left; exact A|].
        split; [apply changes_only_None; exact B | exact C]. }
    destruct P as (R1 & N1 & F1 & S1 & C1).
    unfold find_payload. destruct (strstr buf 0 CRLFCRLF) as [sep|].
    2:{ split; [exact R1|]. split; [exact N1|]. split; [exact F1|].
        split; [exact S1 | exact C1]. }
    destruct (fd l1) as [path|] eqn:Hfd1.
    + destruct (filename l1) as [name|] eqn:Hn1; [|congruence].
      destruct (write_payload_changes l1 w1 path buf (sep + 4))
        as (C2 & S2 & F2 & N2 & R2).
      destruct (write_payload boundary l1 w1 path buf (sep + 4)) as [[l2 w2] found].
      cbn [fst snd] in C2, S2, F2, N2, R2.
      cbn [root_json filename fd set_started].
      split; [congruence|]. split; [congruence|]. split; [congruence|].
      split; [congruence|].
      eapply changes_only_trans; [exact C1|]. rewrite <- F1. exact C2.
    + destruct (filename l1) as [name|] eqn:Hn1; [|congruence].
      destruct (discard_payload_keeps l1 buf (sep + 4)) as (F2 & N2 & R2).
      destruct (discard_payload boundary l1 buf (sep + 4)) as [l2 found].
      cbn [fst] in F2, N2, R2. cbn [root_json filename fd set_started].
      split; [congruence|]. split; [congruence|]. split; [congruence|].
      split; [exact S1 | exact C1].
  - destruct (filename l) as [name|] eqn:Hn.
    2:{ destruct (Hfd eq_refl) as [_ Hs]. rewrite Hs in Hstart. discriminate. }
    assert (Hd : dest l buf = fd l) by (unfold dest; rewrite Hn; destruct (fd l); reflexivity).
    rewrite Hd. unfold stream_payload. destruct (fd l) as [path|] eqn:Hfd0.
    + destruct (write_payload_changes l w path buf 0) as (C2 & S2 & F2 & N2 & R2).
      destruct (write_payload boundary l w path buf 0) as [[l2 w2] found].
      cbn [fst snd] in C2, S2, F2, N2, R2.
      split; [congruence|]. split; [congruence|]. split; [congruence|].
      split; [exact S2 | exact C2].
    + destruct (discard_payload_keeps l buf 0) as (F2 & N2 & R2).
      destruct (discard_payload boundary l buf 0) as [l2 found].
      cbn [fst] in F2, N2, R2.
      split; [congruence|]. split; [congruence|]. split; [congruence|].
      split; [reflexivity | apply changes_only_refl].
Qed.

Lemma dest_named (l : locals) (buf : bytes) : filename l <> None -> dest l buf = fd l.
Proof.
  intros Hn. unfold dest. destruct (fd l); [reflexivity|].
  destruct (filename l); [reflexivity | congruence].
Qed.

(** The two labels at the end of the handler send the one reply. *)
Lemma cleanup_reply (status0 : bytes) (l : locals) (w : world) :
  resp_type w = bs "application/json" ->
  match root_json l with
  | None => resp_status w = status0
  | Some _ => prepared status0 l w
  end ->
  files (snd (cleanup_and_send_json E l w)) = files w /\
  exists pre reply,
    trace (snd (cleanup_and_send_json E l w)) = trace w ++ pre ++ [reply] /\
    Forall (fun e => is_send e = false) pre /\
    reply_shape E status0 reply.
Proof.
  intros Ht Hp.
  unfold cleanup_and_send_json, send_json_upload_response.
  set (w1 := match fd l with Some path => log w (EvFclose path) | None => w end).
  assert (H1 : exists pre, trace w1 = trace w ++ pre /\
                           Forall (fun e => is_send e = false) pre /\
                           files w1 = files w /\ resp_status w1 = resp_status w /\
                           resp_type w1 = resp_type w).
  { unfold w1. destruct (fd l) as [path|].
    - exists [EvFclose path]. repeat split. repeat constructor.
    - exists []. rewrite app_nil_r. repeat split. constructor. }
  destruct H1 as (pre & Tr & Q & F & S & T). clearbody w1.
  destruct (json_print_ok E) eqn:J; cbn [snd log files trace].
  2:{ split; [exact F|]. exists pre. eexists.
      rewrite Tr, <- app_assoc. split; [reflexivity|]. split; [exact Q|].
      split; [reflexivity | exact J]. }
  split; [exact F|]. exists pre. eexists.
  rewrite Tr, <- app_assoc. split; [reflexivity|]. split; [exact Q|].
  cbn [reply_shape]. split; [congruence|]. rewrite S.
  destruct (root_json l) as [j|] eqn:R.
  - destruct Hp as [[Hs (msg & Hm)] | [Hs (name & Hm)]].
    + left. split; [exact Hs|]. left. exists msg. congruence.
    + right. split; [exact Hs|]. exists name. congruence.
  - left. split; [exact Hp|].
    destruct (filename l) as [name|]; [destruct (fd l)|];
      first [right; eexists; reflexivity | left; eexists; reflexivity].
Qed.

(** The receive loop, from any pass on. *)
Lemma receive_loop_effects (fuel : nat) :
  forall (l : locals) (w : world) (r : esp_err_t) (w' : world),
    receive_loop E req boundary fuel l w = Some (r, w') ->
    root_json l = None ->
    (filename l = None -> fd l = None /\ file_data_started l = false) ->
    resp_type w = bs "application/json" ->
    (forall q,
        Some q <> dest l (snd (fst (next_chunk (transport w)
                                      (Z.min (remaining l) (UPLOAD_BUFFER_SIZE - 1))))) ->
        files w' !! q = files w !! q) /\
    exists evs reply,
      trace w' = trace w ++ evs ++ [reply] /\
      Forall (fun e => is_send e = false) evs /\
      reply_shape E (resp_status w) reply.
Proof.
  induction fuel as [|f IH]; intros l w r w' H Hroot Hfd Ht.
  - cbn [receive_loop] in H. destruct (remaining l <=? 0); [|discriminate].
    injection H as H. apply (f_equal snd) in H. cbn [snd] in H. subst w'.
    destruct (cleanup_reply (resp_status w) l w Ht) as (F & pre & reply & Tr & Q & Sh).
    { rewrite Hroot. reflexivity. }
    split; [intros q _; rewrite F; reflexivity|].
    exists pre, reply. repeat split; assumption.
  - destruct (remaining l <=? 0) eqn:G.
    { apply Z.leb_le in G. rewrite receive_loop_exit in H by exact G.
      injection H as H. apply (f_equal snd) in H. cbn [snd] in H. subst w'.
      destruct (cleanup_reply (resp_status w) l w Ht) as (F & pre & reply & Tr & Q & Sh).
      { rewrite Hroot. reflexivity. }
      split; [intros q _; rewrite F; reflexivity|].
      exists pre, reply. repeat split; assumption. }
    apply Z.leb_gt in G. rewrite receive_loop_unfold in H by lia.
    rewrite recv_unfold in H.
    destruct (next_chunk (transport w) (Z.min (remaining l) (UPLOAD_BUFFER_SIZE - 1)))
      as [[ret buf] rest]. cbn [fst snd] in H |- *.
    set (w1 := mkWorld _ _ _ _ _ _) in H.
    assert (F1 : files w1 = files w) by reflexivity.
    assert (S1 : resp_status w1 = resp_status w) by reflexivity.
    assert (T1 : resp_type w1 = bs "application/json") by exact Ht.
    assert (Tr1 : trace w1
                  = trace w ++ [EvRecv (Z.min (remaining l) (UPLOAD_BUFFER_SIZE - 1)) ret buf])
      by reflexivity.
    clearbody w1.
    destruct (ret <=? 0).
    { injection H as H. apply (f_equal snd) in H. cbn [snd] in H. subst w'.
      destruct (cleanup_reply (resp_status w)
                  (set_root_json l (error_json (recv_error_message ret (remaining l))))
                  w1 T1) as (F & pre & reply & Tr & Q & Sh).
      { cbn [root_json set_root_json]. left. split; [exact S1 | eexists; reflexivity]. }
      split; [intros q _; rewrite F, F1; reflexivity|].
      exists (EvRecv (Z.min (remaining l) (UPLOAD_BUFFER_SIZE - 1)) ret buf :: pre), reply.
      rewrite Tr, Tr1, <- app_assoc. split; [reflexivity|].
      split; [constructor; [reflexivity | exact Q] | exact Sh]. }
    pose proof (process_chunk_effects l w1 buf Hroot Hfd) as P.
    destruct (process_chunk E req boundary l w1 buf) as [[l1 w2|l1 w2|] fnd];
      [| |discriminate].
    + destruct P as (R2 & N2 & F2 & S2 & (T2 & Fr2 & e2 & Tr2 & Q2)).
      apply IH in H; [|exact R2|cbn [filename set_remaining]; congruence|congruence].
      destruct H as (Fr & evs & reply & Tr & Q & Sh).
      split.
      * intros q Hq. etransitivity; [apply Fr|].
        -- rewrite dest_named by (cbn [filename set_remaining]; exact N2).
           cbn [fd set_remaining]. rewrite F2. exact Hq.
        -- etransitivity; [apply Fr2; exact Hq|]. rewrite F1. reflexivity.
      * exists ((EvRecv (Z.min (remaining l) (UPLOAD_BUFFER_SIZE - 1)) ret buf :: e2) ++ evs),
          reply.
        rewrite Tr, Tr2, Tr1. cbn [app]. rewrite <- !app_assoc. cbn [app].
        split; [reflexivity|]. split.
        -- constructor; [reflexivity|]. apply Forall_app. split; assumption.
        -- rewrite S2, S1 in Sh. exact Sh.
    + destruct P as (_ & (T2 & Fr2 & e2 & Tr2 & Q2) & Pr).
      injection H as H. apply (f_equal snd) in H. cbn [snd] in H. subst w'.
      destruct (cleanup_reply (resp_status w) l1 w2) as (F & pre & reply & Tr & Q & Sh).
      { congruence. }
      { rewrite S1 in Pr.
        destruct Pr as [[Hs (m & Hm)] | [Hs (n & Hm)]]; rewrite Hm;
          [left | right]; (split; [exact Hs | eexists; exact Hm]). }
      split.
      { intros q Hq. rewrite F. etransitivity; [apply Fr2; exact Hq|].
        rewrite F1. reflexivity. }
      exists ((EvRecv (Z.min (remaining l) (UPLOAD_BUFFER_SIZE - 1)) ret buf :: e2) ++ pre),
        reply.
      rewrite Tr, Tr2, Tr1. cbn [app]. rewrite <- !app_assoc. cbn [app].
      split; [reflexivity|]. split; [|exact Sh].
      constructor; [reflexivity|]. apply Forall_app. split; assumption.
Qed.

End UploadEffects.

(** The whole handler: what it changes and what it sends. *)
Lemma upload_post_handler_effects (E : Upload.env) (req : Upload.request)
    (w : Upload.world) :
  exists r w' evs reply,
    Upload.upload_post_handler E req w = Some (r, w') /\
    (forall q, Some q <> Outcome.destination req w ->
               Upload.files w' !! q = Upload.files w !! q) /\
    Upload.trace w' = Upload.trace w ++ evs ++ [reply] /\
    Forall (fun e => Outcome.is_send e = false) evs /\
    Outcome.reply_shape E (Upload.resp_status w) reply.
Proof.
  unfold Upload.upload_post_handler.
  destruct (_ <=? 0).
  { unfold Upload.send_json_upload_response.
    destruct (Upload.json_print_ok E) eqn:J; eexists _, _, [], _;
      (split; [reflexivity|]); (split; [intros q _; reflexivity|]);
      (split; [reflexivity|]); (split; [constructor|]).
    - split; [reflexivity|]. left. split; [reflexivity|]. left. eexists. reflexivity.
    - split; [reflexivity | exact J]. }
  unfold Upload.malloc.
  cbn [Upload.httpd_resp_set_type Upload.mallocs Upload.files Upload.transport
       Upload.resp_status Upload.resp_type Upload.trace].
  destruct (Upload.malloc_ok E _ _).
  2:{ destruct (Upload.json_print_ok E) eqn:J; eexists _, _, [_], _;
        (split; [reflexivity|]); (split; [intros q _; reflexivity|]);
        cbn [Upload.log Upload.trace Upload.files Upload.resp_status Upload.resp_type];
        (split; [rewrite <- app_assoc; reflexivity|]); (split; [repeat constructor|]).
      - split; [reflexivity|]. left. split; [reflexivity|]. left. eexists. reflexivity.
      - split; [reflexivity | exact J]. }
  set (w1 := Upload.mkWorld _ _ _ _ _ _).
  destruct (Upload.extract_boundary req) as [boundary|message].
  - destruct (receive_loop_total E req boundary
                (Z.to_nat (Upload.int_of_size_t (Upload.content_len req)))
                (Upload.initial_locals (Upload.int_of_size_t (Upload.content_len req))) w1
                ltac:(reflexivity)) as ([r w'] & H).
    destruct (receive_loop_effects E req boundary _ _ _ _ _ H)
      as (Fr & evs & reply & Tr & Q & Sh);
      [reflexivity | intros _; split; reflexivity | reflexivity |].
    exists r, w', (Upload.EvMalloc Upload.UPLOAD_BUFFER_SIZE true :: evs), reply.
    split; [exact H|]. split; [exact Fr|].
    split; [rewrite Tr; unfold w1; cbn [Upload.trace]; rewrite <- app_assoc; reflexivity|].
    split; [constructor; [reflexivity | exact Q] | exact Sh].
  - destruct (cleanup_reply E (Upload.resp_status w)
                (Upload.set_root_json
                   (Upload.initial_locals (Upload.int_of_size_t (Upload.content_len req)))
                   (Upload.error_json message)) w1)
      as (F & pre & reply & Tr & Q & Sh).
    { reflexivity. }
    { left. split; [reflexivity | eexists; reflexivity]. }
    destruct (Upload.cleanup_and_send_json E _ w1) as [r w'] eqn:C. cbn [snd] in F, Tr.
    exists r, w', (Upload.EvMalloc Upload.UPLOAD_BUFFER_SIZE true :: pre), reply.
    split; [reflexivity|]. split; [intros q _; rewrite F; reflexivity|].
    split; [rewrite Tr; unfold w1; cbn [Upload.trace]; rewrite <- app_assoc; reflexivity|].
    split; [constructor; [reflexivity | exact Q] | exact Sh].
Qed.

(** X13.  An upload changes no file but its sink.  Whatever the request,
    the body and the failures of the platform, [upload_post_handler]
    returns, and every file of the store other than the one at the path
    built from the file name found in the first chunk read is kept with its
    content; when no name is found there, no file is changed at all.  That
    path lies under [/sdcard/] and holds no [..]. *)
Theorem upload_changes_only_its_sink (E : Upload.env) (req : Upload.request)
    (w : Upload.world) :
  exists r w',
    Upload.upload_post_handler E req w = Some (r, w') /\
    (forall q, Some q <> Outcome.destination req w ->
               Upload.files w' !! q = Upload.files w !! q) /\
    (forall p, Outcome.destination req w = Some p ->
               exists rest, p = bs "/sdcard/" ++ rest /\ find_sub Path.dotdot p = None).
Proof.
  destruct (upload_post_handler_effects E req w) as (r & w' & _ & _ & H & Fr & _).
  exists r, w'. split; [exact H|]. split; [exact Fr|].
  intros p. unfold Outcome.destination.
  destruct (Upload.extract_filename _) as [name|]; [|discriminate].
  intros [= <-]. unfold Outcome.sink_path.
  destruct (build_filepath_under_mount name) as (rest & Hp & Hc).
  exists rest. rewrite Hp. split; [reflexivity | exact Hc].
Qed.

(** X14.  Every run of [upload_post_handler] sends exactly one reply, as
    the last thing it does.  The reply is a JSON body sent as
    [application/json], or the plain error 500 when the JSON text cannot be
    made.  The handler sets a status only for the conflict: the conflict
    reply goes out under [409 Conflict], and every other reply, the error
    replies included, under the status that was in force when the handler
    was entered. *)
Theorem upload_sends_one_reply (E : Upload.env) (req : Upload.request)
    (w : Upload.world) :
  exists r w' evs reply,
    Upload.upload_post_handler E req w = Some (r, w') /\
    Upload.trace w' = Upload.trace w ++ evs ++ [reply] /\
    Forall (fun e => Outcome.is_send e = false) evs /\
    Outcome.reply_shape E (Upload.resp_status w) reply.
Proof.
  destruct (upload_post_handler_effects E req w)
    as (r & w' & evs & reply & H & _ & Tr & Q & Sh).
  exists r, w', evs, reply. repeat split; assumption.
Qed.

(** ** The file name of an upload *)

Section FilenameFacts.

Lemma find_sub_single_not_in (c : ascii) (h : bytes) (i : nat) :
  find_sub [c] h = Some i -> ~ In c (firstn i h).
Proof.
  revert i. induction h as [|a h IH]; intros i H.
  - rewrite firstn_nil. intros [].
  - rewrite find_sub_cons in H. cbn [is_prefix] in H.
    destruct (Ascii.eqb c a) eqn:Eq.
    + cbn [andb] in H. injection H as <-. intros [].
    + cbn [andb] in H. destruct (find_sub [c] h) as [j|] eqn:F; [|discriminate].
      injection H as <-. cbn [firstn]. intros [-> | Hin].
      * rewrite Ascii.eqb_refl in Eq. discriminate.
      * exact (IH j eq_refl Hin).
Qed.

(** What [strstr] finds, as a cut of the buffer. *)
Lemma strstr_cut (buf needle : bytes) (start b : nat) :
  strstr buf start needle = Some b ->
  (start <= length buf)%nat ->
  (start <= b)%nat /\
  exists rest,
    skipn b buf = needle ++ rest /\
    firstn (b - start) (skipn start buf) = firstn (b - start) (cstr (skipn start buf)) /\
    (b + length needle <= length buf)%nat.
Proof.
  intros H Hs.
  destruct (strstr_bounds buf needle start b H Hs) as (i & F & -> & Hb).
  split; [lia|].
  destruct (find_sub_Some _ _ _ F) as (post & Hc & Hl).
  destruct (cstr_is_prefix (skipn start buf)) as (t & Ht).
  set (c := cstr (skipn start buf)) in *.
  assert (Hi : (i <= length c)%nat) by (rewrite <- Hl, length_firstn; lia).
  exists (post ++ t). split; [|split; [|exact Hb]].
  - replace (start + i)%nat with (i + start)%nat by lia.
    rewrite <- skipn_skipn, Ht.
    transitivity (skipn i ((firstn i c ++ needle ++ post) ++ t));
      [rewrite <- Hc; reflexivity|].
    rewrite <- !app_assoc, skipn_app, Hl, Nat.sub_diag.
    rewrite skipn_all2 by lia. reflexivity.
  - replace (start + i - start)%nat with i by lia.
    rewrite Ht, firstn_app.
    replace (i - length c)%nat with 0%nat by lia.
    rewrite firstn_O, app_nil_r. reflexivity.
Qed.

End FilenameFacts.

(** X15.  The file name of an upload is the text between the quotes
    behind the first [filename=] of the Content-Disposition header, cut to
    its first 128 bytes: whenever [extract_filename] gives a name, the
    chunk holds [filename=], a quote, a text that is not empty and holds
    neither a quote nor a NUL, and a closing quote; the name is the first
    128 bytes of that text, so that it is never empty and never longer
    than 128 bytes. *)
Theorem upload_filename_between_quotes (buf name : bytes) :
  Upload.extract_filename buf = inl name ->
  exists pre full post,
    buf = pre ++ (bs "filename=" ++ [Upload.dq]) ++ full ++ Upload.dq :: post /\
    full <> [] /\ ~ In Upload.dq full /\ ~ In NUL full /\
    name = firstn 128 full /\
    (0 < length name <= 128)%nat.
Proof.
  intros H. unfold Upload.extract_filename in H.
  destruct (strstr buf 0 (bs "Content-Disposition:")) as [cd|] eqn:S1; [|discriminate].
  destruct (strstr buf cd (bs "filename=" ++ [Upload.dq])) as [fn|] eqn:S2;
    [|discriminate].
  unfold strchr in H.
  destruct (strstr buf (fn + 10) [Upload.dq]) as [e|] eqn:S3; [|discriminate].
  destruct (fn + 10 <? e)%nat eqn:L; [|discriminate].
  apply Nat.ltb_lt in L. injection H as <-.
  destruct (strstr_cut _ _ _ _ S1 ltac:(lia)) as (_ & r1 & _ & _ & B1).
  destruct (strstr_cut _ _ _ _ S2 ltac:(simpl in B1; lia)) as (Hcd & r2 & C2 & _ & B2).
  change (length (bs "filename=" ++ [Upload.dq])) with 10%nat in B2.
  destruct (strstr_bounds _ _ _ _ S3 B2) as (i & F3 & He & _).
  destruct (strstr_cut _ _ _ _ S3 B2) as (_ & r3 & C3 & P3 & B3).
  cbn [length] in B3.
  replace (e - (fn + 10))%nat with i in P3 by lia.
  set (tail := skipn (fn + 10) buf) in *.
  assert (Htail : r2 = tail).
  { unfold tail. replace (fn + 10)%nat with (10 + fn)%nat by lia.
    rewrite <- skipn_skipn, C2. reflexivity. }
  assert (Hlen : (i <= length tail)%nat).
  { unfold tail. rewrite length_skipn. lia. }
  assert (Hrest : skipn i tail = Upload.dq :: r3).
  { unfold tail. rewrite skipn_skipn. replace (i + (fn + 10))%nat with e by lia.
    exact C3. }
  exists (firstn fn buf), (firstn i tail), r3.
  split.
  { rewrite <- Hrest, firstn_skipn, <- Htail, <- C2. symmetry. apply firstn_skipn. }
  assert (Hfull : length (firstn i tail) = i) by (rewrite length_firstn; lia).
  split; [intros Hnil; rewrite Hnil in Hfull; simpl in Hfull; lia|].
  split; [rewrite P3; apply (find_sub_single_not_in _ _ _ F3)|].
  split; [rewrite P3; intros Hin; apply in_firstn in Hin; exact (cstr_free _ Hin)|].
  assert (Hname : slice buf (fn + 10)
                    (fn + 10 + (if (128 <? e - (fn + 10))%nat then 128%nat
                                else (e - (fn + 10))%nat))
                  = firstn 128 (firstn i tail)).
  { unfold slice. fold tail. rewrite firstn_firstn.
    replace (e - (fn + 10))%nat with i by lia.
    destruct (128 <? i)%nat eqn:G.
    - apply Nat.ltb_lt in G. f_equal. lia.
    - apply Nat.ltb_ge in G. f_equal. lia. }
  split; [exact Hname|].
  rewrite Hname, length_firstn, Hfull. lia.
Qed.

Lemma upload_filename_between_quotes_witness :
  exists pre full post,
    example_body = pre ++ (bs "filename=" ++ [Upload.dq]) ++ full ++ Upload.dq :: post /\
    bs "a.txt" = firstn 128 full.
Proof.
  destruct (upload_filename_between_quotes example_body (bs "a.txt"))
    as (pre & full & post & H & _ & _ & _ & N & _).
  - vm_compute. reflexivity.
  - exists pre, full, post. split; [exact H | exact N].
Defined.

(** ** The listing: a row for every regular file *)

Section RowFacts.
Import Listing.

Variable d_name_size : Z.
Variable realloc_ok : nat -> Z -> bool.
Hypothesis reallocs_succeed : forall n s, realloc_ok n s = true.

Lemma url_encode_loop_length (limit : Z) (p_in : bytes) :
  forall out : bytes,
    blen (url_encode_loop limit p_in out) <= blen out + 3 * blen (cstr p_in).
Proof.
  induction p_in as [|c p IH]; intros out.
  - cbn. unfold blen. simpl. lia.
  - cbn [url_encode_loop cstr]. destruct (Ascii.eqb c NUL).
    + unfold blen. simpl. lia.
    + pose proof (blen_nonneg (cstr p)) as H0.
      destruct (blen out <? limit).
      * specialize (IH (out ++ encode_char c)). rewrite blen_app in IH.
        pose proof (encode_char_length c) as Hc.
        unfold blen in *. cbn [length]. lia.
      * unfold blen in *. cbn [length]. lia.
Qed.

Lemma url_encode_length (name : bytes) :
  blen (url_encode d_name_size name) <= 3 * strlen name.
Proof.
  unfold url_encode.
  pose proof (url_encode_loop_length (sz (url_encoded_size d_name_size - 4)) name []) as H.
  change (blen []) with 0 in H.
  destruct (_ >=? _); [|exact H].
  unfold blen in *. rewrite length_firstn. unfold strlen, blen. lia.
Qed.

Lemma snprintf_length (size : nat) (s : bytes) : blen (snprintf size s) <= blen s.
Proof. unfold snprintf, blen. rewrite length_firstn. lia. Qed.

(** A row is never empty, and it takes at most 128 bytes and seven for
    each byte of the name. *)
Lemma row_text_length (e : dirent) :
  0 < blen (row_text d_name_size e) <= 128 + 7 * strlen (d_name e).
Proof.
  pose proof (url_encode_length (d_name e)) as Hu.
  pose proof (snprintf_length 512 (bs "/download?file=" ++ url_encode d_name_size (d_name e)))
    as H1.
  pose proof (snprintf_length 512 (bs "/delete?file=" ++ url_encode d_name_size (d_name e)))
    as H2.
  rewrite blen_app in H1, H2.
  pose proof (blen_nonneg (download_url d_name_size e)) as P1.
  pose proof (blen_nonneg (delete_url d_name_size e)) as P2.
  pose proof (blen_nonneg (cstr (d_name e))) as P3.
  unfold row_text. rewrite !blen_app.
  fold (download_url d_name_size e) in H1. fold (delete_url d_name_size e) in H2.
  unfold strlen in *.
  repeat match goal with
         | |- context [blen (bs ?s)] =>
             let n := eval vm_compute in (blen (bs s)) in
             change (blen (bs s)) with n
         | H : context [blen (bs ?s)] |- _ =>
             let n := eval vm_compute in (blen (bs s)) in
             change (blen (bs s)) with n in H
         end.
  change (blen dq) with 1. lia.
Qed.

(** A row that fits the room that is left is appended whole. *)
Lemma append_row_fits (st : list_state) (e : dirent) (R : bytes) :
  rows st = R ->
  file_list_len st = blen R ->
  blen (row_text d_name_size e) < file_list_buffer_size st - file_list_len st ->
  file_list_buffer_size st < 2 ^ 32 ->
  rows (append_row d_name_size st e) = R ++ row_text d_name_size e /\
  file_list_len (append_row d_name_size st e) = blen (R ++ row_text d_name_size e) /\
  file_list_buffer_size (append_row d_name_size st e) = file_list_buffer_size st.
Proof.
  intros HR Hlen Hroom Hsize.
  pose proof (row_text_length e) as [Hpos _].
  pose proof (blen_nonneg R) as H0.
  unfold append_row.
  assert (Hr : sz (file_list_buffer_size st - file_list_len st)
               = file_list_buffer_size st - file_list_len st).
  { unfold sz. apply Z.mod_small. lia. }
  rewrite Hr.
  assert (C : (0 <? blen (row_text d_name_size e))
              && (blen (row_text d_name_size e)
                  <? file_list_buffer_size st - file_list_len st) = true).
  { apply andb_true_iff. split; [apply Z.ltb_lt | apply Z.ltb_lt]; lia. }
  rewrite C. unfold rows. cbn [file_list_html file_list_len file_list_buffer_size].
  assert (Hs : sz (file_list_len st + blen (row_text d_name_size e))
               = blen (R ++ row_text d_name_size e)).
  { rewrite blen_app, <- Hlen. unfold sz. apply Z.mod_small. lia. }
  rewrite Hs. split; [|split; reflexivity].
  unfold rows in HR. rewrite HR.
  assert (Hcut : snprintf (Z.to_nat (file_list_buffer_size st - file_list_len st))
                   (row_text d_name_size e) = row_text d_name_size e).
  { unfold snprintf. apply firstn_all2. unfold blen in *. lia. }
  rewrite Hcut. apply firstn_all2. unfold blen. lia.
Qed.

(** One more regular file whose name has at most 74 bytes: its row is
    appended, after the buffer has grown if need be. *)
Lemma add_entry_appends (st : list_state) (e : dirent) (R : bytes) :
  rows st = R ->
  file_list_len st = blen R ->
  blen R < file_list_buffer_size st ->
  strlen (d_name e) <= 74 ->
  file_list_buffer_size st + 2000 < 2 ^ 32 ->
  exists st',
    add_entry d_name_size realloc_ok st e = Next st' /\
    rows st' = R ++ row_text d_name_size e /\
    file_list_len st' = blen (R ++ row_text d_name_size e) /\
    blen (R ++ row_text d_name_size e) < file_list_buffer_size st' /\
    file_list_buffer_size st' <= file_list_buffer_size st + 2000.
Proof.
  intros HR Hlen Hlt Hn Hsize.
  pose proof (row_text_length e) as [Hpos HL].
  pose proof (blen_nonneg R) as H0.
  assert (Hn0 : 0 <= strlen (d_name e)) by apply blen_nonneg.
  assert (Hest : entry_html_len_estimate e = 4 * strlen (d_name e) + 351)
    by (apply estimate_value; lia).
  unfold add_entry. destruct (needs_grow st e) eqn:G.
  - rewrite reallocs_succeed.
    assert (Hg : grown_size st e = file_list_buffer_size st + entry_html_len_estimate e + 1024).
    { unfold grown_size, sz. apply Z.mod_small. lia. }
    set (st1 := mkListState _ _ _ _).
    destruct (append_row_fits st1 e R) as (A & B & C).
    + exact HR.
    + exact Hlen.
    + unfold st1. cbn [file_list_buffer_size file_list_len]. lia.
    + unfold st1. cbn [file_list_buffer_size]. lia.
    + eexists. split; [reflexivity|]. split; [exact A|]. split; [exact B|].
      rewrite C. unfold st1. cbn [file_list_buffer_size].
      rewrite blen_app. split; lia.
  - unfold needs_grow in G. rewrite Z.geb_leb in G. apply Z.leb_gt in G.
    unfold sz in G. rewrite Z.mod_small in G by lia.
    destruct (append_row_fits st e R) as (A & B & C); [exact HR | exact Hlen | lia | lia |].
    eexists. split; [reflexivity|]. split; [exact A|]. split; [exact B|].
    rewrite C, blen_app. split; lia.
Qed.

(** The loop over a directory of files with short names. *)
Lemma read_entries_rows (entries : list dirent) :
  forall (st : list_state) (R : bytes),
    rows st = R ->
    file_list_len st = blen R ->
    blen R < file_list_buffer_size st ->
    file_list_buffer_size st + 2000 * Z.of_nat (length entries) < 2 ^ 32 ->
    Forall (fun e => d_type e = DT_REG -> strlen (d_name e) <= 74) entries ->
    exists st',
      read_entries d_name_size realloc_ok st entries = Next st' /\
      rows st' = R ++ Rows.all_rows d_name_size entries.
Proof.
  induction entries as [|e rest IH]; intros st R HR Hlen Hlt Hsize Hnames.
  - exists st. split; [reflexivity|]. unfold Rows.all_rows. cbn.
    rewrite app_nil_r. exact HR.
  - pose proof (Forall_inv Hnames) as He. pose proof (Forall_inv_tail Hnames) as Hrest.
    cbn [length] in Hsize. rewrite Nat2Z.inj_succ in Hsize.
    cbn [read_entries]. unfold Rows.all_rows. cbn [List.filter].
    unfold Rows.is_regular at 1.
    destruct (d_type e) eqn:Ty;
      try (apply IH; [exact HR | exact Hlen | exact Hlt | lia | exact Hrest]).
    destruct (add_entry_appends st e R HR Hlen Hlt (He Ty) ltac:(lia))
      as (st1 & E & A & B & C & D).
    rewrite E.
    destruct (IH st1 (R ++ row_text d_name_size e) A B C ltac:(lia) Hrest)
      as (st' & E' & A').
    exists st'. split; [exact E'|].
    rewrite A'. unfold Rows.all_rows. cbn [map concat]. rewrite <- app_assoc.
    reflexivity.
Qed.

End RowFacts.

(** X16.  The listing has a row for every regular file and for nothing
    else.  For a directory of fewer than two million entries whose regular
    files have names of at most 74 bytes, with every [realloc] and every
    send succeeding, [list_get_handler] returns ESP_OK and sends list.html
    with the placeholder replaced by the rows of the regular files, one
    whole row for each, in the order of the directory; directories and
    other entries have no row. *)
Theorem listing_shows_regular_files (d_name_size : Z) (realloc_ok : nat -> Z -> bool)
    (send_ok : nat -> bool) (entries : list Listing.dirent)
    (message_html list_html : bytes) (c : conn) :
  (forall n, send_ok n = true) ->
  (forall n s, realloc_ok n s = true) ->
  Forall (fun e => Listing.d_type e = Listing.DT_REG ->
                   Listing.strlen (Listing.d_name e) <= 74) entries ->
  Z.of_nat (length entries) < 2000000 ->
  ~ In NUL list_html ->
  exists chunks c',
    Listing.list_get_handler d_name_size realloc_ok send_ok (Some entries) true
      message_html list_html c = (ESP_OK, c') /\
    sent c' = sent c ++ chunks ++ [[]] /\
    concat chunks
    = subst_tokens [(Listing.FILE_LIST_ROWS, Rows.all_rows d_name_size entries)]
        (embed_txtfile list_html).
Proof.
  intros Hsend Hrealloc Hnames Hcount Hn.
  destruct (read_entries_rows d_name_size realloc_ok Hrealloc entries
              Listing.initial_state [])
    as (st & E & R); [reflexivity | reflexivity | reflexivity | | exact Hnames |].
  { cbn [Listing.initial_state Listing.file_list_buffer_size]. lia. }
  cbn [app] in R.
  destruct (send_list_ok send_ok Hsend list_html st c Hn) as (chunks & c' & Es & Ss & Cs).
  exists chunks, c'. split; [|split; [exact Ss | rewrite Cs, R; reflexivity]].
  unfold Listing.list_get_handler. rewrite E. exact Es.
Qed.

Lemma listing_shows_regular_files_witness :
  exists chunks c',
    Listing.list_get_handler 256 always_ok (fun _ => true) (Some example_card) true
      example_message_html example_list_html (mkConn [] 0) = (ESP_OK, c') /\
    sent c' = [] ++ chunks ++ [[]] /\
    concat chunks
    = subst_tokens [(Listing.FILE_LIST_ROWS, Rows.all_rows 256 example_card)]
        (embed_txtfile example_list_html).
Proof.
  apply (listing_shows_regular_files 256 always_ok (fun _ => true) example_card
           example_message_html example_list_html (mkConn [] 0)).
  - intros n. reflexivity.
  - intros n s. reflexivity.
  - repeat constructor; intros _; vm_compute; discriminate.
  - vm_compute. reflexivity.
  - apply nul_free_spec. reflexivity.
Defined.

(** ** The next log file *)

Section LogfileFacts.
Import Logfile.

Variable E : env.

Lemma uint_digits_no_nul (d : Decimal.uint) :
  ~ In NUL (list_ascii_of_string (NilEmpty.string_of_uint d)).
Proof.
  induction d; cbn [NilEmpty.string_of_uint list_ascii_of_string];
    [intros [] | ..]; intros [H | H]; try discriminate H; exact (IHd H).
Qed.

Lemma decimal_no_nul (i : Z) : ~ In NUL (Files.decimal i).
Proof.
  unfold Files.decimal, bs, NilZero.string_of_int.
  destruct (Z.to_int i) as [d | d].
  - unfold NilZero.string_of_uint. destruct d; try apply uint_digits_no_nul.
    cbn. intros [H | []]. discriminate H.
  - cbn [list_ascii_of_string]. intros [H | H]; [discriminate H|].
    revert H. unfold NilZero.string_of_uint. destruct d; try apply uint_digits_no_nul.
    cbn. intros [H | []]. discriminate H.
Qed.

Lemma log_path_no_nul (path_len : nat) (i : Z) : ~ In NUL (log_path path_len i).
Proof.
  unfold log_path, snprintf. intros H. apply in_firstn in H.
  apply in_app_or in H. destruct H as [H | H].
  - revert H. apply nul_free_spec. reflexivity.
  - apply in_app_or in H. destruct H as [H | H]; [exact (decimal_no_nul i H)|].
    revert H. apply nul_free_spec. reflexivity.
Qed.

(** What is published is the path itself. *)
Lemma publish_path (s : state) (i : Z) :
  publish E s (log_path MAX_LOG_FILE_PATH_LEN i)
  = if g_log_file_path_mutex s && take_ok E
    then mkState (files s) (log_path MAX_LOG_FILE_PATH_LEN i) (g_log_file_path_mutex s)
    else s.
Proof.
  unfold publish. destruct (_ && _); [|reflexivity]. f_equal.
  rewrite (cstr_no_nul _ (log_path_no_nul _ i)).
  apply firstn_all2. unfold log_path, snprintf. rewrite length_firstn.
  unfold MAX_LOG_FILE_PATH_LEN. lia.
Qed.

(** The loop: where it stops and what it has done. *)
Lemma open_loop_spec (path_len : nat) (n : nat) :
  forall (i : Z) (out_path : bytes) (s : state),
    (forall p, is_Some (files s !! p) -> fopen_r_ok E p = true) ->
    match open_loop E path_len n i out_path s with
    | (Some path, out', s') =>
        exists k : nat,
          (k < n)%nat /\ path = log_path path_len (i + Z.of_nat k) /\ out' = path /\
          files s !! path = None /\
          (forall j : nat, (j < k)%nat ->
                           is_Some (files s !! log_path path_len (i + Z.of_nat j))) /\
          fopen_w_ok E path = true /\
          s' = publish E (mkState (<[path := CSV_HEADER]> (files s))
                            (g_current_log_filepath s) (g_log_file_path_mutex s)) path
    | (None, _, s') =>
        s' = s /\
        exists k : nat,
          (k <= n)%nat /\
          (forall j : nat, (j < k)%nat ->
                           is_Some (files s !! log_path path_len (i + Z.of_nat j))) /\
          ((k < n)%nat ->
           files s !! log_path path_len (i + Z.of_nat k) = None /\
           fopen_w_ok E (log_path path_len (i + Z.of_nat k)) = false)
    end.
Proof.
  induction n as [|n IH]; intros i out_path s Hread.
  - cbn [open_loop]. split; [reflexivity|]. exists 0%nat.
    split; [lia|]. split; intros; lia.
  - cbn [open_loop]. unfold opens_for_reading.
    destruct (files s !! log_path path_len i) as [content|] eqn:F.
    + rewrite (Hread _ (ex_intro _ content F)).
      specialize (IH (i + 1) (log_path path_len i) s Hread).
      assert (Shift : forall j : nat, i + 1 + Z.of_nat j = i + Z.of_nat (S j))
        by (intros j; lia).
      destruct (open_loop E path_len n (i + 1) (log_path path_len i) s)
        as [[[path|] out'] s'].
      * destruct IH as (k & Hk & Hp & Ho & Hf & Hj & Hw & Hs).
        exists (S k). rewrite <- Shift. split; [lia|]. split; [exact Hp|].
        split; [exact Ho|]. split; [exact Hf|]. split; [|split; assumption].
        intros [|j] Hlt; [rewrite Z.add_0_r; exists content; exact F|].
        rewrite <- Shift. apply Hj. lia.
      * destruct IH as (Hs & k & Hk & Hj & Hn).
        split; [exact Hs|]. exists (S k). split; [lia|]. split.
        -- intros [|j] Hlt; [rewrite Z.add_0_r; exists content; exact F|].
           rewrite <- Shift. apply Hj. lia.
        -- intros Hlt. rewrite <- Shift. apply Hn. lia.
    + destruct (fopen_w_ok E (log_path path_len i)) eqn:W.
      * exists 0%nat. rewrite Z.add_0_r. split; [lia|]. split; [reflexivity|].
        split; [reflexivity|]. split; [exact F|]. split; [intros; lia|].
        split; [exact W | reflexivity].
      * split; [reflexivity|]. exists 0%nat. rewrite Z.add_0_r.
        split; [lia|]. split; [intros; lia|]. intros _. split; assumption.
Qed.

End LogfileFacts.

(** X17.  [open_next_log_file] opens the first free name and never an
    existing log.  When files that are there can be opened for reading and
    the function returns a stream, the stream is on [/sdcard/log_i.csv] for
    the least [i] from 1 to 999 whose file is not there; that path is left
    in [out_path]; the file is created holding the CSV header and nothing
    else, no other file is changed, and the path is stored in
    [g_current_log_filepath] when the mutex exists and can be taken. *)
Theorem open_next_log_file_least_free (E : Logfile.env) (s s' : Logfile.state)
    (out_path out' path : bytes) :
  (forall p, is_Some (Logfile.files s !! p) -> Logfile.fopen_r_ok E p = true) ->
  Logfile.open_next_log_file E Logfile.MAX_LOG_FILE_PATH_LEN out_path s
  = (Some path, out', s') ->
  exists i,
    1 <= i <= 999 /\
    path = Logfile.log_path Logfile.MAX_LOG_FILE_PATH_LEN i /\
    out' = path /\
    Logfile.files s !! path = None /\
    (forall j, 1 <= j < i ->
               is_Some (Logfile.files s
                        !! Logfile.log_path Logfile.MAX_LOG_FILE_PATH_LEN j)) /\
    Logfile.files s' = <[path := Logfile.CSV_HEADER]> (Logfile.files s) /\
    Logfile.g_current_log_filepath s'
    = (if Logfile.g_log_file_path_mutex s && Logfile.take_ok E
       then path else Logfile.g_current_log_filepath s).
Proof.
  intros Hread H. unfold Logfile.open_next_log_file in H.
  pose proof (open_loop_spec E Logfile.MAX_LOG_FILE_PATH_LEN 999 1 out_path s Hread) as P.
  rewrite H in P. destruct P as (k & Hk & Hp & Ho & Hf & Hj & Hw & Hs).
  exists (1 + Z.of_nat k). split; [lia|]. split; [exact Hp|]. split; [exact Ho|].
  split; [exact Hf|]. split.
  - intros j Hj1. replace j with (1 + Z.of_nat (Z.to_nat (j - 1))) by lia.
    apply Hj. lia.
  - rewrite Hs, Hp, publish_path. cbn [Logfile.g_log_file_path_mutex].
    destruct (_ && _); split; reflexivity.
Qed.

Lemma open_next_log_file_least_free_witness :
  exists s',
    Logfile.open_next_log_file example_log_env Logfile.MAX_LOG_FILE_PATH_LEN []
      example_log_state
    = (Some (bs "/sdcard/log_3.csv"), bs "/sdcard/log_3.csv", s') /\
    Logfile.files s' !! bs "/sdcard/log_3.csv" = Some Logfile.CSV_HEADER /\
    Logfile.g_current_log_filepath s' = bs "/sdcard/log_3.csv".
Proof.
  destruct (Logfile.open_next_log_file example_log_env Logfile.MAX_LOG_FILE_PATH_LEN []
              example_log_state) as [[f out'] s'] eqn:H.
  assert (Hf : f = Some (bs "/sdcard/log_3.csv") /\ out' = bs "/sdcard/log_3.csv").
  { vm_compute in H. injection H as <- <- _. split; reflexivity. }
  destruct Hf as [-> ->].
  destruct (open_next_log_file_least_free example_log_env example_log_state s' []
              (bs "/sdcard/log_3.csv") (bs "/sdcard/log_3.csv")
              (fun p _ => eq_refl) H) as (i & _ & _ & _ & _ & _ & Hfiles & Hg).
  exists s'. split; [reflexivity|]. split; [rewrite Hfiles; apply lookup_insert_eq|].
  exact Hg.
Defined.

(** X18.  [open_next_log_file] keeps every file that is there, and it
    gives up rather than search on.  When files that are there can be
    opened for reading, no file of the card is changed or removed by the
    call; when it returns NULL the state is as it was; it returns NULL when
    all of [log_1.csv] to [log_999.csv] are there, and also when the first
    free name cannot be opened for writing, without trying a later name. *)
Theorem open_next_log_file_keeps_logs (E : Logfile.env) (s : Logfile.state)
    (out_path : bytes) :
  (forall p, is_Some (Logfile.files s !! p) -> Logfile.fopen_r_ok E p = true) ->
  let r := Logfile.open_next_log_file E Logfile.MAX_LOG_FILE_PATH_LEN out_path s in
  (forall p, is_Some (Logfile.files s !! p) ->
             Logfile.files (snd r) !! p = Logfile.files s !! p) /\
  (fst (fst r) = None -> snd r = s) /\
  ((forall i, 1 <= i <= 999 ->
              is_Some (Logfile.files s
                       !! Logfile.log_path Logfile.MAX_LOG_FILE_PATH_LEN i)) ->
   fst (fst r) = None) /\
  (forall i, 1 <= i <= 999 ->
             (forall j, 1 <= j < i ->
                        is_Some (Logfile.files s
                                 !! Logfile.log_path Logfile.MAX_LOG_FILE_PATH_LEN j)) ->
             Logfile.files s !! Logfile.log_path Logfile.MAX_LOG_FILE_PATH_LEN i = None ->
             Logfile.fopen_w_ok E (Logfile.log_path Logfile.MAX_LOG_FILE_PATH_LEN i) = false ->
             fst (fst r) = None).
Proof.
  intros Hread r. subst r. unfold Logfile.open_next_log_file.
  pose proof (open_loop_spec E Logfile.MAX_LOG_FILE_PATH_LEN 999 1 out_path s Hread) as P.
  destruct (Logfile.open_loop E Logfile.MAX_LOG_FILE_PATH_LEN 999 1 out_path s)
    as [[[path|] out'] s']; cbn [fst snd].
  - destruct P as (k & Hk & Hp & Ho & Hf & Hj & Hw & Hs).
    split; [|split; [discriminate|split]].
    + intros p Hsome. rewrite Hs. unfold Logfile.publish.
      destruct (_ && _); cbn [Logfile.files]; apply lookup_insert_ne;
        intros ->; rewrite Hf in Hsome; destruct Hsome as [x Hx]; discriminate Hx.
    + intros Hall. specialize (Hall (1 + Z.of_nat k) ltac:(lia)).
      rewrite <- Hp, Hf in Hall. destruct Hall as [x Hx]. discriminate Hx.
    + intros i Hi Hbefore Hfree Hfail. exfalso.
      destruct (Z.lt_trichotomy (1 + Z.of_nat k) i) as [L | [Eq | G]].
      * specialize (Hbefore (1 + Z.of_nat k) ltac:(lia)).
        rewrite <- Hp, Hf in Hbefore. destruct Hbefore as [x Hx]. discriminate Hx.
      * rewrite <- Eq, <- Hp in Hfail. congruence.
      * specialize (Hj (Z.to_nat (i - 1)) ltac:(lia)).
        replace (1 + Z.of_nat (Z.to_nat (i - 1))) with i in Hj by lia.
        rewrite Hfree in Hj. destruct Hj as [x Hx]. discriminate Hx.
  - destruct P as (Hs & _). subst s'.
    split; [reflexivity|]. split; [reflexivity|]. split; reflexivity.
Qed.

Lemma open_next_log_file_keeps_logs_witness :
  Logfile.files
    (snd (Logfile.open_next_log_file example_log_env Logfile.MAX_LOG_FILE_PATH_LEN []
            example_log_state))
  !! bs "/sdcard/log_1.csv" = Some (bs "old 1").
Proof.
  destruct (open_next_log_file_keeps_logs example_log_env example_log_state []
              (fun p _ => eq_refl)) as (H & _).
  rewrite H; [reflexivity|]. exists (bs "old 1"). reflexivity.
Defined.

(** X19.  The page of the current log file shows the file that has been
    opened.  When the mutex has been created and was taken by
    [open_next_log_file], which returned a stream, a later
    [current_log_file_handler] that can take the mutex replies, as
    [text/plain], the path of that file; one that cannot take it in time
    replies [N/A (Mutex Busy)].  When the mutex has not been created the
    reply is [N/A (Mutex Missing)], although the file has been opened. *)
Theorem current_log_file_after_open (E E' : Logfile.env) (s s' : Logfile.state)
    (out_path out' path : bytes) :
  (forall p, is_Some (Logfile.files s !! p) -> Logfile.fopen_r_ok E p = true) ->
  Logfile.open_next_log_file E Logfile.MAX_LOG_FILE_PATH_LEN out_path s
  = (Some path, out', s') ->
  (Logfile.g_log_file_path_mutex s = true -> Logfile.take_ok E = true ->
   Logfile.current_log_file_handler E' s'
   = (ESP_OK, bs "text/plain",
      if Logfile.take_ok E' then path else bs "N/A (Mutex Busy)")) /\
  (Logfile.g_log_file_path_mutex s = false ->
   Logfile.current_log_file_handler E' s'
   = (ESP_OK, bs "text/plain", bs "N/A (Mutex Missing)")).
Proof.
  intros Hread H. unfold Logfile.open_next_log_file in H.
  pose proof (open_loop_spec E Logfile.MAX_LOG_FILE_PATH_LEN 999 1 out_path s Hread) as P.
  rewrite H in P. destruct P as (k & Hk & Hp & Ho & Hf & Hj & Hw & Hs).
  rewrite Hp in Hs. rewrite publish_path in Hs. cbn [Logfile.g_log_file_path_mutex] in Hs.
  unfold Logfile.current_log_file_handler, Logfile.get_current_log_file_name.
  split.
  - intros Hm Ht. rewrite Hm, Ht in Hs. cbn [andb] in Hs. subst s'.
    cbn [Logfile.g_log_file_path_mutex Logfile.g_current_log_filepath].
    destruct (Logfile.take_ok E'); [|reflexivity].
    rewrite Hp. rewrite (cstr_no_nul _ (log_path_no_nul _ _)). reflexivity.
  - intros Hm. rewrite Hm in Hs. cbn [andb] in Hs. subst s'. reflexivity.
Qed.

Lemma current_log_file_after_open_witness :
  Logfile.current_log_file_handler example_log_env
    (snd (Logfile.open_next_log_file example_log_env Logfile.MAX_LOG_FILE_PATH_LEN []
            example_log_state))
  = (ESP_OK, bs "text/plain", bs "/sdcard/log_3.csv").
Proof.
  destruct (Logfile.open_next_log_file example_log_env Logfile.MAX_LOG_FILE_PATH_LEN []
              example_log_state) as [[f out'] s'] eqn:H.
  assert (Hf : f = Some (bs "/sdcard/log_3.csv")).
  { vm_compute in H. injection H as <- _ _. reflexivity. }
  subst f.
  destruct (current_log_file_after_open example_log_env example_log_env
              example_log_state s' [] out'
              (bs "/sdcard/log_3.csv") (fun p _ => eq_refl) H) as (A & _).
  exact (A eq_refl eq_refl).
Defined.

(** ** The WS2812 frame *)

Section Ws2812Facts.

Import Ws2812.

Lemma fill_as_map (color : Z) (bits : list rmt_item32_t) :
  length bits = 24%nat ->
  fill 24 0 color bits
  = map (bit_item color)
      [0; 1; 2; 3; 4; 5; 6; 7; 8; 9; 10; 11; 12; 13; 14; 15; 16; 17; 18; 19; 20; 21; 22; 23].
Proof.
  intros L.
  do 24 (destruct bits as [|? bits]; [discriminate L|]).
  destruct bits; [|discriminate L].
  cbn [fill]. generalize (bit_item color). intros f. reflexivity.
Qed.

Lemma small_testbit (a n : Z) : 0 <= a < 256 -> 8 <= n -> Z.testbit a n = false.
Proof.
  intros Ha Hn. apply Z.testbit_false; [lia|].
  rewrite Z.div_small; [reflexivity|].
  split; [lia|]. apply Z.lt_le_trans with (2 ^ 8); [lia|].
  apply Z.pow_le_mono_r; lia.
Qed.

Lemma land_shiftl_1 (a k : Z) :
  0 <= k -> (Z.land a (Z.shiftl 1 k) =? 0) = negb (Z.testbit a k).
Proof.
  intros Hk. rewrite Z.shiftl_1_l.
  destruct (Z.testbit a k) eqn:T; cbn [negb].
  - apply Z.eqb_neq. intros H.
    assert (B : Z.testbit (Z.land a (2 ^ k)) k = true).
    { rewrite Z.land_spec, T, Z.pow2_bits_true by lia. reflexivity. }
    rewrite H, Z.bits_0 in B. discriminate B.
  - apply Z.eqb_eq. apply Z.bits_inj'. intros n Hn.
    rewrite Z.land_spec, Z.bits_0.
    destruct (Z.eq_dec n k) as [-> | Ne].
    + rewrite T. reflexivity.
    + rewrite Z.pow2_bits_false by lia. apply andb_false_r.
Qed.

Lemma pulse_bit_item (color i : Z) :
  0 <= 23 - i -> pulse_bit (bit_item color i) = Z.testbit color (23 - i).
Proof.
  intros Hi. unfold bit_item. rewrite land_shiftl_1 by exact Hi.
  rewrite negb_involutive. destruct (Z.testbit color (23 - i)); reflexivity.
Qed.

Lemma bit_item_well_formed (color i : Z) : well_formed (bit_item color i).
Proof.
  unfold bit_item, well_formed.
  destruct (negb _); cbn; repeat split; reflexivity.
Qed.

Lemma color_word_bits (red green blue k : Z) :
  0 <= red < 256 -> 0 <= green < 256 -> 0 <= blue < 256 -> 0 <= k < 8 ->
  Z.testbit (color_word red green blue) (16 + k) = Z.testbit green k /\
  Z.testbit (color_word red green blue) (8 + k) = Z.testbit red k /\
  Z.testbit (color_word red green blue) k = Z.testbit blue k.
Proof.
  intros Hr Hg Hb Hk. unfold color_word.
  rewrite !Z.lor_spec, !Z.shiftl_spec by lia.
  replace (16 + k - 16) with k by lia.
  replace (8 + k - 8) with k by lia.
  rewrite (small_testbit red (16 + k - 8)) by lia.
  rewrite (small_testbit blue (16 + k)) by lia.
  rewrite (small_testbit blue (8 + k)) by lia.
  rewrite (Z.testbit_neg_r green (8 + k - 16)) by lia.
  rewrite (Z.testbit_neg_r green (k - 16)) by lia.
  rewrite (Z.testbit_neg_r red (k - 8)) by lia.
  rewrite !orb_false_r. cbn [orb]. repeat split; reflexivity.
Qed.

Lemma bits_value_id (a : Z) : 0 <= a < 256 -> bits_value a = a.
Proof.
  intros Ha.
  assert (All : forallb (fun n => bits_value (Z.of_nat n) =? Z.of_nat n) (seq 0 256) = true)
    by (vm_compute; reflexivity).
  rewrite forallb_forall in All.
  specialize (All (Z.to_nat a)). rewrite Z2Nat.id in All by lia.
  apply Z.eqb_eq, All. apply in_seq. lia.
Qed.

Lemma byte_of_items (color i : Z) (a : Z) :
  0 <= i -> i + 7 <= 23 ->
  (forall k, 0 <= k < 8 -> Z.testbit color (23 - i - 7 + k) = Z.testbit a k) ->
  byte_of (map (bit_item color) [i; i + 1; i + 2; i + 3; i + 4; i + 5; i + 6; i + 7])
  = bits_value a.
Proof.
  intros Hi Hi' Hbits. unfold byte_of, bits_value. cbn [map fold_left].
  rewrite !pulse_bit_item by lia.
  assert (B : forall j, 0 <= j < 8 ->
                       Z.testbit color (23 - (i + j)) = Z.testbit a (7 - j)).
  { intros j Hj. rewrite <- Hbits by lia. f_equal. lia. }
  replace (23 - i) with (23 - (i + 0)) by lia.
  rewrite !B by lia. cbn [Z.sub Z.add Z.opp Z.pos_sub Pos.pred_double].
  reflexivity.
Qed.

End Ws2812Facts.

(** X20.  The frame of [ws2812_set_color] carries the colour in the order
    green, red, blue, each byte with its highest bit first.  For colour
    bytes (0 to 255) and whatever the static array held before, the 24
    items sent are the whole array; every item is HIGH then LOW and lasts
    50 ticks; and read as the LED reads them (a longer HIGH part is a 1)
    the first eight pulses give [green], the next eight [red] and the last
    eight [blue]. *)
Theorem ws2812_frame_decodes (red green blue : Z) (ws2812_bits : list Ws2812.rmt_item32_t) :
  length ws2812_bits = 24%nat ->
  0 <= red < 256 -> 0 <= green < 256 -> 0 <= blue < 256 ->
  let r := Ws2812.ws2812_set_color red green blue ws2812_bits in
  fst r = snd r /\
  length (snd r) = 24%nat /\
  Forall Ws2812.well_formed (snd r) /\
  Ws2812.byte_of (firstn 8 (snd r)) = green /\
  Ws2812.byte_of (firstn 8 (skipn 8 (snd r))) = red /\
  Ws2812.byte_of (skipn 16 (snd r)) = blue.
Proof.
  intros L Hr Hg Hb r. subst r. unfold Ws2812.ws2812_set_color. cbn [fst snd].
  rewrite (fill_as_map _ _ L).
  set (color := Ws2812.color_word red green blue).
  split; [reflexivity|]. split; [reflexivity|].
  cbn [map firstn skipn]. split.
  { repeat (constructor; [apply bit_item_well_formed|]). constructor. }
  split; [|split].
  - rewrite <- (bits_value_id green Hg).
    apply (byte_of_items color 0 green); [lia | lia |].
    intros k Hk. replace (23 - 0 - 7 + k) with (16 + k) by lia.
    apply (color_word_bits red green blue k Hr Hg Hb Hk).
  - rewrite <- (bits_value_id red Hr).
    apply (byte_of_items color 8 red); [lia | lia |].
    intros k Hk. replace (23 - 8 - 7 + k) with (8 + k) by lia.
    apply (color_word_bits red green blue k Hr Hg Hb Hk).
  - rewrite <- (bits_value_id blue Hb).
    apply (byte_of_items color 16 blue); [lia | lia |].
    intros k Hk. replace (23 - 16 - 7 + k) with k by lia.
    apply (color_word_bits red green blue k Hr Hg Hb Hk).
Qed.

Lemma ws2812_frame_decodes_witness :
  Ws2812.byte_of (firstn 8 (snd (Ws2812.ws2812_set_color 255 165 0 example_ws2812_bits)))
  = 165.
Proof.
  apply (ws2812_frame_decodes 255 165 0 example_ws2812_bits); [reflexivity | lia | lia | lia].
Defined.

(** ** The logging task *)

Section TaskFacts.

Variable float : Type.
Variable scaled : Z -> float -> float.
Variable printf_6f : float -> bytes.


(** A loop that ends has met good readings only. *)
Lemma read_channels_true (n : nat) (i : Z) (raw : Z -> Z) (offset : Z)
    (factor : Z -> float) (fv : list float) :
  fst (Task.read_channels float scaled n i raw offset factor fv) = true ->
  forall j, i <= j < i + Z.of_nat n -> -32768 < raw j.
Proof.
  revert i fv. induction n as [|n IH]; intros i fv H j Hj; [lia|].
  cbn [Task.read_channels] in H.
  destruct (raw i >? -32768) eqn:G; [|discriminate H].
  destruct (Z.eq_dec j i) as [-> | Ne]; [lia|].
  apply (IH _ _ H). lia.
Qed.

Lemma read_channels_good (E : (Task.env float)) (fv : list float) :
  Task.good float E -> length fv = 8%nat ->
  let r1 := Task.read_channels float scaled 4 0 (Task.raw1 float E) 0 (Task.scaling_factor float E) fv in
  fst r1 = true /\
  Task.read_channels float scaled 4 0 (Task.raw2 float E) 4 (Task.scaling_factor float E) (snd r1)
  = (true, Task.readings float scaled E).
Proof.
  intros G L.
  do 8 (destruct fv as [|? fv]; [discriminate L|]).
  destruct fv; [|discriminate L].
  pose proof (G 0 ltac:(lia)) as [A0 B0]. pose proof (G 1 ltac:(lia)) as [A1 B1].
  pose proof (G 2 ltac:(lia)) as [A2 B2]. pose proof (G 3 ltac:(lia)) as [A3 B3].
  apply Z.gtb_lt in A0, A1, A2, A3, B0, B1, B2, B3.
  cbn [Task.read_channels].
  change (0 + 1 + 1 + 1) with 3. change (0 + 1 + 1) with 2. change (0 + 1) with 1.
  rewrite A0, A1, A2, A3. cbn [fst snd]. split; [reflexivity|].
  cbn [Task.read_channels].
  change (0 + 1 + 1 + 1) with 3. change (0 + 1 + 1) with 2. change (0 + 1) with 1.
  rewrite B0, B1, B2, B3. reflexivity.
Qed.

(** [fprintf] on a file that is there. *)
Lemma fprintf_there (f text content : bytes) (s : Logfile.state) :
  Logfile.files s !! f = Some content ->
  Task.fprintf f text s
  = Logfile.mkState (<[f := content ++ text]> (Logfile.files s))
      (Logfile.g_current_log_filepath s) (Logfile.g_log_file_path_mutex s).
Proof.
  intros H. unfold Task.fprintf.
  match goal with
  | |- context [match ?x with _ => _ end] =>
      replace x with (Some content) by (symmetry; exact H)
  end.
  reflexivity.
Qed.

Lemma fprintf_values (f : bytes) (vs : list float) (files : gmap bytes bytes)
    (content name : bytes) (m : bool) :
  files !! f = Some content ->
  fold_left (fun s v => Task.fprintf f (bs ";" ++ printf_6f v) s) vs
    (Logfile.mkState files name m)
  = Logfile.mkState
      (<[f := content ++ concat (map (fun v => bs ";" ++ printf_6f v) vs)]> files) name m.
Proof.
  revert files content.
  induction vs as [|v vs IH]; intros files content Hf.
  - cbn [fold_left map concat]. rewrite app_nil_r.
    rewrite (insert_id _ _ _ Hf). reflexivity.
  - cbn [fold_left map concat].
    rewrite (fprintf_there f _ content) by exact Hf.
    cbn [Logfile.files Logfile.g_current_log_filepath Logfile.g_log_file_path_mutex].
    rewrite (IH _ (content ++ (bs ";" ++ printf_6f v))) by apply lookup_insert_eq.
    rewrite insert_insert_eq. rewrite <- !app_assoc. reflexivity.
Qed.

(** A line goes behind what the open file holds; nothing else changes. *)
Lemma log_adc_to_sd_line (f : bytes) (ts : Z) (vs : list float) (s : Logfile.state)
    (content : bytes) :
  Logfile.files s !! f = Some content ->
  length vs = 8%nat ->
  Task.log_adc_to_sd float printf_6f (Some f) ts (Some vs) Task.NUM_CHANNELS s
  = (0, Logfile.mkState
          (<[f := content ++ Files.decimal ts
                  ++ concat (map (fun v => bs ";" ++ printf_6f v) vs) ++ [LF]]>
             (Logfile.files s))
          (Logfile.g_current_log_filepath s) (Logfile.g_log_file_path_mutex s)).
Proof.
  intros Hf L. unfold Task.log_adc_to_sd.
  rewrite (fprintf_there f _ content s Hf).
  rewrite firstn_all2 by (unfold Task.NUM_CHANNELS; lia).
  rewrite (fprintf_values f vs _ (content ++ Files.decimal ts))
    by apply lookup_insert_eq.
  rewrite (fprintf_there f _ (content ++ Files.decimal ts
                              ++ concat (map (fun v => bs ";" ++ printf_6f v) vs))).
  - cbn [Logfile.files Logfile.g_current_log_filepath Logfile.g_log_file_path_mutex].
    rewrite !insert_insert_eq. rewrite <- !app_assoc. reflexivity.
  - cbn [Logfile.files]. rewrite insert_insert_eq, <- app_assoc. apply lookup_insert_eq.
Qed.

(** What [open_next_log_file] has done when it returns a stream. *)
Lemma open_loop_opened (E : Logfile.env) (n : nat) (i : Z) (out_path : bytes)
    (s s' : Logfile.state) (path out' : bytes) :
  Logfile.open_loop E Logfile.MAX_LOG_FILE_PATH_LEN n i out_path s = (Some path, out', s') ->
  out' = path /\
  Logfile.files s' = <[path := Logfile.CSV_HEADER]> (Logfile.files s) /\
  Logfile.g_log_file_path_mutex s' = Logfile.g_log_file_path_mutex s.
Proof.
  revert i out_path. induction n as [|n IH]; intros i out_path H.
  - discriminate H.
  - cbn [Logfile.open_loop] in H.
    destruct (Logfile.opens_for_reading E s _); [exact (IH _ _ H)|].
    destruct (Logfile.fopen_w_ok E _); [|discriminate H].
    injection H as <- <- <-.
    split; [reflexivity|].
    unfold Logfile.publish. cbn [Logfile.g_log_file_path_mutex].
    destruct (_ && _); split; reflexivity.
Qed.

(** A cycle with good readings, logging enabled and the file open. *)
Lemma cycle_logs (E : (Task.env float)) (g : (Task.globals float)) (t : (Task.locals float)) (f c : bytes) :
  Task.logging_mutex float g = true -> Task.logging_active float g = true ->
  Task.take_forever_ok float E = true -> Task.good float E ->
  length (Task.final_values float t) = 8%nat ->
  Task.file float t = Some f ->
  Logfile.files (Task.card float g) !! f = Some c ->
  exists g' t',
    Task.cycle float scaled printf_6f E g t = Some (g', t') /\
    Task.logging_mutex float g' = true /\ Task.logging_active float g' = true /\
    Task.final_values float t' = Task.readings float scaled E /\
    Task.file float t' = Some f /\
    Logfile.files (Task.card float g') = <[f := c ++ Task.line float scaled printf_6f E]> (Logfile.files (Task.card float g)) /\
    Logfile.g_current_log_filepath (Task.card float g')
    = Logfile.g_current_log_filepath (Task.card float g) /\
    Task.trace float g' = Task.trace float g ++ [Task.EvDelay 10].
Proof.
  intros Hm Ha Ht G L Hf Hc.
  destruct (read_channels_good E _ G L) as [R1 R2].
  destruct g as [s m a lv bits tr]. destruct t as [fv lp fl].
  cbn [Task.logging_mutex Task.logging_active Task.final_values Task.file Task.card
       Task.trace] in *.
  subst m a fl.
  unfold Task.cycle. cbv zeta. cbn [Task.final_values].
  rewrite R1. cbn [negb]. rewrite R2. cbn [negb fst snd].
  unfold Task.set_final_values, Task.set_last_voltages, Task.is_logging_enabled,
    Task.ensure_mutex.
  cbn [Task.final_values Task.logging_mutex Task.file Task.log_path].
  destruct (Task.take_10ms_ok float E); cbn [andb Task.logging_mutex Task.logging_active];
    rewrite Ht;
    unfold Task.log_values, Task.vTaskDelay, Task.log, Task.set_card;
    cbn [Task.final_values Task.card Task.logging_mutex Task.logging_active
         Task.last_voltages Task.ws2812_bits Task.trace];
    rewrite (log_adc_to_sd_line f _ (Task.readings float scaled E) s c Hc eq_refl);
    cbn [snd];
    eexists; eexists; (split; [reflexivity|]);
    cbn [Task.logging_mutex Task.logging_active Task.final_values Task.file Task.card
         Task.trace Logfile.files Logfile.g_current_log_filepath];
    unfold Task.line; repeat split; reflexivity.
Qed.

(** A cycle with good readings and logging enabled that opens a file. *)
Lemma cycle_opens (E : (Task.env float)) (g : (Task.globals float)) (t : (Task.locals float))
    (path out : bytes) (s1 : Logfile.state) :
  Task.logging_mutex float g = true -> Task.logging_active float g = true ->
  Task.take_forever_ok float E = true -> Task.good float E ->
  length (Task.final_values float t) = 8%nat ->
  Task.file float t = None ->
  Logfile.open_next_log_file (Task.sd float E) Logfile.MAX_LOG_FILE_PATH_LEN (Task.log_path float t)
    (Task.card float g) = (Some path, out, s1) ->
  exists g' t',
    Task.cycle float scaled printf_6f E g t = Some (g', t') /\
    Task.logging_mutex float g' = true /\ Task.logging_active float g' = true /\
    Task.final_values float t' = Task.readings float scaled E /\
    Task.file float t' = Some path /\ Task.log_path float t' = path /\
    Logfile.files (Task.card float g')
    = <[path := Logfile.CSV_HEADER ++ Task.line float scaled printf_6f E]> (Logfile.files (Task.card float g)) /\
    Logfile.g_current_log_filepath (Task.card float g') = Logfile.g_current_log_filepath s1 /\
    Task.trace float g'
    = Task.trace float g
      ++ [Task.EvRmt (snd (Ws2812.ws2812_set_color 0 255 0 (Task.ws2812_bits float g)));
          Task.EvDelay 5; Task.EvDelay 10].
Proof.
  intros Hm Ha Ht G L Hf Ho.
  destruct (read_channels_good E _ G L) as [R1 R2].
  pose proof Ho as Ho'. unfold Logfile.open_next_log_file in Ho'.
  apply open_loop_opened in Ho'. destruct Ho' as (-> & Hfiles & Hmx).
  destruct g as [s m a lv bits tr]. destruct t as [fv lp fl].
  cbn [Task.logging_mutex Task.logging_active Task.final_values Task.file Task.card
       Task.trace Task.log_path Task.ws2812_bits] in *.
  subst m a fl.
  assert (Hc : Logfile.files s1 !! path = Some Logfile.CSV_HEADER).
  { rewrite Hfiles. apply lookup_insert_eq. }
  unfold Task.cycle. cbv zeta. cbn [Task.final_values].
  rewrite R1. cbn [negb]. rewrite R2. cbn [negb fst snd].
  unfold Task.set_final_values, Task.set_last_voltages, Task.is_logging_enabled,
    Task.ensure_mutex.
  cbn [Task.final_values Task.logging_mutex Task.file Task.log_path].
  destruct (Task.take_10ms_ok float E); cbn [andb Task.logging_mutex Task.logging_active];
    rewrite Ht;
    unfold Task.set_card; cbn [Task.card]; rewrite Ho; cbn [fst snd Task.file];
    unfold Task.log_values, Task.vTaskDelay, Task.log, Task.set_card,
      Task.ws2812_set_green, Task.ws2812_show;
    cbn [Task.final_values Task.card Task.logging_mutex Task.logging_active
         Task.last_voltages Task.ws2812_bits Task.trace];
    rewrite (log_adc_to_sd_line path _ (Task.readings float scaled E) s1 _ Hc eq_refl);
    cbn [snd];
    eexists; eexists; (split; [reflexivity|]);
    cbn [Task.logging_mutex Task.logging_active Task.final_values Task.file Task.card
         Task.trace Task.log_path Logfile.files Logfile.g_current_log_filepath];
    rewrite Hfiles, insert_insert_eq, <- app_assoc;
    unfold Task.line; repeat split; reflexivity.
Qed.

(** The cycles that follow while logging stays enabled. *)
Lemma run_logs (Es : list (Task.env float)) (g : (Task.globals float)) (t : (Task.locals float)) (f c : bytes) :
  Task.logging_mutex float g = true -> Task.logging_active float g = true ->
  Forall (fun E => Task.good float E /\ Task.take_forever_ok float E = true) Es ->
  length (Task.final_values float t) = 8%nat ->
  Task.file float t = Some f ->
  Logfile.files (Task.card float g) !! f = Some c ->
  exists g' t',
    Task.run float scaled printf_6f Es g t = Some (g', t') /\
    Task.logging_active float g' = true /\
    Task.file float t' = Some f /\
    Logfile.files (Task.card float g')
    = <[f := c ++ concat (map (Task.line float scaled printf_6f) Es)]> (Logfile.files (Task.card float g)) /\
    Logfile.g_current_log_filepath (Task.card float g')
    = Logfile.g_current_log_filepath (Task.card float g).
Proof.
  intros Hm Ha HEs. revert g t c Hm Ha.
  induction HEs as [|E Es [G Ht] _ IH]; intros g t c Hm Ha L Hf Hc.
  - exists g, t. cbn [Task.run map concat]. rewrite app_nil_r.
    rewrite (insert_id _ _ _ Hc). repeat split; [exact Ha | exact Hf].
  - destruct (cycle_logs E g t f c Hm Ha Ht G L Hf Hc)
      as (g1 & t1 & Hcy & Hm1 & Ha1 & Hfv1 & Hf1 & Hfiles1 & Hcur1 & _).
    assert (L1 : length (Task.final_values float t1) = 8%nat) by (rewrite Hfv1; reflexivity).
    assert (Hc1 : Logfile.files (Task.card float g1) !! f = Some (c ++ Task.line float scaled printf_6f E)).
    { rewrite Hfiles1. apply lookup_insert_eq. }
    destruct (IH g1 t1 _ Hm1 Ha1 L1 Hf1 Hc1)
      as (g' & t' & Hrun & Ha' & Hf' & Hfiles' & Hcur').
    exists g', t'. cbn [Task.run]. rewrite Hcy.
    split; [exact Hrun|]. split; [exact Ha'|]. split; [exact Hf'|].
    split; [|congruence].
    rewrite Hfiles', Hfiles1, insert_insert_eq. cbn [map concat].
    rewrite <- app_assoc. reflexivity.
Qed.

(** A cycle that ends with a new stream has opened it. *)
Lemma cycle_started (E : (Task.env float)) (g g' : (Task.globals float)) (t t' : (Task.locals float)) (f' : bytes) :
  Task.logging_mutex float g = true -> Task.good float E ->
  length (Task.final_values float t) = 8%nat ->
  Task.file float t = None ->
  Task.cycle float scaled printf_6f E g t = Some (g', t') ->
  Task.file float t' = Some f' ->
  Task.logging_active float g = true /\ Task.take_forever_ok float E = true /\
  exists out s1,
    Logfile.open_next_log_file (Task.sd float E) Logfile.MAX_LOG_FILE_PATH_LEN (Task.log_path float t)
      (Task.card float g) = (Some f', out, s1).
Proof.
  intros Hm G L Hf Hcy Hf'.
  destruct (read_channels_good E _ G L) as [R1 R2].
  destruct g as [s m a lv bits tr]. destruct t as [fv lp fl].
  cbn [Task.logging_mutex Task.logging_active Task.final_values Task.file Task.card
       Task.trace Task.log_path] in *.
  subst m fl.
  unfold Task.cycle in Hcy. cbv zeta in Hcy. cbn [Task.final_values] in Hcy.
  rewrite R1 in Hcy. cbn [negb] in Hcy. rewrite R2 in Hcy. cbn [negb fst snd] in Hcy.
  unfold Task.set_final_values, Task.set_last_voltages, Task.is_logging_enabled,
    Task.ensure_mutex in Hcy.
  cbn [Task.final_values Task.logging_mutex Task.file Task.log_path] in Hcy.
  assert (Hcard : forall b : bool,
             Task.card float (if b then Task.mkGlobals float s true a (firstn 8 (Task.readings float scaled E))
                                 bits tr
                     else Task.mkGlobals float s true a lv bits tr) = s)
    by (intros []; reflexivity).
  destruct (Task.take_10ms_ok float E); cbn [andb Task.logging_mutex Task.logging_active] in Hcy;
    (destruct (Task.take_forever_ok float E);
     [destruct a|];
     [ unfold Task.set_card in Hcy; cbn [Task.card] in Hcy;
       destruct (Logfile.open_next_log_file _ _ _ _) as [[fo out] s1] eqn:Ho;
       cbn [fst snd Task.file] in Hcy;
       destruct fo as [p|];
       injection Hcy as _ <-; cbn [Task.file] in Hf';
       [injection Hf' as ->; split; [reflexivity|]; split; [reflexivity|];
        exists out, s1; reflexivity
       | discriminate Hf']
     | injection Hcy as _ <-; discriminate Hf'
     | injection Hcy as _ <-; discriminate Hf' ]).
Qed.

(** The button leaves the card alone. *)
Lemma button_toggle_cb_card (E : (Task.env float)) (g g' : (Task.globals float)) :
  Task.logging_mutex float g = true ->
  Task.button_toggle_cb float E g = Some g' ->
  Task.logging_mutex float g' = true /\ Task.card float g' = Task.card float g.
Proof.
  intros Hm H. destruct g as [s m a lv bits tr].
  cbn [Task.logging_mutex] in Hm. subst m.
  unfold Task.button_toggle_cb, Task.is_logging_enabled, Task.set_logging_active,
    Task.ensure_mutex in H.
  cbn [Task.logging_mutex] in H.
  destruct (Task.take_forever_ok float E); injection H as <-; split; reflexivity.
Qed.

(** X21.  While logging stays enabled the task writes one file, a line a
    cycle.  From a task without a file, with the mutex of the flags
    created and logging active: when the first cycle's
    [open_next_log_file] returns a stream on [path], and all cycles have
    good readings and can take the mutex, then after these cycles the task
    still has the stream on [path], that file holds the CSV header and
    behind it one line per cycle, in order (the timestamp and the eight
    scaled readings of that cycle, converter 1 first), and no other file
    of the card has changed. *)
Theorem logging_session_writes_lines (E0 : (Task.env float)) (Es : list (Task.env float))
    (g : (Task.globals float)) (t : (Task.locals float)) (path out : bytes) (s1 : Logfile.state) :
  Task.logging_mutex float g = true -> Task.logging_active float g = true ->
  Forall (fun E => Task.good float E /\ Task.take_forever_ok float E = true) (E0 :: Es) ->
  length (Task.final_values float t) = 8%nat ->
  Task.file float t = None ->
  Logfile.open_next_log_file (Task.sd float E0) Logfile.MAX_LOG_FILE_PATH_LEN (Task.log_path float t)
    (Task.card float g) = (Some path, out, s1) ->
  exists g' t',
    Task.run float scaled printf_6f (E0 :: Es) g t = Some (g', t') /\
    Task.file float t' = Some path /\
    Logfile.files (Task.card float g')
    = <[path := Logfile.CSV_HEADER ++ concat (map (Task.line float scaled printf_6f) (E0 :: Es))]>
        (Logfile.files (Task.card float g)) /\
    Logfile.g_current_log_filepath (Task.card float g') = Logfile.g_current_log_filepath s1.
Proof.
  intros Hm Ha HEs L Hf Ho.
  pose proof (Forall_inv HEs) as [G0 Ht0]. apply Forall_inv_tail in HEs.
  destruct (cycle_opens E0 g t path out s1 Hm Ha Ht0 G0 L Hf Ho)
    as (g1 & t1 & Hcy & Hm1 & Ha1 & Hfv1 & Hf1 & _ & Hfiles1 & Hcur1 & _).
  assert (L1 : length (Task.final_values float t1) = 8%nat) by (rewrite Hfv1; reflexivity).
  assert (Hc1 : Logfile.files (Task.card float g1) !! path
                = Some (Logfile.CSV_HEADER ++ Task.line float scaled printf_6f E0)).
  { rewrite Hfiles1. apply lookup_insert_eq. }
  destruct (run_logs Es g1 t1 path _ Hm1 Ha1 HEs L1 Hf1 Hc1)
    as (g' & t' & Hrun & _ & Hf' & Hfiles' & Hcur').
  exists g', t'. cbn [Task.run]. rewrite Hcy.
  split; [exact Hrun|]. split; [exact Hf'|]. split; [|congruence].
  rewrite Hfiles', Hfiles1, insert_insert_eq. cbn [map concat].
  rewrite <- app_assoc. reflexivity.
Qed.

(** X22.  A bad reading skips the whole cycle.  When one of the eight raw
    readings is the error value -32768, the cycle ends after a delay of
    200 ms: the card, the logging flags and the published voltages are as
    before, and so are the task's stream and path, whatever the logging
    flag says; an open file is neither written nor closed. *)
Theorem bad_reading_skips_cycle (E : (Task.env float)) (g : (Task.globals float)) (t : (Task.locals float)) (i : Z) :
  0 <= i < 4 ->
  Task.raw1 float E i <= -32768 \/ Task.raw2 float E i <= -32768 ->
  exists g' t',
    Task.cycle float scaled printf_6f E g t = Some (g', t') /\
    Task.card float g' = Task.card float g /\
    Task.logging_mutex float g' = Task.logging_mutex float g /\
    Task.logging_active float g' = Task.logging_active float g /\
    Task.last_voltages float g' = Task.last_voltages float g /\
    Task.ws2812_bits float g' = Task.ws2812_bits float g /\
    Task.trace float g' = Task.trace float g ++ [Task.EvDelay 200] /\
    Task.file float t' = Task.file float t /\ Task.log_path float t' = Task.log_path float t.
Proof.
  intros Hi Hbad. unfold Task.cycle. cbv zeta.
  destruct (fst (Task.read_channels float scaled 4 0 (Task.raw1 float E) 0 (Task.scaling_factor float E)
                   (Task.final_values float t))) eqn:R1; cbn [negb].
  - destruct (fst (Task.read_channels float scaled 4 0 (Task.raw2 float E) 4 (Task.scaling_factor float E) _)) eqn:R2;
      cbn [negb].
    + exfalso.
      pose proof (read_channels_true _ _ _ _ _ _ R1 i ltac:(lia)).
      pose proof (read_channels_true _ _ _ _ _ _ R2 i ltac:(lia)).
      lia.
    + eexists; eexists; split; [reflexivity|]. repeat split; reflexivity.
  - eexists; eexists; split; [reflexivity|]. repeat split; reflexivity.
Qed.

(** A cycle with good readings, logging switched off and the file open. *)
Lemma cycle_stops (E : (Task.env float)) (g : (Task.globals float)) (t : (Task.locals float)) (f : bytes) :
  Task.logging_mutex float g = true -> Task.logging_active float g = false ->
  Task.good float E ->
  length (Task.final_values float t) = 8%nat ->
  Task.file float t = Some f ->
  exists g1 t1,
    Task.cycle float scaled printf_6f E g t = Some (g1, t1) /\
    Task.logging_mutex float g1 = true /\
    length (Task.final_values float t1) = 8%nat /\
    Task.file float t1 = None /\
    Logfile.files (Task.card float g1) = Logfile.files (Task.card float g) /\
    Logfile.g_current_log_filepath (Task.card float g1)
    = (if Logfile.g_log_file_path_mutex (Task.card float g) && Logfile.take_ok (Task.sd float E)
       then bs "N/A" else Logfile.g_current_log_filepath (Task.card float g)) /\
    Task.trace float g1
    = Task.trace float g
      ++ [Task.EvFclose f;
          Task.EvRmt (snd (Ws2812.ws2812_set_color 255 0 0 (Task.ws2812_bits float g)));
          Task.EvDelay 5; Task.EvDelay 10].
Proof.
  intros Hm Ha G L Hf.
  destruct (read_channels_good E _ G L) as [R1 R2].
  destruct g as [s m a lv bits tr]. destruct t as [fv lp fl].
  cbn [Task.logging_mutex Task.logging_active Task.final_values Task.file Task.card
       Task.trace Task.log_path Task.ws2812_bits] in *.
  subst m a fl.
  assert (Hpub : Logfile.files (Logfile.publish (Task.sd float E) s (bs "N/A")) = Logfile.files s
                 /\ Logfile.g_current_log_filepath (Logfile.publish (Task.sd float E) s (bs "N/A"))
                    = (if Logfile.g_log_file_path_mutex s && Logfile.take_ok (Task.sd float E)
                       then bs "N/A" else Logfile.g_current_log_filepath s)).
  { unfold Logfile.publish. destruct (_ && _); split; reflexivity. }
  destruct Hpub as [Hpf Hpc].
  unfold Task.cycle. cbv zeta. cbn [Task.final_values].
  rewrite R1. cbn [negb]. rewrite R2. cbn [negb fst snd].
  unfold Task.set_final_values, Task.set_last_voltages, Task.is_logging_enabled,
    Task.ensure_mutex.
  cbn [Task.final_values Task.logging_mutex Task.file Task.log_path].
  destruct (Task.take_10ms_ok float E); cbn [andb Task.logging_mutex Task.logging_active];
    (assert (Hoff : (if Task.take_forever_ok float E then false else false) = false)
       by (destruct (Task.take_forever_ok float E); reflexivity));
    rewrite Hoff;
    eexists; eexists; (split; [reflexivity|]);
    unfold Task.vTaskDelay, Task.ws2812_set_red, Task.ws2812_show, Task.publish_na,
      Task.log, Task.set_card;
    cbn [Task.file Task.card Task.trace Task.ws2812_bits Task.logging_mutex
         Task.logging_active Task.last_voltages Task.final_values Task.log_path];
    (split; [reflexivity|]); (split; [reflexivity|]); (split; [reflexivity|]);
    (split; [exact Hpf|]); (split; [exact Hpc|]);
    rewrite <- !app_assoc; reflexivity.
Qed.

(** X23.  Stopping and starting again never touches the finished log.
    With a stream open on a file of the card and logging switched off, a
    cycle with good readings closes the stream, leaves every file as it
    is, sets the global name to N/A when its mutex is there and taken,
    and shows red.  When the button then switches logging on and a later
    cycle with good readings ends with a stream, on a card whose files
    can be opened for reading, that stream is on another file: the
    finished log keeps its content, and the new file holds the header and
    the line of that cycle. *)
Theorem logging_restart_opens_new_file (Eoff Ebtn Eon : (Task.env float))
    (g : (Task.globals float)) (t : (Task.locals float)) (f c : bytes) :
  Task.logging_mutex float g = true -> Task.logging_active float g = false ->
  Task.good float Eoff ->
  length (Task.final_values float t) = 8%nat ->
  Task.file float t = Some f ->
  Logfile.files (Task.card float g) !! f = Some c ->
  exists g1 t1,
    Task.cycle float scaled printf_6f Eoff g t = Some (g1, t1) /\
    Task.file float t1 = None /\
    Logfile.files (Task.card float g1) = Logfile.files (Task.card float g) /\
    Logfile.g_current_log_filepath (Task.card float g1)
    = (if Logfile.g_log_file_path_mutex (Task.card float g) && Logfile.take_ok (Task.sd float Eoff)
       then bs "N/A" else Logfile.g_current_log_filepath (Task.card float g)) /\
    Task.trace float g1
    = Task.trace float g
      ++ [Task.EvFclose f;
          Task.EvRmt (snd (Ws2812.ws2812_set_color 255 0 0 (Task.ws2812_bits float g)));
          Task.EvDelay 5; Task.EvDelay 10] /\
    forall (g2 g3 : (Task.globals float)) (t3 : (Task.locals float)) (f' : bytes),
      Task.button_toggle_cb float Ebtn g1 = Some g2 ->
      Task.good float Eon ->
      (forall p, is_Some (Logfile.files (Task.card float g) !! p) ->
                 Logfile.fopen_r_ok (Task.sd float Eon) p = true) ->
      Task.cycle float scaled printf_6f Eon g2 t1 = Some (g3, t3) ->
      Task.file float t3 = Some f' ->
      f' <> f /\
      Logfile.files (Task.card float g3) !! f = Some c /\
      Logfile.files (Task.card float g3) !! f' = Some (Logfile.CSV_HEADER ++ Task.line float scaled printf_6f Eon).
Proof.
  intros Hm Ha G L Hf Hc.
  destruct (cycle_stops Eoff g t f Hm Ha G L Hf)
    as (g1 & t1 & Hcy1 & Hm1 & L1 & Hf1 & Hfiles1 & Hcur1 & Htr1).
  exists g1, t1.
  split; [exact Hcy1|]. split; [exact Hf1|]. split; [exact Hfiles1|].
  split; [exact Hcur1|]. split; [exact Htr1|].
  intros g2 g3 t3 f' Hbtn Gon Hread Hcy Hf'.
  apply button_toggle_cb_card in Hbtn; [|exact Hm1].
  destruct Hbtn as [Hm2 Hcard2].
  destruct (cycle_started Eon g2 g3 t1 t3 f' Hm2 Gon L1 Hf1 Hcy Hf')
    as (Ha2 & Ht2 & out & s1 & Ho).
  destruct (cycle_opens Eon g2 t1 f' out s1 Hm2 Ha2 Ht2 Gon L1 Hf1 Ho)
    as (g3' & t3' & Hcy' & _ & _ & _ & _ & _ & Hfiles3 & _).
  rewrite Hcy in Hcy'. injection Hcy' as <- <-.
  rewrite Hcard2, Hfiles1 in Hfiles3.
  assert (Hread2 : forall p, is_Some (Logfile.files (Task.card float g2) !! p) ->
                             Logfile.fopen_r_ok (Task.sd float Eon) p = true).
  { intros p Hp. apply Hread. rewrite Hcard2, Hfiles1 in Hp. exact Hp. }
  pose proof (open_loop_spec (Task.sd float Eon) Logfile.MAX_LOG_FILE_PATH_LEN 999 1
                (Task.log_path float t1) (Task.card float g2) Hread2) as P.
  unfold Logfile.open_next_log_file in Ho. rewrite Ho in P.
  destruct P as (k & _ & _ & _ & Hfree & _).
  rewrite Hcard2, Hfiles1 in Hfree.
  assert (Ne : f' <> f).
  { intros ->.
    assert (Some c = None) by (etransitivity; [symmetry; exact Hc | exact Hfree]).
    discriminate. }
  split; [exact Ne|]. rewrite Hfiles3. split.
  - rewrite lookup_insert_ne by exact Ne. exact Hc.
  - apply lookup_insert_eq.
Qed.

End TaskFacts.

Lemma logging_session_writes_lines_witness :
  exists g' t',
    Task.run Z Z.mul Files.decimal [example_task_env 1; example_task_env 2]
      (example_task_globals true) (example_task_locals None) = Some (g', t') /\
    Task.file Z t' = Some (bs "/sdcard/log_3.csv").
Proof.
  destruct (logging_session_writes_lines Z Z.mul Files.decimal
              (example_task_env 1) [example_task_env 2]
              (example_task_globals true) (example_task_locals None)
              (bs "/sdcard/log_3.csv") (bs "/sdcard/log_3.csv")
              (snd (Logfile.open_next_log_file example_log_env
                      Logfile.MAX_LOG_FILE_PATH_LEN [] example_log_state)))
    as (g' & t' & Hrun & Hfile & _).
  - reflexivity.
  - reflexivity.
  - constructor; [split; [intros i Hi; cbn; lia | reflexivity]|].
    constructor; [split; [intros i Hi; cbn; lia | reflexivity]|]. constructor.
  - reflexivity.
  - reflexivity.
  - vm_compute. reflexivity.
  - exists g', t'. split; [exact Hrun | exact Hfile].
Defined.

Lemma bad_reading_skips_cycle_witness :
  exists g' t',
    Task.cycle Z Z.mul Files.decimal example_task_env_bad (example_task_globals true)
      (example_task_locals (Some (bs "/sdcard/log_1.csv"))) = Some (g', t') /\
    Task.card Z g' = example_log_state.
Proof.
  destruct (bad_reading_skips_cycle Z Z.mul Files.decimal example_task_env_bad
              (example_task_globals true)
              (example_task_locals (Some (bs "/sdcard/log_1.csv"))) 2)
    as (g' & t' & Hcy & Hcard & _).
  - lia.
  - right. cbn. lia.
  - exists g', t'. split; [exact Hcy | exact Hcard].
Defined.

Lemma logging_restart_opens_new_file_witness :
  exists g1 t1,
    Task.cycle Z Z.mul Files.decimal (example_task_env 1) (example_task_globals false)
      (example_task_locals (Some (bs "/sdcard/log_2.csv"))) = Some (g1, t1) /\
    Task.file Z t1 = None.
Proof.
  destruct (logging_restart_opens_new_file Z Z.mul Files.decimal
              (example_task_env 1) (example_task_env 2) (example_task_env 3)
              (example_task_globals false)
              (example_task_locals (Some (bs "/sdcard/log_2.csv")))
              (bs "/sdcard/log_2.csv") (bs "old 2"))
    as (g1 & t1 & Hcy & Hfile & _).
  - reflexivity.
  - reflexivity.
  - intros i Hi; cbn; lia.
  - reflexivity.
  - reflexivity.
  - vm_compute. reflexivity.
  - exists g1, t1. split; [exact Hcy | exact Hfile].
Defined.

(** ** The settings in NVS *)

Section SettingsFacts.

Variable float : Type.
Variable one : float.

Lemma default_loop_all (configs : list (Settings.channel_config_t float)) :
  length configs = 8%nat ->
  length (Settings.default_loop float one 8 0 configs) = 8%nat /\
  Forall (Settings.is_default float one) (Settings.default_loop float one 8 0 configs).
Proof.
  intros L.
  do 8 (destruct configs as [|[] configs]; [discriminate L|]).
  destruct configs; [|discriminate L].
  split; [reflexivity|].
  repeat (constructor; [split; reflexivity|]). constructor.
Qed.

Lemma default_state (st : (Settings.state float)) :
  length (Settings.channel_configs float st) = 8%nat ->
  length (Settings.channel_configs float (Settings.set_default_channel_configs float one st)) = 8%nat /\
  Forall (Settings.is_default float one) (Settings.channel_configs float (Settings.set_default_channel_configs float one st)) /\
  Settings.flash float (Settings.set_default_channel_configs float one st) = Settings.flash float st.
Proof.
  intros L. unfold Settings.set_default_channel_configs.
  cbn [Settings.channel_configs Settings.flash].
  destruct (default_loop_all _ L) as [A B]. repeat split; assumption.
Qed.

(** What [nvs_get_blob] leaves in the array has the array's length. *)
Lemma nvs_get_blob_length (E : Settings.env) (f : (Settings.nvs float))
    (out : list (Settings.channel_config_t float)) :
  length out = 8%nat ->
  length (snd (fst (Settings.nvs_get_blob float E f out 8))) = 8%nat.
Proof.
  intros L. unfold Settings.nvs_get_blob.
  destruct (Settings.chan_configs float f) as [b|]; [|exact L].
  destruct (Settings.get_blob_err E =? 0); [|exact L].
  destruct (length b <=? 8)%nat eqn:Le; [|exact L].
  apply Nat.leb_le in Le. cbn [fst snd].
  rewrite length_app, length_skipn. lia.
Qed.

(** X24.  After [settings_init] the channels are the stored ones or the
    defaults, never a mix.  Whatever the array held before (eight
    entries), whatever the flash holds and whichever NVS calls fail:
    when [settings_init] returns, the array has eight entries, and either
    it is exactly the blob the flash holds under [chan_configs], or every
    channel has factor 1.0 and unit [V].  A blob of eight entries is
    loaded whenever the flash initialises, the namespace opens and the
    blob can be read. *)
Theorem settings_init_loaded_or_default (E : Settings.env) (st st' : (Settings.state float)) :
  length (Settings.channel_configs float st) = 8%nat ->
  Settings.settings_init float one E st = Some st' ->
  length (Settings.channel_configs float st') = 8%nat /\
  (Settings.chan_configs float (Settings.flash float st') = Some (Settings.channel_configs float st') \/
   Forall (Settings.is_default float one) (Settings.channel_configs float st')) /\
  (forall b, Settings.flash_init E = 0 -> Settings.open_readonly E = 0 ->
             Settings.get_blob_err E = 0 ->
             Settings.chan_configs float (Settings.flash float st) = Some b -> length b = 8%nat ->
             st' = Settings.mkState float (Settings.flash float st) b).
Proof.
  intros L H. unfold Settings.settings_init in H. cbv zeta in H.
  set (first := if (Settings.flash_init E =? Settings.ESP_ERR_NVS_NO_FREE_PAGES)
                   || (Settings.flash_init E =? Settings.ESP_ERR_NVS_NEW_VERSION_FOUND)
                then _ else _) in H.
  assert (Hfirst : forall err st0, first = Some (err, st0) ->
             length (Settings.channel_configs float st0) = 8%nat /\
             (Settings.flash_init E = 0 -> err = 0 /\ st0 = st)).
  { subst first. intros err st0.
    destruct (_ || _) eqn:B.
    - destruct (Settings.flash_erase E =? 0); [|discriminate].
      intros [= <- <-]. split; [exact L|]. intros Z0. rewrite Z0 in B. discriminate B.
    - intros [= <- <-]. split; [exact L|]. intros Z0. split; [exact Z0 | reflexivity]. }
  destruct first as [[err st0]|]; [|discriminate H].
  destruct (Hfirst err st0 eq_refl) as [L0 Hsame]. clear Hfirst.
  destruct (err =? 0) eqn:Eerr; cbn [negb] in H; [|discriminate H].
  destruct (Settings.open_readonly E =? 0) eqn:Eopen; cbn [negb] in H.
  - pose proof (nvs_get_blob_length E (Settings.flash float st0) _ L0) as Lb.
    destruct (negb (fst (fst (Settings.nvs_get_blob float E (Settings.flash float st0) (Settings.channel_configs float st0)
                                Settings.NUM_CHANNELS)) =? 0)
              || negb (snd (Settings.nvs_get_blob float E (Settings.flash float st0) (Settings.channel_configs float st0)
                              Settings.NUM_CHANNELS) =? Settings.NUM_CHANNELS)%nat) eqn:Bad.
    + injection H as <-.
      destruct (default_state (Settings.mkState float (Settings.flash float st0)
                  (snd (fst (Settings.nvs_get_blob float E (Settings.flash float st0) (Settings.channel_configs float st0)
                               Settings.NUM_CHANNELS)))) Lb) as (A & B & C).
      split; [exact A|]. split; [right; exact B|].
      intros b Z0 _ Zb Hb Lb8. exfalso.
      destruct (Hsame Z0) as [_ ->].
      unfold Settings.nvs_get_blob in Bad. rewrite Hb, Zb in Bad.
      cbn [Z.eqb] in Bad. rewrite Lb8 in Bad. cbn in Bad. discriminate Bad.
    + injection H as <-. cbn [Settings.channel_configs Settings.flash].
      split; [exact Lb|].
      apply orb_false_elim in Bad. destruct Bad as [Ok Size].
      apply negb_false_iff in Ok, Size.
      apply Z.eqb_eq in Ok. apply Nat.eqb_eq in Size.
      unfold Settings.nvs_get_blob in *.
      destruct (Settings.chan_configs float (Settings.flash float st0)) as [b|] eqn:Hb.
      * destruct (Settings.get_blob_err E =? 0) eqn:Zb.
        -- destruct (length b <=? Settings.NUM_CHANNELS)%nat eqn:Le.
           ++ cbn [fst snd] in *.
              assert (Hsk : skipn (length b) (Settings.channel_configs float st0) = []).
              { apply skipn_all2. unfold Settings.NUM_CHANNELS in Size. lia. }
              rewrite Hsk, app_nil_r.
              split; [left; reflexivity|].
              intros b' Z0 _ _ Hb' _. destruct (Hsame Z0) as [_ ->].
              assert (Some b = Some b') by (etransitivity; [symmetry; exact Hb | exact Hb']).
              congruence.
           ++ cbn [fst snd] in Ok. discriminate Ok.
        -- cbn [fst snd] in Ok. apply Z.eqb_neq in Zb. contradiction.
      * cbn [fst snd] in Ok. discriminate Ok.
  - injection H as <-.
    destruct (default_state st0 L0) as (A & B & C).
    split; [exact A|]. split; [right; exact B|].
    intros b _ Zo _ _ _. rewrite Zo in Eopen. discriminate Eopen.
Qed.

(** X25.  Saved channels come back after a restart, and a failed save
    changes nothing in RAM.  For eight channels: when
    [settings_save_channel_configs] returns an error the array in RAM is
    as before; when it returns [ESP_OK], [settings_get_channel_configs]
    gives the saved channels, and a later [settings_init] on that flash,
    whatever the array holds by then, loads exactly these channels
    whenever the flash initialises, the namespace opens and the blob can
    be read.  The key [log_on_boot] is left as it is in both cases. *)
Theorem settings_save_round_trip (E : Settings.env) (st : (Settings.state float))
    (configs : list (Settings.channel_config_t float)) :
  length configs = 8%nat ->
  let r := Settings.settings_save_channel_configs float E (Some configs) st in
  (fst r <> 0 -> Settings.channel_configs float (snd r) = Settings.channel_configs float st) /\
  Settings.log_on_boot float (Settings.flash float (snd r)) = Settings.log_on_boot float (Settings.flash float st) /\
  (fst r = 0 ->
   Settings.settings_get_channel_configs float (snd r) = configs /\
   forall (E' : Settings.env) (ram : list (Settings.channel_config_t float)),
     length ram = 8%nat ->
     Settings.flash_init E' = 0 -> Settings.open_readonly E' = 0 ->
     Settings.get_blob_err E' = 0 ->
     Settings.settings_init float one E' (Settings.mkState float (Settings.flash float (snd r)) ram)
     = Some (Settings.mkState float (Settings.flash float (snd r)) configs)).
Proof.
  intros L r. subst r. unfold Settings.settings_save_channel_configs.
  assert (F : firstn Settings.NUM_CHANNELS configs = configs)
    by (apply firstn_all2; unfold Settings.NUM_CHANNELS; lia).
  rewrite F.
  destruct (Settings.open_readwrite E =? 0) eqn:Eo; cbn [negb].
  - destruct (Settings.set_blob_err E =? 0) eqn:Es.
    + unfold Settings.committed.
      destruct (Settings.commit_err E =? 0) eqn:Ec; cbn [fst snd Z.eqb].
      * cbn [Settings.channel_configs Settings.flash Settings.log_on_boot].
        split; [intros N; contradiction|]. split; [reflexivity|].
        intros _. split; [reflexivity|].
        intros E' ram Lr Zi Zo Zb.
        unfold Settings.settings_init. rewrite Zi, Zo.
        cbv [Settings.ESP_ERR_NVS_NO_FREE_PAGES Settings.ESP_ERR_NVS_NEW_VERSION_FOUND].
        cbn [Z.eqb orb negb].
        unfold Settings.nvs_get_blob. cbn [Settings.flash Settings.chan_configs
                                             Settings.channel_configs].
        rewrite Zb. cbn [Z.eqb]. rewrite L. cbn [Nat.leb Settings.NUM_CHANNELS fst snd].
        cbn [negb Z.eqb Nat.eqb orb].
        rewrite skipn_all2 by lia. rewrite app_nil_r. reflexivity.
      * rewrite Ec. cbn [fst snd Settings.channel_configs Settings.flash].
        split; [reflexivity|].
        split; [destruct (Settings.uncommitted_kept E); reflexivity|].
        intros Z0. apply Z.eqb_neq in Ec. contradiction.
    + cbn [fst snd]. split; [reflexivity|]. split; [reflexivity|].
      intros Z0. apply Z.eqb_neq in Es. contradiction.
  - cbn [fst snd]. split; [reflexivity|]. split; [reflexivity|].
    intros Z0. apply Z.eqb_neq in Eo. contradiction.
Qed.

(** X26.  The flag [log_on_boot] comes back as it was set, and reads as
    false when it cannot be read.  After a [settings_set_log_on_boot]
    whose NVS calls succeed, [settings_get_log_on_boot] gives the value
    set whenever the namespace opens and the key can be read, and the
    channels in flash and RAM are as before; when the namespace cannot be
    opened, or there is no such key, [settings_get_log_on_boot] gives
    false. *)
Theorem log_on_boot_round_trip (E E' : Settings.env) (st : (Settings.state float)) (enabled : bool) :
  Settings.open_readwrite E = 0 -> Settings.set_u8_err E = 0 ->
  Settings.commit_err E = 0 ->
  let st' := Settings.settings_set_log_on_boot float E enabled st in
  (Settings.open_readonly E' = 0 -> Settings.get_u8_err E' = 0 ->
   Settings.settings_get_log_on_boot float E' st' = enabled) /\
  Settings.chan_configs float (Settings.flash float st') = Settings.chan_configs float (Settings.flash float st) /\
  Settings.channel_configs float st' = Settings.channel_configs float st /\
  (forall st0 : (Settings.state float),
     Settings.open_readonly E' <> 0 \/ Settings.log_on_boot float (Settings.flash float st0) = None ->
     Settings.settings_get_log_on_boot float E' st0 = false).
Proof.
  intros Zo Zs Zc st'. subst st'.
  unfold Settings.settings_set_log_on_boot, Settings.committed.
  rewrite Zo, Zs, Zc. cbn [Z.eqb negb fst snd].
  split; [|split; [reflexivity|split; [reflexivity|]]].
  - intros Zr Zg. unfold Settings.settings_get_log_on_boot, Settings.nvs_get_u8.
    rewrite Zr, Zg. cbn [Z.eqb negb Settings.flash Settings.log_on_boot snd].
    destruct enabled; reflexivity.
  - intros st0 [N | N]; unfold Settings.settings_get_log_on_boot.
    + apply Z.eqb_neq in N. rewrite N. reflexivity.
    + destruct (Settings.open_readonly E' =? 0); cbn [negb]; [|reflexivity].
      unfold Settings.nvs_get_u8. rewrite N. reflexivity.
Qed.

End SettingsFacts.

Lemma settings_init_loaded_or_default_witness :
  exists st',
    Settings.settings_init Z 1 example_settings_env example_settings_state = Some st' /\
    Forall (Settings.is_default Z 1) (Settings.channel_configs Z st').
Proof.
  eexists. split; [reflexivity|].
  destruct (settings_init_loaded_or_default Z 1 example_settings_env
              example_settings_state _ eq_refl eq_refl) as (_ & [H | H] & _).
  - discriminate H.
  - exact H.
Defined.

Lemma settings_save_round_trip_witness :
  Settings.settings_get_channel_configs Z
    (snd (Settings.settings_save_channel_configs Z example_settings_env
            (Some example_configs) example_settings_state))
  = example_configs.
Proof.
  destruct (settings_save_round_trip Z 1 example_settings_env example_settings_state
              example_configs eq_refl) as (_ & _ & H).
  exact (proj1 (H eq_refl)).
Defined.

Lemma log_on_boot_round_trip_witness :
  Settings.settings_get_log_on_boot Z example_settings_env
    (Settings.settings_set_log_on_boot Z example_settings_env true example_settings_state)
  = true.
Proof.
  destruct (log_on_boot_round_trip Z example_settings_env example_settings_env
              example_settings_state true eq_refl eq_refl eq_refl) as (H & _).
  exact (H eq_refl eq_refl).
Defined.

(** ** The logging switch of the web interface *)

Section LogApiFacts.

Variable float : Type.

Lemma bytes_eqb_eq (a b : bytes) : bytes_eqb a b = true <-> a = b.
Proof.
  split; [|intros ->; apply bytes_eqb_refl].
  revert b. induction a as [|x a IH]; intros [|y b] H; cbn [bytes_eqb] in H;
    try discriminate H; [reflexivity|].
  apply andb_true_iff in H. destruct H as [H1 H2].
  apply Ascii.eqb_eq in H1. rewrite H1, (IH b H2). reflexivity.
Qed.

(** X27.  Only the value 1 of [active] switches logging on, and
    [/log_status] shows what [/log] has set.  With the mutex of the flags
    created and taken by both handlers, [log_toggle_handler] always
    replies the JSON object with status ok, as [application/json], returns
    [ESP_OK] and leaves the card alone; a [log_status_get_handler] that
    follows replies the object with active 1 or active 0.  When the query
    string fits [query[16]] and the value of [active] fits [val[4]] (at
    most 15 and 3 bytes), the reply is 1 exactly when the value is the
    one-character string 1, so a value such as 0 or 01 switches logging
    off.  When the request has no query or no such key, or the query or
    the value does not fit (as the value true, of four bytes), the reply
    is the state logging was in before. *)
Theorem log_toggle_then_status (E E' : Task.env float) (req : LogApi.request)
    (g : Task.globals float) :
  Task.logging_mutex float g = true ->
  Task.take_forever_ok float E = true -> Task.take_forever_ok float E' = true ->
  exists (g1 g2 : Task.globals float) (r1 r2 : LogApi.reply) (active : bool),
    LogApi.log_toggle_handler float E req g = Some (r1, g1) /\
    r1 = LogApi.mkReply ESP_OK (bs "application/json")
           (bs "{" ++ LogApi.quote ++ bs "status" ++ LogApi.quote ++ bs ":"
            ++ LogApi.quote ++ bs "ok" ++ LogApi.quote ++ bs "}") /\
    Task.card float g1 = Task.card float g /\
    LogApi.log_status_get_handler float E' g1 = Some (r2, g2) /\
    r2 = LogApi.mkReply ESP_OK (bs "application/json") (LogApi.status_body active) /\
    Task.logging_active float g2 = active /\
    (forall query val,
       LogApi.url_query req = Some query -> (length query < 16)%nat ->
       LogApi.active_param req = Some val -> (length val < 4)%nat ->
       (active = true <-> cstr val = bs "1")) /\
    (LogApi.url_query req = None \/
     (exists query, LogApi.url_query req = Some query /\ (16 <= length query)%nat) \/
     LogApi.active_param req = None \/
     (exists val, LogApi.active_param req = Some val /\ (4 <= length val)%nat) ->
     active = Task.logging_active float g).
Proof.
  intros Hm Ht Ht'. destruct g as [s m a lv bits tr].
  cbn [Task.logging_mutex] in Hm. subst m.
  assert (Same : exists (g1 g2 : Task.globals float) (r2 : LogApi.reply),
             g1 = Task.mkGlobals float s true a lv bits tr /\
             LogApi.log_status_get_handler float E' g1 = Some (r2, g2) /\
             r2 = LogApi.mkReply ESP_OK (bs "application/json") (LogApi.status_body a) /\
             Task.logging_active float g2 = a).
  { eexists _, _, _. split; [reflexivity|].
    unfold LogApi.log_status_get_handler, Task.is_logging_enabled, Task.ensure_mutex.
    cbn [Task.logging_mutex]. rewrite Ht'. cbn [Task.logging_active].
    split; [reflexivity|]. split; [destruct a; reflexivity | reflexivity]. }
  destruct Same as (g1 & g2 & r2 & -> & Hst & Hr2 & Ha2).
  unfold LogApi.log_toggle_handler, LogApi.httpd_req_get_url_query_str,
    LogApi.httpd_query_key_value.
  destruct (LogApi.url_query req) as [query|] eqn:Q.
  - destruct (length query <? 16)%nat eqn:LQ.
    + destruct (LogApi.active_param req) as [val|] eqn:V.
      * destruct (length val <? 4)%nat eqn:LV.
        -- unfold Task.set_logging_active, Task.ensure_mutex.
           cbn [Task.logging_mutex]. rewrite Ht.
           unfold LogApi.log_status_get_handler, Task.is_logging_enabled,
             Task.ensure_mutex.
           cbn [Task.logging_mutex]. rewrite Ht'. cbn [Task.logging_active].
           do 4 eexists. exists (bytes_eqb (cstr val) (bs "1")).
           split; [reflexivity|]. split; [reflexivity|]. split; [reflexivity|].
           split; [reflexivity|].
           split; [destruct (bytes_eqb (cstr val) (bs "1")); reflexivity|].
           split; [reflexivity|]. split.
           ++ intros query' val' _ _ [= <-] _. apply bytes_eqb_eq.
           ++ apply Nat.ltb_lt in LQ, LV.
              intros [N | [(q' & [= <-] & N) | [N | (v' & [= <-] & N)]]];
                try discriminate N; lia.
        -- exists (Task.mkGlobals float s true a lv bits tr), g2. eexists _, r2. exists a.
           split; [reflexivity|]. split; [reflexivity|]. split; [reflexivity|].
           split; [exact Hst|]. split; [exact Hr2|]. split; [exact Ha2|]. split.
           ++ apply Nat.ltb_ge in LV. intros query' val' _ _ [= <-] N. lia.
           ++ intros _. reflexivity.
      * exists (Task.mkGlobals float s true a lv bits tr), g2. eexists _, r2. exists a.
        split; [reflexivity|]. split; [reflexivity|]. split; [reflexivity|].
        split; [exact Hst|]. split; [exact Hr2|]. split; [exact Ha2|]. split.
        -- intros query' val' _ _ N. discriminate N.
        -- intros _. reflexivity.
    + exists (Task.mkGlobals float s true a lv bits tr), g2. eexists _, r2. exists a.
      split; [reflexivity|]. split; [reflexivity|]. split; [reflexivity|].
      split; [exact Hst|]. split; [exact Hr2|]. split; [exact Ha2|]. split.
      * apply Nat.ltb_ge in LQ. intros query' val' [= <-] N. lia.
      * intros _. reflexivity.
  - exists (Task.mkGlobals float s true a lv bits tr), g2. eexists _, r2. exists a.
    split; [reflexivity|]. split; [reflexivity|]. split; [reflexivity|].
    split; [exact Hst|]. split; [exact Hr2|]. split; [exact Ha2|]. split.
    + intros query' val' N. discriminate N.
    + intros _. reflexivity.
Qed.

End LogApiFacts.

Lemma log_toggle_then_status_witness :
  (exists g1 g2 r1 r2,
     LogApi.log_toggle_handler Z (example_task_env 1) example_log_request
       (example_task_globals false) = Some (r1, g1) /\
     LogApi.log_status_get_handler Z (example_task_env 2) g1 = Some (r2, g2) /\
     LogApi.body r2 = LogApi.status_body true) /\
  (exists g1 g2 r1 r2,
     LogApi.log_toggle_handler Z (example_task_env 1) example_log_request_true
       (example_task_globals true) = Some (r1, g1) /\
     LogApi.log_status_get_handler Z (example_task_env 2) g1 = Some (r2, g2) /\
     LogApi.body r2 = LogApi.status_body true).
Proof.
  split.
  - destruct (log_toggle_then_status Z (example_task_env 1) (example_task_env 2)
                example_log_request (example_task_globals false)
                eq_refl eq_refl eq_refl)
      as (g1 & g2 & r1 & r2 & active & H1 & _ & _ & H2 & Hr & _ & Hiff & _).
    exists g1, g2, r1, r2. split; [exact H1|]. split; [exact H2|].
    rewrite Hr. cbn [LogApi.body].
    assert (A : active = true).
    { apply (Hiff (bs "active=1") (bs "1") eq_refl ltac:(cbn; lia) eq_refl ltac:(cbn; lia)).
      reflexivity. }
    rewrite A. reflexivity.
  - destruct (log_toggle_then_status Z (example_task_env 1) (example_task_env 2)
                example_log_request_true (example_task_globals true)
                eq_refl eq_refl eq_refl)
      as (g1 & g2 & r1 & r2 & active & H1 & _ & _ & H2 & Hr & _ & _ & Hkeep).
    exists g1, g2, r1, r2. split; [exact H1|]. split; [exact H2|].
    rewrite Hr. cbn [LogApi.body].
    assert (A : active = true).
    { apply Hkeep. right. right. right. exists (bs "true").
      split; [reflexivity | cbn; lia]. }
    rewrite A. reflexivity.
Defined.
